(** * CloudCradle: quota bookkeeping, configuration planning and the
      Terraform reconciliation driver of [setup_oci_terraform.py]

    A shallow embedding of the Python functions

      - [calculate_available_resources]            (quota calculator)
      - [load_existing_config], [configure_from_existing_instances],
        [configure_custom_instances], [configure_maximum_free_tier]
                                                   (configuration planner)
      - [retry_with_backoff], [run_cmd_with_retries_and_check],
        [out_of_capacity_auto_apply]               (retry / backoff)
      - [import_existing_resources], [import_vcn_components]
                                                   (state import)

    Conventions.  Python [int] is [Z].  Python [str] is [string]; the text
    operations ([lower], [strip], [in], the regular expressions) are
    modelled on ASCII text.  A Python [dict] is an association list in
    insertion order, as [dict] iterates.  The process-global variables
    ([instance_config], the [existing_*] inventories, [oci_config]) are
    passed explicitly.  External programs, the clock and the console are
    a deterministic environment and an event trace. *)

From Stdlib Require Import ZArith List Ascii String Lia Bool.
From stdpp Require Import base option list strings gmap pretty.

Local Open Scope string_scope.
Local Open Scope Z_scope.

(** ** Python built-ins used by the program *)

Module Py.

(** [sum(xs)]: a left fold that starts from [0]. *)
Definition sum (xs : list Z) : Z := fold_left Z.add xs 0.

(** [range(lo, hi)]. *)
Definition range (lo hi : Z) : list Z :=
  map (fun k => lo + Z.of_nat k) (seq 0 (Z.to_nat (hi - lo))).

(** [[x] * n]. *)
Definition repeat {A} (x : A) (n : nat) : list A := List.repeat x n.

(** Truth value of a [str]: non-empty. *)
Definition truthy (s : string) : bool :=
  match s with EmptyString => false | String _ _ => true end.

(** [a or b] on strings. *)
Definition or_else (a b : string) : string := if truthy a then a else b.

Definition is_upper (c : ascii) : bool :=
  let n := nat_of_ascii c in (Nat.leb 65 n && Nat.leb n 90)%bool.

Definition lower_char (c : ascii) : ascii :=
  if is_upper c then ascii_of_nat (nat_of_ascii c + 32) else c.

(** [s.lower()]. *)
Fixpoint lower (s : string) : string :=
  match s with
  | EmptyString => EmptyString
  | String c r => String (lower_char c) (lower r)
  end.

(** [s.startswith(p)], returning the rest of [s] after [p]. *)
Fixpoint strip_prefix (p s : string) : option string :=
  match p with
  | EmptyString => Some s
  | String a p' =>
      match s with
      | EmptyString => None
      | String b s' => if Ascii.eqb a b then strip_prefix p' s' else None
      end
  end.

(** [t in s]: substring test. *)
Fixpoint contains (t s : string) : bool :=
  match strip_prefix t s with
  | Some _ => true
  | None =>
      match s with
      | EmptyString => false
      | String _ r => contains t r
      end
  end.

(** [any(p(x) for x in xs)]. *)
Definition any {A} (p : A -> bool) (xs : list A) : bool := existsb p xs.

(** [str.isspace] on one ASCII character; the class [\s] of [re] is
    the same set. *)
Definition is_space (c : ascii) : bool :=
  let n := nat_of_ascii c in
  ((Nat.leb 9 n && Nat.leb n 13) || (Nat.leb 28 n && Nat.leb n 32))%bool.

Definition is_digit (c : ascii) : bool :=
  let n := nat_of_ascii c in (Nat.leb 48 n && Nat.leb n 57)%bool.

Fixpoint lstrip_by (p : ascii -> bool) (s : string) : string :=
  match s with
  | EmptyString => EmptyString
  | String c r => if p c then lstrip_by p r else s
  end.

Fixpoint rev_string (acc s : string) : string :=
  match s with
  | EmptyString => acc
  | String c r => rev_string (String c acc) r
  end.

Definition rstrip_by (p : ascii -> bool) (s : string) : string :=
  rev_string "" (lstrip_by p (rev_string "" s)).

(** [s.strip()] and [s.strip(ch)]. *)
Definition strip_by (p : ascii -> bool) (s : string) : string :=
  rstrip_by p (lstrip_by p s).
Definition strip (s : string) : string := strip_by is_space s.
Definition strip_char (ch : ascii) (s : string) : string :=
  strip_by (Ascii.eqb ch) s.

(** [s.isdigit()]: non-empty and every character a digit. *)
Fixpoint all_digits (s : string) : bool :=
  match s with
  | EmptyString => true
  | String c r => (is_digit c && all_digits r)%bool
  end.
Definition isdigit (s : string) : bool := (truthy s && all_digits s)%bool.

(** [int(s)] on a string of decimal digits. *)
Fixpoint int_acc (acc : Z) (s : string) : Z :=
  match s with
  | EmptyString => acc
  | String c r => int_acc (10 * acc + Z.of_nat (nat_of_ascii c - 48)) r
  end.
Definition int (s : string) : Z := int_acc 0 s.

(** [s.split(sep)] for a one-character separator: always at least one
    piece. *)
Fixpoint split_acc (sep : ascii) (cur : string) (s : string) : list string :=
  match s with
  | EmptyString => [rev_string "" cur]
  | String c r =>
      if Ascii.eqb c sep then rev_string "" cur :: split_acc sep "" r
      else split_acc sep (String c cur) r
  end.
Definition split (sep : ascii) (s : string) : list string := split_acc sep "" s.

(** The longest prefix whose characters satisfy [p], and the rest. *)
Fixpoint span (p : ascii -> bool) (s : string) : string * string :=
  match s with
  | EmptyString => ("", "")
  | String c r =>
      if p c then let '(a, b) := span p r in (String c a, b) else ("", s)
  end.

End Py.

(** ** Constants *)

Definition FREE_TIER_MAX_AMD_INSTANCES : Z := 2.
Definition FREE_TIER_MAX_ARM_OCPUS : Z := 4.
Definition FREE_TIER_MAX_ARM_MEMORY_GB : Z := 24.
Definition FREE_TIER_MAX_STORAGE_GB : Z := 200.
Definition FREE_TIER_MIN_BOOT_VOLUME_GB : Z := 47.
Definition FREE_TIER_MAX_ARM_INSTANCES : Z := 4.
Definition FREE_TIER_MAX_VCNS : Z := 2.

(** ** Data structures *)

Record OciConfig := {
  tenancy_ocid : string;
  user_ocid : string;
  region : string;
  fingerprint : string;
  availability_domain : string;
  ubuntu_image_ocid : string;
  ubuntu_arm_flex_image_ocid : string;
  ssh_public_key : string;
  auth_method : string
}.

Record InstanceConfig := {
  amd_micro_instance_count : Z;
  amd_micro_boot_volume_size_gb : Z;
  arm_flex_instance_count : Z;
  arm_flex_ocpus_per_instance : list Z;
  arm_flex_memory_per_instance : list Z;
  arm_flex_boot_volume_size_gb : list Z;
  arm_flex_block_volumes : list Z;
  amd_micro_hostnames : list string;
  arm_flex_hostnames : list string
}.

(** The dataclass defaults: [InstanceConfig()]. *)
Definition InstanceConfig_default : InstanceConfig :=
  {| amd_micro_instance_count := 0;
     amd_micro_boot_volume_size_gb := 50;
     arm_flex_instance_count := 0;
     arm_flex_ocpus_per_instance := [];
     arm_flex_memory_per_instance := [];
     arm_flex_boot_volume_size_gb := [];
     arm_flex_block_volumes := [];
     amd_micro_hostnames := [];
     arm_flex_hostnames := [] |}.

(** [ExistingResource].  The fields [id], [name], [state] carry a prefix
    ([id] is the identity function here).  [additional_info] is a
    [Dict[str, Any]] whose keys have fixed types: the inventory scan
    stores numbers under "ocpus", "memory" and "size" and text under
    "shape", "public_ip", "private_ip", "cidr" and "vcn_id".  It is kept
    as one finite map per value type. *)
Record ExistingResource := {
  res_id : string;
  res_name : string;
  res_state : string;
  additional_info_num : gmap string Z;
  additional_info_str : gmap string string
}.

(** [r.additional_info.get(key, d)] for a numeric key. *)
Definition get_num (r : ExistingResource) (key : string) (d : Z) : Z :=
  default d (additional_info_num r !! key).

(** [r.additional_info.get(key)] for a textual key ([None] when absent). *)
Definition get_str (r : ExistingResource) (key : string) : option string :=
  additional_info_str r !! key.

(** A [Dict[str, ExistingResource]]: keys with their values in insertion
    order. *)
Definition ResourceDict : Type := list (string * ExistingResource).

Definition values (d : ResourceDict) : list ExistingResource := map snd d.
Definition keys (d : ResourceDict) : list string := map fst d.
Definition len (d : ResourceDict) : Z := Z.of_nat (length d).

(** The process-wide inventory state. *)
Record Inventory := {
  existing_vcns : ResourceDict;
  existing_subnets : ResourceDict;
  existing_internet_gateways : ResourceDict;
  existing_route_tables : ResourceDict;
  existing_security_lists : ResourceDict;
  existing_amd_instances : ResourceDict;
  existing_arm_instances : ResourceDict;
  existing_boot_volumes : ResourceDict;
  existing_block_volumes : ResourceDict
}.

(** ** Free Tier limit validation *)

(** The dictionary returned by [calculate_available_resources], one field
    per key. *)
Record Available := {
  amd_instances : Z;
  arm_ocpus : Z;
  arm_memory : Z;
  storage : Z;
  used_arm_instances : Z
}.

Definition calculate_available_resources (inv : Inventory) : Available :=
  let used_amd := len (existing_amd_instances inv) in
  let used_arm_ocpus :=
    Py.sum (map (fun inst => get_num inst "ocpus" 0)
                (values (existing_arm_instances inv))) in
  let used_arm_memory :=
    Py.sum (map (fun inst => get_num inst "memory" 0)
                (values (existing_arm_instances inv))) in
  let used_storage :=
    Py.sum (map (fun vol => get_num vol "size" 0)
                (values (existing_boot_volumes inv))) +
    Py.sum (map (fun vol => get_num vol "size" 0)
                (values (existing_block_volumes inv))) in
  {| amd_instances := FREE_TIER_MAX_AMD_INSTANCES - used_amd;
     arm_ocpus := FREE_TIER_MAX_ARM_OCPUS - used_arm_ocpus;
     arm_memory := FREE_TIER_MAX_ARM_MEMORY_GB - used_arm_memory;
     storage := FREE_TIER_MAX_STORAGE_GB - used_storage;
     used_arm_instances := len (existing_arm_instances inv) |}.

(** ** Configuration functions *)

(** *** Loading a saved configuration

    The regular expressions of [load_existing_config] have the two shapes
    [KEY\s*=\s*(\d+)] and [KEY\s*=\s*\[([^\]]+)\]].  In both, each greedy
    repetition is followed by a character outside its class, so the greedy
    run is the only candidate and matching never backtracks. *)

(** A match of [KEY\s*=\s*(\d+)] that starts at the head of [s]: group 1. *)
Definition match_number_at (key s : string) : option string :=
  match Py.strip_prefix key s with
  | None => None
  | Some r =>
      match Py.lstrip_by Py.is_space r with
      | String "="%char r2 =>
          let '(digits, _) := Py.span Py.is_digit (Py.lstrip_by Py.is_space r2) in
          if Py.truthy digits then Some digits else None
      | _ => None
      end
  end.

(** A match of [KEY\s*=\s*\[([^\]]+)\]] that starts at the head of [s]:
    group 1. *)
Definition match_array_at (key s : string) : option string :=
  match Py.strip_prefix key s with
  | None => None
  | Some r =>
      match Py.lstrip_by Py.is_space r with
      | String "="%char r2 =>
          match Py.lstrip_by Py.is_space r2 with
          | String "["%char r3 =>
              let '(body, rest) :=
                Py.span (fun c => negb (Ascii.eqb c "]"%char)) r3 in
              match rest with
              | String "]"%char _ => if Py.truthy body then Some body else None
              | _ => None
              end
          | _ => None
          end
      | _ => None
      end
  end.

(** [re.search]: the leftmost position of [content] where [m] matches. *)
Fixpoint re_search (m : string -> option string) (content : string)
  : option string :=
  match m content with
  | Some g => Some g
  | None =>
      match content with
      | EmptyString => None
      | String _ r => re_search m r
      end
  end.

(** [[int(x.strip()) for x in g.split(",") if x.strip().isdigit()]]. *)
Definition parse_int_list (g : string) : list Z :=
  map (fun x => Py.int (Py.strip x))
      (filter (fun x => Is_true (Py.isdigit (Py.strip x))) (Py.split "," g)).

(** The hostname comprehension: each piece of [g.split(",")] is stripped
    of white space, then of double quotes, then of single quotes. *)
Definition parse_hostnames (g : string) : list string :=
  map (fun x => Py.strip_char "'" (Py.strip_char "034" (Py.strip x)))
      (Py.split "," g).

(** [load_existing_config].  [variables_tf] is the text of the file
    [variables.tf], [None] when the file does not exist.  The result is
    the returned flag and the updated [instance_config]. *)
Definition load_existing_config (variables_tf : option string)
    (instance_config : InstanceConfig) : bool * InstanceConfig :=
  match variables_tf with
  | None => (false, instance_config)
  | Some content =>
      let amd_match :=
        re_search (match_number_at "amd_micro_instance_count") content in
      let boot_match :=
        re_search (match_number_at "amd_micro_boot_volume_size_gb") content in
      let arm_match :=
        re_search (match_number_at "arm_flex_instance_count") content in
      let ocpus_match :=
        re_search (match_array_at "arm_flex_ocpus_per_instance") content in
      let memory_match :=
        re_search (match_array_at "arm_flex_memory_per_instance") content in
      let arm_boot_match :=
        re_search (match_array_at "arm_flex_boot_volume_size_gb") content in
      let amd_hostnames_match :=
        re_search (match_array_at "amd_micro_hostnames") content in
      let arm_hostnames_match :=
        re_search (match_array_at "arm_flex_hostnames") content in
      (true,
       {| amd_micro_instance_count :=
            match amd_match with Some g => Py.int g | None => 0 end;
          amd_micro_boot_volume_size_gb :=
            match boot_match with Some g => Py.int g | None => 50 end;
          arm_flex_instance_count :=
            match arm_match with Some g => Py.int g | None => 0 end;
          arm_flex_ocpus_per_instance :=
            match ocpus_match with
            | Some g => parse_int_list g
            | None => arm_flex_ocpus_per_instance instance_config
            end;
          arm_flex_memory_per_instance :=
            match memory_match with
            | Some g => parse_int_list g
            | None => arm_flex_memory_per_instance instance_config
            end;
          arm_flex_boot_volume_size_gb :=
            match arm_boot_match with
            | Some g => parse_int_list g
            | None => arm_flex_boot_volume_size_gb instance_config
            end;
          arm_flex_block_volumes := arm_flex_block_volumes instance_config;
          amd_micro_hostnames :=
            match amd_hostnames_match with
            | Some g => parse_hostnames g
            | None => amd_micro_hostnames instance_config
            end;
          arm_flex_hostnames :=
            match arm_hostnames_match with
            | Some g => parse_hostnames g
            | None => arm_flex_hostnames instance_config
            end |})
  end.

(** *** Mirroring the existing instances

    Every field of [instance_config] is assigned, so the function returns
    the new record. *)
Definition configure_from_existing_instances (inv : Inventory) : InstanceConfig :=
  let amd_count := len (existing_amd_instances inv) in
  let arm_count := len (existing_arm_instances inv) in
  let arm := values (existing_arm_instances inv) in
  if ((amd_count =? 0) && (arm_count =? 0))%bool then
    {| amd_micro_instance_count := 0;
       amd_micro_boot_volume_size_gb := 50;
       arm_flex_instance_count := 1;
       arm_flex_ocpus_per_instance := [4];
       arm_flex_memory_per_instance := [24];
       arm_flex_boot_volume_size_gb := [200];
       arm_flex_block_volumes := [0];
       amd_micro_hostnames := map res_name (values (existing_amd_instances inv));
       arm_flex_hostnames := ["arm-instance-1"] |}
  else
    {| amd_micro_instance_count := amd_count;
       amd_micro_boot_volume_size_gb := 50;
       arm_flex_instance_count := arm_count;
       arm_flex_ocpus_per_instance := map (fun inst => get_num inst "ocpus" 0) arm;
       arm_flex_memory_per_instance := map (fun inst => get_num inst "memory" 0) arm;
       arm_flex_boot_volume_size_gb := Py.repeat 50 (length (existing_arm_instances inv));
       arm_flex_block_volumes := Py.repeat 0 (length (existing_arm_instances inv));
       amd_micro_hostnames := map res_name (values (existing_amd_instances inv));
       arm_flex_hostnames := map res_name arm |}.

(** *** Custom instances

    The user is a deterministic oracle: one optional answer per prompt,
    [None] for an empty input line, which accepts the prompt's default.
    Per-instance prompts are indexed by the instance number [i] that the
    prompt shows. *)
Record ArmAnswers := {
  ans_hostname : option string;
  ans_ocpus : option Z;
  ans_memory : option Z;
  ans_boot : option Z
}.

Record UserAnswers := {
  ans_amd_count : option Z;
  ans_amd_boot : option Z;
  ans_amd_hostname : Z -> option string;
  ans_arm_count : option Z;
  ans_arm : Z -> ArmAnswers
}.

(** [IntPrompt.ask(..., default=d)] and [Prompt.ask(..., default=d)]. *)
Definition ask {A} (d : A) (answer : option A) : A := default d answer.

(** The variables that the ARM loop of [configure_custom_instances]
    updates. *)
Record ArmLoop := {
  loop_hostnames : list string;
  loop_ocpus : list Z;
  loop_memory : list Z;
  loop_boot : list Z;
  loop_block : list Z;
  remaining_ocpus : Z;
  remaining_memory : Z
}.

(** One iteration of [for i in range(1, arm_flex_instance_count + 1)]. *)
Definition arm_loop_body (user : UserAnswers) (st : ArmLoop) (i : Z) : ArmLoop :=
  let answers := ans_arm user i in
  let hostname := ask ("arm-instance-" +:+ pretty i) (ans_hostname answers) in
  let ocpus := ask (remaining_ocpus st) (ans_ocpus answers) in
  let ocpus := Z.max 1 (Z.min ocpus (remaining_ocpus st)) in
  let remaining_ocpus' := remaining_ocpus st - ocpus in
  let max_memory := Z.min (ocpus * 6) (remaining_memory st) in
  let memory := ask max_memory (ans_memory answers) in
  let memory := Z.max 1 (Z.min memory max_memory) in
  let remaining_memory' := remaining_memory st - memory in
  let boot := ask 50 (ans_boot answers) in
  let boot := Z.max 50 (Z.min boot 200) in
  {| loop_hostnames := loop_hostnames st ++ [hostname];
     loop_ocpus := loop_ocpus st ++ [ocpus];
     loop_memory := loop_memory st ++ [memory];
     loop_boot := loop_boot st ++ [boot];
     loop_block := loop_block st ++ [0];
     remaining_ocpus := remaining_ocpus';
     remaining_memory := remaining_memory' |}.

Definition configure_custom_instances (oci_config : OciConfig)
    (inv : Inventory) (user : UserAnswers) : InstanceConfig :=
  let available := calculate_available_resources inv in
  (* AMD instances *)
  let amd_count := ask 0 (ans_amd_count user) in
  let amd_count := Z.max 0 (Z.min amd_count (amd_instances available)) in
  let amd_boot :=
    if 0 <? amd_count
    then Z.max 50 (Z.min (ask 50 (ans_amd_boot user)) 100)
    else 50 in
  let amd_hostnames :=
    if 0 <? amd_count
    then map (fun i => ask ("amd-instance-" +:+ pretty i) (ans_amd_hostname user i))
             (Py.range 1 (amd_count + 1))
    else [] in
  (* ARM instances *)
  if (Py.truthy (ubuntu_arm_flex_image_ocid oci_config)
      && (0 <? arm_ocpus available))%bool then
    let arm_count := ask 1 (ans_arm_count user) in
    let arm_count := Z.max 0 (Z.min arm_count 4) in
    let st :=
      fold_left (arm_loop_body user) (Py.range 1 (arm_count + 1))
        {| loop_hostnames := []; loop_ocpus := []; loop_memory := [];
           loop_boot := []; loop_block := [];
           remaining_ocpus := arm_ocpus available;
           remaining_memory := arm_memory available |} in
    {| amd_micro_instance_count := amd_count;
       amd_micro_boot_volume_size_gb := amd_boot;
       arm_flex_instance_count := arm_count;
       arm_flex_ocpus_per_instance := loop_ocpus st;
       arm_flex_memory_per_instance := loop_memory st;
       arm_flex_boot_volume_size_gb := loop_boot st;
       arm_flex_block_volumes := loop_block st;
       amd_micro_hostnames := amd_hostnames;
       arm_flex_hostnames := loop_hostnames st |}
  else
    {| amd_micro_instance_count := amd_count;
       amd_micro_boot_volume_size_gb := amd_boot;
       arm_flex_instance_count := 0;
       arm_flex_ocpus_per_instance := [];
       arm_flex_memory_per_instance := [];
       arm_flex_boot_volume_size_gb := [];
       arm_flex_block_volumes := [];
       amd_micro_hostnames := amd_hostnames;
       arm_flex_hostnames := [] |}.

(** *** Maximum Free Tier utilisation *)
Definition configure_maximum_free_tier (oci_config : OciConfig)
    (inv : Inventory) : InstanceConfig :=
  let available := calculate_available_resources inv in
  (* Use all available AMD instances *)
  let amd_count := amd_instances available in
  let amd_boot := 50 in
  let amd_hostnames :=
    map (fun i => "amd-instance-" +:+ pretty i) (Py.range 1 (amd_count + 1)) in
  (* Use all available ARM resources *)
  if (Py.truthy (ubuntu_arm_flex_image_ocid oci_config)
      && (0 <? arm_ocpus available))%bool then
    let used_by_amd := amd_count * amd_boot in
    let remaining_storage := storage available - used_by_amd in
    let remaining_storage :=
      if remaining_storage <? FREE_TIER_MIN_BOOT_VOLUME_GB
      then FREE_TIER_MIN_BOOT_VOLUME_GB else remaining_storage in
    {| amd_micro_instance_count := amd_count;
       amd_micro_boot_volume_size_gb := amd_boot;
       arm_flex_instance_count := 1;
       arm_flex_ocpus_per_instance := [arm_ocpus available];
       arm_flex_memory_per_instance := [arm_memory available];
       arm_flex_boot_volume_size_gb := [remaining_storage];
       arm_flex_block_volumes := [0];
       amd_micro_hostnames := amd_hostnames;
       arm_flex_hostnames := ["arm-instance-1"] |}
  else
    {| amd_micro_instance_count := amd_count;
       amd_micro_boot_volume_size_gb := amd_boot;
       arm_flex_instance_count := 0;
       arm_flex_ocpus_per_instance := [];
       arm_flex_memory_per_instance := [];
       arm_flex_boot_volume_size_gb := [];
       arm_flex_block_volumes := [];
       amd_micro_hostnames := amd_hostnames;
       arm_flex_hostnames := [] |}.

(** ** The outside world: commands, clock, console

    [subprocess.run] is an oracle: the outcome of a command is a function
    of everything that has happened so far.  Sleeping and printing are
    recorded on the same trace, newest event first. *)

Inductive Exn :=
| CalledProcessError (code : Z) (cmd : list string) (out err : string)
| TypeError       (* [raise None] *)
| ValueError      (* [time.sleep] of a negative duration *)
| OverflowError   (* [time.sleep] of a duration that does not fit 64-bit nanoseconds *)
| JSONDecodeError (* [json.loads] of a text that is not JSON *)
| RecursionError  (* [json.loads] of a text nested too deeply *)
| MarkupError     (* [console.print] of a text with a closing tag that closes nothing *)
| OSError (what : string).  (* raised by [subprocess.run] itself *)

Record CompletedProcess := {
  returncode : Z;
  stdout : string;
  stderr : string
}.

Inductive Level := Status | Success | Warning | Error.

(** The messages of the modelled functions, one constructor per format
    string, with the formatted values as arguments. *)
Inductive Msg :=
| MsgAttempt (attempt max_attempts : Z) (func_name : string)
| MsgCapacityDetected (attempt : Z)
| MsgCommandFailed (error_str : string)
| MsgRetrying (sleep_time : Z)
| MsgFailedAfter (max_attempts : Z)
| MsgAutoRetrying (max_attempts : Z)
| MsgApplyAttempt (attempt max_attempts : Z)
| MsgApplySucceeded
| MsgApplyCapacity
| MsgApplyNonRetryable
| MsgWaiting (sleep_time : Z)
| MsgApplyGaveUp (max_attempts : Z)
| MsgNothingToImport
| MsgInitializing
| MsgInitFailed (e : Exn)
| MsgImportingVcn (vcn_name : string)
| MsgImportingInstance (kind : string) (instance_name : string)
| MsgAlreadyInState
| MsgImported
| MsgImportFailed
| MsgImportedComponent (what : string)
| MsgImportComplete (imported failed : Z).

Inductive Event :=
| ECommand (cmd : list string) (outcome : Exn + CompletedProcess)
| ESleep (seconds : Z)
| EPrint (level : Level) (m : Msg)   (* [print_status] and its siblings *)
| EConsole (text : string)           (* [console.print(text)] *)
| EHeader (title : string)           (* [print_header(title)] *)
| EBlank.                            (* [print()] *)

Definition Trace : Type := list Event.

(** How a Python call ends. *)
Inductive Result (A : Type) :=
| Return (a : A)
| Raise (e : Exn).
Arguments Return {A} a.
Arguments Raise {A} e.

(** Computations: a state [S] for the local variables a closure shares
    with its caller, the trace, and [None] for a loop that is cut off
    before it ends.  An exception keeps the state and the trace. *)
Definition M (S A : Type) : Type := S -> Trace -> option (Result A * S * Trace).

#[export] Instance M_ret {S} : MRet (M S) :=
  fun A (a : A) s t => Some (Return a, s, t).

#[export] Instance M_bind {S} : MBind (M S) :=
  fun A B (k : A -> M S B) (m : M S A) s t =>
    match m s t with
    | None => None
    | Some (Return a, s', t') => k a s' t'
    | Some (Raise e, s', t') => Some (Raise e, s', t')
    end.

Definition raise {S A} (e : Exn) : M S A := fun s t => Some (Raise e, s, t).

Definition cut_off {S A} : M S A := fun _ _ => None.

Definition emit {S} (ev : Event) : M S unit := fun s t => Some (Return tt, s, ev :: t).

Definition get_state {S} : M S S := fun s t => Some (Return s, s, t).
Definition put_state {S} (s' : S) : M S unit := fun _ t => Some (Return tt, s', t).

(** [try: x = body; ... except Exception as e: ...]: only [body] is
    guarded. *)
Definition try_except {S A B} (body : M S A) (on_return : A -> M S B)
    (on_except : Exn -> M S B) : M S B :=
  fun s t =>
    match body s t with
    | None => None
    | Some (Return a, s', t') => on_return a s' t'
    | Some (Raise e, s', t') => on_except e s' t'
    end.

(** Running a closure whose [nonlocal] variables start as [init]; the
    continuation receives how it ended and the final value of the
    variables. *)
Definition with_nonlocal {S S' A B} (init : S') (body : M S' A)
    (k : Result A -> S' -> M S B) : M S B :=
  fun s t =>
    match body init t with
    | None => None
    | Some (r, s', t') => k r s' s t'
    end.

Definition print_status {S} (m : Msg) : M S unit := emit (EPrint Status m).
Definition print_success {S} (m : Msg) : M S unit := emit (EPrint Success m).
Definition print_warning {S} (m : Msg) : M S unit := emit (EPrint Warning m).
Definition print_error {S} (m : Msg) : M S unit := emit (EPrint Error m).
Definition print_header {S} (title : string) : M S unit := emit (EHeader title).
Definition print_blank {S} : M S unit := emit EBlank.

(** [console.print(text)] of a text that the program wrote itself, and
    [console.print_json(text)]: the text reaches the console. *)
Definition console_print {S} (text : string) : M S unit := emit (EConsole text).

(** [console.print(text)] of the output of a command.  The console reads
    its argument as markup and raises [MarkupError] for a closing tag that
    matches no open tag, as in ["[/red]"]; [markup_ok] tells whether it
    accepts a text. *)
Definition console_print_output {S} (markup_ok : string -> bool) (text : string)
  : M S unit :=
  if markup_ok text then emit (EConsole text) else raise MarkupError.

(** The longest sleep in seconds that fits the 64-bit count of
    nanoseconds of the clock. *)
Definition MAX_SLEEP : Z := 9223372036.

(** What [time.sleep(seconds)] raises for an integer before it turns to
    the operating system: the seconds are converted to nanoseconds first,
    which overflows beyond [MAX_SLEEP] on either side of zero, and a
    negative duration is refused after that. *)
Definition sleep_refused (seconds : Z) : option Exn :=
  if (seconds <? - MAX_SLEEP) || (MAX_SLEEP <? seconds) then Some OverflowError
  else if seconds <? 0 then Some ValueError
  else None.

(** The four capacity markers, tested on the lower-cased text.  The source
    writes this test out in [retry_with_backoff], in
    [run_cmd_with_retries_and_check] and in [out_of_capacity_auto_apply]. *)
Definition capacity_terms : list string :=
  ["out of capacity"; "out of host capacity"; "outofcapacity"; "outofhostcapacity"].

Definition mentions_capacity (text : string) : bool :=
  Py.any (fun term => Py.contains term (Py.lower text)) capacity_terms.

Section Driver.

(** [subprocess.run(cmd, capture_output=True, text=True)] after the
    events [history]. *)
Variable env : Trace -> list string -> Exn + CompletedProcess.

(** [str(e)] of an exception. *)
Variable exn_str : Exn -> string.

(** What the operating system answers, after the events [history], to a
    sleep that [time.sleep] hands on to it: [None] when the time passes,
    else the exception raised (Linux refuses a deadline beyond the range
    of its clock with [OSError]). *)
Variable clock : Trace -> Z -> option Exn.

(** What [json.loads] raises on a text: [None] for a text it parses,
    [JSONDecodeError] for a text that is not JSON, and another exception
    where the parser gives up ([RecursionError] on deep nesting,
    [ValueError] on a number with too many digits). *)
Variable json_loads : string -> option Exn.

(** Whether the console accepts a text as markup. *)
Variable markup_ok : string -> bool.

(** The settings read from the process environment at start-up. *)
Variable RETRY_MAX_ATTEMPTS : Z.
Variable RETRY_BASE_DELAY : Z.

(** What [time.sleep(seconds)] raises after the events [history]; [None]
    when it returns. *)
Definition sleep_error (history : Trace) (seconds : Z) : option Exn :=
  match sleep_refused seconds with
  | Some e => Some e
  | None => clock history seconds
  end.

(** [time.sleep(seconds)]. *)
Definition sleep {S} (seconds : Z) : M S unit :=
  fun s t =>
    match sleep_error t seconds with
    | Some e => Some (Raise e, s, t)
    | None => Some (Return tt, s, ESleep seconds :: t)
    end.

(** [run_command(cmd, check=False)]. *)
Definition run_command {S} (cmd : list string) : M S CompletedProcess :=
  fun s t =>
    match env t cmd with
    | inl e => Some (Raise e, s, ECommand cmd (inl e) :: t)
    | inr r => Some (Return r, s, ECommand cmd (inr r) :: t)
    end.

(** [raise last_error]. *)
Definition raise_last {S A} (last_error : option Exn) : M S A :=
  match last_error with
  | Some e => raise e
  | None => raise TypeError
  end.

(** The [while attempt <= max_attempts] loop of [retry_with_backoff]
    together with the two statements after it, which both ways out of
    the loop reach.  [fuel] bounds the number of iterations. *)
Fixpoint retry_loop {S A} (fuel : nat) (func_name : string) (func : M S A)
    (max_attempts base_delay attempt : Z) (last_error : option Exn) : M S A :=
  if attempt <=? max_attempts then
    match fuel with
    | O => cut_off
    | Datatypes.S fuel' =>
        print_status (MsgAttempt attempt max_attempts func_name);;
        try_except func
          (fun result => mret result)
          (fun e =>
             let error_str := exn_str e in
             (if mentions_capacity error_str
              then print_warning (MsgCapacityDetected attempt)
              else print_warning (MsgCommandFailed error_str));;
             let last_error := Some e in
             if attempt <? max_attempts then
               let sleep_time := base_delay * 2 ^ (attempt - 1) in
               print_status (MsgRetrying sleep_time);;
               sleep sleep_time;;
               retry_loop fuel' func_name func max_attempts base_delay
                 (attempt + 1) last_error
             else
               print_error (MsgFailedAfter max_attempts);;
               raise_last last_error)
    end
  else
    print_error (MsgFailedAfter max_attempts);;
    raise_last last_error.

(** [retry_with_backoff(func, max_attempts=..., base_delay=...)]. *)
Definition retry_with_backoff {S A} (func_name : string) (func : M S A)
    (max_attempts base_delay : Z) : M S A :=
  retry_loop (Z.to_nat max_attempts) func_name func max_attempts base_delay 1 None.

(** The closure [_run] of [run_cmd_with_retries_and_check]; its state is
    the [nonlocal] flag [out_of_capacity_detected]. *)
Definition _run (cmd : list string) : M bool string :=
  result ← run_command cmd;
  if negb (returncode result =? 0) then
    let error_output := Py.or_else (stderr result) (Py.or_else (stdout result) "") in
    (if mentions_capacity error_output then put_state true else mret tt);;
    raise (CalledProcessError (returncode result) cmd (stdout result) (stderr result))
  else mret (stdout result).

Definition run_cmd_with_retries_and_check {S} (cmd : list string) : M S (bool * bool) :=
  with_nonlocal false
    (retry_with_backoff "_run" (_run cmd) RETRY_MAX_ATTEMPTS RETRY_BASE_DELAY)
    (fun r out_of_capacity_detected =>
       match r with
       | Return output =>
           match json_loads output with
           | None => mret (true, out_of_capacity_detected)
           | Some JSONDecodeError =>
               mret (negb (String.eqb (Py.strip output) ""), out_of_capacity_detected)
           | Some _ =>
               (* the outer [except Exception] *)
               mret (false, out_of_capacity_detected)
           end
       | Raise _ => mret (false, out_of_capacity_detected)
       end).

(** *** Terraform import and state management *)

(** One of the four loops of [import_vcn_components]: the first entry
    that [matches] is checked against the state and imported when
    absent; the loop then breaks. *)
Fixpoint import_component {S} (items : ResourceDict)
    (matches : ExistingResource -> bool) (address what : string) : M S unit :=
  match items with
  | [] => mret tt
  | (component_id, component) :: rest =>
      if matches component then
        result ← run_command ["terraform"; "state"; "show"; address];
        if negb (returncode result =? 0) then
          result ← run_command ["terraform"; "import"; address; component_id];
          if returncode result =? 0
          then print_status (MsgImportedComponent what)
          else mret tt
        else mret tt
      else import_component rest matches address what
  end.

Definition in_vcn (vcn_id : string) (r : ExistingResource) : bool :=
  bool_decide (get_str r "vcn_id" = Some vcn_id).

Definition named_default (r : ExistingResource) : bool :=
  (Py.contains "Default" (res_name r) || Py.contains "default" (res_name r))%bool.

Definition import_vcn_components {S} (inv : Inventory) (vcn_id : string) : M S unit :=
  import_component (existing_internet_gateways inv) (in_vcn vcn_id)
    "oci_core_internet_gateway.main" "Internet Gateway";;
  import_component (existing_subnets inv) (in_vcn vcn_id)
    "oci_core_subnet.main" "Subnet";;
  import_component (existing_route_tables inv)
    (fun rt => (in_vcn vcn_id rt && named_default rt)%bool)
    "oci_core_default_route_table.main" "Route Table";;
  import_component (existing_security_lists inv)
    (fun sl => (in_vcn vcn_id sl && named_default sl)%bool)
    "oci_core_default_security_list.main" "Security List".

(** The closure [_init] of [import_existing_resources].  The exception
    carries the command as the text [terraform init] and no output. *)
Definition _init {S} : M S CompletedProcess :=
  result ← run_command ["terraform"; "init"; "-input=false"];
  if negb (returncode result =? 0)
  then raise (CalledProcessError (returncode result) ["terraform init"] "" "")
  else mret result.

(** The logical address [oci_core_instance.KIND[INDEX]]. *)
Definition instance_address (kind : string) (index : Z) : string :=
  "oci_core_instance." +:+ kind +:+ "[" +:+ pretty index +:+ "]".

(** The AMD and the ARM loop of [import_existing_resources], which
    differ in [kind] ("amd" or "arm"), in the label of the message and
    in the count of [instance_config] they stop at.  The loop variables
    are the index and the two counters. *)
Fixpoint import_instances {S} (kind label : string) (items : ResourceDict)
    (count index imported failed : Z) : M S (Z * Z) :=
  match items with
  | [] => mret (imported, failed)
  | (instance_id, instance) :: rest =>
      if count <=? index then mret (imported, failed)
      else
        print_status (MsgImportingInstance label (res_name instance));;
        result ← run_command
          ["terraform"; "state"; "show"; instance_address kind index];
        if returncode result =? 0 then
          print_status MsgAlreadyInState;;
          import_instances kind label rest count (index + 1) imported failed
        else
          '(success, _) ← run_cmd_with_retries_and_check
            ["terraform"; "import"; instance_address kind index; instance_id];
          if success : bool then
            print_success MsgImported;;
            import_instances kind label rest count (index + 1) (imported + 1) failed
          else
            print_warning MsgImportFailed;;
            import_instances kind label rest count (index + 1) imported (failed + 1)
  end.

(** The VCN block of [import_existing_resources]; the result is the pair
    of counters after it. *)
Definition import_vcn {S} (inv : Inventory) : M S (Z * Z) :=
  match existing_vcns inv with
  | [] => mret (0, 0)
  | (first_vcn_id, first_vcn) :: _ =>
      let vcn_name := res_name first_vcn in
      print_status (MsgImportingVcn vcn_name);;
      result ← run_command ["terraform"; "state"; "show"; "oci_core_vcn.main"];
      if returncode result =? 0 then
        print_status MsgAlreadyInState;;
        mret (0, 0)
      else
        '(success, _) ← run_cmd_with_retries_and_check
          ["terraform"; "import"; "oci_core_vcn.main"; first_vcn_id];
        if success : bool then
          print_success MsgImported;;
          import_vcn_components inv first_vcn_id;;
          mret (1, 0)
        else
          print_warning MsgImportFailed;;
          mret (0, 1)
  end.

Definition is_empty (d : ResourceDict) : bool :=
  match d with [] => true | _ :: _ => false end.

Definition import_existing_resources {S} (inv : Inventory)
    (instance_config : InstanceConfig) : M S bool :=
  print_header "IMPORTING EXISTING RESOURCES";;
  if (is_empty (existing_vcns inv) && is_empty (existing_amd_instances inv)
      && is_empty (existing_arm_instances inv))%bool then
    print_status MsgNothingToImport;;
    mret true
  else
    print_status MsgInitializing;;
    try_except
      (retry_with_backoff "_init" _init RETRY_MAX_ATTEMPTS RETRY_BASE_DELAY)
      (fun _ =>
         '(imported, failed) ← import_vcn inv;
         '(imported, failed) ← import_instances "amd" "AMD"
            (existing_amd_instances inv)
            (amd_micro_instance_count instance_config) 0 imported failed;
         '(imported, failed) ← import_instances "arm" "ARM"
            (existing_arm_instances inv)
            (arm_flex_instance_count instance_config) 0 imported failed;
         print_blank;;
         print_success (MsgImportComplete imported failed);;
         mret true)
      (fun e =>
         print_error (MsgInitFailed e);;
         mret false).

(** *** Terraform workflow *)

(** The [while attempt <= RETRY_MAX_ATTEMPTS] loop of
    [out_of_capacity_auto_apply] together with the two statements after
    it.  [fuel] bounds the number of iterations. *)
Fixpoint apply_loop {S} (fuel : nat) (attempt : Z) : M S bool :=
  if attempt <=? RETRY_MAX_ATTEMPTS then
    match fuel with
    | O => cut_off
    | Datatypes.S fuel' =>
        print_status (MsgApplyAttempt attempt RETRY_MAX_ATTEMPTS);;
        result ← run_command ["terraform"; "apply"; "-input=false"; "tfplan"];
        if returncode result =? 0 then
          print_success MsgApplySucceeded;;
          mret true
        else
          let output := stdout result +:+ stderr result in
          if mentions_capacity output then
            print_warning MsgApplyCapacity;;
            if attempt <? RETRY_MAX_ATTEMPTS then
              let sleep_time := RETRY_BASE_DELAY * 2 ^ (attempt - 1) in
              print_status (MsgWaiting sleep_time);;
              sleep sleep_time;;
              apply_loop fuel' (attempt + 1)
            else
              print_error (MsgApplyGaveUp RETRY_MAX_ATTEMPTS);;
              mret false
          else
            print_error MsgApplyNonRetryable;;
            console_print_output markup_ok output;;
            mret false
    end
  else
    print_error (MsgApplyGaveUp RETRY_MAX_ATTEMPTS);;
    mret false.

Definition out_of_capacity_auto_apply {S} : M S bool :=
  print_status (MsgAutoRetrying RETRY_MAX_ATTEMPTS);;
  apply_loop (Z.to_nat RETRY_MAX_ATTEMPTS) 1.

End Driver.

(** ** Vocabulary of the statements *)

(** The amount of attribute [key] held by the resources of a dictionary. *)
Fixpoint total_of (key : string) (rs : list ExistingResource) : Z :=
  match rs with
  | [] => 0
  | r :: rs' => get_num r key 0 + total_of key rs'
  end.

(** The parallel-array invariant of the ARM part of a plan. *)
Definition arm_arrays_parallel (cfg : InstanceConfig) : Prop :=
  Z.of_nat (length (arm_flex_ocpus_per_instance cfg)) = arm_flex_instance_count cfg /\
  Z.of_nat (length (arm_flex_memory_per_instance cfg)) = arm_flex_instance_count cfg /\
  Z.of_nat (length (arm_flex_boot_volume_size_gb cfg)) = arm_flex_instance_count cfg /\
  Z.of_nat (length (arm_flex_hostnames cfg)) = arm_flex_instance_count cfg.

(** The OCPU clamp of the custom planner. *)
Definition clamp_ocpus (requested remaining : Z) : Z :=
  Z.max 1 (Z.min requested remaining).


(** ** Example data *)

Definition resource (rid rname : string) (nums : gmap string Z)
    (strs : gmap string string) : string * ExistingResource :=
  (rid, {| res_id := rid; res_name := rname; res_state := "AVAILABLE";
           additional_info_num := nums; additional_info_str := strs |}).

Definition empty_inventory : Inventory :=
  {| existing_vcns := []; existing_subnets := [];
     existing_internet_gateways := []; existing_route_tables := [];
     existing_security_lists := []; existing_amd_instances := [];
     existing_arm_instances := []; existing_boot_volumes := [];
     existing_block_volumes := [] |}.

(** A tenancy that already runs three AMD micro instances. *)
Definition three_amd_inventory : Inventory :=
  {| existing_vcns := []; existing_subnets := [];
     existing_internet_gateways := []; existing_route_tables := [];
     existing_security_lists := [];
     existing_amd_instances :=
       [resource "ocid1.instance.a" "web-1" ∅ {["shape" := "VM.Standard.E2.1.Micro"]};
        resource "ocid1.instance.b" "web-2" ∅ {["shape" := "VM.Standard.E2.1.Micro"]};
        resource "ocid1.instance.c" "web-3" ∅ {["shape" := "VM.Standard.E2.1.Micro"]}];
     existing_arm_instances := []; existing_boot_volumes := [];
     existing_block_volumes := [] |}.

Definition example_oci_config : OciConfig :=
  {| tenancy_ocid := "ocid1.tenancy.x"; user_ocid := "ocid1.user.x";
     region := "eu-frankfurt-1"; fingerprint := "";
     availability_domain := "AD-1"; ubuntu_image_ocid := "ocid1.image.x86";
     ubuntu_arm_flex_image_ocid := "ocid1.image.arm"; ssh_public_key := "";
     auth_method := "security_token" |}.

Definition no_arm_answers : ArmAnswers :=
  {| ans_hostname := None; ans_ocpus := None; ans_memory := None; ans_boot := None |}.

(** A user who asks for two ARM instances and accepts every default. *)
Definition two_arm_defaults : UserAnswers :=
  {| ans_amd_count := None; ans_amd_boot := None;
     ans_amd_hostname := fun _ => None;
     ans_arm_count := Some 2;
     ans_arm := fun _ => no_arm_answers |}.

(** A user who asks for two ARM instances, 3 OCPUs for the first, and
    accepts every other default. *)
Definition two_arm_three_then_default : UserAnswers :=
  {| ans_amd_count := None; ans_amd_boot := None;
     ans_amd_hostname := fun _ => None;
     ans_arm_count := Some 2;
     ans_arm := fun i =>
       if i =? 1
       then {| ans_hostname := None; ans_ocpus := Some 3;
               ans_memory := None; ans_boot := None |}
       else no_arm_answers |}.

Definition newline : string := String "010" "".

(** A saved file whose ARM count and OCPU array disagree. *)
Definition inconsistent_variables_tf : string :=
  "locals {" +:+ newline +:+
  "  arm_flex_instance_count       = 2" +:+ newline +:+
  "  arm_flex_ocpus_per_instance   = [4]" +:+ newline +:+
  "}" +:+ newline.

(** A saved file with one ARM instance, as [create_terraform_variables]
    lays it out. *)
Definition consistent_variables_tf : string :=
  "locals {" +:+ newline +:+
  "  amd_micro_instance_count      = 0" +:+ newline +:+
  "  amd_micro_boot_volume_size_gb = 50" +:+ newline +:+
  "  amd_micro_hostnames           = []" +:+ newline +:+
  "  arm_flex_instance_count       = 1" +:+ newline +:+
  "  arm_flex_ocpus_per_instance   = [4]" +:+ newline +:+
  "  arm_flex_memory_per_instance  = [24]" +:+ newline +:+
  "  arm_flex_boot_volume_size_gb  = [200]" +:+ newline +:+
  "  arm_flex_hostnames            = [" +:+ String "034" "arm-instance-1"
    +:+ String "034" "]" +:+ newline +:+
  "}" +:+ newline.

(** ** Vocabulary of the statements about traces *)

(** The retry protocol seen from outside: attempts and sleeps. *)
Inductive Step :=
| Attempt (n : Z)
| Sleep (seconds : Z).

Definition step_of (ev : Event) : option Step :=
  match ev with
  | EPrint Status (MsgAttempt n _ _) => Some (Attempt n)
  | EPrint Status (MsgApplyAttempt n _) => Some (Attempt n)
  | ESleep d => Some (Sleep d)
  | _ => None
  end.

(** The attempts and sleeps of a list of events (newest first), in the
    order in which they happened. *)
Definition schedule (evs : list Event) : list Step := omap step_of (rev evs).

(** Attempt [n], then [retries] times a sleep of [base * 2^(k-1)] after
    attempt [k] followed by attempt [k + 1]. *)
Fixpoint backoff_schedule (base n : Z) (retries : nat) : list Step :=
  Attempt n ::
  match retries with
  | O => []
  | S r => Sleep (base * 2 ^ (n - 1)) :: backoff_schedule base (n + 1) r
  end.

Definition attempt_numbers (steps : list Step) : list Z :=
  omap (fun st => match st with Attempt n => Some n | Sleep _ => None end) steps.

Definition is_command (ev : Event) : Prop :=
  match ev with ECommand _ _ => True | _ => False end.

(** A function that ends on every input and whose only effect on the
    outside world is to run commands. *)
Definition commands_only {S A} (func : M S A) : Prop :=
  forall s t, exists res s' evs,
    func s t = Some (res, s', (evs ++ t)%list) /\ Forall is_command evs.

(** A function that, in addition, raises on every call. *)
Definition always_raises {S A} (func : M S A) : Prop :=
  forall s t, exists e s' evs,
    func s t = Some (Raise e, s', (evs ++ t)%list) /\ Forall is_command evs.

Definition apply_cmd : list string := ["terraform"; "apply"; "-input=false"; "tfplan"].

(** An environment in which [terraform apply] fails for lack of capacity
    whenever it is run. *)
Definition always_out_of_capacity
    (env : Trace -> list string -> Exn + CompletedProcess) : Prop :=
  forall t, exists r,
    env t apply_cmd = inr r /\ returncode r <> 0 /\
    mentions_capacity (stdout r +:+ stderr r) = true.

Definition failed (code : Z) (out err : string) : Exn + CompletedProcess :=
  inr {| returncode := code; stdout := out; stderr := err |}.

Definition env_out_of_capacity : Trace -> list string -> Exn + CompletedProcess :=
  fun _ _ => failed 1 "" "Error: 500-InternalError, Out of host capacity.".

Definition env_invalid_shape : Trace -> list string -> Exn + CompletedProcess :=
  fun _ _ => failed 1 "" "Invalid parameter: shape".

(** [terraform apply] fails with a text that holds a closing tag. *)
Definition env_closing_tag : Trace -> list string -> Exn + CompletedProcess :=
  fun _ _ => failed 1 "" "Error: unexpected token [/red]".

(** An operating system that lets every sleep pass. *)
Definition clock_example : Trace -> Z -> option Exn := fun _ _ => None.

(** The console on the texts of the examples, none of which opens a tag:
    a text with a closing tag is refused. *)
Definition markup_example (text : string) : bool := negb (Py.contains "[/" text).

(** A parser for which no text of the examples is JSON. *)
Definition json_loads_example : string -> option Exn := fun _ => Some JSONDecodeError.

Definition exn_str_example (e : Exn) : string :=
  match e with
  | CalledProcessError _ _ _ _ => "Command returned non-zero exit status."
  | TypeError => "exceptions must derive from BaseException"
  | ValueError => "sleep length must be non-negative"
  | OverflowError => "timestamp too large to convert to C _PyTime_t"
  | JSONDecodeError => "Expecting value: line 1 column 1 (char 0)"
  | RecursionError => "maximum recursion depth exceeded while decoding a JSON array"
  | MarkupError => "closing tag doesn't match any open tag"
  | OSError what => what
  end.

(** The warning that [retry_with_backoff] prints for an exception. *)
Definition retry_warning (exn_str : Exn -> string) (attempt : Z) (e : Exn) : Event :=
  EPrint Warning
    (if mentions_capacity (exn_str e)
     then MsgCapacityDetected attempt
     else MsgCommandFailed (exn_str e)).

(** The events of a run (newest first) that started after [t] are what
    the world answered: every command in them has the outcome that [env]
    gives it after the events before it. *)
Definition commands_answered (env : Trace -> list string -> Exn + CompletedProcess)
    (t : Trace) (evs : list Event) : Prop :=
  forall after cmd o before,
    evs = (after ++ ECommand cmd o :: before)%list -> o = env (before ++ t)%list cmd.

(** What follows each failed [terraform apply] in the events [evs] (newest
    first) that a run of the apply loop added to [t] and that ended with
    [res].  [after] are the events after the command, [before] the ones
    before it; the command belongs to the attempt [n] announced just
    before it. *)
Definition apply_failures_classified (clock : Trace -> Z -> option Exn)
    (markup_ok : string -> bool) (max_attempts base_delay : Z) (t : Trace)
    (res : Result bool) (evs : list Event) : Prop :=
  forall after r before,
    evs = (after ++ ECommand apply_cmd (inr r) :: before)%list ->
    returncode r <> 0 ->
    let output := stdout r +:+ stderr r in
    exists n,
      hd_error before = Some (EPrint Status (MsgApplyAttempt n max_attempts)) /\
      if mentions_capacity output then
        if n <? max_attempts then
          let delay := base_delay * 2 ^ (n - 1) in
          let asked :=
            (EPrint Status (MsgWaiting delay) :: EPrint Warning MsgApplyCapacity
               :: ECommand apply_cmd (inr r) :: before ++ t)%list in
          match sleep_error clock asked delay with
          | None =>
              (* retried: the sleep, then the next attempt runs the command again *)
              exists next after',
                after =
                (after' ++
                 [ECommand apply_cmd next;
                  EPrint Status (MsgApplyAttempt (n + 1) max_attempts);
                  ESleep delay;
                  EPrint Status (MsgWaiting delay);
                  EPrint Warning MsgApplyCapacity])%list
          | Some e =>
              (* [time.sleep] raises: the run ends with its exception *)
              res = Raise e /\
              after = [EPrint Status (MsgWaiting delay); EPrint Warning MsgApplyCapacity]
          end
        else
          (* the attempts are used up *)
          res = Return false /\
          after = [EPrint Error (MsgApplyGaveUp max_attempts);
                   EPrint Warning MsgApplyCapacity]
      else
        (* not a capacity failure: the run ends here *)
        if markup_ok output then
          res = Return false /\
          after = [EConsole output; EPrint Error MsgApplyNonRetryable]
        else
          res = Raise MarkupError /\ after = [EPrint Error MsgApplyNonRetryable].

(** What follows each attempt of [retry_with_backoff] in the events [evs]
    (newest first) that a run added to [t] and that ended with [res] in
    the state [s']: the call of [func], whose events are [call_evs], and
    then [rest]. *)
Definition attempts_classified {S A} (exn_str : Exn -> string)
    (clock : Trace -> Z -> option Exn) (func_name : string) (func : M S A)
    (max_attempts base_delay : Z) (t : Trace)
    (res : Result A) (s' : S) (evs : list Event) : Prop :=
  forall after n before,
    evs = (after ++ EPrint Status (MsgAttempt n max_attempts func_name) :: before)%list ->
    let called :=
      (EPrint Status (MsgAttempt n max_attempts func_name) :: before ++ t)%list in
    exists s0 r s1 call_evs rest,
      after = (rest ++ call_evs)%list /\
      func s0 called = Some (r, s1, (call_evs ++ called)%list) /\
      match r with
      | Return a => rest = [] /\ res = Return a /\ s' = s1
      | Raise e =>
          if n <? max_attempts then
            let delay := base_delay * 2 ^ (n - 1) in
            let asked :=
              (EPrint Status (MsgRetrying delay) :: retry_warning exn_str n e
                 :: call_evs ++ called)%list in
            match sleep_error clock asked delay with
            | None =>
                (* retried: the sleep, then the next attempt *)
                exists rest',
                  rest =
                  (rest' ++
                   [EPrint Status (MsgAttempt (n + 1) max_attempts func_name);
                    ESleep delay;
                    EPrint Status (MsgRetrying delay);
                    retry_warning exn_str n e])%list
            | Some e' =>
                (* [time.sleep] raises: the run ends with its exception *)
                res = Raise e' /\ s' = s1 /\
                rest = [EPrint Status (MsgRetrying delay); retry_warning exn_str n e]
            end
          else
            (* the attempts are used up: the exception of this call is raised *)
            res = Raise e /\ s' = s1 /\
            rest = [EPrint Error (MsgFailedAfter max_attempts);
                    retry_warning exn_str n e]
      end.

(** The sleeps of a schedule are the backoff delays: the schedule is
    empty, or it is attempt 1 followed by some number of rounds of a sleep
    of [base * 2^(n-1)] after attempt [n] and then attempt [n + 1]. *)
Definition follows_backoff (base : Z) (steps : list Step) : Prop :=
  steps = [] \/ exists retries, steps = backoff_schedule base 1 retries.

(** [time.sleep(delay)] returns whenever it is called. *)
Definition sleep_returns (clock : Trace -> Z -> option Exn) (delay : Z) : Prop :=
  forall t, sleep_error clock t delay = None.

(** The error of a failed [terraform apply] reaches the user: its output
    is printed with [console.print], or the run ends with an exception. *)
Definition error_surfaced (r : CompletedProcess) (res : Result bool)
    (evs : list Event) : Prop :=
  In (EConsole (stdout r +:+ stderr r)) evs \/ exists e, res = Raise e.

(** The variables of the ARM loop of [configure_custom_instances] after
    [n] iterations, from the headroom the loop starts with. *)
Definition arm_loop_after (user : UserAnswers)
    (available_ocpus available_memory : Z) (n : nat) : ArmLoop :=
  fold_left (arm_loop_body user) (map (fun k => 1 + Z.of_nat k) (seq 0 n))
    {| loop_hostnames := []; loop_ocpus := []; loop_memory := [];
       loop_boot := []; loop_block := [];
       remaining_ocpus := available_ocpus;
       remaining_memory := available_memory |}.

(** ** Vocabulary of the statements about the import *)

Definition init_cmd : list string := ["terraform"; "init"; "-input=false"].
Definition show_cmd (address : string) : list string :=
  ["terraform"; "state"; "show"; address].
Definition import_cmd (address rid : string) : list string :=
  ["terraform"; "import"; address; rid].

(** [m] ends from every state and trace, and how it ends and the events
    it adds (newest first) satisfy [post]. *)
Definition runs {S A} (m : M S A) (post : Result A -> list Event -> Prop) : Prop :=
  forall s t, exists res s' evs,
    m s t = Some (res, s', (evs ++ t)%list) /\ post res evs.

(** Among the events, every command is [cmd]. *)
Definition only_command (cmd : list string) (ev : Event) : Prop :=
  match ev with
  | ECommand c _ => c = cmd
  | _ => True
  end.

(** No import is issued for an address whose state-show check
    succeeded. *)
Definition skips_present (evs : list Event) : Prop :=
  forall address r,
    In (ECommand (show_cmd address) (inr r)) evs ->
    returncode r = 0 ->
    forall rid o, ~ In (ECommand (import_cmd address rid) o) evs.

(** The commands among the events are [terraform init], state-show checks
    and imports of targets (address and resource identifier) in [T], and
    present addresses are skipped. *)
Definition reconciles (T : string -> string -> Prop) (evs : list Event) : Prop :=
  (forall cmd o,
      In (ECommand cmd o) evs ->
      cmd = init_cmd \/
      exists address rid,
        T address rid /\ (cmd = show_cmd address \/ cmd = import_cmd address rid)) /\
  skips_present evs.

(** The component of [items] with identifier [rid] lies in the VCN
    [vcn_id]. *)
Definition component_of (vcn_id : string) (items : ResourceDict) (rid : string) : Prop :=
  exists c, In (rid, c) items /\ get_str c "vcn_id" = Some vcn_id.

(** The cascade of a VCN import: a gateway, subnet, route table or
    security list of the VCN [vcn_id], into its singleton address. *)
Definition component_target (inv : Inventory) (vcn_id address rid : string) : Prop :=
  (address = "oci_core_internet_gateway.main" /\
   component_of vcn_id (existing_internet_gateways inv) rid) \/
  (address = "oci_core_subnet.main" /\
   component_of vcn_id (existing_subnets inv) rid) \/
  (address = "oci_core_default_route_table.main" /\
   component_of vcn_id (existing_route_tables inv) rid) \/
  (address = "oci_core_default_security_list.main" /\
   component_of vcn_id (existing_security_lists inv) rid).

(** The first VCN of the inventory into [oci_core_vcn.main], and its
    cascade. *)
Definition vcn_target (inv : Inventory) (address rid : string) : Prop :=
  exists first_vcn_id first_vcn rest,
    existing_vcns inv = (first_vcn_id, first_vcn) :: rest /\
    ((address = "oci_core_vcn.main" /\ rid = first_vcn_id) \/
     component_target inv first_vcn_id address rid).

(** An instance of [items] into a slot, numbered [from] or higher, of the
    collection [kind]. *)
Definition instance_target (kind : string) (items : ResourceDict) (from : Z)
    (address rid : string) : Prop :=
  exists index instance,
    from <= index /\ address = instance_address kind index /\
    In (rid, instance) items.

(** The targets that [import_existing_resources] may import for an
    inventory. *)
Definition import_target (inv : Inventory) (address rid : string) : Prop :=
  vcn_target inv address rid \/
  instance_target "amd" (existing_amd_instances inv) 0 address rid \/
  instance_target "arm" (existing_arm_instances inv) 0 address rid.

(** An environment in which [terraform init] succeeds and every
    state-show check finds its address. *)
Definition everything_in_state
    (env : Trace -> list string -> Exn + CompletedProcess) : Prop :=
  forall t,
    (exists r, env t init_cmd = inr r /\ returncode r = 0) /\
    (forall address, exists r, env t (show_cmd address) = inr r /\ returncode r = 0).

Definition succeeded (out : string) : Exn + CompletedProcess :=
  inr {| returncode := 0; stdout := out; stderr := "" |}.

Definition env_all_present : Trace -> list string -> Exn + CompletedProcess :=
  fun _ _ => succeeded "ok".

(** A tenancy with two VCNs, a subnet in each, and one AMD instance. *)
Definition two_vcn_inventory : Inventory :=
  {| existing_vcns :=
       [resource "ocid1.vcn.one" "main-vcn" ∅ {["cidr" := "10.0.0.0/16"]};
        resource "ocid1.vcn.two" "other-vcn" ∅ {["cidr" := "10.1.0.0/16"]}];
     existing_subnets :=
       [resource "ocid1.subnet.b" "subnet-b" ∅ {["vcn_id" := "ocid1.vcn.two"]};
        resource "ocid1.subnet.a" "subnet-a" ∅ {["vcn_id" := "ocid1.vcn.one"]}];
     existing_internet_gateways := [];
     existing_route_tables := [];
     existing_security_lists := [];
     existing_amd_instances :=
       [resource "ocid1.instance.a" "web-1" ∅ {["shape" := "VM.Standard.E2.1.Micro"]}];
     existing_arm_instances := [];
     existing_boot_volumes := [];
     existing_block_volumes := [] |}.

(** An event of a run in which nothing failed and nothing was imported:
    no import command, no warning, no error, and a final count of zero
    imported and zero failed. *)
Definition nothing_failed (ev : Event) : Prop :=
  match ev with
  | ECommand cmd _ => forall address rid, cmd <> import_cmd address rid
  | EPrint Warning _ => False
  | EPrint Error _ => False
  | EPrint _ (MsgImportComplete imported failed) => imported = 0 /\ failed = 0
  | _ => True
  end.

Definition cascade_addresses : list string :=
  ["oci_core_internet_gateway.main"; "oci_core_subnet.main";
   "oci_core_default_route_table.main"; "oci_core_default_security_list.main"].

(** An environment in which [terraform init] and every import succeed and
    no address is in the state yet. *)
Definition env_nothing_in_state : Trace -> list string -> Exn + CompletedProcess :=
  fun _ cmd =>
    match cmd with
    | _ :: verb :: _ =>
        if String.eqb verb "state" then failed 1 "" "No instance found for the given address!"
        else succeeded "ok"
    | _ => succeeded "ok"
    end.

(** The import commands among the events, oldest first, as pairs of
    address and resource identifier. *)
Definition imports_of (evs : list Event) : list (string * string) :=
  flat_map (fun ev =>
              match ev with
              | ECommand [_; verb; address; rid] _ =>
                  if String.eqb verb "import" then [(address, rid)] else []
              | _ => []
              end) (rev evs).

(** ** Vocabulary of the statements about runs *)

(** [m] ends from every state and trace; [post] relates the state it
    starts from, how it ends, the state it ends in and the events it adds
    (newest first). *)
Definition ends {S A} (m : M S A)
    (post : S -> Result A -> S -> list Event -> Prop) : Prop :=
  forall s t, exists res s' evs,
    m s t = Some (res, s', (evs ++ t)%list) /\ post s res s' evs.

(** The seconds slept in a schedule. *)
Definition total_slept (steps : list Step) : Z :=
  Py.sum (omap (fun st => match st with Sleep d => Some d | Attempt _ => None end) steps).

(** The commands among the events, oldest first, with their outcomes. *)
Definition commands_of (evs : list Event) : list (list string * (Exn + CompletedProcess)) :=
  omap (fun ev => match ev with ECommand cmd o => Some (cmd, o) | _ => None end) (rev evs).

(** The runs of [retry_with_backoff] around a function whose calls are
    described by [call]: the events (newest first) of the loop entered at
    [attempt] with [last_error], and how it ends.  A sleep that
    [time.sleep] does not refuse itself may pass or fail with an exception
    of the operating system. *)
Inductive retry_run {S A} (exn_str : Exn -> string) (func_name : string)
    (call : S -> Result A -> S -> list Event -> Prop) (max_attempts base_delay : Z)
  : Z -> option Exn -> S -> Result A -> S -> list Event -> Prop :=
| retry_exhausted attempt last_error s :
    max_attempts < attempt ->
    retry_run exn_str func_name call max_attempts base_delay attempt last_error s
      (Raise (default TypeError last_error)) s
      [EPrint Error (MsgFailedAfter max_attempts)]
| retry_returned attempt last_error s a s' evs :
    attempt <= max_attempts ->
    call s (Return a) s' evs ->
    retry_run exn_str func_name call max_attempts base_delay attempt last_error s
      (Return a) s'
      (evs ++ [EPrint Status (MsgAttempt attempt max_attempts func_name)])
| retry_gave_up attempt last_error s e s' evs :
    attempt = max_attempts ->
    call s (Raise e) s' evs ->
    retry_run exn_str func_name call max_attempts base_delay attempt last_error s
      (Raise e) s'
      (EPrint Error (MsgFailedAfter max_attempts)
         :: retry_warning exn_str attempt e
         :: evs ++ [EPrint Status (MsgAttempt attempt max_attempts func_name)])
| retry_bad_delay attempt last_error s e s' evs e' :
    attempt < max_attempts ->
    call s (Raise e) s' evs ->
    sleep_refused (base_delay * 2 ^ (attempt - 1)) = Some e' ->
    retry_run exn_str func_name call max_attempts base_delay attempt last_error s
      (Raise e') s'
      (EPrint Status (MsgRetrying (base_delay * 2 ^ (attempt - 1)))
         :: retry_warning exn_str attempt e
         :: evs ++ [EPrint Status (MsgAttempt attempt max_attempts func_name)])
| retry_sleep_failed attempt last_error s e s' evs e' :
    attempt < max_attempts ->
    call s (Raise e) s' evs ->
    sleep_refused (base_delay * 2 ^ (attempt - 1)) = None ->
    retry_run exn_str func_name call max_attempts base_delay attempt last_error s
      (Raise e') s'
      (EPrint Status (MsgRetrying (base_delay * 2 ^ (attempt - 1)))
         :: retry_warning exn_str attempt e
         :: evs ++ [EPrint Status (MsgAttempt attempt max_attempts func_name)])
| retry_again attempt last_error s e s1 evs res s' evs' :
    attempt < max_attempts ->
    call s (Raise e) s1 evs ->
    sleep_refused (base_delay * 2 ^ (attempt - 1)) = None ->
    retry_run exn_str func_name call max_attempts base_delay (attempt + 1) (Some e) s1
      res s' evs' ->
    retry_run exn_str func_name call max_attempts base_delay attempt last_error s
      res s'
      (evs' ++ ESleep (base_delay * 2 ^ (attempt - 1))
         :: EPrint Status (MsgRetrying (base_delay * 2 ^ (attempt - 1)))
         :: retry_warning exn_str attempt e
         :: evs ++ [EPrint Status (MsgAttempt attempt max_attempts func_name)]).

(** A failed command whose error output ([stderr], else [stdout]) carries
    a capacity marker. *)
Definition capacity_failure (ev : Event) : bool :=
  match ev with
  | ECommand _ (inr r) =>
      negb (returncode r =? 0)
      && mentions_capacity (Py.or_else (stderr r) (Py.or_else (stdout r) ""))
  | _ => false
  end.

(** What [run_cmd_with_retries_and_check] makes of the output of a command
    that ended with status 0. *)
Definition output_accepted (json_loads : string -> option Exn) (output : string)
  : bool :=
  match json_loads output with
  | None => true
  | Some JSONDecodeError => negb (String.eqb (Py.strip output) "")
  | Some _ => false
  end.

(** One call of the closure [_run] of [run_cmd_with_retries_and_check]:
    a single command; the flag is raised by a failure that mentions
    capacity and never lowered. *)
Definition run_call (cmd : list string) (flag : bool) (res : Result string)
    (flag' : bool) (evs : list Event) : Prop :=
  exists o, evs = [ECommand cmd o] /\
    flag' = (flag || capacity_failure (ECommand cmd o))%bool /\
    match o with
    | inl e => res = Raise e
    | inr r =>
        if returncode r =? 0 then res = Return (stdout r)
        else res = Raise (CalledProcessError (returncode r) cmd (stdout r) (stderr r))
    end.

(** ** Vocabulary of the statements about the import, continued *)

(** The identifier of the first entry of a dictionary that [matches], in
    the order of the dictionary. *)
Fixpoint first_match (matches : ExistingResource -> bool) (items : ResourceDict)
  : option string :=
  match items with
  | [] => None
  | (rid, c) :: rest => if matches c then Some rid else first_match matches rest
  end.

(** What the cascade of the VCN [vcn_id] may import: for each of the four
    addresses, the first entry of its dictionary that lies in the VCN
    (and, for route tables and security lists, is named as a default). *)
Definition cascade_target (inv : Inventory) (vcn_id address rid : string) : Prop :=
  (address = "oci_core_internet_gateway.main" /\
   first_match (in_vcn vcn_id) (existing_internet_gateways inv) = Some rid) \/
  (address = "oci_core_subnet.main" /\
   first_match (in_vcn vcn_id) (existing_subnets inv) = Some rid) \/
  (address = "oci_core_default_route_table.main" /\
   first_match (fun rt => in_vcn vcn_id rt && named_default rt)
     (existing_route_tables inv) = Some rid) \/
  (address = "oci_core_default_security_list.main" /\
   first_match (fun sl => in_vcn vcn_id sl && named_default sl)
     (existing_security_lists inv) = Some rid).

(** The number of events that satisfy [p]. *)
Fixpoint count_events (p : Event -> bool) (evs : list Event) : Z :=
  match evs with
  | [] => 0
  | ev :: rest => (if p ev then 1 else 0) + count_events p rest
  end.

Definition is_command_b (ev : Event) : bool :=
  match ev with ECommand _ _ => true | _ => false end.

Definition is_import_b (ev : Event) : bool :=
  match ev with
  | ECommand [_; verb; _; _] _ => String.eqb verb "import"
  | _ => false
  end.

(** Whether the event is a command that ran [terraform ARG ...] with
    status 0. *)
Definition succeeded_b (cmd : list string) (ev : Event) : bool :=
  match ev with
  | ECommand c (inr r) => bool_decide (c = cmd) && (returncode r =? 0)
  | _ => false
  end.

(** A run that leaves the state alone, issues at most [n_commands]
    commands, at most [n_imports] of them imports, and only commands in
    [allowed]. *)
Definition within {S A} (n_commands n_imports : Z) (allowed : list string -> Prop)
  : S -> Result A -> S -> list Event -> Prop :=
  fun s _ s' evs =>
    s' = s /\
    count_events is_command_b evs <= n_commands /\
    count_events is_import_b evs <= n_imports /\
    forall cmd o, In (ECommand cmd o) evs -> allowed cmd.

(** The events of one [run_cmd_with_retries_and_check cmd], with its
    verdict. *)
Definition import_attempt (exn_str : Exn -> string) (json_loads : string -> option Exn)
    (max_attempts base_delay : Z) (cmd : list string)
    (success : bool) (evs : list Event) : Prop :=
  exists res flag,
    retry_run exn_str "_run" (run_call cmd) max_attempts base_delay 1 None false
      res flag evs /\
    success = match res with
              | Return output => output_accepted json_loads output
              | Raise _ => false
              end.

(** The events of the cascade: commands and the notes about imported
    components. *)
Definition cascade_event (ev : Event) : Prop :=
  match ev with
  | ECommand _ _ => True
  | EPrint Status (MsgImportedComponent _) => True
  | _ => False
  end.

(** The runs of an instance loop of [import_existing_resources], entered
    with the instances [items] that are left, the next [index] and the
    two counters. *)
Inductive instances_run (exn_str : Exn -> string) (json_loads : string -> option Exn)
    (max_attempts base_delay : Z) (kind label : string) (count : Z)
  : ResourceDict -> Z -> Z -> Z -> Result (Z * Z) -> list Event -> Prop :=
| instances_done items index imported failed :
    items = [] \/ count <= index ->
    instances_run exn_str json_loads max_attempts base_delay kind label count
      items index imported failed (Return (imported, failed)) []
| instances_check_raised rid instance rest index imported failed e :
    index < count ->
    instances_run exn_str json_loads max_attempts base_delay kind label count
      ((rid, instance) :: rest) index imported failed (Raise e)
      [ECommand (show_cmd (instance_address kind index)) (inl e);
       EPrint Status (MsgImportingInstance label (res_name instance))]
| instances_present rid instance rest index imported failed r res evs :
    index < count ->
    returncode r = 0 ->
    instances_run exn_str json_loads max_attempts base_delay kind label count
      rest (index + 1) imported failed res evs ->
    instances_run exn_str json_loads max_attempts base_delay kind label count
      ((rid, instance) :: rest) index imported failed res
      (evs ++ [EPrint Status MsgAlreadyInState;
               ECommand (show_cmd (instance_address kind index)) (inr r);
               EPrint Status (MsgImportingInstance label (res_name instance))])
| instances_imported rid instance rest index imported failed r imports res evs :
    index < count ->
    returncode r <> 0 ->
    import_attempt exn_str json_loads max_attempts base_delay
      (import_cmd (instance_address kind index) rid) true imports ->
    instances_run exn_str json_loads max_attempts base_delay kind label count
      rest (index + 1) (imported + 1) failed res evs ->
    instances_run exn_str json_loads max_attempts base_delay kind label count
      ((rid, instance) :: rest) index imported failed res
      (evs ++ EPrint Success MsgImported
         :: imports ++ [ECommand (show_cmd (instance_address kind index)) (inr r);
                        EPrint Status (MsgImportingInstance label (res_name instance))])
| instances_failed rid instance rest index imported failed r imports res evs :
    index < count ->
    returncode r <> 0 ->
    import_attempt exn_str json_loads max_attempts base_delay
      (import_cmd (instance_address kind index) rid) false imports ->
    instances_run exn_str json_loads max_attempts base_delay kind label count
      rest (index + 1) imported (failed + 1) res evs ->
    instances_run exn_str json_loads max_attempts base_delay kind label count
      ((rid, instance) :: rest) index imported failed res
      (evs ++ EPrint Warning MsgImportFailed
         :: imports ++ [ECommand (show_cmd (instance_address kind index)) (inr r);
                        EPrint Status (MsgImportingInstance label (res_name instance))]).

(** The runs of the VCN block of [import_existing_resources]. *)
Inductive vcn_run (exn_str : Exn -> string) (json_loads : string -> option Exn)
    (max_attempts base_delay : Z) (inv : Inventory)
  : Result (Z * Z) -> list Event -> Prop :=
| vcn_none :
    existing_vcns inv = [] ->
    vcn_run exn_str json_loads max_attempts base_delay inv (Return (0, 0)) []
| vcn_check_raised first_vcn_id first_vcn rest e :
    existing_vcns inv = (first_vcn_id, first_vcn) :: rest ->
    vcn_run exn_str json_loads max_attempts base_delay inv (Raise e)
      [ECommand (show_cmd "oci_core_vcn.main") (inl e);
       EPrint Status (MsgImportingVcn (res_name first_vcn))]
| vcn_present first_vcn_id first_vcn rest r :
    existing_vcns inv = (first_vcn_id, first_vcn) :: rest ->
    returncode r = 0 ->
    vcn_run exn_str json_loads max_attempts base_delay inv (Return (0, 0))
      [EPrint Status MsgAlreadyInState;
       ECommand (show_cmd "oci_core_vcn.main") (inr r);
       EPrint Status (MsgImportingVcn (res_name first_vcn))]
| vcn_imported first_vcn_id first_vcn rest r imports (cascade_res : Result unit) cascade :
    existing_vcns inv = (first_vcn_id, first_vcn) :: rest ->
    returncode r <> 0 ->
    import_attempt exn_str json_loads max_attempts base_delay
      (import_cmd "oci_core_vcn.main" first_vcn_id) true imports ->
    Forall cascade_event cascade ->
    (forall cmd o, In (ECommand cmd o) cascade ->
       (exists address, In address cascade_addresses /\ cmd = show_cmd address) \/
       exists address rid,
         cascade_target inv first_vcn_id address rid /\ cmd = import_cmd address rid) ->
    vcn_run exn_str json_loads max_attempts base_delay inv
      (match cascade_res with Return _ => Return (1, 0) | Raise e => Raise e end)
      (cascade ++ EPrint Success MsgImported
         :: imports ++ [ECommand (show_cmd "oci_core_vcn.main") (inr r);
                        EPrint Status (MsgImportingVcn (res_name first_vcn))])
| vcn_failed first_vcn_id first_vcn rest r imports :
    existing_vcns inv = (first_vcn_id, first_vcn) :: rest ->
    returncode r <> 0 ->
    import_attempt exn_str json_loads max_attempts base_delay
      (import_cmd "oci_core_vcn.main" first_vcn_id) false imports ->
    vcn_run exn_str json_loads max_attempts base_delay inv (Return (0, 1))
      (EPrint Warning MsgImportFailed
         :: imports ++ [ECommand (show_cmd "oci_core_vcn.main") (inr r);
                        EPrint Status (MsgImportingVcn (res_name first_vcn))]).

(** One call of the closure [_init]. *)
Definition init_call {S} (s : S) (res : Result CompletedProcess) (s' : S)
    (evs : list Event) : Prop :=
  s' = s /\
  exists o, evs = [ECommand init_cmd o] /\
    match o with
    | inl e => res = Raise e
    | inr r =>
        if returncode r =? 0 then res = Return r
        else res = Raise (CalledProcessError (returncode r) ["terraform init"] "" "")
    end.

(** The runs of [import_existing_resources]. *)
Inductive import_run (exn_str : Exn -> string) (json_loads : string -> option Exn)
    (max_attempts base_delay : Z) (inv : Inventory) (instance_config : InstanceConfig)
  : Result bool -> list Event -> Prop :=
| import_nothing :
    existing_vcns inv = [] -> existing_amd_instances inv = [] ->
    existing_arm_instances inv = [] ->
    import_run exn_str json_loads max_attempts base_delay inv instance_config
      (Return true)
      [EPrint Status MsgNothingToImport; EHeader "IMPORTING EXISTING RESOURCES"]
| import_init_failed e inits :
    retry_run exn_str "_init" (init_call (S:=unit)) max_attempts base_delay 1 None tt
      (Raise e) tt inits ->
    import_run exn_str json_loads max_attempts base_delay inv instance_config
      (Return false)
      (EPrint Error (MsgInitFailed e)
         :: inits ++ [EPrint Status MsgInitializing;
                      EHeader "IMPORTING EXISTING RESOURCES"])
| import_vcn_raised result inits e vcn_evs :
    retry_run exn_str "_init" (init_call (S:=unit)) max_attempts base_delay 1 None tt
      (Return result) tt inits ->
    vcn_run exn_str json_loads max_attempts base_delay inv (Raise e) vcn_evs ->
    import_run exn_str json_loads max_attempts base_delay inv instance_config
      (Raise e)
      (vcn_evs ++ inits ++ [EPrint Status MsgInitializing;
                            EHeader "IMPORTING EXISTING RESOURCES"])
| import_amd_raised result inits i1 f1 vcn_evs e amd_evs :
    retry_run exn_str "_init" (init_call (S:=unit)) max_attempts base_delay 1 None tt
      (Return result) tt inits ->
    vcn_run exn_str json_loads max_attempts base_delay inv (Return (i1, f1)) vcn_evs ->
    instances_run exn_str json_loads max_attempts base_delay "amd" "AMD"
      (amd_micro_instance_count instance_config)
      (existing_amd_instances inv) 0 i1 f1 (Raise e) amd_evs ->
    import_run exn_str json_loads max_attempts base_delay inv instance_config
      (Raise e)
      (amd_evs ++ vcn_evs ++ inits ++ [EPrint Status MsgInitializing;
                                       EHeader "IMPORTING EXISTING RESOURCES"])
| import_arm_raised result inits i1 f1 vcn_evs i2 f2 amd_evs e arm_evs :
    retry_run exn_str "_init" (init_call (S:=unit)) max_attempts base_delay 1 None tt
      (Return result) tt inits ->
    vcn_run exn_str json_loads max_attempts base_delay inv (Return (i1, f1)) vcn_evs ->
    instances_run exn_str json_loads max_attempts base_delay "amd" "AMD"
      (amd_micro_instance_count instance_config)
      (existing_amd_instances inv) 0 i1 f1 (Return (i2, f2)) amd_evs ->
    instances_run exn_str json_loads max_attempts base_delay "arm" "ARM"
      (arm_flex_instance_count instance_config)
      (existing_arm_instances inv) 0 i2 f2 (Raise e) arm_evs ->
    import_run exn_str json_loads max_attempts base_delay inv instance_config
      (Raise e)
      (arm_evs ++ amd_evs ++ vcn_evs ++ inits
         ++ [EPrint Status MsgInitializing; EHeader "IMPORTING EXISTING RESOURCES"])
| import_completed result inits i1 f1 vcn_evs i2 f2 amd_evs imported failed arm_evs :
    retry_run exn_str "_init" (init_call (S:=unit)) max_attempts base_delay 1 None tt
      (Return result) tt inits ->
    vcn_run exn_str json_loads max_attempts base_delay inv (Return (i1, f1)) vcn_evs ->
    instances_run exn_str json_loads max_attempts base_delay "amd" "AMD"
      (amd_micro_instance_count instance_config)
      (existing_amd_instances inv) 0 i1 f1 (Return (i2, f2)) amd_evs ->
    instances_run exn_str json_loads max_attempts base_delay "arm" "ARM"
      (arm_flex_instance_count instance_config)
      (existing_arm_instances inv) 0 i2 f2 (Return (imported, failed)) arm_evs ->
    import_run exn_str json_loads max_attempts base_delay inv instance_config
      (Return true)
      (EPrint Success (MsgImportComplete imported failed) :: EBlank
         :: arm_evs ++ amd_evs ++ vcn_evs ++ inits
         ++ [EPrint Status MsgInitializing; EHeader "IMPORTING EXISTING RESOURCES"]).

(** The events that a retry loop adds around the commands of its calls. *)
Definition retry_event (ev : Event) : Prop :=
  match ev with
  | ECommand _ _ => True
  | ESleep _ => True
  | EPrint Status (MsgAttempt _ _ _) => True
  | EPrint Status (MsgRetrying _) => True
  | EPrint Warning (MsgCapacityDetected _) => True
  | EPrint Warning (MsgCommandFailed _) => True
  | EPrint Error (MsgFailedAfter _) => True
  | _ => False
  end.

(** The two messages that the counters of the import go with. *)
Definition is_imported_msg (ev : Event) : bool :=
  match ev with EPrint Success MsgImported => true | _ => false end.

Definition is_import_failed_msg (ev : Event) : bool :=
  match ev with EPrint Warning MsgImportFailed => true | _ => false end.

(** The addresses that the VCN block works on. *)
Definition vcn_addresses : list string := "oci_core_vcn.main" :: cascade_addresses.

(** ** Validation of a proposed configuration *)

(** The error lines of [validate_proposed_config], with the numbers they
    show. *)
Inductive QuotaError :=
| CannotCreateAmd (proposed available : Z)
| CannotAllocateOcpus (proposed available : Z)
| CannotAllocateMemory (proposed available : Z)
| CannotUseStorage (proposed available : Z).

(** [validate_proposed_config]: the lines it prints with [print_error],
    in order, and the flag it returns. *)
Definition validate_proposed_config (inv : Inventory)
    (proposed_amd proposed_arm proposed_arm_ocpus proposed_arm_memory
       proposed_storage : Z) : list QuotaError * bool :=
  let available := calculate_available_resources inv in
  let printed : list QuotaError := [] in
  let errors := 0 in
  let '(printed, errors) :=
    if amd_instances available <? proposed_amd
    then ((printed ++ [CannotCreateAmd proposed_amd (amd_instances available)])%list, errors + 1)
    else (printed, errors) in
  let '(printed, errors) :=
    if arm_ocpus available <? proposed_arm_ocpus
    then ((printed ++ [CannotAllocateOcpus proposed_arm_ocpus (arm_ocpus available)])%list,
          errors + 1)
    else (printed, errors) in
  let '(printed, errors) :=
    if arm_memory available <? proposed_arm_memory
    then ((printed ++ [CannotAllocateMemory proposed_arm_memory (arm_memory available)])%list,
          errors + 1)
    else (printed, errors) in
  let '(printed, errors) :=
    if storage available <? proposed_storage
    then ((printed ++ [CannotUseStorage proposed_storage (storage available)])%list, errors + 1)
    else (printed, errors) in
  (printed, errors =? 0).

(** The boot-volume storage that a plan asks for: the AMD boot volumes
    and the ARM boot volumes. *)
Definition planned_boot_storage (cfg : InstanceConfig) : Z :=
  amd_micro_instance_count cfg * amd_micro_boot_volume_size_gb cfg
  + Py.sum (arm_flex_boot_volume_size_gb cfg).

(** A tenancy whose volumes already take 180 GB. *)
Definition nearly_full_inventory : Inventory :=
  {| existing_vcns := []; existing_subnets := [];
     existing_internet_gateways := []; existing_route_tables := [];
     existing_security_lists := []; existing_amd_instances := [];
     existing_arm_instances := [];
     existing_boot_volumes :=
       [resource "ocid1.bootvolume.a" "boot-a" {["size" := 100]} ∅];
     existing_block_volumes :=
       [resource "ocid1.volume.a" "data-a" {["size" := 80]} ∅] |}.

(** ** The Terraform workflow

    [print_status] and its siblings are [console.print] of the message
    behind a coloured tag.  The messages of the workflow and of the menu
    are kept as the text handed to [console.print].  The output of a
    command goes through [console_print_output]. *)

Definition print_status_text {S} (message : string) : M S unit :=
  console_print ("[blue][INFO][/blue] " +:+ message).
Definition print_success_text {S} (message : string) : M S unit :=
  console_print ("[green][SUCCESS][/green] " +:+ message).
Definition print_warning_text {S} (message : string) : M S unit :=
  console_print ("[yellow][WARNING][/yellow] " +:+ message).
Definition print_error_text {S} (message : string) : M S unit :=
  console_print ("[red][ERROR][/red] " +:+ message).

(** [for x in xs: body(x)]. *)
Fixpoint for_each {S A} (xs : list A) (body : A -> M S unit) : M S unit :=
  match xs with
  | [] => mret tt
  | x :: rest => body x;; for_each rest body
  end.

(** The settings read from the process environment at start-up, and the
    answers of the user to the prompts of the workflow and of the menu;
    the rounds of the menu are numbered from 0. *)
Record Operator := {
  AUTO_DEPLOY : bool;
  NON_INTERACTIVE : bool;
  apply_confirmed : bool;
  menu_choice : nat -> Z;
  destroy_confirmed : nat -> bool
}.

Definition init_upgrade_cmd : list string := ["terraform"; "init"; "-input=false"; "-upgrade"].
Definition validate_cmd : list string := ["terraform"; "validate"].
Definition plan_cmd : list string := ["terraform"; "plan"; "-out=tfplan"; "-input=false"].
Definition show_plan_cmd : list string := ["terraform"; "show"; "-no-color"; "tfplan"].
Definition output_json_cmd : list string := ["terraform"; "output"; "-json"].
Definition output_cmd : list string := ["terraform"; "output"].

Section Workflow.

Variable env : Trace -> list string -> Exn + CompletedProcess.
Variable exn_str : Exn -> string.
Variable clock : Trace -> Z -> option Exn.
Variable json_loads : string -> option Exn.
Variable markup_ok : string -> bool.

(** [json.dumps(json.loads(text), indent=2)] for a text that is JSON. *)
Variable json_indent : string -> string.

(** [Path(name).exists()] after the events so far. *)
Variable path_exists : Trace -> string -> bool.

Variable RETRY_MAX_ATTEMPTS RETRY_BASE_DELAY : Z.
Variable operator : Operator.

(** The closure [_init] of [run_terraform_workflow]. *)
Definition _init_upgrade {S} : M S CompletedProcess :=
  result ← run_command env ["terraform"; "init"; "-input=false"; "-upgrade"];
  if negb (returncode result =? 0)
  then raise (CalledProcessError (returncode result) ["terraform init"] "" "")
  else mret result.

(** [Path("tfplan").exists()]; the removal of the file that follows it
    leaves no event. *)
Definition tfplan_exists {S} : M S bool :=
  fun s t => Some (Return (path_exists t "tfplan"), s, t).

(** The plan summary: of the first 20 lines, the ones that carry one of
    three keywords. *)
Definition plan_summary {S} (stdout : string) : M S unit :=
  let lines := Py.split "010" stdout in
  for_each (take 20 lines)
    (fun line =>
       if Py.any (fun keyword => Py.contains keyword line) ["Plan:"; "#"; "will be"]
       then console_print_output markup_ok line
       else mret tt).

(** The lines after [print_header("DEPLOYMENT COMPLETE")].  Of the
    exceptions of [json.loads] only [JSONDecodeError] is caught. *)
Definition show_outputs {S} : M S unit :=
  result ← run_command env ["terraform"; "output"; "-json"];
  if returncode result =? 0 then
    match json_loads (stdout result) with
    | None => console_print (json_indent (stdout result))
    | Some JSONDecodeError =>
        result ← run_command env ["terraform"; "output"];
        console_print_output markup_ok (stdout result)
    | Some e => raise e
    end
  else
    result ← run_command env ["terraform"; "output"];
    console_print_output markup_ok (stdout result).

Definition run_terraform_workflow {S} (inv : Inventory)
    (instance_config : InstanceConfig) : M S bool :=
  print_header "TERRAFORM WORKFLOW";;
  (* Step 1: Initialize *)
  print_status_text "Step 1: Initializing Terraform...";;
  try_except
    (retry_with_backoff exn_str clock "_init" _init_upgrade
       RETRY_MAX_ATTEMPTS RETRY_BASE_DELAY;;
     print_success_text "Terraform initialized")
    (fun _ =>
       (* Step 2: Import existing resources *)
       (if negb (is_empty (existing_vcns inv))
           || negb (is_empty (existing_amd_instances inv))
           || negb (is_empty (existing_arm_instances inv))
        then
          print_status_text "Step 2: Importing existing resources...";;
          import_existing_resources env exn_str clock json_loads
            RETRY_MAX_ATTEMPTS RETRY_BASE_DELAY inv instance_config;;
          mret tt
        else print_status_text "Step 2: No existing resources to import");;
       (* Step 3: Validate *)
       print_status_text "Step 3: Validating configuration...";;
       result ← run_command env ["terraform"; "validate"];
       if negb (returncode result =? 0) then
         print_error_text "Terraform validation failed";;
         console_print_output markup_ok (stderr result);;
         mret false
       else
         print_success_text "Configuration valid";;
         (* Step 4: Plan *)
         print_status_text "Step 4: Creating execution plan...";;
         result ← run_command env ["terraform"; "plan"; "-out=tfplan"; "-input=false"];
         if negb (returncode result =? 0) then
           print_error_text "Terraform plan failed";;
           console_print_output markup_ok (stderr result);;
           mret false
         else
           print_success_text "Plan created successfully";;
           (* Show plan summary *)
           print_blank;;
           print_status_text "Plan summary:";;
           result ← run_command env ["terraform"; "show"; "-no-color"; "tfplan"];
           (if returncode result =? 0 then plan_summary (stdout result) else mret tt);;
           (* Step 5: Apply (with confirmation) *)
           apply_choice ←
             (if AUTO_DEPLOY operator || NON_INTERACTIVE operator then
                print_status_text "Step 5: Auto-applying plan...";;
                mret true
              else mret (apply_confirmed operator));
           if apply_choice : bool then
             print_status_text "Applying Terraform plan...";;
             applied ← out_of_capacity_auto_apply env clock markup_ok
                         RETRY_MAX_ATTEMPTS RETRY_BASE_DELAY;
             if applied : bool then
               print_success_text "Infrastructure deployed successfully!";;
               _ ← tfplan_exists;
               (* Show outputs *)
               print_blank;;
               print_header "DEPLOYMENT COMPLETE";;
               show_outputs;;
               mret true
             else
               print_error_text "Terraform apply failed";;
               mret false
           else
             print_status_text
               "Plan saved as 'tfplan' - apply later with: terraform apply tfplan";;
             mret true)
    (fun e =>
       print_error_text ("Terraform init failed after retries: " +:+ exn_str e);;
       mret false).

End Workflow.

(** ** Vocabulary of the statements about the workflow *)

Definition Command : Type := list string * (Exn + CompletedProcess).

(** The command ended with status 0. *)
Definition succeeded_command (c : Command) : Prop :=
  exists r, snd c = inr r /\ returncode r = 0.

(** The command ran and ended with another status. *)
Definition failed_command (c : Command) : Prop :=
  exists r, snd c = inr r /\ returncode r <> 0.

(** The commands of a retry loop that returned: attempts of [cmd] that
    failed, then one that succeeded. *)
Definition retried_until_success (cmd : list string) (cmds : list Command) : Prop :=
  exists failures r,
    cmds = (failures ++ [(cmd, inr r)])%list /\ returncode r = 0 /\
    Forall (fun c => fst c = cmd /\ ~ succeeded_command c) failures.

(** The commands of a retry loop in which no attempt succeeded. *)
Definition never_succeeded (cmd : list string) (cmds : list Command) : Prop :=
  Forall (fun c => fst c = cmd /\ ~ succeeded_command c) cmds.

(** Step 2 of the workflow: nothing for an empty inventory, else the
    commands of a run of [import_existing_resources]. *)
Definition import_step (exn_str : Exn -> string) (json_loads : string -> option Exn)
    (max_attempts base_delay : Z) (inv : Inventory) (instance_config : InstanceConfig)
    (raised : option Exn) (cmds : list Command) : Prop :=
  (existing_vcns inv = [] /\ existing_amd_instances inv = [] /\
   existing_arm_instances inv = [] /\ raised = None /\ cmds = []) \/
  (~ (existing_vcns inv = [] /\ existing_amd_instances inv = [] /\
      existing_arm_instances inv = []) /\
   exists res evs,
     import_run exn_str json_loads max_attempts base_delay inv instance_config res evs /\
     cmds = commands_of evs /\
     raised = match res with Return _ => None | Raise e => Some e end).

(** The commands after a deployment: the outputs as JSON, or as text when
    that fails or does not parse; another exception of the parser, and
    the one of the console for the text, end the workflow. *)
Definition output_step (json_loads : string -> option Exn) (markup_ok : string -> bool)
    (raised : option Exn) (cmds : list Command) : Prop :=
  (exists e, cmds = [(output_json_cmd, inl e)] /\ raised = Some e) \/
  (exists r, cmds = [(output_json_cmd, inr r)] /\ returncode r = 0 /\
             json_loads (stdout r) <> Some JSONDecodeError /\
             raised = json_loads (stdout r)) \/
  (exists r o, cmds = [(output_json_cmd, inr r); (output_cmd, o)] /\
               (returncode r <> 0 \/ json_loads (stdout r) = Some JSONDecodeError) /\
               raised = match o with
                        | inl e => Some e
                        | inr shown =>
                            if markup_ok (stdout shown) then None else Some MarkupError
                        end).

(** How the workflow ends after a command whose error text it prints. *)
Definition after_error_text (markup_ok : string -> bool) (text : string)
  : Result bool :=
  if markup_ok text then Return false else Raise MarkupError.

(** The runs of [run_terraform_workflow], as the commands they issue
    (oldest first) and how they end. *)
Inductive workflow_run (exn_str : Exn -> string) (json_loads : string -> option Exn)
    (markup_ok : string -> bool)
    (max_attempts base_delay : Z) (operator : Operator)
    (inv : Inventory) (instance_config : InstanceConfig)
  : Result bool -> list Command -> Prop :=
| workflow_init_failed inits :
    never_succeeded init_upgrade_cmd inits ->
    workflow_run exn_str json_loads markup_ok max_attempts base_delay operator inv instance_config
      (Return false) inits
| workflow_import_raised inits imports e :
    retried_until_success init_upgrade_cmd inits ->
    import_step exn_str json_loads max_attempts base_delay inv instance_config
      (Some e) imports ->
    workflow_run exn_str json_loads markup_ok max_attempts base_delay operator inv instance_config
      (Raise e) (inits ++ imports)
| workflow_validate_raised inits imports e :
    retried_until_success init_upgrade_cmd inits ->
    import_step exn_str json_loads max_attempts base_delay inv instance_config
      None imports ->
    workflow_run exn_str json_loads markup_ok max_attempts base_delay operator inv instance_config
      (Raise e) (inits ++ imports ++ [(validate_cmd, inl e)])
| workflow_invalid inits imports validated :
    retried_until_success init_upgrade_cmd inits ->
    import_step exn_str json_loads max_attempts base_delay inv instance_config
      None imports ->
    returncode validated <> 0 ->
    workflow_run exn_str json_loads markup_ok max_attempts base_delay operator inv instance_config
      (after_error_text markup_ok (stderr validated))
      (inits ++ imports ++ [(validate_cmd, inr validated)])
| workflow_plan_stopped inits imports validated planned res :
    retried_until_success init_upgrade_cmd inits ->
    import_step exn_str json_loads max_attempts base_delay inv instance_config
      None imports ->
    returncode validated = 0 ->
    match planned with
    | inl e => res = Raise e
    | inr r => returncode r <> 0 /\ res = after_error_text markup_ok (stderr r)
    end ->
    workflow_run exn_str json_loads markup_ok max_attempts base_delay operator inv instance_config
      res (inits ++ imports ++ [(validate_cmd, inr validated); (plan_cmd, planned)])
| workflow_show_raised inits imports validated planned e :
    retried_until_success init_upgrade_cmd inits ->
    import_step exn_str json_loads max_attempts base_delay inv instance_config
      None imports ->
    returncode validated = 0 ->
    returncode planned = 0 ->
    workflow_run exn_str json_loads markup_ok max_attempts base_delay operator inv instance_config
      (Raise e)
      (inits ++ imports ++ [(validate_cmd, inr validated); (plan_cmd, inr planned);
                            (show_plan_cmd, inl e)])
| workflow_summary_raised inits imports validated planned shown line :
    retried_until_success init_upgrade_cmd inits ->
    import_step exn_str json_loads max_attempts base_delay inv instance_config
      None imports ->
    returncode validated = 0 ->
    returncode planned = 0 ->
    returncode shown = 0 ->
    In line (take 20 (Py.split "010" (stdout shown))) ->
    markup_ok line = false ->
    workflow_run exn_str json_loads markup_ok max_attempts base_delay operator inv instance_config
      (Raise MarkupError)
      (inits ++ imports ++ [(validate_cmd, inr validated); (plan_cmd, inr planned);
                            (show_plan_cmd, inr shown)])
| workflow_plan_saved inits imports validated planned shown :
    retried_until_success init_upgrade_cmd inits ->
    import_step exn_str json_loads max_attempts base_delay inv instance_config
      None imports ->
    returncode validated = 0 ->
    returncode planned = 0 ->
    AUTO_DEPLOY operator = false -> NON_INTERACTIVE operator = false ->
    apply_confirmed operator = false ->
    workflow_run exn_str json_loads markup_ok max_attempts base_delay operator inv instance_config
      (Return true)
      (inits ++ imports ++ [(validate_cmd, inr validated); (plan_cmd, inr planned);
                            (show_plan_cmd, inr shown)])
| workflow_not_applied inits imports validated planned shown applies res :
    retried_until_success init_upgrade_cmd inits ->
    import_step exn_str json_loads max_attempts base_delay inv instance_config
      None imports ->
    returncode validated = 0 ->
    returncode planned = 0 ->
    AUTO_DEPLOY operator || NON_INTERACTIVE operator || apply_confirmed operator = true ->
    never_succeeded apply_cmd applies ->
    (res = Return false \/ exists e, res = Raise e) ->
    workflow_run exn_str json_loads markup_ok max_attempts base_delay operator inv instance_config
      res
      (inits ++ imports ++ [(validate_cmd, inr validated); (plan_cmd, inr planned);
                            (show_plan_cmd, inr shown)] ++ applies)
| workflow_deployed inits imports validated planned shown applies raised outputs :
    retried_until_success init_upgrade_cmd inits ->
    import_step exn_str json_loads max_attempts base_delay inv instance_config
      None imports ->
    returncode validated = 0 ->
    returncode planned = 0 ->
    AUTO_DEPLOY operator || NON_INTERACTIVE operator || apply_confirmed operator = true ->
    retried_until_success apply_cmd applies ->
    output_step json_loads markup_ok raised outputs ->
    workflow_run exn_str json_loads markup_ok max_attempts base_delay operator inv instance_config
      (match raised with None => Return true | Some e => Raise e end)
      (inits ++ imports ++ [(validate_cmd, inr validated); (plan_cmd, inr planned);
                            (show_plan_cmd, inr shown)] ++ applies ++ outputs).

(** One call of a closure that runs [cmd] and raises unless it ends with
    status 0. *)
Definition command_call {S} (cmd : list string) (s : S)
    (res : Result CompletedProcess) (s' : S) (evs : list Event) : Prop :=
  s' = s /\
  exists o, evs = [ECommand cmd o] /\
    match res with
    | Return r => o = inr r /\ returncode r = 0
    | Raise _ => ~ succeeded_command (cmd, o)
    end.

(** A postcondition on the commands of a run that leaves the state
    alone. *)
Definition on_commands {S A} (P : Result A -> list Command -> Prop)
  : S -> Result A -> S -> list Event -> Prop :=
  fun s res s' evs => s' = s /\ P res (commands_of evs).

(** ** The Terraform menu *)

Definition destroy_cmd : list string := ["terraform"; "destroy"].

Section Menu.

Variable env : Trace -> list string -> Exn + CompletedProcess.
Variable exn_str : Exn -> string.
Variable clock : Trace -> Z -> option Exn.
Variable json_loads : string -> option Exn.
Variable markup_ok : string -> bool.
Variable json_indent : string -> string.
Variable path_exists : Trace -> string -> bool.
Variable RETRY_MAX_ATTEMPTS RETRY_BASE_DELAY : Z.
Variable operator : Operator.
Variable inv : Inventory.
Variable instance_config : InstanceConfig.

(** One turn of the [while True] loop of [terraform_menu], up to the
    test of [NON_INTERACTIVE]: [Some b] when the turn ends in
    [return b], [None] when it falls through.  [round] numbers the
    turns. *)
Definition menu_round {S} (round : nat) : M S (option bool) :=
  print_blank;;
  print_header "TERRAFORM MANAGEMENT";;
  console_print "  1) Full workflow (init → import → plan → apply)";;
  console_print "  2) Plan only";;
  console_print "  3) Apply existing plan";;
  console_print "  4) Import existing resources";;
  console_print "  5) Show current state";;
  console_print "  6) Destroy infrastructure";;
  console_print "  7) Reconfigure";;
  console_print "  8) Exit";;
  print_blank;;
  choice ←
    (if AUTO_DEPLOY operator || NON_INTERACTIVE operator then
       print_status_text "Auto mode: Running full workflow";;
       mret 1
     else mret (menu_choice operator round));
  if choice =? 1 then
    done ← run_terraform_workflow env exn_str clock json_loads markup_ok json_indent
             path_exists RETRY_MAX_ATTEMPTS RETRY_BASE_DELAY operator inv instance_config;
    if (done : bool) && AUTO_DEPLOY operator then mret (Some true) else mret None
  else if choice =? 2 then
    _ ← run_command env ["terraform"; "init"; "-input=false"];
    _ ← run_command env ["terraform"; "plan"];
    mret None
  else if choice =? 3 then
    there ← (fun s t => Some (Return (path_exists t "tfplan"), s, t)) : M S bool;
    if there : bool then
      _ ← run_command env ["terraform"; "apply"; "tfplan"];
      mret None
    else
      print_error_text "No plan file found";;
      mret None
  else if choice =? 4 then
    _ ← import_existing_resources env exn_str clock json_loads
          RETRY_MAX_ATTEMPTS RETRY_BASE_DELAY inv instance_config;
    mret None
  else if choice =? 5 then
    result1 ← run_command env ["terraform"; "state"; "list"];
    result2 ← run_command env ["terraform"; "output"];
    if (returncode result1 =? 0) || (returncode result2 =? 0) then
      console_print_output markup_ok (stdout result1);;
      console_print_output markup_ok (stdout result2);;
      mret None
    else
      print_status_text "No state found";;
      mret None
  else if choice =? 6 then
    if destroy_confirmed operator round then
      _ ← run_command env ["terraform"; "destroy"];
      mret None
    else mret None
  else if choice =? 7 then mret (Some false)
  else if choice =? 8 then mret (Some true)
  else
    print_error_text "Invalid choice";;
    mret None.

(** [terraform_menu]; [fuel] bounds the number of turns.  The prompt of
    [input] leaves no event. *)
Fixpoint terraform_menu {S} (fuel : nat) (round : nat) : M S bool :=
  match fuel with
  | O => cut_off
  | Datatypes.S fuel' =>
      outcome ← menu_round round;
      match outcome with
      | Some b => mret b
      | None =>
          if NON_INTERACTIVE operator then mret true
          else
            print_blank;;
            terraform_menu fuel' (Datatypes.S round)
      end
  end.

End Menu.

(** The choice a turn of the menu acts on. *)
Definition menu_selection (operator : Operator) (round : nat) : Z :=
  if AUTO_DEPLOY operator || NON_INTERACTIVE operator then 1
  else menu_choice operator round.

(** What a turn of the menu with choice [choice] issues and how it ends:
    the full workflow for choice 1, and otherwise no [terraform destroy]
    except for a confirmed choice 6, and a [return] for 7 and 8 only. *)
Definition menu_turn (exn_str : Exn -> string) (json_loads : string -> option Exn)
    (markup_ok : string -> bool)
    (max_attempts base_delay : Z) (operator : Operator)
    (inv : Inventory) (instance_config : InstanceConfig)
    (round : nat) (choice : Z) (res : Result (option bool)) (cmds : list Command) : Prop :=
  if choice =? 1 then
    exists done,
      workflow_run exn_str json_loads markup_ok max_attempts base_delay operator inv instance_config
        done cmds /\
      res = match done with
            | Return deployed =>
                Return (if deployed && AUTO_DEPLOY operator then Some true else None)
            | Raise e => Raise e
            end
  else
    (forall c, In c cmds -> fst c = destroy_cmd ->
               choice = 6 /\ destroy_confirmed operator round = true) /\
    (choice = 7 -> res = Return (Some false) /\ cmds = []) /\
    (choice = 8 -> res = Return (Some true) /\ cmds = []) /\
    (choice <> 7 -> choice <> 8 -> res = Return None \/ exists e, res = Raise e).

(** The runs of [terraform_menu] from turn [round] on: the commands of
    the turns taken, oldest first, and how the menu ends. *)
Inductive menu_run (exn_str : Exn -> string) (json_loads : string -> option Exn)
    (markup_ok : string -> bool)
    (max_attempts base_delay : Z) (operator : Operator)
    (inv : Inventory) (instance_config : InstanceConfig)
  : nat -> Result bool -> list Command -> Prop :=
| menu_returned round b cmds :
    menu_turn exn_str json_loads markup_ok max_attempts base_delay operator inv instance_config
      round (menu_selection operator round) (Return (Some b)) cmds ->
    menu_run exn_str json_loads markup_ok max_attempts base_delay operator inv instance_config
      round (Return b) cmds
| menu_raised round e cmds :
    menu_turn exn_str json_loads markup_ok max_attempts base_delay operator inv instance_config
      round (menu_selection operator round) (Raise e) cmds ->
    menu_run exn_str json_loads markup_ok max_attempts base_delay operator inv instance_config
      round (Raise e) cmds
| menu_single_turn round cmds :
    menu_turn exn_str json_loads markup_ok max_attempts base_delay operator inv instance_config
      round (menu_selection operator round) (Return None) cmds ->
    NON_INTERACTIVE operator = true ->
    menu_run exn_str json_loads markup_ok max_attempts base_delay operator inv instance_config
      round (Return true) cmds
| menu_next_turn round cmds res rest :
    menu_turn exn_str json_loads markup_ok max_attempts base_delay operator inv instance_config
      round (menu_selection operator round) (Return None) cmds ->
    NON_INTERACTIVE operator = false ->
    menu_run exn_str json_loads markup_ok max_attempts base_delay operator inv instance_config
      (Datatypes.S round) res rest ->
    menu_run exn_str json_loads markup_ok max_attempts base_delay operator inv instance_config
      round res (cmds ++ rest)%list.

(** An unattended run, and a user who confirms a destroy and leaves. *)
Definition unattended : Operator :=
  {| AUTO_DEPLOY := false; NON_INTERACTIVE := true; apply_confirmed := false;
     menu_choice := fun _ => 1; destroy_confirmed := fun _ => false |}.

Definition destroys_and_leaves : Operator :=
  {| AUTO_DEPLOY := false; NON_INTERACTIVE := false; apply_confirmed := false;
     menu_choice := fun round => match round with O => 6 | _ => 8 end;
     destroy_confirmed := fun _ => true |}.

(** ** Writing [variables.tf] and reading it back *)

Definition dq : string := String "034" "".

(** An f-string: its literal parts and its formatted fields, in order. *)
Inductive Part :=
| Lit (text : string)
| Fmt (text : string).

Definition part_text (p : Part) : string :=
  match p with Lit text => text | Fmt text => text end.

(** The text of [parts], followed by [rest]. *)
Definition onto (parts : list Part) (rest : string) : string :=
  fold_right (fun p acc => part_text p +:+ acc) rest parts.

Definition fstring (parts : list Part) : string := onto parts "".

(** ["[" + ", ".join(items) + "]"]. *)
Definition tf_list (items : list string) : string :=
  "[" +:+ String.concat ", " items +:+ "]".

(** The parts of the f-string [variables_content] of
    [create_terraform_variables].  [generated] is the value of
    [time.strftime('%Y-%m-%d %H:%M:%S')]; [str] of an [int] is [pretty]. *)
Definition variables_parts (generated : string) (oci_config : OciConfig)
    (instance_config : InstanceConfig) : list Part :=
  let amd_hostnames_tf :=
    tf_list (map (fun h => fstring [Lit dq; Fmt h; Lit dq])
               (amd_micro_hostnames instance_config)) in
  let arm_hostnames_tf :=
    tf_list (map (fun h => fstring [Lit dq; Fmt h; Lit dq])
               (arm_flex_hostnames instance_config)) in
  let arm_ocpus_tf := tf_list (map pretty (arm_flex_ocpus_per_instance instance_config)) in
  let arm_memory_tf := tf_list (map pretty (arm_flex_memory_per_instance instance_config)) in
  let arm_boot_tf := tf_list (map pretty (arm_flex_boot_volume_size_gb instance_config)) in
  let arm_block_tf := tf_list (map pretty (arm_flex_block_volumes instance_config)) in
  [
    Lit "# Oracle Cloud Infrastructure Terraform Variables"; Lit newline;
    Lit "# Generated: "; Fmt generated; Lit newline;
    Lit "# Configuration: "; Fmt (pretty (amd_micro_instance_count instance_config));
       Lit "x AMD + "; Fmt (pretty (arm_flex_instance_count instance_config));
       Lit "x ARM instances"; Lit newline;
    Lit newline;
    Lit "locals {"; Lit newline;
    Lit "  # Core identifiers"; Lit newline;
    Lit "  tenancy_ocid    = "; Lit dq; Fmt (tenancy_ocid oci_config); Lit dq; Lit newline;
    Lit "  compartment_id  = "; Lit dq; Fmt (tenancy_ocid oci_config); Lit dq; Lit newline;
    Lit "  user_ocid       = "; Lit dq; Fmt (user_ocid oci_config); Lit dq; Lit newline;
    Lit "  region          = "; Lit dq; Fmt (region oci_config); Lit dq; Lit newline;
    Lit "  "; Lit newline;
    Lit "  # Ubuntu Images (region-specific)"; Lit newline;
    Lit "  ubuntu_x86_image_ocid = "; Lit dq; Fmt (ubuntu_image_ocid oci_config); Lit dq;
       Lit newline;
    Lit "  ubuntu_arm_image_ocid = "; Lit dq; Fmt (ubuntu_arm_flex_image_ocid oci_config);
       Lit dq; Lit newline;
    Lit "  "; Lit newline;
    Lit "  # SSH Configuration"; Lit newline;
    Lit "  ssh_pubkey_path      = pathexpand("; Lit dq; Lit "./ssh_keys/id_rsa.pub"; Lit dq;
       Lit ")"; Lit newline;
    Lit "  ssh_pubkey_data      = file(pathexpand("; Lit dq; Lit "./ssh_keys/id_rsa.pub";
       Lit dq; Lit "))"; Lit newline;
    Lit "  ssh_private_key_path = pathexpand("; Lit dq; Lit "./ssh_keys/id_rsa"; Lit dq;
       Lit ")"; Lit newline;
    Lit "  "; Lit newline;
    Lit "  # AMD x86 Micro Instances Configuration"; Lit newline;
    Lit "  amd_micro_instance_count      = ";
       Fmt (pretty (amd_micro_instance_count instance_config)); Lit newline;
    Lit "  amd_micro_boot_volume_size_gb = ";
       Fmt (pretty (amd_micro_boot_volume_size_gb instance_config)); Lit newline;
    Lit "  amd_micro_hostnames           = "; Fmt amd_hostnames_tf; Lit newline;
    Lit "  amd_block_volume_size_gb      = 0"; Lit newline;
    Lit "  "; Lit newline;
    Lit "  # ARM A1 Flex Instances Configuration"; Lit newline;
    Lit "  arm_flex_instance_count       = ";
       Fmt (pretty (arm_flex_instance_count instance_config)); Lit newline;
    Lit "  arm_flex_ocpus_per_instance   = "; Fmt arm_ocpus_tf; Lit newline;
    Lit "  arm_flex_memory_per_instance  = "; Fmt arm_memory_tf; Lit newline;
    Lit "  arm_flex_boot_volume_size_gb  = "; Fmt arm_boot_tf; Lit newline;
    Lit "  arm_flex_hostnames            = "; Fmt arm_hostnames_tf; Lit newline;
    Lit "  arm_block_volume_sizes        = "; Fmt arm_block_tf; Lit newline;
    Lit "  "; Lit newline;
    Lit "  # Storage calculations"; Lit newline;
    Lit "  total_amd_storage = local.amd_micro_instance_count * local.amd_micro_boot_volume_size_gb";
       Lit newline;
    Lit "  total_arm_storage = local.arm_flex_instance_count > 0 ? sum(local.arm_flex_boot_volume_size_gb) : 0";
       Lit newline;
    Lit "  total_block_storage = (local.amd_micro_instance_count * local.amd_block_volume_size_gb) + (local.arm_flex_instance_count > 0 ? sum(local.arm_block_volume_sizes) : 0)";
       Lit newline;
    Lit "  total_storage = local.total_amd_storage + local.total_arm_storage + local.total_block_storage";
       Lit newline;
    Lit "}"; Lit newline;
    Lit newline;
    Lit "# Free Tier Limits"; Lit newline;
    Lit "variable "; Lit dq; Lit "free_tier_max_storage_gb"; Lit dq; Lit " {"; Lit newline;
    Lit "  description = "; Lit dq; Lit "Maximum storage for Oracle Free Tier"; Lit dq;
       Lit newline;
    Lit "  type        = number"; Lit newline;
    Lit "  default     = "; Fmt (pretty FREE_TIER_MAX_STORAGE_GB); Lit newline;
    Lit "}"; Lit newline;
    Lit newline;
    Lit "variable "; Lit dq; Lit "free_tier_max_arm_ocpus"; Lit dq; Lit " {"; Lit newline;
    Lit "  description = "; Lit dq; Lit "Maximum ARM OCPUs for Oracle Free Tier"; Lit dq;
       Lit newline;
    Lit "  type        = number"; Lit newline;
    Lit "  default     = "; Fmt (pretty FREE_TIER_MAX_ARM_OCPUS); Lit newline;
    Lit "}"; Lit newline;
    Lit newline;
    Lit "variable "; Lit dq; Lit "free_tier_max_arm_memory_gb"; Lit dq; Lit " {"; Lit newline;
    Lit "  description = "; Lit dq; Lit "Maximum ARM memory for Oracle Free Tier"; Lit dq;
       Lit newline;
    Lit "  type        = number"; Lit newline;
    Lit "  default     = "; Fmt (pretty FREE_TIER_MAX_ARM_MEMORY_GB); Lit newline;
    Lit "}"; Lit newline;
    Lit newline;
    Lit "# Validation checks"; Lit newline;
    Lit "check "; Lit dq; Lit "storage_limit"; Lit dq; Lit " {"; Lit newline;
    Lit "  assert {"; Lit newline;
    Lit "    condition     = local.total_storage <= var.free_tier_max_storage_gb"; Lit newline;
    Lit "    error_message = "; Lit dq;
       Lit "Total storage (${local.total_storage}GB) exceeds Free Tier limit (${var.free_tier_max_storage_gb}GB)";
       Lit dq; Lit newline;
    Lit "  }"; Lit newline;
    Lit "}"; Lit newline;
    Lit newline;
    Lit "check "; Lit dq; Lit "arm_ocpu_limit"; Lit dq; Lit " {"; Lit newline;
    Lit "  assert {"; Lit newline;
    Lit "    condition     = local.arm_flex_instance_count == 0 || sum(local.arm_flex_ocpus_per_instance) <= var.free_tier_max_arm_ocpus";
       Lit newline;
    Lit "    error_message = "; Lit dq;
       Lit "Total ARM OCPUs exceed Free Tier limit (${var.free_tier_max_arm_ocpus})"; Lit dq;
       Lit newline;
    Lit "  }"; Lit newline;
    Lit "}"; Lit newline;
    Lit newline;
    Lit "check "; Lit dq; Lit "arm_memory_limit"; Lit dq; Lit " {"; Lit newline;
    Lit "  assert {"; Lit newline;
    Lit "    condition     = local.arm_flex_instance_count == 0 || sum(local.arm_flex_memory_per_instance) <= var.free_tier_max_arm_memory_gb";
       Lit newline;
    Lit "    error_message = "; Lit dq;
       Lit "Total ARM memory exceeds Free Tier limit (${var.free_tier_max_arm_memory_gb}GB)";
       Lit dq; Lit newline;
    Lit "  }"; Lit newline;
    Lit "}"; Lit newline
  ].

(** The text that [create_terraform_variables] writes to
    [variables.tf]. *)
Definition variables_content (generated : string) (oci_config : OciConfig)
    (instance_config : InstanceConfig) : string :=
  fstring (variables_parts generated oci_config instance_config).

(** *** Where a search of [load_existing_config] can match

    [matcher false key] is the regular expression [key\s*=\s*(\d+)] and
    [matcher true key] is [key\s*=\s*\[([^\]]+)\]], both anchored at the
    head of the text. *)
Definition matcher (array : bool) (key : string) : string -> option string :=
  if array then match_array_at key else match_number_at key.

Fixpoint all_chars (p : ascii -> bool) (s : string) : bool :=
  match s with
  | EmptyString => true
  | String c r => p c && all_chars p r
  end.

Fixpoint has_char (c : ascii) (s : string) : bool :=
  match s with
  | EmptyString => false
  | String d r => Ascii.eqb c d || has_char c r
  end.

Fixpoint last_char (s : string) : option ascii :=
  match s with
  | EmptyString => None
  | String c r => match r with EmptyString => Some c | _ => last_char r end
  end.

(** [key] and [u] differ at a position that both have. *)
Fixpoint differs (key u : string) : bool :=
  match key, u with
  | String a k, String b v => if Ascii.eqb a b then differs k v else true
  | _, _ => false
  end.

(** The text [u] alone shows that no match starts at its head, whatever
    follows it. *)
Definition no_match_here (array : bool) (key u : string) : bool :=
  differs key u ||
  match Py.strip_prefix key u with
  | None => false
  | Some r =>
      match Py.lstrip_by Py.is_space r with
      | EmptyString => false
      | String c r2 =>
          if Ascii.eqb c "=" then
            match Py.lstrip_by Py.is_space r2 with
            | EmptyString => false
            | String d r3 =>
                if array then
                  if Ascii.eqb d "[" then
                    match r3 with
                    | EmptyString => false
                    | String e _ => Ascii.eqb e "]"
                    end
                  else true
                else negb (Py.is_digit d)
            end
          else true
      end
  end.

(** The suffix of the literal text [p] that starts at the first position
    which [no_match_here] does not rule out; empty when it rules out
    all. *)
Fixpoint skip_lit (array : bool) (key p : string) : string :=
  match p with
  | EmptyString => EmptyString
  | String _ r => if no_match_here array key p then skip_lit array key r else p
  end.

Definition is_empty_string (s : string) : bool :=
  match s with EmptyString => true | String _ _ => false end.

(** The same for the parts of an f-string, the literal text [pending]
    before them: [Some q] when every position is ruled out except those
    of the suffix [q] of the last literal text.  A formatted field is
    passed over; [fields_ok] says what it must satisfy. *)
Fixpoint skip_parts (array : bool) (key pending : string) (parts : list Part)
  : option string :=
  match parts with
  | [] => Some (skip_lit array key pending)
  | Lit text :: rest => skip_parts array key (pending +:+ text) rest
  | Fmt _ :: rest =>
      if is_empty_string (skip_lit array key pending)
      then skip_parts array key "" rest
      else None
  end.

(** A character that ends a run [key\s*=]: not white space, not [=] and
    not in [key]. *)
Definition stopper (key : string) (c : ascii) : bool :=
  negb (Py.is_space c) && negb (Ascii.eqb c "=") && negb (has_char c key).

Definition not_char (c : ascii) : ascii -> bool := fun d => negb (Ascii.eqb d c).

(** A formatted field in which no match can start: it has no letter [a]
    (every key starts with one), or it has no [=] and either ends with a
    stopper or is followed by one. *)
Definition field_ok (key text : string) (next : option ascii) : Prop :=
  all_chars (not_char "a") text = true \/
  (all_chars (not_char "=") text = true /\
   ((exists c, last_char text = Some c /\ stopper key c = true) \/
    (exists c, next = Some c /\ stopper key c = true))).

Definition first_char (parts : list Part) : option ascii :=
  match parts with
  | Lit (String c _) :: _ => Some c
  | _ => None
  end.

Fixpoint fields_ok (key : string) (parts : list Part) : Prop :=
  match parts with
  | [] => True
  | Lit _ :: rest => fields_ok key rest
  | Fmt text :: rest => field_ok key text (first_char rest) /\ fields_ok key rest
  end.

(** The characters of [str(n)] for an [int]. *)
Definition numeral_char (c : ascii) : bool := Py.is_digit c || Ascii.eqb c "-".

(** [q] is [key], white space, [=] and white space: the text of a line
    of [variables.tf] before the value. *)
Definition key_line (key q : string) : bool :=
  match Py.strip_prefix key q with
  | None => false
  | Some r =>
      match Py.lstrip_by Py.is_space r with
      | EmptyString => false
      | String c r2 => Ascii.eqb c "=" && all_chars Py.is_space r2
      end
  end.

(** The characters of [time.strftime('%Y-%m-%d %H:%M:%S')]. *)
Definition timestamp_char (c : ascii) : bool := Py.is_digit c || has_char c "-: ".

(** The characters of a host name that [load_existing_config] reads
    back: anything but a comma, a closing bracket, [=] and the two
    quotes. *)
Definition hostname_char (c : ascii) : bool :=
  negb (has_char c ",]='" || Ascii.eqb c "034").

(** The text of a plan that [variables.tf] can carry: a time stamp of
    digits and punctuation, identifiers and a region without [=], host
    names of [hostname_char]. *)
Definition clean_text (generated : string) (oci_config : OciConfig)
    (instance_config : InstanceConfig) : Prop :=
  all_chars timestamp_char generated = true /\
  Forall (fun text => all_chars (not_char "=") text = true)
    [tenancy_ocid oci_config; user_ocid oci_config; region oci_config;
     ubuntu_image_ocid oci_config; ubuntu_arm_flex_image_ocid oci_config] /\
  Forall (fun h => all_chars hostname_char h = true)
    (amd_micro_hostnames instance_config) /\
  Forall (fun h => all_chars hostname_char h = true)
    (arm_flex_hostnames instance_config).

(** What [load_existing_config] makes of [variables.tf] when
    [create_terraform_variables] wrote the plan [written] and the plan in
    memory is [old]. *)
Definition reloaded (old written : InstanceConfig) : InstanceConfig :=
  let count (n default : Z) := if n <? 0 then default else n in
  let numbers (xs kept : list Z) :=
    match xs with [] => kept | _ :: _ => filter (fun x => 0 <= x) xs end in
  let names (hs kept : list string) :=
    match hs with [] => kept | _ :: _ => hs end in
  {| amd_micro_instance_count := count (amd_micro_instance_count written) 0;
     amd_micro_boot_volume_size_gb := count (amd_micro_boot_volume_size_gb written) 50;
     arm_flex_instance_count := count (arm_flex_instance_count written) 0;
     arm_flex_ocpus_per_instance :=
       numbers (arm_flex_ocpus_per_instance written) (arm_flex_ocpus_per_instance old);
     arm_flex_memory_per_instance :=
       numbers (arm_flex_memory_per_instance written) (arm_flex_memory_per_instance old);
     arm_flex_boot_volume_size_gb :=
       numbers (arm_flex_boot_volume_size_gb written) (arm_flex_boot_volume_size_gb old);
     arm_flex_block_volumes := arm_flex_block_volumes old;
     amd_micro_hostnames :=
       names (amd_micro_hostnames written) (amd_micro_hostnames old);
     arm_flex_hostnames :=
       names (arm_flex_hostnames written) (arm_flex_hostnames old) |}.

(** [cfg] with other block volumes. *)
Definition with_block_volumes (cfg : InstanceConfig) (volumes : list Z) : InstanceConfig :=
  {| amd_micro_instance_count := amd_micro_instance_count cfg;
     amd_micro_boot_volume_size_gb := amd_micro_boot_volume_size_gb cfg;
     arm_flex_instance_count := arm_flex_instance_count cfg;
     arm_flex_ocpus_per_instance := arm_flex_ocpus_per_instance cfg;
     arm_flex_memory_per_instance := arm_flex_memory_per_instance cfg;
     arm_flex_boot_volume_size_gb := arm_flex_boot_volume_size_gb cfg;
     arm_flex_block_volumes := volumes;
     amd_micro_hostnames := amd_micro_hostnames cfg;
     arm_flex_hostnames := arm_flex_hostnames cfg |}.

(** Two instances of each kind. *)
Definition two_and_two_plan : InstanceConfig :=
  {| amd_micro_instance_count := 2; amd_micro_boot_volume_size_gb := 50;
     arm_flex_instance_count := 2; arm_flex_ocpus_per_instance := [3; 1];
     arm_flex_memory_per_instance := [18; 6]; arm_flex_boot_volume_size_gb := [50; 50];
     arm_flex_block_volumes := [10; 0];
     amd_micro_hostnames := ["amd-instance-1"; "amd-instance-2"];
     arm_flex_hostnames := ["arm-instance-1"; "arm-instance-2"] |}.

(** A plan with a negative count, negative entries and empty lists, and
    the plan in memory when it is read back. *)
Definition lossy_plan : InstanceConfig :=
  {| amd_micro_instance_count := -1; amd_micro_boot_volume_size_gb := -7;
     arm_flex_instance_count := 2; arm_flex_ocpus_per_instance := [3; -1; 0];
     arm_flex_memory_per_instance := []; arm_flex_boot_volume_size_gb := [-50];
     arm_flex_block_volumes := [5; 6];
     amd_micro_hostnames := [];
     arm_flex_hostnames := ["arm instance 1"; ""; "x"] |}.

Definition plan_in_memory : InstanceConfig :=
  {| amd_micro_instance_count := 9; amd_micro_boot_volume_size_gb := 9;
     arm_flex_instance_count := 9; arm_flex_ocpus_per_instance := [9];
     arm_flex_memory_per_instance := [8; 8]; arm_flex_boot_volume_size_gb := [7];
     arm_flex_block_volumes := [1];
     amd_micro_hostnames := ["old"];
     arm_flex_hostnames := ["older"] |}.

(** ** [safe_jq]

    A JSON document as [json.loads] returns it.  A number is kept as an
    integer: [safe_jq] never looks into one.  An object is the list of
    its entries, looked up from the front. *)
#[warnings="-register-all"]
Inductive Json :=
| JNull
| JBool (b : bool)
| JNumber (n : Z)
| JString (s : string)
| JArray (items : list Json)
| JObject (entries : list (string * Json)).

(** [entries.get(key)], [None] when the key is missing. *)
Fixpoint lookup_entry (key : string) (entries : list (string * Json)) : option Json :=
  match entries with
  | [] => None
  | (k, v) :: rest => if String.eqb k key then Some v else lookup_entry key rest
  end.

(** [result is None or result == "null"]. *)
Definition is_null_result (result : Json) : bool :=
  match result with
  | JNull => true
  | JString s => String.eqb s "null"
  | _ => false
  end.

(** [part.split(sep, 1)] for a [part] that holds [sep]. *)
Definition split_once (sep : ascii) (part : string) : string * string :=
  let '(key, rest) := Py.span (not_char sep) part in
  (key, match rest with String _ r => r | EmptyString => EmptyString end).

(** How the walk over a query stands: at [result], left by
    [return default], or left by an exception. *)
Inductive Walk :=
| Walked (result : Json)
| Defaulted
| Failed.

(** [result = result[index]] under the test
    [isinstance(result, list) and 0 <= index < len(result)]. *)
Definition index_into (result : Json) (index : Z) : Walk :=
  match result with
  | JArray items =>
      if (0 <=? index) && (index <? Z.of_nat (length items))
      then Walked (nth (Z.to_nat index) items JNull)
      else Defaulted
  | _ => Defaulted
  end.

(** [result[key]] for a text [key]: [KeyError] for a missing key,
    [TypeError] for anything but an object. *)
Definition getitem (result : Json) (key : string) : option Json :=
  match result with
  | JObject entries => lookup_entry key entries
  | _ => None
  end.

Section SafeJq.

(** [json.loads] and [int] of a text; [None] when they raise. *)
Variable loads : string -> option Json.
Variable int_of : string -> option Z.

(** One turn of the loop [for part in parts]. *)
Definition jq_step (result : Json) (part : string) : Walk :=
  if negb (Py.truthy part) then Walked result
  else if Py.contains "[" part then
    let '(key, index_str) := split_once "[" part in
    match int_of (Py.rstrip_by (Ascii.eqb "]") index_str) with
    | None => Failed
    | Some index =>
        match (if Py.truthy key then getitem result key else Some result) with
        | None => Failed
        | Some result => index_into result index
        end
    end
  else
    match result with
    | JObject entries =>
        Walked (match lookup_entry part entries with Some v => v | None => JNull end)
    | _ => Defaulted
    end.

Fixpoint jq_walk (parts : list string) (result : Json) : Walk :=
  match parts with
  | [] => Walked result
  | part :: rest =>
      match jq_step result part with
      | Walked result' => jq_walk rest result'
      | Defaulted => Defaulted
      | Failed => Failed
      end
  end.

(** [safe_jq(json_str, query, default)].  The debug line of the
    [except] branch is left out. *)
Definition safe_jq (json_str : option string) (query : string) (default : Json) : Json :=
  match json_str with
  | None => default
  | Some text =>
      if negb (Py.truthy text) || String.eqb (Py.strip text) "null"
         || negb (Py.truthy (Py.strip text))
      then default
      else
        match loads text with
        | None => default
        | Some data =>
            let query :=
              match query with
              | String c rest => if Ascii.eqb c "." then rest else query
              | EmptyString => query
              end in
            let found :=
              match query with
              | String c _ =>
                  if Ascii.eqb c "[" then
                    match int_of (Py.strip_by (fun c => has_char c "[]") query) with
                    | None => Failed
                    | Some index => index_into data index
                    end
                  else jq_walk (Py.split "." query) data
              | EmptyString => jq_walk (Py.split "." query) data
              end in
            match found with
            | Walked result => if is_null_result result then default else result
            | Defaulted => default
            | Failed => default
            end
        end
  end.

End SafeJq.

(** Following a path of keys through nested objects; [None] where
    [safe_jq] stops at something that is not an object. *)
Fixpoint follow (data : Json) (keys : list string) : option Json :=
  match keys with
  | [] => Some data
  | key :: rest =>
      match data with
      | JObject entries =>
          follow (match lookup_entry key entries with Some v => v | None => JNull end) rest
      | _ => None
      end
  end.

(** A text that [safe_jq] hands to [json.loads]. *)
Definition usable (text : string) : bool :=
  negb (negb (Py.truthy text) || String.eqb (Py.strip text) "null"
        || negb (Py.truthy (Py.strip text))).

(** A key of a query: not empty, without [.] and [\[]. *)
Definition plain_key (key : string) : bool :=
  Py.truthy key && all_chars (fun c => negb (has_char c ".[")) key.

(** [int] on the decimal numerals, for the examples. *)
Definition decimal_int (text : string) : option Z :=
  match text with
  | String "-" digits => if Py.isdigit digits then Some (- Py.int digits) else None
  | _ => if Py.isdigit text then Some (Py.int text) else None
  end.

(** A parser that knows one document. *)
Definition loads_instances (text : string) : option Json :=
  if String.eqb text "{...}" then
    Some (JObject [("data", JArray [JObject [("id", JString "ocid1.instance.a")];
                                    JObject [("id", JNull)]])])
  else None.

(** ** Quota calculator *)

Lemma fold_left_add_shift (xs : list Z) (a : Z) :
  fold_left Z.add xs a = a + fold_left Z.add xs 0.
Proof.
  revert a. induction xs as [|x xs IH]; intros a; simpl.
  - lia.
  - rewrite (IH (a + x)), (IH (0 + x)). lia.
Qed.

Lemma sum_cons (x : Z) (xs : list Z) : Py.sum (x :: xs) = x + Py.sum xs.
Proof. unfold Py.sum. simpl. apply fold_left_add_shift. Qed.

Lemma sum_app (xs ys : list Z) : Py.sum (xs ++ ys) = Py.sum xs + Py.sum ys.
Proof.
  induction xs as [|x xs IH]; [reflexivity|].
  simpl. rewrite !sum_cons, IH. lia.
Qed.

Lemma sum_attribute (key : string) (rs : list ExistingResource) :
  Py.sum (map (fun r => get_num r key 0) rs) = total_of key rs.
Proof.
  induction rs as [|r rs IH]; [reflexivity|].
  simpl. rewrite sum_cons, IH. reflexivity.
Qed.

(** C1.  For every inventory the headroom of each quota dimension is the
    Free Tier limit minus the amount in use: 2 minus the number of AMD
    instances, 4 minus the OCPUs of the ARM instances, 24 minus their
    memory, 200 minus the sizes of all boot and block volumes. *)
Theorem headroom_is_limit_minus_used (inv : Inventory) :
  let available := calculate_available_resources inv in
  amd_instances available = 2 - Z.of_nat (length (existing_amd_instances inv)) /\
  arm_ocpus available = 4 - total_of "ocpus" (values (existing_arm_instances inv)) /\
  arm_memory available = 24 - total_of "memory" (values (existing_arm_instances inv)) /\
  storage available =
    200 - (total_of "size" (values (existing_boot_volumes inv))
           + total_of "size" (values (existing_block_volumes inv))).
Proof.
  unfold calculate_available_resources; simpl.
  rewrite !sum_attribute. repeat split; reflexivity.
Qed.

(** ** Configuration planner *)

Lemma range_length (lo hi : Z) : length (Py.range lo hi) = Z.to_nat (hi - lo).
Proof. unfold Py.range. rewrite length_map, length_seq. reflexivity. Qed.

Lemma range_from_1 (c : Z) :
  Py.range 1 (c + 1) = map (fun k => 1 + Z.of_nat k) (seq 0 (Z.to_nat c)).
Proof. unfold Py.range. do 2 f_equal. lia. Qed.

Section ArmLoop.

Variable user : UserAnswers.
Variable available_ocpus available_memory : Z.

Local Abbreviation arm_loop_after :=
  (arm_loop_after user available_ocpus available_memory).

Lemma arm_loop_after_S (n : nat) :
  arm_loop_after (S n) =
  arm_loop_body user (arm_loop_after n) (1 + Z.of_nat n).
Proof.
  unfold arm_loop_after. rewrite seq_S, map_app, fold_left_app. reflexivity.
Qed.

Lemma arm_loop_lengths (n : nat) :
  length (loop_ocpus (arm_loop_after n)) = n /\
  length (loop_memory (arm_loop_after n)) = n /\
  length (loop_boot (arm_loop_after n)) = n /\
  length (loop_hostnames (arm_loop_after n)) = n.
Proof.
  induction n as [|n (Ho & Hm & Hb & Hh)]; [repeat split; reflexivity|].
  rewrite arm_loop_after_S. simpl. rewrite !length_app. simpl. lia.
Qed.

(** The running counter is the headroom minus what was handed out. *)
Lemma arm_loop_remaining (n : nat) :
  remaining_ocpus (arm_loop_after n) =
  available_ocpus - Py.sum (loop_ocpus (arm_loop_after n)).
Proof.
  induction n as [|n IH]; [unfold arm_loop_after, Py.sum; simpl; lia|].
  rewrite arm_loop_after_S. simpl. rewrite sum_app, sum_cons, IH.
  change (Py.sum []) with 0. lia.
Qed.

Lemma arm_loop_ocpus_prefix (n : nat) :
  loop_ocpus (arm_loop_after (S n)) =
  (loop_ocpus (arm_loop_after n) ++
    [clamp_ocpus (ask (remaining_ocpus (arm_loop_after n))
                      (ans_ocpus (ans_arm user (1 + Z.of_nat n))))
                 (remaining_ocpus (arm_loop_after n))])%list.
Proof. rewrite arm_loop_after_S. reflexivity. Qed.

Lemma arm_loop_ocpus_at_least_1 (n : nat) :
  Forall (fun o => 1 <= o) (loop_ocpus (arm_loop_after n)).
Proof.
  induction n as [|n IH]; [constructor|].
  rewrite arm_loop_ocpus_prefix. apply Forall_app. split; [exact IH|].
  constructor; [unfold clamp_ocpus; lia | constructor].
Qed.

(** Allocation [k] is the clamp of its request against the headroom
    that the allocations before it have left. *)
Lemma arm_loop_recurrence (n k : nat) (o : Z) :
  loop_ocpus (arm_loop_after n) !! k = Some o ->
  let remaining :=
    available_ocpus - Py.sum (take k (loop_ocpus (arm_loop_after n))) in
  o = clamp_ocpus (ask remaining (ans_ocpus (ans_arm user (1 + Z.of_nat k))))
                  remaining.
Proof.
  induction n as [|n IH]; [discriminate|].
  rewrite arm_loop_ocpus_prefix.
  pose proof (arm_loop_lengths n) as (Hlen & _).
  destruct (decide (k < n)%nat) as [Hk|Hk].
  - rewrite lookup_app_l by lia. rewrite take_app_le by lia. exact IH.
  - intros Hlk. assert (k = n) as ->.
    { apply lookup_lt_Some in Hlk. rewrite length_app in Hlk. simpl in Hlk. lia. }
    rewrite list_lookup_middle in Hlk by lia.
    injection Hlk as <-.
    rewrite take_app_length' by lia.
    cbv zeta. rewrite <- arm_loop_remaining. reflexivity.
Qed.

End ArmLoop.

Lemma custom_arm_ocpus (oci_config : OciConfig) (inv : Inventory) (user : UserAnswers) :
  arm_flex_ocpus_per_instance (configure_custom_instances oci_config inv user) = [] \/
  exists n,
    arm_flex_ocpus_per_instance (configure_custom_instances oci_config inv user) =
    loop_ocpus (arm_loop_after user
                  (arm_ocpus (calculate_available_resources inv))
                  (arm_memory (calculate_available_resources inv)) n).
Proof.
  unfold configure_custom_instances.
  destruct (_ && _)%bool; [right|left; reflexivity].
  eexists. simpl. rewrite range_from_1. reflexivity.
Qed.

(** C6.  The custom planner hands out ARM OCPUs against a running counter:
    allocation [k] is the clamp [max(1, min(request, remaining))] where
    [remaining] is the headroom minus the allocations before it.  With 4
    OCPUs of headroom and two instances, the first asking for 3, the second
    instance gets exactly 1 OCPU whatever it asks for, its default (the
    remaining headroom) included. *)
Theorem sequential_arm_ocpu_allocation
    (oci_config : OciConfig) (inv : Inventory) (user : UserAnswers) :
  let cfg := configure_custom_instances oci_config inv user in
  let headroom := arm_ocpus (calculate_available_resources inv) in
  (forall (k : nat) (o : Z),
      arm_flex_ocpus_per_instance cfg !! k = Some o ->
      let remaining := headroom - Py.sum (take k (arm_flex_ocpus_per_instance cfg)) in
      o = clamp_ocpus
            (ask remaining (ans_ocpus (ans_arm user (1 + Z.of_nat k)))) remaining) /\
  (Py.truthy (ubuntu_arm_flex_image_ocid oci_config) = true ->
   headroom = 4 ->
   ans_arm_count user = Some 2 ->
   ans_ocpus (ans_arm user 1) = Some 3 ->
   arm_flex_ocpus_per_instance cfg = [3; 1]).
Proof.
  cbv zeta. split.
  - intros k o. destruct (custom_arm_ocpus oci_config inv user) as [->|[n ->]].
    + discriminate.
    + apply arm_loop_recurrence.
  - intros Himg Hav Hcount Hfirst. unfold configure_custom_instances.
    rewrite Himg, Hav, Hcount. simpl.
    change (1 + Z.of_nat 0) with 1. rewrite Hfirst. simpl.
    f_equal. f_equal. lia.
Qed.

Lemma custom_arm_arrays (oci_config : OciConfig) (inv : Inventory) (user : UserAnswers) :
  arm_arrays_parallel (configure_custom_instances oci_config inv user).
Proof.
  unfold configure_custom_instances, arm_arrays_parallel.
  destruct (_ && _)%bool; simpl; [|repeat split; reflexivity].
  rewrite range_from_1.
  match goal with
  | |- context [fold_left _ (map _ (seq 0 ?n)) ?st] =>
      change (fold_left (arm_loop_body user) (map (fun k => 1 + Z.of_nat k) (seq 0 n)) st)
        with (arm_loop_after user (arm_ocpus (calculate_available_resources inv))
                (arm_memory (calculate_available_resources inv)) n);
      pose proof (arm_loop_lengths user (arm_ocpus (calculate_available_resources inv))
                    (arm_memory (calculate_available_resources inv)) n)
        as (-> & -> & -> & ->)
  end.
  lia.
Qed.

Lemma existing_arm_arrays (inv : Inventory) :
  arm_arrays_parallel (configure_from_existing_instances inv).
Proof.
  unfold configure_from_existing_instances, arm_arrays_parallel, values, len, Py.repeat.
  destruct (_ && _)%bool; simpl; [repeat split; reflexivity|].
  rewrite !length_map, !repeat_length. repeat split; reflexivity.
Qed.

Lemma maximum_arm_arrays (oci_config : OciConfig) (inv : Inventory) :
  arm_arrays_parallel (configure_maximum_free_tier oci_config inv).
Proof.
  unfold configure_maximum_free_tier, arm_arrays_parallel.
  destruct (_ && _)%bool; simpl; repeat split; reflexivity.
Qed.

Lemma custom_arm_count (oci_config : OciConfig) (inv : Inventory) (user : UserAnswers) :
  Py.truthy (ubuntu_arm_flex_image_ocid oci_config) = true ->
  0 < arm_ocpus (calculate_available_resources inv) ->
  arm_flex_instance_count (configure_custom_instances oci_config inv user)
  = Z.max 0 (Z.min (ask 1 (ans_arm_count user)) 4).
Proof.
  intros Himg Hheadroom. unfold configure_custom_instances. rewrite Himg.
  destruct (Z.ltb_spec 0 (arm_ocpus (calculate_available_resources inv))); [|lia].
  reflexivity.
Qed.

Lemma sum_at_least_length (xs : list Z) :
  Forall (fun x => 1 <= x) xs -> Z.of_nat (length xs) <= Py.sum xs.
Proof.
  induction 1 as [|x xs Hx _ IH]; [reflexivity|].
  rewrite sum_cons. cbn [length]. lia.
Qed.

Lemma custom_ocpus_all_at_least_1 (oci_config : OciConfig) (inv : Inventory)
    (user : UserAnswers) :
  Forall (fun o => 1 <= o)
    (arm_flex_ocpus_per_instance (configure_custom_instances oci_config inv user)).
Proof.
  destruct (custom_arm_ocpus oci_config inv user) as [->|[n ->]].
  - constructor.
  - apply arm_loop_ocpus_at_least_1.
Qed.

Lemma custom_ocpus_recurrence (oci_config : OciConfig) (inv : Inventory)
    (user : UserAnswers) (k : nat) (o : Z) :
  let ocpus :=
    arm_flex_ocpus_per_instance (configure_custom_instances oci_config inv user) in
  ocpus !! k = Some o ->
  let remaining :=
    arm_ocpus (calculate_available_resources inv) - Py.sum (take k ocpus) in
  o = clamp_ocpus (ask remaining (ans_ocpus (ans_arm user (1 + Z.of_nat k)))) remaining.
Proof.
  cbv zeta. destruct (custom_arm_ocpus oci_config inv user) as [->|[n ->]].
  - discriminate.
  - apply arm_loop_recurrence.
Qed.

(** C9.  In the custom planner every planned ARM instance has an OCPU
    allocation (as many as the clamped answer to the count prompt when
    the ARM branch is taken), and every allocation is at least 1: once
    the headroom left by the allocations before it is zero or below, the
    clamp [max(1, min(requested, remaining))] still yields exactly 1.  So
    the plan hands out more than the headroom whenever the first of two
    or more instances takes its default, the whole headroom: every
    further instance adds 1.  With an empty tenancy (4 OCPUs of
    headroom) and two instances at their defaults the plan is [4; 1], 5
    OCPUs in all. *)
Theorem custom_ocpus_at_least_one :
  (forall oci_config inv user,
      let cfg := configure_custom_instances oci_config inv user in
      let headroom := arm_ocpus (calculate_available_resources inv) in
      let ocpus := arm_flex_ocpus_per_instance cfg in
      Z.of_nat (length ocpus) = arm_flex_instance_count cfg /\
      (Py.truthy (ubuntu_arm_flex_image_ocid oci_config) = true -> 0 < headroom ->
       arm_flex_instance_count cfg = Z.max 0 (Z.min (ask 1 (ans_arm_count user)) 4)) /\
      Forall (fun o => 1 <= o) ocpus /\
      (forall (k : nat) (o : Z),
          ocpus !! k = Some o ->
          headroom - Py.sum (take k ocpus) <= 0 ->
          o = 1) /\
      (Py.truthy (ubuntu_arm_flex_image_ocid oci_config) = true -> 0 < headroom ->
       2 <= ask 1 (ans_arm_count user) ->
       ans_ocpus (ans_arm user 1) = None ->
       ocpus !! 0%nat = Some headroom /\
       headroom + (arm_flex_instance_count cfg - 1) <= Py.sum ocpus /\
       headroom < Py.sum ocpus)) /\
  arm_ocpus (calculate_available_resources empty_inventory) = 4 /\
  arm_flex_ocpus_per_instance
    (configure_custom_instances example_oci_config empty_inventory two_arm_defaults)
  = [4; 1].
Proof.
  split; [|split; reflexivity].
  intros oci_config inv user. cbv zeta.
  pose proof (custom_arm_arrays oci_config inv user) as (Hlen & _).
  pose proof (custom_ocpus_all_at_least_1 oci_config inv user) as Hall.
  split; [exact Hlen|]. split; [apply custom_arm_count|]. split; [exact Hall|]. split.
  - intros k o Hk Hleft.
    rewrite (custom_ocpus_recurrence oci_config inv user k o Hk).
    unfold clamp_ocpus. lia.
  - intros Himg Hheadroom Hcount Hfirst.
    pose proof (custom_arm_count oci_config inv user Himg Hheadroom) as Hn.
    pose proof (custom_ocpus_recurrence oci_config inv user 0) as Hrec.
    cbv zeta in Hrec.
    destruct (arm_flex_ocpus_per_instance
                (configure_custom_instances oci_config inv user)) as [|o1 rest];
      [cbn [length] in Hlen; lia|].
    specialize (Hrec o1 eq_refl).
    cbn [take] in Hrec. change (Py.sum []) with 0 in Hrec.
    change (1 + Z.of_nat 0) with 1 in Hrec. rewrite Hfirst in Hrec.
    unfold clamp_ocpus, ask in Hrec. cbn [default] in Hrec.
    assert (o1 = arm_ocpus (calculate_available_resources inv)) as -> by lia.
    split; [reflexivity|].
    apply List.Forall_inv_tail in Hall.
    pose proof (sum_at_least_length rest Hall) as Hrest.
    rewrite sum_cons. cbn [length] in Hlen. lia.
Qed.

(** For two instances at their defaults on an empty tenancy the theorem
    gives: two allocations, the first of 4 OCPUs, the whole headroom, and
    more than 4 OCPUs in all. *)
Lemma custom_ocpus_at_least_one_witness :
  let ocpus :=
    arm_flex_ocpus_per_instance
      (configure_custom_instances example_oci_config empty_inventory two_arm_defaults) in
  length ocpus = 2%nat /\ ocpus !! 0%nat = Some 4 /\ 4 < Py.sum ocpus.
Proof.
  cbv zeta.
  destruct (proj1 custom_ocpus_at_least_one example_oci_config empty_inventory
              two_arm_defaults) as (Hlen & Hcount & _ & _ & Hover).
  specialize (Hcount eq_refl ltac:(reflexivity)).
  destruct (Hover eq_refl ltac:(reflexivity) ltac:(cbn; lia) eq_refl)
    as (Hfirst & _ & Hsum).
  rewrite Hcount in Hlen. change (Z.max 0 (Z.min (ask 1 (ans_arm_count two_arm_defaults)) 4))
    with 2 in Hlen.
  split; [lia|]. split; [exact Hfirst|exact Hsum].
Defined.

Lemma sequential_arm_ocpu_allocation_witness :
  arm_flex_ocpus_per_instance
    (configure_custom_instances example_oci_config empty_inventory
       two_arm_three_then_default) = [3; 1].
Proof.
  apply (proj2 (sequential_arm_ocpu_allocation example_oci_config empty_inventory
                  two_arm_three_then_default)); reflexivity.
Defined.

(** C5, where the code departs from the claim.  With three AMD instances
    in the tenancy the AMD headroom is [-1], and the maximum-utilisation
    strategy copies it into the plan: the planned AMD instance count is
    negative.  The custom strategy clamps the same headroom to zero. *)
Theorem maximum_free_tier_negative_amd_count :
  amd_instances (calculate_available_resources three_amd_inventory) = -1 /\
  amd_micro_instance_count
    (configure_maximum_free_tier example_oci_config three_amd_inventory) = -1 /\
  (forall user,
      amd_micro_instance_count
        (configure_custom_instances example_oci_config three_amd_inventory user) = 0).
Proof.
  split; [reflexivity|]. split; [reflexivity|].
  intros user. unfold configure_custom_instances.
  change (amd_instances (calculate_available_resources three_amd_inventory)) with (-1).
  destruct (_ && _)%bool; simpl; lia.
Qed.

(** ** Retry and backoff *)

Lemma schedule_app (new old : list Event) :
  schedule (new ++ old) = (schedule old ++ schedule new)%list.
Proof. unfold schedule. rewrite rev_app_distr, omap_app. reflexivity. Qed.

Lemma schedule_cons (ev : Event) (old : list Event) :
  schedule (ev :: old) =
  (schedule old ++ match step_of ev with Some st => [st] | None => [] end)%list.
Proof.
  change (ev :: old) with ([ev] ++ old)%list.
  rewrite schedule_app. unfold schedule at 2. cbn [rev app omap list_omap].
  destruct (step_of ev); reflexivity.
Qed.

Lemma schedule_commands (evs : list Event) :
  Forall is_command evs -> schedule evs = [].
Proof.
  induction 1 as [|ev evs Hev _ IH]; [reflexivity|].
  rewrite schedule_cons, IH. destruct ev; try contradiction. reflexivity.
Qed.

Lemma backoff_schedule_snoc (base n : Z) (retries : nat) :
  backoff_schedule base n (S retries) =
  (backoff_schedule base n retries ++
   [Sleep (base * 2 ^ (n + Z.of_nat retries - 1)); Attempt (n + Z.of_nat retries + 1)])%list.
Proof.
  revert n. induction retries as [|r IH]; intros n.
  - simpl. rewrite Z.add_0_r. reflexivity.
  - change (backoff_schedule base n (S (S r)))
      with (Attempt n :: Sleep (base * 2 ^ (n - 1)) :: backoff_schedule base (n + 1) (S r)).
    rewrite IH. replace (n + 1 + Z.of_nat r) with (n + Z.of_nat (S r)) by lia.
    reflexivity.
Qed.

(** Equal traces up to the bracketing of [++]. *)
Ltac trace_eq :=
  repeat first [rewrite <- app_assoc | progress cbn [app]]; reflexivity.

Section RetryLoop.

Context {S A : Type}.
Variable exn_str : Exn -> string.
Variable clock : Trace -> Z -> option Exn.
Variable func_name : string.
Variable func : M S A.
Variable max_attempts base_delay : Z.

Local Abbreviation loop := (retry_loop exn_str clock (S:=S) (A:=A)).
Local Abbreviation announce attempt :=
  (EPrint Status (MsgAttempt attempt max_attempts func_name)).
Local Abbreviation delay attempt := (base_delay * 2 ^ (attempt - 1)).

Local Abbreviation warning_for := (retry_warning exn_str).

(** The loop, one iteration at a time. *)
Lemma retry_loop_exit fuel attempt last_error s t :
  max_attempts < attempt ->
  loop fuel func_name func max_attempts base_delay attempt last_error s t =
  Some (Raise (default TypeError last_error), s,
        EPrint Error (MsgFailedAfter max_attempts) :: t).
Proof.
  intros Hgt. destruct fuel; simpl;
    (destruct (Z.leb_spec attempt max_attempts) as [?|_]; [lia|]);
    destruct last_error; reflexivity.
Qed.

Lemma retry_loop_step fuel attempt last_error s t :
  attempt <= max_attempts ->
  loop (Datatypes.S fuel) func_name func max_attempts base_delay attempt last_error s t =
  match func s (announce attempt :: t) with
  | None => None
  | Some (Return a, s', t') => Some (Return a, s', t')
  | Some (Raise e, s', t') =>
      if attempt <? max_attempts then
        let asked :=
          EPrint Status (MsgRetrying (delay attempt)) :: warning_for attempt e :: t' in
        match sleep_error clock asked (delay attempt) with
        | Some e' => Some (Raise e', s', asked)
        | None =>
            loop fuel func_name func max_attempts base_delay (attempt + 1) (Some e) s'
              (ESleep (delay attempt) :: asked)
        end
      else
        Some (Raise e, s',
              EPrint Error (MsgFailedAfter max_attempts)
                :: warning_for attempt e :: t')
  end.
Proof.
  intros Hle. cbn [retry_loop].
  destruct (Z.leb_spec attempt max_attempts) as [_|?]; [|lia].
  unfold mbind, M_bind, print_status, print_warning, print_error, try_except,
    sleep, emit, raise, raise_last, retry_warning.
  destruct (func s _) as [[[[a|e] s'] t']|]; try reflexivity.
  cbv zeta.
  destruct (mentions_capacity (exn_str e));
    destruct (attempt <? max_attempts); try reflexivity;
    destruct (sleep_error clock _ (delay attempt)); reflexivity.
Qed.

Lemma retry_loop_schedule (Hfunc : commands_only func) :
  forall (fuel : nat) (attempt : Z) (last_error : option Exn) (s : S) (t : Trace),
    max_attempts + 1 - attempt <= Z.of_nat fuel ->
    exists res s' evs,
      loop fuel func_name func max_attempts base_delay attempt last_error s t
      = Some (res, s', (evs ++ t)%list) /\
      ((max_attempts < attempt /\ schedule evs = []) \/
       (exists retries : nat,
           attempt + Z.of_nat retries <= max_attempts /\
           schedule evs = backoff_schedule base_delay attempt retries)).
Proof.
  induction fuel as [|fuel IH]; intros attempt last_error s t Hfuel.
  - rewrite retry_loop_exit by lia.
    eexists _, _, [_]. split; [reflexivity|]. left. split; [lia|reflexivity].
  - destruct (Z.le_gt_cases attempt max_attempts) as [Hle|Hgt].
    2:{ rewrite retry_loop_exit by lia.
        eexists _, _, [_]. split; [reflexivity|]. left. split; [lia|reflexivity]. }
    rewrite retry_loop_step by lia.
    destruct (Hfunc s (announce attempt :: t)) as (res & s' & evs & -> & Hq).
    apply schedule_commands in Hq.
    destruct res as [a|e].
    + exists (Return a), s', (evs ++ [announce attempt])%list.
      split; [trace_eq|].
      right. exists 0%nat. split; [lia|].
      rewrite schedule_app, Hq. reflexivity.
    + destruct (Z.ltb_spec attempt max_attempts) as [Hlt|Hge].
      * cbv zeta. destruct (sleep_error clock _ (delay attempt)) as [e'|].
        -- eexists _, _, (_ :: _ :: evs ++ [announce attempt])%list.
           split; [trace_eq|].
           right. exists 0%nat. split; [lia|].
           rewrite !schedule_cons, schedule_app, Hq. reflexivity.
        -- destruct (IH (attempt + 1) (Some e) s'
                       (ESleep (delay attempt)
                          :: EPrint Status (MsgRetrying (delay attempt))
                          :: warning_for attempt e :: (evs ++ announce attempt :: t)%list))
             as (res & s'' & evs' & -> & Hsched); [lia|].
           exists res, s'',
             (evs' ++ ESleep (delay attempt)
                :: EPrint Status (MsgRetrying (delay attempt))
                :: warning_for attempt e :: evs ++ [announce attempt])%list.
           split; [trace_eq|].
           right. destruct Hsched as [[? _]|(retries & Hbound & Hs)]; [lia|].
           exists (Datatypes.S retries). split; [lia|].
           rewrite schedule_app, Hs, !schedule_cons, schedule_app, Hq. reflexivity.
      * eexists _, _, (_ :: _ :: evs ++ [announce attempt])%list.
        split; [trace_eq|].
        right. exists 0%nat. split; [lia|].
        rewrite !schedule_cons, schedule_app, Hq. reflexivity.
Qed.

End RetryLoop.

Lemma app_eq_app_cons {X} (l1 l2 after before : list X) (x : X) :
  (l1 ++ l2 = after ++ x :: before)%list ->
  (exists mid, l1 = (after ++ x :: mid)%list /\ before = (mid ++ l2)%list) \/
  (exists mid, after = (l1 ++ mid)%list /\ l2 = (mid ++ x :: before)%list).
Proof.
  revert after. induction l1 as [|y l1 IH]; intros after Heq.
  - right. exists after. split; [reflexivity|exact Heq].
  - destruct after as [|z after]; simpl in Heq; injection Heq as -> Heq.
    + left. exists l1. split; [reflexivity|symmetry; exact Heq].
    + destruct (IH _ Heq) as [(mid & -> & ->)|(mid & -> & ->)].
      * left. exists mid. split; reflexivity.
      * right. exists mid. split; reflexivity.
Qed.

(** Take apart [after ++ x :: before = e1 :: ... :: en :: []]. *)
Ltac split_events H :=
  repeat match type of H with
    | (?after ++ _ :: _)%list = _ =>
        destruct after; cbn [app] in H;
        [ first [discriminate H | injection H as H; try discriminate H]
        | first [discriminate H | injection H as ? H] ]
    | _ :: _ = (?after ++ _ :: _)%list => symmetry in H
    end.

Section ApplyLoop.

Context {S : Type}.
Variable env : Trace -> list string -> Exn + CompletedProcess.
Variable clock : Trace -> Z -> option Exn.
Variable markup_ok : string -> bool.
Variable RETRY_MAX_ATTEMPTS RETRY_BASE_DELAY : Z.

Local Abbreviation loop :=
  (apply_loop env clock markup_ok RETRY_MAX_ATTEMPTS RETRY_BASE_DELAY (S:=S)).
Local Abbreviation announce attempt :=
  (EPrint Status (MsgApplyAttempt attempt RETRY_MAX_ATTEMPTS)).
Local Abbreviation delay attempt := (RETRY_BASE_DELAY * 2 ^ (attempt - 1)).

Lemma apply_loop_exit fuel attempt s t :
  RETRY_MAX_ATTEMPTS < attempt ->
  loop fuel attempt s t =
  Some (Return false, s, EPrint Error (MsgApplyGaveUp RETRY_MAX_ATTEMPTS) :: t).
Proof.
  intros Hgt. destruct fuel; cbn [apply_loop];
    (destruct (Z.leb_spec attempt RETRY_MAX_ATTEMPTS) as [?|_]; [lia|]);
    reflexivity.
Qed.

Lemma apply_loop_step fuel attempt s t :
  attempt <= RETRY_MAX_ATTEMPTS ->
  loop (Datatypes.S fuel) attempt s t =
  match env (announce attempt :: t) apply_cmd with
  | inl e => Some (Raise e, s, ECommand apply_cmd (inl e) :: announce attempt :: t)
  | inr r =>
      let t1 := ECommand apply_cmd (inr r) :: announce attempt :: t in
      if returncode r =? 0 then
        Some (Return true, s, EPrint Success MsgApplySucceeded :: t1)
      else if mentions_capacity (stdout r +:+ stderr r) then
        if attempt <? RETRY_MAX_ATTEMPTS then
          let asked :=
            EPrint Status (MsgWaiting (delay attempt))
              :: EPrint Warning MsgApplyCapacity :: t1 in
          match sleep_error clock asked (delay attempt) with
          | Some e => Some (Raise e, s, asked)
          | None => loop fuel (attempt + 1) s (ESleep (delay attempt) :: asked)
          end
        else
          Some (Return false, s,
                EPrint Error (MsgApplyGaveUp RETRY_MAX_ATTEMPTS)
                  :: EPrint Warning MsgApplyCapacity :: t1)
      else if markup_ok (stdout r +:+ stderr r) then
        Some (Return false, s,
              EConsole (stdout r +:+ stderr r)
                :: EPrint Error MsgApplyNonRetryable :: t1)
      else
        Some (Raise MarkupError, s, EPrint Error MsgApplyNonRetryable :: t1)
  end.
Proof.
  intros Hle. cbn [apply_loop].
  destruct (Z.leb_spec attempt RETRY_MAX_ATTEMPTS) as [_|?]; [|lia].
  unfold mbind, M_bind, print_status, print_warning, print_error, print_success,
    console_print_output, run_command, sleep, emit, raise, apply_cmd.
  destruct (env _ _) as [e|r]; [reflexivity|]. cbv zeta.
  destruct (returncode r =? 0); [reflexivity|].
  destruct (mentions_capacity _).
  - destruct (attempt <? RETRY_MAX_ATTEMPTS); [|reflexivity].
    destruct (sleep_error clock _ (delay attempt)); reflexivity.
  - destruct (markup_ok _); reflexivity.
Qed.

Lemma apply_loop_classified :
  forall (fuel : nat) (attempt : Z) (s : S) (t : Trace),
    RETRY_MAX_ATTEMPTS + 1 - attempt <= Z.of_nat fuel ->
    exists res evs,
      loop fuel attempt s t = Some (res, s, (evs ++ t)%list) /\
      apply_failures_classified clock markup_ok RETRY_MAX_ATTEMPTS RETRY_BASE_DELAY
        t res evs /\
      commands_answered env t evs /\
      (attempt <= RETRY_MAX_ATTEMPTS ->
       exists o pre, evs = (pre ++ [ECommand apply_cmd o; announce attempt])%list).
Proof.
  induction fuel as [|fuel IH]; intros attempt s t Hfuel;
    (destruct (Z.le_gt_cases attempt RETRY_MAX_ATTEMPTS) as [Hle|Hgt];
     [|rewrite apply_loop_exit by lia;
       eexists _, [_]; split; [reflexivity|]; split; [|split; [|lia]];
       [intros after r before Heq; split_events Heq
       |intros after cmd o before Heq; split_events Heq]]).
  { lia. }
  rewrite apply_loop_step by lia.
  destruct (env _ _) as [e|r0] eqn:Henv.
  { eexists _, [_; _]. split; [reflexivity|]. split; [|split].
    - intros after r before Heq. split_events Heq.
    - intros after cmd o before Heq. split_events Heq. subst. symmetry. exact Henv.
    - intros _. exists (inl e), []. reflexivity. }
  cbv zeta.
  destruct (Z.eqb_spec (returncode r0) 0) as [Hrc|Hrc].
  { eexists _, [_; _; _]. split; [reflexivity|]. split; [|split].
    - intros after r before Heq Hr. split_events Heq. subst. contradiction.
    - intros after cmd o before Heq. split_events Heq. subst. symmetry. exact Henv.
    - intros _. eexists (inr r0), [_]. reflexivity. }
  destruct (mentions_capacity (stdout r0 +:+ stderr r0)) eqn:Hcap.
  2:{ destruct (markup_ok (stdout r0 +:+ stderr r0)) eqn:Hmarkup.
      - eexists _, [_; _; _; _]. split; [reflexivity|]. split; [|split].
        + intros after r before Heq Hr. split_events Heq. subst.
          cbv zeta. rewrite Hcap, Hmarkup. exists attempt.
          split; [reflexivity|]. split; reflexivity.
        + intros after cmd o before Heq. split_events Heq. subst. symmetry. exact Henv.
        + intros _. eexists (inr r0), [_; _]. reflexivity.
      - eexists _, [_; _; _]. split; [reflexivity|]. split; [|split].
        + intros after r before Heq Hr. split_events Heq. subst.
          cbv zeta. rewrite Hcap, Hmarkup. exists attempt.
          split; [reflexivity|]. split; reflexivity.
        + intros after cmd o before Heq. split_events Heq. subst. symmetry. exact Henv.
        + intros _. eexists (inr r0), [_]. reflexivity. }
  destruct (Z.ltb_spec attempt RETRY_MAX_ATTEMPTS) as [Hlt|Hge].
  2:{ eexists _, [_; _; _; _]. split; [reflexivity|]. split; [|split].
      - intros after r before Heq Hr. split_events Heq. subst.
        cbv zeta. rewrite Hcap. exists attempt. split; [reflexivity|].
        destruct (Z.ltb_spec attempt RETRY_MAX_ATTEMPTS); [lia|].
        split; reflexivity.
      - intros after cmd o before Heq. split_events Heq. subst. symmetry. exact Henv.
      - intros _. eexists (inr r0), [_; _]. reflexivity. }
  destruct (sleep_error clock _ (delay attempt)) as [e'|] eqn:Hsleep.
  { eexists _, [_; _; _; _]. split; [reflexivity|]. split; [|split].
    - intros after r before Heq Hr. split_events Heq. subst.
      cbv zeta. rewrite Hcap. exists attempt. split; [reflexivity|].
      destruct (Z.ltb_spec attempt RETRY_MAX_ATTEMPTS); [|lia].
      cbn [app]. rewrite Hsleep. split; reflexivity.
    - intros after cmd o before Heq. split_events Heq. subst. symmetry. exact Henv.
    - intros _. eexists (inr r0), [_; _]. reflexivity. }
  match goal with
  | |- context [loop fuel (attempt + 1) s ?t1] =>
      destruct (IH (attempt + 1) s t1) as (res & evs & -> & Hclass & Hanswered & Hfirst);
        [lia|]
  end.
  destruct Hfirst as (next & pre & ->); [lia|].
  exists res,
    ((pre ++ [ECommand apply_cmd next; announce (attempt + 1)]) ++
     [ESleep (delay attempt); EPrint Status (MsgWaiting (delay attempt));
      EPrint Warning MsgApplyCapacity; ECommand apply_cmd (inr r0);
      announce attempt])%list.
  split; [trace_eq|]. split; [|split].
  - intros after r before Heq Hr. cbv zeta.
    apply app_eq_app_cons in Heq as [(mid & Hevs & ->)|(mid & -> & Hround)].
    + specialize (Hclass after r mid Hevs Hr). cbv zeta in Hclass.
      destruct Hclass as (n & Hhd & Hn). exists n. split.
      { destruct mid; [discriminate Hhd|exact Hhd]. }
      rewrite <- !app_assoc. exact Hn.
    + split_events Hround. subst. rewrite Hcap.
      exists attempt. split; [reflexivity|].
      destruct (Z.ltb_spec attempt RETRY_MAX_ATTEMPTS); [|lia].
      cbn [app]. rewrite Hsleep.
      exists next, pre. trace_eq.
  - intros after cmd o before Heq.
    apply app_eq_app_cons in Heq as [(mid & Hevs & ->)|(mid & -> & Hround)].
    + rewrite (Hanswered after cmd o mid Hevs). rewrite <- !app_assoc. reflexivity.
    + split_events Hround. subst. symmetry. exact Henv.
  - intros _. exists (inr r0),
      (pre ++ [ECommand apply_cmd next; announce (attempt + 1);
               ESleep (delay attempt); EPrint Status (MsgWaiting (delay attempt));
               EPrint Warning MsgApplyCapacity])%list.
    trace_eq.
Qed.
End ApplyLoop.

Lemma out_of_capacity_auto_apply_eq {S}
    (env : Trace -> list string -> Exn + CompletedProcess)
    (clock : Trace -> Z -> option Exn) (markup_ok : string -> bool)
    (RETRY_MAX_ATTEMPTS RETRY_BASE_DELAY : Z) (s : S) (t : Trace) :
  out_of_capacity_auto_apply env clock markup_ok RETRY_MAX_ATTEMPTS RETRY_BASE_DELAY s t =
  apply_loop env clock markup_ok RETRY_MAX_ATTEMPTS RETRY_BASE_DELAY
    (Z.to_nat RETRY_MAX_ATTEMPTS) 1 s
    (EPrint Status (MsgAutoRetrying RETRY_MAX_ATTEMPTS) :: t).
Proof. reflexivity. Qed.

Lemma backoff_schedule_after_attempt (base : Z) (retries : nat) :
  forall (n : Z) (i : nat) (m d : Z),
    backoff_schedule base n retries !! i = Some (Attempt m) ->
    backoff_schedule base n retries !! S i = Some (Sleep d) ->
    d = base * 2 ^ (m - 1) /\
    backoff_schedule base n retries !! S (S i) = Some (Attempt (m + 1)).
Proof.
  induction retries as [|r IH]; intros n i m d Hi Hsi.
  - destruct i as [|[|i]]; discriminate Hsi.
  - change (backoff_schedule base n (S r))
      with (Attempt n :: Sleep (base * 2 ^ (n - 1)) :: backoff_schedule base (n + 1) r)
      in *.
    destruct i as [|[|i]].
    + injection Hi as <-. injection Hsi as <-. split; [reflexivity|].
      destruct r; reflexivity.
    + discriminate Hi.
    + exact (IH (n + 1) i m d Hi Hsi).
Qed.

Lemma backoff_schedule_attempts (base : Z) (retries : nat) (n : Z) :
  attempt_numbers (backoff_schedule base n retries) =
  Py.range n (n + Z.of_nat retries + 1).
Proof.
  revert n. induction retries as [|r IH]; intros n.
  - unfold Py.range. replace (n + Z.of_nat 0 + 1 - n) with 1 by lia.
    change (Z.to_nat 1) with 1%nat. cbn. rewrite Z.add_0_r. reflexivity.
  - change (backoff_schedule base n (S r))
      with (Attempt n :: Sleep (base * 2 ^ (n - 1)) :: backoff_schedule base (n + 1) r).
    cbn [attempt_numbers omap list_omap]. fold (attempt_numbers (backoff_schedule base (n + 1) r)).
    rewrite IH. unfold Py.range.
    replace (n + Z.of_nat (S r) + 1 - n) with (Z.of_nat (S (S r))) by lia.
    replace (n + 1 + Z.of_nat r + 1 - (n + 1)) with (Z.of_nat (S r)) by lia.
    rewrite !Nat2Z.id.
    change (seq 0 (S (S r))) with (0%nat :: seq 1 (S r)).
    rewrite <- seq_shift. cbn [map]. rewrite map_map. f_equal; [lia|].
    apply map_ext. intros k. lia.
Qed.

Lemma backoff_schedule_last (base : Z) (retries : nat) (n : Z) :
  last (backoff_schedule base n retries) = Some (Attempt (n + Z.of_nat retries)).
Proof.
  destruct retries as [|r].
  - cbn. rewrite Z.add_0_r. reflexivity.
  - revert n. induction r as [|r IH]; intros n.
    + cbn. first [reflexivity | do 2 f_equal; lia].
    + rewrite backoff_schedule_snoc.
      rewrite last_app. cbn [last].
      first [reflexivity | do 2 f_equal; lia].
Qed.

(** ** What follows each attempt of the retry loop *)

Lemma split_last {X} (P : X -> Prop) (l : list X) (a x : X) (after before : list X) :
  P x -> Forall (fun y => ~ P y) l ->
  (l ++ [a] = after ++ x :: before)%list ->
  after = l /\ x = a /\ before = [].
Proof.
  intros Hx Hl. revert after. induction Hl as [|y l Hy _ IH]; intros after Heq.
  - destruct after as [|z after]; cbn [app] in Heq.
    + injection Heq as <- <-. auto.
    + injection Heq as _ Heq. destruct after; discriminate Heq.
  - destruct after as [|z after]; cbn [app] in Heq.
    + injection Heq as -> _. contradiction.
    + injection Heq as <- Heq. destruct (IH _ Heq) as (-> & -> & ->). auto.
Qed.

(** The announcement of an attempt. *)
Local Abbreviation announcement :=
  (fun ev => match ev with EPrint Status (MsgAttempt _ _ _) => True | _ => False end).

Lemma commands_announce_nothing (evs : list Event) :
  Forall is_command evs -> Forall (fun ev => ~ announcement ev) evs.
Proof.
  intros Hevs. eapply Forall_impl; [exact Hevs|].
  intros ev Hev. destruct ev; try contradiction. intros [].
Qed.

Lemma warning_announces_nothing (exn_str : Exn -> string) (n : Z) (e : Exn) :
  ~ announcement (retry_warning exn_str n e).
Proof. intros []. Qed.

Section RetryFacts.

Context {S A : Type}.
Variable exn_str : Exn -> string.
Variable clock : Trace -> Z -> option Exn.
Variable func_name : string.
Variable func : M S A.
Variable max_attempts base_delay : Z.

Local Abbreviation loop := (retry_loop exn_str clock (S:=S) (A:=A)).
Local Abbreviation announce attempt :=
  (EPrint Status (MsgAttempt attempt max_attempts func_name)).
Local Abbreviation delay attempt := (base_delay * 2 ^ (attempt - 1)).

Lemma retry_loop_classified (Hfunc : commands_only func) :
  forall (fuel : nat) (attempt : Z) (last_error : option Exn) (s : S) (t : Trace),
    max_attempts + 1 - attempt <= Z.of_nat fuel ->
    exists res s' evs,
      loop fuel func_name func max_attempts base_delay attempt last_error s t
      = Some (res, s', (evs ++ t)%list) /\
      attempts_classified exn_str clock func_name func max_attempts base_delay
        t res s' evs /\
      (attempt <= max_attempts -> exists pre, evs = (pre ++ [announce attempt])%list).
Proof.
  induction fuel as [|fuel IH]; intros attempt last_error s t Hfuel;
    (destruct (Z.le_gt_cases attempt max_attempts) as [Hle|Hgt];
     [|rewrite retry_loop_exit by lia;
       eexists _, _, [_]; split; [reflexivity|]; split; [|lia];
       intros after n before Heq; split_events Heq]).
  { lia. }
  rewrite retry_loop_step by lia.
  destruct (Hfunc s (announce attempt :: t)) as (r & s1 & cevs & Hcall & Hcmds).
  rewrite Hcall.
  pose proof (commands_announce_nothing cevs Hcmds) as Hquiet.
  destruct r as [a|e].
  { exists (Return a), s1, (cevs ++ [announce attempt])%list.
    split; [trace_eq|]. split; [|intros _; exists cevs; reflexivity].
    intros after n before Heq. cbv zeta.
    apply (split_last announcement) in Heq as (-> & Hn & ->); [|exact I|exact Hquiet].
    injection Hn as ->.
    exists s, (Return a), s1, cevs, []. cbn [app]. auto. }
  destruct (Z.ltb_spec attempt max_attempts) as [Hlt|Hge].
  2:{ exists (Raise e), s1,
        (EPrint Error (MsgFailedAfter max_attempts) :: retry_warning exn_str attempt e
           :: cevs ++ [announce attempt])%list.
      split; [trace_eq|]. split; [|intros _; eexists (_ :: _ :: cevs); reflexivity].
      intros after n before Heq. cbv zeta.
      change (EPrint Error (MsgFailedAfter max_attempts) :: retry_warning exn_str attempt e
                :: cevs ++ [announce attempt])%list
        with ((EPrint Error (MsgFailedAfter max_attempts)
                 :: retry_warning exn_str attempt e :: cevs) ++ [announce attempt])%list
        in Heq.
      apply (split_last announcement) in Heq as (-> & Hn & ->);
        [|exact I
         |constructor; [intros []|constructor;
                                  [apply warning_announces_nothing|exact Hquiet]]].
      injection Hn as ->.
      exists s, (Raise e), s1, cevs,
        [EPrint Error (MsgFailedAfter max_attempts); retry_warning exn_str attempt e].
      split; [reflexivity|]. split; [exact Hcall|].
      destruct (Z.ltb_spec attempt max_attempts); [lia|]. auto. }
  cbv zeta.
  destruct (sleep_error clock _ (delay attempt)) as [e'|] eqn:Hsleep.
  { exists (Raise e'), s1,
      (EPrint Status (MsgRetrying (delay attempt)) :: retry_warning exn_str attempt e
         :: cevs ++ [announce attempt])%list.
    split; [trace_eq|]. split; [|intros _; eexists (_ :: _ :: cevs); reflexivity].
    intros after n before Heq. cbv zeta.
    change (EPrint Status (MsgRetrying (delay attempt)) :: retry_warning exn_str attempt e
              :: cevs ++ [announce attempt])%list
      with ((EPrint Status (MsgRetrying (delay attempt))
               :: retry_warning exn_str attempt e :: cevs) ++ [announce attempt])%list
      in Heq.
    apply (split_last announcement) in Heq as (-> & Hn & ->);
      [|exact I
       |constructor; [intros []|constructor;
                                [apply warning_announces_nothing|exact Hquiet]]].
    injection Hn as ->.
    exists s, (Raise e), s1, cevs,
      [EPrint Status (MsgRetrying (delay attempt)); retry_warning exn_str attempt e].
    split; [reflexivity|]. split; [exact Hcall|].
    destruct (Z.ltb_spec attempt max_attempts); [|lia].
    cbn [app]. rewrite Hsleep. auto. }
  match goal with
  | |- context [loop fuel _ _ _ _ (attempt + 1) (Some e) s1 ?t1] =>
      destruct (IH (attempt + 1) (Some e) s1 t1 ltac:(lia))
        as (res & s' & evs & -> & Hclass & Hfirst)
  end.
  destruct Hfirst as (pre & ->); [lia|].
  exists res, s',
    ((pre ++ [announce (attempt + 1)]) ++
     (ESleep (delay attempt) :: EPrint Status (MsgRetrying (delay attempt))
        :: retry_warning exn_str attempt e :: cevs) ++ [announce attempt])%list.
  split; [trace_eq|]. split.
  - intros after n before Heq. cbv zeta.
    apply app_eq_app_cons in Heq as [(mid & Hevs & ->)|(mid & -> & Hround)].
    + specialize (Hclass after n mid Hevs). cbv zeta in Hclass.
      destruct Hclass as (s0 & r & s2 & call_evs & rest & Hafter & Hrun & Hcase).
      exists s0, r, s2, call_evs, rest. split; [exact Hafter|].
      repeat (rewrite <- ?app_assoc; cbn [app]).
      split; [exact Hrun|exact Hcase].
    + apply (split_last announcement) in Hround as (-> & Hn & ->);
        [|exact I
         |constructor; [intros []|constructor; [intros []|constructor;
            [apply warning_announces_nothing|exact Hquiet]]]].
      injection Hn as ->.
      exists s, (Raise e), s1, cevs,
        ((pre ++ [announce (attempt + 1)]) ++
         [ESleep (delay attempt); EPrint Status (MsgRetrying (delay attempt));
          retry_warning exn_str attempt e])%list.
      split; [trace_eq|]. split; [exact Hcall|].
      destruct (Z.ltb_spec attempt max_attempts); [|lia].
      cbn [app]. rewrite Hsleep. exists pre. trace_eq.
  - intros _. eexists. rewrite app_assoc. reflexivity.
Qed.

(** When [func] raises on every call and [time.sleep] returns for the
    delays after the attempts before [stop], the loop runs through the
    attempts up to [stop].  At [stop = max_attempts] it raises what the
    last call raised; at an earlier [stop] whose delay [time.sleep]
    refuses, it raises what [time.sleep] raises. *)
Lemma retry_loop_all_fail (Hfunc : always_raises func) (stop : Z)
    (Hsleeps : forall n, 1 <= n < stop -> sleep_returns clock (delay n))
    (Hstop : stop < max_attempts -> sleep_refused (delay stop) <> None) :
  forall (fuel : nat) (attempt : Z) (last_error : option Exn) (s : S) (t : Trace),
    1 <= attempt <= stop -> stop <= max_attempts ->
    max_attempts + 1 - attempt <= Z.of_nat fuel ->
    exists e s' evs s_last t_last evs_last,
      loop fuel func_name func max_attempts base_delay attempt last_error s t
      = Some (Raise (if stop <? max_attempts
                     then default e (sleep_refused (delay stop)) else e),
              s', (evs ++ t)%list) /\
      schedule evs = backoff_schedule base_delay attempt (Z.to_nat (stop - attempt)) /\
      func s_last (announce stop :: t_last)
      = Some (Raise e, s', (evs_last ++ announce stop :: t_last)%list) /\
      Forall is_command evs_last /\
      (evs ++ t)%list =
        (if stop <? max_attempts
         then EPrint Status (MsgRetrying (delay stop))
         else EPrint Error (MsgFailedAfter max_attempts))
          :: retry_warning exn_str stop e
          :: (evs_last ++ announce stop :: t_last)%list.
Proof.
  induction fuel as [|fuel IH]; intros attempt last_error s t Hle Hmax Hfuel; [lia|].
  rewrite retry_loop_step by lia.
  destruct (Hfunc s (announce attempt :: t)) as (e & s' & evs & Hf & Hq).
  rewrite Hf. cbv zeta.
  destruct (Z.ltb_spec attempt max_attempts) as [Hlt|Hge].
  - destruct (Z.eq_dec attempt stop) as [->|Hne].
    + destruct (sleep_refused (delay stop)) as [e'|] eqn:Hrefused;
        [|exfalso; apply (Hstop Hlt); reflexivity].
      unfold sleep_error. rewrite Hrefused.
      exists e, s',
        (EPrint Status (MsgRetrying (delay stop)) :: retry_warning exn_str stop e
           :: evs ++ [announce stop])%list,
        s, t, evs.
      destruct (Z.ltb_spec stop max_attempts) as [_|?]; [|lia].
      split; [trace_eq|]. split; [|split; [exact Hf|split; [exact Hq|trace_eq]]].
      rewrite !schedule_cons, schedule_app, (schedule_commands evs Hq).
      replace (stop - stop) with 0 by lia. reflexivity.
    + rewrite (Hsleeps attempt ltac:(lia)).
      match goal with
      | |- context [loop fuel _ _ _ _ (attempt + 1) (Some e) s' ?t1] =>
          destruct (IH (attempt + 1) (Some e) s' t1)
            as (e' & s'' & evs' & s_last & t_last & evs_last
                & -> & Hsched & Hlast & Hcmds & Htrace); [lia|lia|lia|]
      end.
      exists e', s'',
        (evs' ++ ESleep (delay attempt) :: EPrint Status (MsgRetrying (delay attempt))
           :: retry_warning exn_str attempt e :: evs ++ [announce attempt])%list,
        s_last, t_last, evs_last.
      split; [trace_eq|]. split; [|split; [exact Hlast|split; [exact Hcmds|]]].
      * rewrite schedule_app, Hsched, !schedule_cons, schedule_app.
        rewrite (schedule_commands evs Hq).
        replace (Z.to_nat (stop - attempt))
          with (Datatypes.S (Z.to_nat (stop - (attempt + 1)))) by lia.
        reflexivity.
      * rewrite <- Htrace. trace_eq.
  - assert (attempt = max_attempts) as -> by lia.
    assert (stop = max_attempts) as -> by lia.
    exists e, s',
      (EPrint Error (MsgFailedAfter max_attempts)
         :: retry_warning exn_str max_attempts e :: evs ++ [announce max_attempts])%list,
      s, t, evs.
    destruct (Z.ltb_spec max_attempts max_attempts) as [?|_]; [lia|].
    split; [trace_eq|]. split; [|split; [exact Hf|split; [exact Hq|trace_eq]]].
    rewrite !schedule_cons, schedule_app, (schedule_commands evs Hq).
    replace (max_attempts - max_attempts) with 0 by lia. reflexivity.
Qed.

End RetryFacts.

Section ApplyLoopRuns.

Context {S : Type}.
Variable env : Trace -> list string -> Exn + CompletedProcess.
Variable clock : Trace -> Z -> option Exn.
Variable markup_ok : string -> bool.
Variable RETRY_MAX_ATTEMPTS RETRY_BASE_DELAY : Z.

Local Abbreviation loop :=
  (apply_loop env clock markup_ok RETRY_MAX_ATTEMPTS RETRY_BASE_DELAY (S:=S)).
Local Abbreviation announce attempt :=
  (EPrint Status (MsgApplyAttempt attempt RETRY_MAX_ATTEMPTS)).
Local Abbreviation delay attempt := (RETRY_BASE_DELAY * 2 ^ (attempt - 1)).

Lemma apply_loop_schedule :
  forall (fuel : nat) (attempt : Z) (s : S) (t : Trace),
    RETRY_MAX_ATTEMPTS + 1 - attempt <= Z.of_nat fuel ->
    exists res evs,
      loop fuel attempt s t = Some (res, s, (evs ++ t)%list) /\
      ((RETRY_MAX_ATTEMPTS < attempt /\ schedule evs = []) \/
       (exists retries : nat,
           attempt + Z.of_nat retries <= RETRY_MAX_ATTEMPTS /\
           schedule evs = backoff_schedule RETRY_BASE_DELAY attempt retries)).
Proof.
  induction fuel as [|fuel IH]; intros attempt s t Hfuel;
    (destruct (Z.le_gt_cases attempt RETRY_MAX_ATTEMPTS) as [Hle|Hgt];
     [|rewrite apply_loop_exit by lia;
       eexists _, [_]; split; [reflexivity|]; left; split; [lia|reflexivity]]).
  { lia. }
  rewrite apply_loop_step by lia.
  destruct (env _ _) as [e|r0].
  { eexists _, [_; _]. split; [reflexivity|].
    right. exists 0%nat. split; [lia|reflexivity]. }
  cbv zeta.
  destruct (returncode r0 =? 0).
  { eexists _, [_; _; _]. split; [reflexivity|].
    right. exists 0%nat. split; [lia|reflexivity]. }
  destruct (mentions_capacity _).
  2:{ destruct (markup_ok _).
      - eexists _, [_; _; _; _]. split; [reflexivity|].
        right. exists 0%nat. split; [lia|reflexivity].
      - eexists _, [_; _; _]. split; [reflexivity|].
        right. exists 0%nat. split; [lia|reflexivity]. }
  destruct (Z.ltb_spec attempt RETRY_MAX_ATTEMPTS) as [Hlt|Hge].
  2:{ eexists _, [_; _; _; _]. split; [reflexivity|].
      right. exists 0%nat. split; [lia|reflexivity]. }
  destruct (sleep_error clock _ (delay attempt)).
  { eexists _, [_; _; _; _]. split; [reflexivity|].
    right. exists 0%nat. split; [lia|reflexivity]. }
  match goal with
  | |- context [loop fuel (attempt + 1) s ?t1] =>
      destruct (IH (attempt + 1) s t1) as (res & evs & -> & Hsched); [lia|]
  end.
  exists res,
    (evs ++ [ESleep (delay attempt); EPrint Status (MsgWaiting (delay attempt));
             EPrint Warning MsgApplyCapacity; ECommand apply_cmd (inr r0);
             announce attempt])%list.
  split; [trace_eq|]. right.
  destruct Hsched as [[? _]|(retries & Hbound & Hs)]; [lia|].
  exists (Datatypes.S retries). split; [lia|].
  rewrite schedule_app, Hs. reflexivity.
Qed.

(** When every [terraform apply] fails for lack of capacity and
    [time.sleep] returns for the delays after the attempts before [stop],
    the loop runs through the attempts up to [stop].  At
    [stop = RETRY_MAX_ATTEMPTS] it gives up: it returns [False] after a
    fixed message.  At an earlier [stop] whose delay [time.sleep]
    refuses, it raises what [time.sleep] raises.  Nothing is printed
    with [console.print]. *)
Lemma apply_loop_all_capacity (Henv : always_out_of_capacity env) (stop : Z)
    (Hsleeps : forall n, 1 <= n < stop -> sleep_returns clock (delay n))
    (Hstop : stop < RETRY_MAX_ATTEMPTS -> sleep_refused (delay stop) <> None) :
  forall (fuel : nat) (attempt : Z) (s : S) (t : Trace),
    1 <= attempt <= stop -> stop <= RETRY_MAX_ATTEMPTS ->
    RETRY_MAX_ATTEMPTS + 1 - attempt <= Z.of_nat fuel ->
    exists evs r rest,
      loop fuel attempt s t
      = Some (match (if stop <? RETRY_MAX_ATTEMPTS
                     then sleep_refused (delay stop) else None) with
              | Some e => Raise e
              | None => Return false
              end, s, (evs ++ t)%list) /\
      schedule evs = backoff_schedule RETRY_BASE_DELAY attempt (Z.to_nat (stop - attempt)) /\
      evs = (if stop <? RETRY_MAX_ATTEMPTS
             then EPrint Status (MsgWaiting (delay stop))
             else EPrint Error (MsgApplyGaveUp RETRY_MAX_ATTEMPTS))
              :: EPrint Warning MsgApplyCapacity
              :: ECommand apply_cmd (inr r)
              :: announce stop :: rest /\
      (forall text, ~ In (EConsole text) evs).
Proof.
  induction fuel as [|fuel IH]; intros attempt s t Hle Hmax Hfuel; [lia|].
  rewrite apply_loop_step by lia.
  destruct (Henv (announce attempt :: t)) as (r0 & -> & Hrc & Hcap).
  cbv zeta. rewrite Hcap.
  destruct (Z.eqb_spec (returncode r0) 0) as [?|_]; [contradiction|].
  destruct (Z.ltb_spec attempt RETRY_MAX_ATTEMPTS) as [Hlt|Hge].
  - destruct (Z.eq_dec attempt stop) as [->|Hne].
    + destruct (sleep_refused (delay stop)) as [e'|] eqn:Hrefused;
        [|exfalso; apply (Hstop Hlt); reflexivity].
      unfold sleep_error. rewrite Hrefused.
      destruct (Z.ltb_spec stop RETRY_MAX_ATTEMPTS) as [_|?]; [|lia].
      eexists [_; _; _; _], r0, []. split; [reflexivity|].
      split; [|split; [reflexivity|]].
      * replace (stop - stop) with 0 by lia. reflexivity.
      * intros text Hin. cbn [In] in Hin.
        destruct Hin as [H|[H|[H|[H|[]]]]]; discriminate H.
    + rewrite (Hsleeps attempt ltac:(lia)).
      match goal with
      | |- context [loop fuel (attempt + 1) s ?t1] =>
          destruct (IH (attempt + 1) s t1)
            as (evs & r & rest & -> & Hsched & -> & Hquiet); [lia|lia|lia|]
      end.
      eexists (_ :: _ :: _ :: _
                 :: (rest ++ [ESleep (delay attempt);
                              EPrint Status (MsgWaiting (delay attempt));
                              EPrint Warning MsgApplyCapacity;
                              ECommand apply_cmd (inr r0); announce attempt])%list),
        r, (rest ++ [ESleep (delay attempt);
                     EPrint Status (MsgWaiting (delay attempt));
                     EPrint Warning MsgApplyCapacity;
                     ECommand apply_cmd (inr r0); announce attempt])%list.
      split; [|split; [|split; [reflexivity|]]].
      * f_equal. f_equal. trace_eq.
      * match goal with
        | |- schedule (?a :: ?b :: ?c :: ?d :: (rest ++ ?tail)%list) = _ =>
            change (a :: b :: c :: d :: (rest ++ tail)%list)
              with ((a :: b :: c :: d :: rest) ++ tail)%list
        end.
        rewrite schedule_app, Hsched.
        replace (Z.to_nat (stop - attempt))
          with (Datatypes.S (Z.to_nat (stop - (attempt + 1)))) by lia.
        reflexivity.
      * intros text Hin. apply (Hquiet text).
        cbn [In] in Hin |- *.
        destruct Hin as [H|[H|[H|[H|Hin]]]]; auto.
        apply in_app_or in Hin as [Hin|Hin]; [auto 6|].
        cbn [In] in Hin.
        destruct Hin as [H|[H|[H|[H|[H|[]]]]]]; discriminate H.
  - assert (attempt = RETRY_MAX_ATTEMPTS) as -> by lia.
    assert (stop = RETRY_MAX_ATTEMPTS) as -> by lia.
    destruct (Z.ltb_spec RETRY_MAX_ATTEMPTS RETRY_MAX_ATTEMPTS) as [?|_]; [lia|].
    eexists [_; _; _; _], r0, []. split; [reflexivity|].
    split; [|split; [reflexivity|]].
    + replace (RETRY_MAX_ATTEMPTS - RETRY_MAX_ATTEMPTS) with 0 by lia. reflexivity.
    + intros text Hin. cbn [In] in Hin.
      destruct Hin as [H|[H|[H|[H|[]]]]]; discriminate H.
Qed.

End ApplyLoopRuns.

(** ** The apply loop and the backoff, as a whole run *)

Lemma classified_after_banner (clock : Trace -> Z -> option Exn)
    (markup_ok : string -> bool) (max_attempts base_delay : Z) (t : Trace)
    (res : Result bool) (evs : list Event) (m : Msg) :
  apply_failures_classified clock markup_ok max_attempts base_delay
    (EPrint Status m :: t) res evs ->
  apply_failures_classified clock markup_ok max_attempts base_delay
    t res (evs ++ [EPrint Status m]).
Proof.
  intros Hclass after r before Heq Hr. cbv zeta.
  apply app_eq_app_cons in Heq as [(mid & Hevs & ->)|(mid & -> & Hlast)].
  - specialize (Hclass after r mid Hevs Hr). cbv zeta in Hclass.
    destruct Hclass as (n & Hhd & Hn). exists n. split.
    { destruct mid; [discriminate Hhd|exact Hhd]. }
    rewrite <- !app_assoc. exact Hn.
  - split_events Hlast.
Qed.

Lemma answered_after_banner (env : Trace -> list string -> Exn + CompletedProcess)
    (t : Trace) (evs : list Event) (m : Msg) :
  commands_answered env (EPrint Status m :: t) evs ->
  commands_answered env t (evs ++ [EPrint Status m]).
Proof.
  intros Hanswered after cmd o before Heq.
  apply app_eq_app_cons in Heq as [(mid & Hevs & ->)|(mid & -> & Hlast)].
  - rewrite (Hanswered after cmd o mid Hevs). rewrite <- !app_assoc. reflexivity.
  - split_events Hlast.
Qed.

Lemma init_commands_only {S} (env : Trace -> list string -> Exn + CompletedProcess) :
  commands_only (_init env (S:=S)).
Proof.
  intros s t. unfold _init, mbind, M_bind, run_command, raise, mret, M_ret.
  destruct (env t _) as [e|r].
  - eexists _, _, [_]. split; [reflexivity|]. repeat constructor.
  - destruct (negb (returncode r =? 0));
      (eexists _, _, [_]; split; [reflexivity|]; repeat constructor).
Qed.

Lemma init_always_raises {S} (env : Trace -> list string -> Exn + CompletedProcess) :
  (forall t cmd, exists r, env t cmd = inr r /\ returncode r <> 0) ->
  always_raises (_init env (S:=S)).
Proof.
  intros Henv s t. unfold _init, mbind, M_bind, run_command, raise, mret, M_ret.
  destruct (Henv t ["terraform"; "init"; "-input=false"]) as (r & -> & Hr).
  destruct (Z.eqb_spec (returncode r) 0) as [?|_]; [contradiction|].
  eexists _, _, [_]. split; [reflexivity|]. repeat constructor.
Qed.

Lemma env_out_of_capacity_always : always_out_of_capacity env_out_of_capacity.
Proof.
  intros t. eexists. split; [reflexivity|]. split; [discriminate|].
  vm_compute. reflexivity.
Qed.

(** The whole run of [out_of_capacity_auto_apply]. *)
Lemma out_of_capacity_auto_apply_classified {S}
    (env : Trace -> list string -> Exn + CompletedProcess)
    (clock : Trace -> Z -> option Exn) (markup_ok : string -> bool)
    (RETRY_MAX_ATTEMPTS RETRY_BASE_DELAY : Z) (s : S) (t : Trace) :
  exists res evs,
    out_of_capacity_auto_apply env clock markup_ok RETRY_MAX_ATTEMPTS RETRY_BASE_DELAY s t
    = Some (res, s, (evs ++ t)%list) /\
    apply_failures_classified clock markup_ok RETRY_MAX_ATTEMPTS RETRY_BASE_DELAY
      t res evs /\
    commands_answered env t evs /\
    (1 <= RETRY_MAX_ATTEMPTS ->
     exists o after,
       evs = (after ++ [ECommand apply_cmd o;
                        EPrint Status (MsgApplyAttempt 1 RETRY_MAX_ATTEMPTS);
                        EPrint Status (MsgAutoRetrying RETRY_MAX_ATTEMPTS)])%list) /\
    follows_backoff RETRY_BASE_DELAY (schedule evs).
Proof.
  rewrite out_of_capacity_auto_apply_eq.
  destruct (apply_loop_classified env clock markup_ok RETRY_MAX_ATTEMPTS RETRY_BASE_DELAY
              (Z.to_nat RETRY_MAX_ATTEMPTS) 1 s
              (EPrint Status (MsgAutoRetrying RETRY_MAX_ATTEMPTS) :: t))
    as (res & evs & Hrun & Hclass & Hanswered & Hfirst); [lia|].
  destruct (apply_loop_schedule env clock markup_ok RETRY_MAX_ATTEMPTS RETRY_BASE_DELAY
              (Z.to_nat RETRY_MAX_ATTEMPTS) 1 s
              (EPrint Status (MsgAutoRetrying RETRY_MAX_ATTEMPTS) :: t))
    as (res2 & evs2 & Hrun2 & Hsched); [lia|].
  rewrite Hrun in Hrun2. injection Hrun2 as <- Heq. apply app_inv_tail in Heq. subst evs2.
  rewrite Hrun.
  exists res, (evs ++ [EPrint Status (MsgAutoRetrying RETRY_MAX_ATTEMPTS)])%list.
  split; [trace_eq|]. split; [apply classified_after_banner, Hclass|].
  split; [apply answered_after_banner, Hanswered|]. split.
  - intros Hmax. destruct (Hfirst Hmax) as (o & pre & ->).
    exists o, pre. trace_eq.
  - rewrite schedule_app. change (schedule [EPrint Status _]) with (@nil Step).
    cbn [app].
    destruct Hsched as [[_ ->]|(retries & _ & ->)]; [left|right; exists retries]; reflexivity.
Qed.




(** The whole run of [retry_with_backoff]. *)
Lemma retry_with_backoff_classified {S A} (exn_str : Exn -> string)
    (clock : Trace -> Z -> option Exn) (func_name : string)
    (func : M S A) (max_attempts base_delay : Z) (s : S) (t : Trace) :
  commands_only func ->
  exists res s' evs,
    retry_with_backoff exn_str clock func_name func max_attempts base_delay s t
    = Some (res, s', (evs ++ t)%list) /\
    attempts_classified exn_str clock func_name func max_attempts base_delay
      t res s' evs /\
    (1 <= max_attempts ->
     exists after,
       evs = (after ++ [EPrint Status (MsgAttempt 1 max_attempts func_name)])%list) /\
    follows_backoff base_delay (schedule evs).
Proof.
  intros Hfunc. unfold retry_with_backoff.
  destruct (retry_loop_classified exn_str clock func_name func max_attempts base_delay
              Hfunc (Z.to_nat max_attempts) 1 None s t)
    as (res & s' & evs & Hrun & Hclass & Hfirst); [lia|].
  destruct (retry_loop_schedule exn_str clock func_name func max_attempts base_delay
              Hfunc (Z.to_nat max_attempts) 1 None s t)
    as (res2 & s2 & evs2 & Hrun2 & Hsched); [lia|].
  rewrite Hrun in Hrun2. injection Hrun2 as <- <- Heq. apply app_inv_tail in Heq.
  subst evs2. rewrite Hrun.
  exists res, s', evs. split; [reflexivity|]. split; [exact Hclass|].
  split; [exact Hfirst|].
  destruct Hsched as [[_ ->]|(retries & _ & ->)]; [left|right; exists retries]; reflexivity.
Qed.

(** C3.  In [retry_with_backoff] (around a function that only runs
    commands) and in the apply loop, a failed attempt [n] that leaves
    another attempt is followed by [time.sleep(base_delay * 2^(n-1))];
    when that returns, the sleep of exactly this length is on the trace
    and attempt [n + 1] follows it.  A run has no other sleeps: its
    attempts and sleeps are attempt 1, the first delay, attempt 2, the
    second delay, and so on.  With the defaults, 8 attempts and a base of
    15 seconds, a run in which every attempt fails sleeps 15, 30, 60,
    ... seconds in this order. *)
Theorem backoff_delay_doubles :
  (forall (S A : Type) (exn_str : Exn -> string) (clock : Trace -> Z -> option Exn)
          (func_name : string) (func : M S A) (max_attempts base_delay : Z)
          (s : S) (t : Trace),
      commands_only func ->
      exists res s' evs,
        retry_with_backoff exn_str clock func_name func max_attempts base_delay s t
        = Some (res, s', (evs ++ t)%list) /\
        attempts_classified exn_str clock func_name func max_attempts base_delay
          t res s' evs /\
        (1 <= max_attempts ->
         exists after,
           evs = (after ++ [EPrint Status (MsgAttempt 1 max_attempts func_name)])%list) /\
        follows_backoff base_delay (schedule evs)) /\
  (forall (S : Type) (env : Trace -> list string -> Exn + CompletedProcess)
          (clock : Trace -> Z -> option Exn) (markup_ok : string -> bool)
          (RETRY_MAX_ATTEMPTS RETRY_BASE_DELAY : Z) (s : S) (t : Trace),
      exists res evs,
        out_of_capacity_auto_apply env clock markup_ok
          RETRY_MAX_ATTEMPTS RETRY_BASE_DELAY s t
        = Some (res, s, (evs ++ t)%list) /\
        apply_failures_classified clock markup_ok RETRY_MAX_ATTEMPTS RETRY_BASE_DELAY
          t res evs /\
        (1 <= RETRY_MAX_ATTEMPTS ->
         exists o after,
           evs = (after ++ [ECommand apply_cmd o;
                            EPrint Status (MsgApplyAttempt 1 RETRY_MAX_ATTEMPTS);
                            EPrint Status (MsgAutoRetrying RETRY_MAX_ATTEMPTS)])%list) /\
        follows_backoff RETRY_BASE_DELAY (schedule evs)) /\
  (exists evs,
      out_of_capacity_auto_apply env_out_of_capacity clock_example markup_example
        8 15 tt [] = Some (Return false, tt, evs) /\
      schedule evs =
        [Attempt 1; Sleep 15; Attempt 2; Sleep 30; Attempt 3; Sleep 60; Attempt 4;
         Sleep 120; Attempt 5; Sleep 240; Attempt 6; Sleep 480; Attempt 7;
         Sleep 960; Attempt 8]) /\
  (exists e evs,
      retry_with_backoff exn_str_example clock_example "_init"
        (_init env_out_of_capacity) 4 15 tt [] = Some (Raise e, tt, evs) /\
      schedule evs =
        [Attempt 1; Sleep 15; Attempt 2; Sleep 30; Attempt 3; Sleep 60; Attempt 4]).
Proof.
  split; [|split; [|split]].
  - intros S A exn_str clock func_name func max_attempts base_delay s t Hfunc.
    exact (retry_with_backoff_classified exn_str clock func_name func max_attempts
             base_delay s t Hfunc).
  - intros S env clock markup_ok RETRY_MAX_ATTEMPTS RETRY_BASE_DELAY s t.
    destruct (out_of_capacity_auto_apply_classified env clock markup_ok
                RETRY_MAX_ATTEMPTS RETRY_BASE_DELAY s t)
      as (res & evs & Hrun & Hclass & _ & Hfirst & Hsched).
    exists res, evs. auto.
  - eexists. split; vm_compute; reflexivity.
  - eexists _, _. split; vm_compute; reflexivity.
Qed.

(** The theorem determines what follows a first attempt that fails: the
    warning, the announcement of 15 seconds, the sleep of 15 seconds and
    attempt 2. *)
Lemma backoff_delay_doubles_witness :
  exists res s' rest,
    retry_with_backoff exn_str_example clock_example "_init"
      (_init env_out_of_capacity) 4 15 tt []
    = Some (res, s',
            (rest ++
             [EPrint Status (MsgAttempt 2 4 "_init");
              ESleep 15;
              EPrint Status (MsgRetrying 15);
              EPrint Warning (MsgCommandFailed "Command returned non-zero exit status.");
              ECommand init_cmd
                (failed 1 "" "Error: 500-InternalError, Out of host capacity.");
              EPrint Status (MsgAttempt 1 4 "_init")])%list).
Proof.
  destruct (proj1 backoff_delay_doubles unit CompletedProcess exn_str_example
              clock_example "_init" (_init env_out_of_capacity) 4 15 tt []
              (init_commands_only env_out_of_capacity))
    as (res & s' & evs & Hrun & Hclass & Hfirst & _).
  destruct (Hfirst ltac:(lia)) as (after & ->).
  destruct (Hclass after 1 [] eq_refl) as (s0 & r & s1 & call_evs & rest & -> & Hcall & Hcase).
  destruct s0. vm_compute in Hcall. injection Hcall as <- <- Hevs.
  assert (call_evs =
          [ECommand init_cmd
             (failed 1 "" "Error: 500-InternalError, Out of host capacity.")])
    as ->.
  { apply (app_inv_tail [EPrint Status (MsgAttempt 1 4 "_init")]). symmetry. exact Hevs. }
  destruct Hcase as (rest' & ->).
  exists res, s', rest'. rewrite Hrun. f_equal. f_equal.
  rewrite app_nil_r. trace_eq.
Defined.

(** ** Giving up *)

Lemma schedule_of_all_attempts (base max_attempts : Z) (steps : list Step) :
  1 <= max_attempts ->
  steps = backoff_schedule base 1 (Z.to_nat (max_attempts - 1)) ->
  attempt_numbers steps = Py.range 1 (max_attempts + 1) /\
  last steps = Some (Attempt max_attempts).
Proof.
  intros Hmax ->. rewrite backoff_schedule_attempts, backoff_schedule_last.
  split; do 2 f_equal; lia.
Qed.

(** [time.sleep] does not refuse the delays from 0 to 9223372036 seconds,
    and refuses every other. *)
Lemma sleep_refused_none (seconds : Z) :
  sleep_refused seconds = None <-> 0 <= seconds <= 9223372036.
Proof.
  unfold sleep_refused.
  destruct (Z.ltb_spec seconds (- MAX_SLEEP)) as [Hlow|Hlow],
    (Z.ltb_spec MAX_SLEEP seconds) as [Hhigh|Hhigh],
    (Z.ltb_spec seconds 0) as [Hneg|Hneg];
    unfold MAX_SLEEP in Hlow, Hhigh; cbn [orb];
    (split; [intros H'; first [discriminate H' | lia]
            |intros H'; first [reflexivity | lia]]).
Qed.

Lemma clock_example_returns (seconds : Z) :
  0 <= seconds <= 9223372036 -> sleep_returns clock_example seconds.
Proof.
  intros Hrange t. unfold sleep_error.
  rewrite (proj2 (sleep_refused_none seconds) Hrange). reflexivity.
Qed.

(** C4, as the code has it.  Let every attempt fail (for the apply loop:
    with a capacity error every time) and let at least one attempt be
    allowed.  If [time.sleep] returns for each backoff delay
    [base_delay * 2^(n-1)], [1 <= n < max_attempts], both loops make
    exactly [max_attempts] attempts, numbered 1 to [max_attempts], sleep
    between them and not after the last one, and end.
    [retry_with_backoff] then raises the exception of the last attempt.
    The apply loop prints a fixed message and returns [False]; the output
    of the last [terraform apply] is neither printed nor raised.  If
    [time.sleep] refuses the delay after an attempt [k < max_attempts]
    and returned for the earlier ones, both loops end after exactly [k]
    attempts with the exception of [time.sleep]; the error of the
    operation is not raised.  [time.sleep] refuses a delay exactly when
    it is negative or above 9223372036 seconds. *)
Theorem retry_gives_up_after_max_attempts :
  (forall (S A : Type) (exn_str : Exn -> string) (clock : Trace -> Z -> option Exn)
          (func_name : string)
          (func : M S A) (max_attempts base_delay : Z) (s : S) (t : Trace),
      always_raises func ->
      1 <= max_attempts ->
      (forall n, 1 <= n < max_attempts ->
                 sleep_returns clock (base_delay * 2 ^ (n - 1))) ->
      exists e s' evs s_last t_last evs_last,
        retry_with_backoff exn_str clock func_name func max_attempts base_delay s t
        = Some (Raise e, s', (evs ++ t)%list) /\
        attempt_numbers (schedule evs) = Py.range 1 (max_attempts + 1) /\
        schedule evs = backoff_schedule base_delay 1 (Z.to_nat (max_attempts - 1)) /\
        last (schedule evs) = Some (Attempt max_attempts) /\
        (* [e] is what the call announced as attempt [max_attempts] raised,
           and only the warning and the final error message follow it *)
        func s_last (EPrint Status (MsgAttempt max_attempts max_attempts func_name) :: t_last)
        = Some (Raise e, s',
                (evs_last ++
                 EPrint Status (MsgAttempt max_attempts max_attempts func_name)
                   :: t_last)%list) /\
        (evs ++ t)%list =
          EPrint Error (MsgFailedAfter max_attempts)
            :: retry_warning exn_str max_attempts e
            :: (evs_last ++
                EPrint Status (MsgAttempt max_attempts max_attempts func_name)
                  :: t_last)%list) /\
  (forall (S : Type) (env : Trace -> list string -> Exn + CompletedProcess)
          (clock : Trace -> Z -> option Exn) (markup_ok : string -> bool)
          (RETRY_MAX_ATTEMPTS RETRY_BASE_DELAY : Z) (s : S) (t : Trace),
      always_out_of_capacity env ->
      1 <= RETRY_MAX_ATTEMPTS ->
      (forall n, 1 <= n < RETRY_MAX_ATTEMPTS ->
                 sleep_returns clock (RETRY_BASE_DELAY * 2 ^ (n - 1))) ->
      exists evs r rest,
        out_of_capacity_auto_apply env clock markup_ok
          RETRY_MAX_ATTEMPTS RETRY_BASE_DELAY s t
        = Some (Return false, s, (evs ++ t)%list) /\
        attempt_numbers (schedule evs) = Py.range 1 (RETRY_MAX_ATTEMPTS + 1) /\
        schedule evs =
          backoff_schedule RETRY_BASE_DELAY 1 (Z.to_nat (RETRY_MAX_ATTEMPTS - 1)) /\
        last (schedule evs) = Some (Attempt RETRY_MAX_ATTEMPTS) /\
        evs = EPrint Error (MsgApplyGaveUp RETRY_MAX_ATTEMPTS)
                :: EPrint Warning MsgApplyCapacity
                :: ECommand apply_cmd (inr r)
                :: EPrint Status (MsgApplyAttempt RETRY_MAX_ATTEMPTS RETRY_MAX_ATTEMPTS)
                :: rest /\
        ~ error_surfaced r (Return false) evs) /\
  (forall (S A : Type) (exn_str : Exn -> string) (clock : Trace -> Z -> option Exn)
          (func_name : string)
          (func : M S A) (max_attempts base_delay k : Z) (refusal : Exn)
          (s : S) (t : Trace),
      always_raises func ->
      1 <= k < max_attempts ->
      (forall n, 1 <= n < k -> sleep_returns clock (base_delay * 2 ^ (n - 1))) ->
      sleep_refused (base_delay * 2 ^ (k - 1)) = Some refusal ->
      exists s' evs,
        retry_with_backoff exn_str clock func_name func max_attempts base_delay s t
        = Some (Raise refusal, s', (evs ++ t)%list) /\
        attempt_numbers (schedule evs) = Py.range 1 (k + 1) /\
        schedule evs = backoff_schedule base_delay 1 (Z.to_nat (k - 1)) /\
        last (schedule evs) = Some (Attempt k)) /\
  (forall (S : Type) (env : Trace -> list string -> Exn + CompletedProcess)
          (clock : Trace -> Z -> option Exn) (markup_ok : string -> bool)
          (RETRY_MAX_ATTEMPTS RETRY_BASE_DELAY k : Z) (refusal : Exn)
          (s : S) (t : Trace),
      always_out_of_capacity env ->
      1 <= k < RETRY_MAX_ATTEMPTS ->
      (forall n, 1 <= n < k -> sleep_returns clock (RETRY_BASE_DELAY * 2 ^ (n - 1))) ->
      sleep_refused (RETRY_BASE_DELAY * 2 ^ (k - 1)) = Some refusal ->
      exists evs,
        out_of_capacity_auto_apply env clock markup_ok
          RETRY_MAX_ATTEMPTS RETRY_BASE_DELAY s t
        = Some (Raise refusal, s, (evs ++ t)%list) /\
        attempt_numbers (schedule evs) = Py.range 1 (k + 1) /\
        schedule evs = backoff_schedule RETRY_BASE_DELAY 1 (Z.to_nat (k - 1)) /\
        last (schedule evs) = Some (Attempt k) /\
        (forall text, ~ In (EConsole text) evs)) /\
  (forall seconds,
      (sleep_refused seconds = None <-> 0 <= seconds <= 9223372036) /\
      (seconds < 0 ->
       sleep_refused seconds
       = Some (if seconds <? -9223372036 then OverflowError else ValueError)) /\
      (9223372036 < seconds -> sleep_refused seconds = Some OverflowError)).
Proof.
  split; [|split; [|split; [|split]]].
  - intros S A exn_str clock func_name func max_attempts base_delay s t Hfunc Hmax Hsleeps.
    unfold retry_with_backoff.
    destruct (retry_loop_all_fail exn_str clock func_name func max_attempts base_delay
                Hfunc max_attempts Hsleeps ltac:(lia)
                (Z.to_nat max_attempts) 1 None s t)
      as (e & s' & evs & s_last & t_last & evs_last & Hrun & Hsched & Hlast & _ & Htrace);
      [lia|lia|lia|].
    destruct (Z.ltb_spec max_attempts max_attempts) as [?|_]; [lia|].
    destruct (schedule_of_all_attempts base_delay max_attempts _ Hmax Hsched)
      as (Hnums & Hend).
    exists e, s', evs, s_last, t_last, evs_last. auto 10.
  - intros S env clock markup_ok RETRY_MAX_ATTEMPTS RETRY_BASE_DELAY s t Henv Hmax Hsleeps.
    rewrite out_of_capacity_auto_apply_eq.
    destruct (apply_loop_all_capacity env clock markup_ok RETRY_MAX_ATTEMPTS
                RETRY_BASE_DELAY Henv RETRY_MAX_ATTEMPTS Hsleeps ltac:(lia)
                (Z.to_nat RETRY_MAX_ATTEMPTS) 1 s
                (EPrint Status (MsgAutoRetrying RETRY_MAX_ATTEMPTS) :: t))
      as (evs & r & rest & Hrun & Hsched & Hevs & Hquiet); [lia|lia|lia|].
    destruct (Z.ltb_spec RETRY_MAX_ATTEMPTS RETRY_MAX_ATTEMPTS) as [?|_]; [lia|].
    rewrite Hrun.
    exists (evs ++ [EPrint Status (MsgAutoRetrying RETRY_MAX_ATTEMPTS)])%list,
      r, (rest ++ [EPrint Status (MsgAutoRetrying RETRY_MAX_ATTEMPTS)])%list.
    split; [trace_eq|].
    assert (schedule (evs ++ [EPrint Status (MsgAutoRetrying RETRY_MAX_ATTEMPTS)])
            = backoff_schedule RETRY_BASE_DELAY 1 (Z.to_nat (RETRY_MAX_ATTEMPTS - 1)))
      as Hsched'.
    { rewrite schedule_app, Hsched. reflexivity. }
    destruct (schedule_of_all_attempts RETRY_BASE_DELAY RETRY_MAX_ATTEMPTS _ Hmax Hsched')
      as (Hnums & Hend).
    split; [exact Hnums|]. split; [exact Hsched'|]. split; [exact Hend|].
    split; [rewrite Hevs; reflexivity|].
    intros [Hin|(e & He)]; [|discriminate He].
    apply in_app_or in Hin as [Hin|Hin]; [exact (Hquiet _ Hin)|].
    cbn [In] in Hin. destruct Hin as [H|[]]. discriminate H.
  - intros S A exn_str clock func_name func max_attempts base_delay k refusal s t
      Hfunc Hk Hsleeps Hrefused.
    unfold retry_with_backoff.
    destruct (retry_loop_all_fail exn_str clock func_name func max_attempts base_delay
                Hfunc k Hsleeps ltac:(intros _; rewrite Hrefused; discriminate)
                (Z.to_nat max_attempts) 1 None s t)
      as (e & s' & evs & s_last & t_last & evs_last & Hrun & Hsched & _);
      [lia|lia|lia|].
    destruct (Z.ltb_spec k max_attempts) as [_|?]; [|lia].
    rewrite Hrefused in Hrun. cbn [default] in Hrun.
    destruct (schedule_of_all_attempts base_delay k _ ltac:(lia) Hsched)
      as (Hnums & Hend).
    exists s', evs. auto.
  - intros S env clock markup_ok RETRY_MAX_ATTEMPTS RETRY_BASE_DELAY k refusal s t
      Henv Hk Hsleeps Hrefused.
    rewrite out_of_capacity_auto_apply_eq.
    destruct (apply_loop_all_capacity env clock markup_ok RETRY_MAX_ATTEMPTS
                RETRY_BASE_DELAY Henv k Hsleeps
                ltac:(intros _; rewrite Hrefused; discriminate)
                (Z.to_nat RETRY_MAX_ATTEMPTS) 1 s
                (EPrint Status (MsgAutoRetrying RETRY_MAX_ATTEMPTS) :: t))
      as (evs & r & rest & Hrun & Hsched & Hevs & Hquiet); [lia|lia|lia|].
    destruct (Z.ltb_spec k RETRY_MAX_ATTEMPTS) as [_|?]; [|lia].
    rewrite Hrefused in Hrun. rewrite Hrun.
    exists (evs ++ [EPrint Status (MsgAutoRetrying RETRY_MAX_ATTEMPTS)])%list.
    split; [trace_eq|].
    assert (schedule (evs ++ [EPrint Status (MsgAutoRetrying RETRY_MAX_ATTEMPTS)])
            = backoff_schedule RETRY_BASE_DELAY 1 (Z.to_nat (k - 1)))
      as Hsched'.
    { rewrite schedule_app, Hsched. reflexivity. }
    destruct (schedule_of_all_attempts RETRY_BASE_DELAY k _ ltac:(lia) Hsched')
      as (Hnums & Hend).
    split; [exact Hnums|]. split; [exact Hsched'|]. split; [exact Hend|].
    intros text Hin.
    apply in_app_or in Hin as [Hin|Hin]; [exact (Hquiet _ Hin)|].
    cbn [In] in Hin. destruct Hin as [H|[]]. discriminate H.
  - intros seconds. split; [apply sleep_refused_none|].
    unfold sleep_refused. change (-9223372036) with (- MAX_SLEEP).
    change 9223372036 with MAX_SLEEP.
    destruct (Z.ltb_spec seconds (- MAX_SLEEP)) as [Hlow|Hlow],
      (Z.ltb_spec MAX_SLEEP seconds) as [Hhigh|Hhigh],
      (Z.ltb_spec seconds 0) as [Hneg|Hneg];
      unfold MAX_SLEEP in Hlow, Hhigh |- *; cbn [orb];
      (split; intros H'; first [reflexivity | lia]).
Qed.

Lemma default_delays_return (n : Z) :
  1 <= n < 8 -> sleep_returns clock_example (15 * 2 ^ (n - 1)).
Proof.
  intros Hn. apply clock_example_returns.
  assert (n = 1 \/ n = 2 \/ n = 3 \/ n = 4 \/ n = 5 \/ n = 6 \/ n = 7)
    as [->|[->|[->|[->|[->|[->| ->]]]]]] by lia;
    vm_compute; split; discriminate.
Qed.

Lemma retry_gives_up_after_max_attempts_witness :
  exists evs r rest,
    out_of_capacity_auto_apply env_out_of_capacity clock_example markup_example 8 15 tt []
    = Some (Return false, tt, (evs ++ [])%list) /\
    attempt_numbers (schedule evs) = Py.range 1 (8 + 1) /\
    schedule evs = backoff_schedule 15 1 (Z.to_nat (8 - 1)) /\
    last (schedule evs) = Some (Attempt 8) /\
    evs = EPrint Error (MsgApplyGaveUp 8)
            :: EPrint Warning MsgApplyCapacity
            :: ECommand apply_cmd (inr r)
            :: EPrint Status (MsgApplyAttempt 8 8)
            :: rest /\
    ~ error_surfaced r (Return false) evs.
Proof.
  apply (proj1 (proj2 retry_gives_up_after_max_attempts) unit env_out_of_capacity
           clock_example markup_example 8 15 tt []).
  - exact env_out_of_capacity_always.
  - lia.
  - exact default_delays_return.
Defined.

(** C4, as the claim states it, fails for the apply loop.  With two
    attempts allowed and [terraform apply] out of capacity both times, the
    loop makes its two attempts and returns [False]; the error of the last
    attempt is neither printed nor raised. *)
Lemma apply_loop_hides_last_error :
  out_of_capacity_auto_apply env_out_of_capacity clock_example markup_example
    2 15 tt [] =
  Some (Return false, tt,
        [EPrint Error (MsgApplyGaveUp 2);
         EPrint Warning MsgApplyCapacity;
         ECommand apply_cmd
           (failed 1 "" "Error: 500-InternalError, Out of host capacity.");
         EPrint Status (MsgApplyAttempt 2 2);
         ESleep 15;
         EPrint Status (MsgWaiting 15);
         EPrint Warning MsgApplyCapacity;
         ECommand apply_cmd
           (failed 1 "" "Error: 500-InternalError, Out of host capacity.");
         EPrint Status (MsgApplyAttempt 1 2);
         EPrint Status (MsgAutoRetrying 2)]) /\
  ~ (forall res s evs,
        out_of_capacity_auto_apply env_out_of_capacity clock_example markup_example
          2 15 tt [] = Some (res, s, evs) ->
        error_surfaced
          {| returncode := 1; stdout := "";
             stderr := "Error: 500-InternalError, Out of host capacity." |}
          res evs).
Proof.
  split; [vm_compute; reflexivity|].
  intros Hclaim.
  destruct (Hclaim _ _ _ eq_refl) as [Hin|(e & He)].
  - vm_compute in Hin. repeat (destruct Hin as [Hin|Hin]; [discriminate Hin|]).
    exact Hin.
  - vm_compute in He. discriminate He.
Qed.

(** ** State import *)

Lemma silent_not_command (ev : Event) :
  (forall cmd o, ev <> ECommand cmd o) <-> ~ is_command ev.
Proof.
  split.
  - intros Hne Hc. destruct ev; try contradiction. exact (Hne _ _ eq_refl).
  - intros Hn cmd o ->. apply Hn. exact I.
Qed.

Lemma reconciles_nil (T : string -> string -> Prop) : reconciles T [].
Proof. split; [intros cmd o []|intros address r []]. Qed.

Lemma reconciles_mono (T T' : string -> string -> Prop) (evs : list Event) :
  (forall address rid, T address rid -> T' address rid) ->
  reconciles T evs -> reconciles T' evs.
Proof.
  intros Hsub (Hcmds & Hskip). split; [|exact Hskip].
  intros cmd o Hin. destruct (Hcmds cmd o Hin) as [->|(address & rid & HT & Hc)].
  - left. reflexivity.
  - right. exists address, rid. split; [apply Hsub, HT|exact Hc].
Qed.

Lemma reconciles_cons_silent (T : string -> string -> Prop) (ev : Event)
    (evs : list Event) :
  ~ is_command ev -> reconciles T evs -> reconciles T (ev :: evs).
Proof.
  intros Hsilent' (Hcmds & Hskip).
  pose proof (proj2 (silent_not_command ev) Hsilent') as Hsilent.
  split.
  - intros cmd o [Heq|Hin]; [destruct (Hsilent _ _ Heq)|exact (Hcmds cmd o Hin)].
  - intros address r [Heq|Hshow] Hr rid o [Heq'|Himp];
      try (destruct (Hsilent _ _ Heq)); try (destruct (Hsilent _ _ Heq')).
    exact (Hskip address r Hshow Hr rid o Himp).
Qed.

(** Two runs on disjoint sets of addresses, one after the other. *)
Lemma reconciles_app (T1 T2 : string -> string -> Prop) (evs1 evs2 : list Event) :
  reconciles T1 evs1 -> reconciles T2 evs2 ->
  (forall address rid1 rid2, T1 address rid1 -> T2 address rid2 -> False) ->
  reconciles (fun address rid => T1 address rid \/ T2 address rid) (evs2 ++ evs1).
Proof.
  intros (Hcmds1 & Hskip1) (Hcmds2 & Hskip2) Hdisjoint. split.
  - intros cmd o Hin. apply in_app_or in Hin as [Hin|Hin].
    + destruct (Hcmds2 cmd o Hin) as [->|(address & rid & HT & Hc)]; [left; reflexivity|].
      right. exists address, rid. auto.
    + destruct (Hcmds1 cmd o Hin) as [->|(address & rid & HT & Hc)]; [left; reflexivity|].
      right. exists address, rid. auto.
  - intros address r Hshow Hr rid o Himp.
    apply in_app_or in Hshow. apply in_app_or in Himp.
    assert (forall T evs, reconciles T evs ->
              In (ECommand (show_cmd address) (inr r)) evs -> exists rid', T address rid')
      as Hshown.
    { intros T evs (Hc & _) Hin.
      destruct (Hc _ _ Hin) as [Hi|(a & rid' & HT & [Hs|Hi])]; try discriminate.
      injection Hs as <-. exists rid'. exact HT. }
    assert (forall T evs, reconciles T evs ->
              In (ECommand (import_cmd address rid) o) evs -> T address rid)
      as Himported.
    { intros T evs (Hc & _) Hin.
      destruct (Hc _ _ Hin) as [Hi|(a & rid' & HT & [Hs|Hi])]; try discriminate.
      injection Hi as <- <-. exact HT. }
    destruct Hshow as [Hshow|Hshow], Himp as [Himp|Himp].
    + exact (Hskip2 address r Hshow Hr rid o Himp).
    + destruct (Hshown T2 evs2 (conj Hcmds2 Hskip2) Hshow) as (rid' & HT2).
      exact (Hdisjoint address rid rid' (Himported T1 evs1 (conj Hcmds1 Hskip1) Himp) HT2).
    + destruct (Hshown T1 evs1 (conj Hcmds1 Hskip1) Hshow) as (rid' & HT1).
      exact (Hdisjoint address rid' rid HT1 (Himported T2 evs2 (conj Hcmds2 Hskip2) Himp)).
    + exact (Hskip1 address r Hshow Hr rid o Himp).
Qed.

(** One state-show check followed by the events [imports], whose only
    command is the import of the checked address, and which hold no
    command at all when the check succeeded. *)
Lemma reconciles_unit (address rid : string) (imports : list Event)
    (o : Exn + CompletedProcess) :
  Forall (only_command (import_cmd address rid)) imports ->
  (forall r, o = inr r -> returncode r = 0 -> Forall (fun ev => ~ is_command ev) imports) ->
  reconciles (fun address' rid' => address' = address /\ rid' = rid)
    (imports ++ [ECommand (show_cmd address) o]).
Proof.
  intros Honly Hpresent. rewrite List.Forall_forall in Honly. split.
  - intros cmd o' Hin. right. exists address, rid. split; [auto|].
    apply in_app_or in Hin as [Hin|[Heq|[]]].
    + right. exact (Honly _ Hin).
    + left. injection Heq as <- _. reflexivity.
  - intros address' r Hshow Hr rid' o' Himp.
    apply in_app_or in Hshow as [Hshow|[Heq|[]]].
    { apply Honly in Hshow. discriminate Hshow. }
    injection Heq as <- ->.
    apply in_app_or in Himp as [Himp|[Heq|[]]]; [|discriminate Heq].
    specialize (Hpresent r eq_refl Hr). rewrite List.Forall_forall in Hpresent.
    exact (Hpresent _ Himp I).
Qed.

Section ImportSpecs.

Variable env : Trace -> list string -> Exn + CompletedProcess.
Variable exn_str : Exn -> string.
Variable clock : Trace -> Z -> option Exn.
Variable json_loads : string -> option Exn.
Variable RETRY_MAX_ATTEMPTS RETRY_BASE_DELAY : Z.

Lemma retry_loop_only_command {S A} (func_name : string) (func : M S A)
    (max_attempts base_delay : Z) (cmd : list string) :
  runs func (fun _ evs => Forall (only_command cmd) evs) ->
  forall (fuel : nat) (attempt : Z) (last_error : option Exn),
    max_attempts + 1 - attempt <= Z.of_nat fuel ->
    runs (retry_loop exn_str clock fuel func_name func max_attempts base_delay attempt last_error)
      (fun _ evs => Forall (only_command cmd) evs).
Proof.
  intros Hfunc.
  induction fuel as [|fuel IH]; intros attempt last_error Hfuel s t;
    (destruct (Z.le_gt_cases attempt max_attempts) as [Hle|Hgt];
     [|rewrite retry_loop_exit by lia;
       eexists _, _, [_]; split; [reflexivity|repeat constructor]]).
  { lia. }
  rewrite retry_loop_step by lia.
  destruct (Hfunc s (EPrint Status (MsgAttempt attempt max_attempts func_name) :: t))
    as (res & s' & evs & -> & Hevs).
  destruct res as [a|e].
  { exists (Return a), s', (evs ++ [EPrint Status (MsgAttempt attempt max_attempts func_name)])%list.
    split; [trace_eq|]. apply Forall_app. split; [exact Hevs|repeat constructor]. }
  destruct (attempt <? max_attempts).
  - cbv zeta. destruct (sleep_error clock _ (base_delay * 2 ^ (attempt - 1))).
    + eexists _, _, (_ :: _ :: evs ++ [_])%list. split; [trace_eq|].
      repeat constructor. apply Forall_app. split; [exact Hevs|repeat constructor].
    + match goal with
      | |- context [retry_loop _ _ fuel _ _ _ _ (attempt + 1) (Some e) s' ?t1] =>
          destruct (IH (attempt + 1) (Some e) ltac:(lia) s' t1)
            as (res & s'' & evs' & -> & Hevs')
      end.
      exists res, s'',
        (evs' ++ ESleep (base_delay * 2 ^ (attempt - 1))
           :: EPrint Status (MsgRetrying (base_delay * 2 ^ (attempt - 1)))
           :: retry_warning exn_str attempt e
           :: evs ++ [EPrint Status (MsgAttempt attempt max_attempts func_name)])%list.
      split; [trace_eq|].
      apply Forall_app. split; [exact Hevs'|].
      repeat constructor. apply Forall_app. split; [exact Hevs|repeat constructor].
  - eexists _, _, (_ :: _ :: evs ++ [_])%list. split; [trace_eq|].
    repeat constructor. apply Forall_app. split; [exact Hevs|repeat constructor].
Qed.

Lemma run_only_command (cmd : list string) :
  runs (_run env cmd) (fun _ evs => Forall (only_command cmd) evs).
Proof.
  intros s t. unfold _run, mbind, M_bind, run_command, raise, put_state, mret, M_ret.
  destruct (env t cmd) as [e|r].
  - eexists _, _, [_]. split; [reflexivity|repeat constructor].
  - destruct (negb (returncode r =? 0)).
    + destruct (mentions_capacity _);
        (eexists _, _, [_]; split; [reflexivity|repeat constructor]).
    + eexists _, _, [_]. split; [reflexivity|repeat constructor].
Qed.

Lemma init_only_command {S} :
  runs (_init env (S:=S)) (fun _ evs => Forall (only_command init_cmd) evs).
Proof.
  intros s t. unfold _init, mbind, M_bind, run_command, raise, mret, M_ret.
  destruct (env t _) as [e|r].
  - eexists _, _, [_]. split; [reflexivity|repeat constructor].
  - destruct (negb (returncode r =? 0));
      (eexists _, _, [_]; split; [reflexivity|repeat constructor]).
Qed.

(** [run_cmd_with_retries_and_check] always returns, and the only command
    it runs is [cmd]. *)
Lemma run_cmd_with_retries_and_check_spec {S} (cmd : list string) :
  runs (run_cmd_with_retries_and_check env exn_str clock json_loads
          RETRY_MAX_ATTEMPTS RETRY_BASE_DELAY cmd (S:=S))
    (fun res evs => (exists b, res = Return b) /\ Forall (only_command cmd) evs).
Proof.
  intros s t. unfold run_cmd_with_retries_and_check, with_nonlocal, retry_with_backoff.
  destruct (retry_loop_only_command "_run" (_run env cmd)
              RETRY_MAX_ATTEMPTS RETRY_BASE_DELAY cmd (run_only_command cmd)
              (Z.to_nat RETRY_MAX_ATTEMPTS) 1 None ltac:(lia) false t)
    as (res & flag & evs & -> & Hevs).
  destruct res as [output|e]; [destruct (json_loads output) as [[]|]|];
    (eexists _, s, evs; split; [reflexivity|]; split; [eexists; reflexivity|exact Hevs]).
Qed.

End ImportSpecs.

Section ImportRuns.

Variable env : Trace -> list string -> Exn + CompletedProcess.
Variable exn_str : Exn -> string.
Variable clock : Trace -> Z -> option Exn.
Variable json_loads : string -> option Exn.
Variable RETRY_MAX_ATTEMPTS RETRY_BASE_DELAY : Z.

Local Abbreviation run_cmd_with_retries_and_check :=
  (run_cmd_with_retries_and_check env exn_str clock json_loads RETRY_MAX_ATTEMPTS RETRY_BASE_DELAY).

(** The events of a retried import, with prints around them, after the
    failed check of their address. *)
Lemma reconciles_failed_check (address rid : string) (imports : list Event)
    (r : CompletedProcess) :
  (returncode r =? 0) = false ->
  Forall (only_command (import_cmd address rid)) imports ->
  reconciles (fun address' rid' => address' = address /\ rid' = rid)
    (imports ++ [ECommand (show_cmd address) (inr r)]).
Proof.
  intros Hrc Honly. apply reconciles_unit; [exact Honly|].
  intros r' [= <-] Hr. rewrite Hr in Hrc. discriminate Hrc.
Qed.

Lemma reconciles_check_only (address rid : string) (o : Exn + CompletedProcess) :
  reconciles (fun address' rid' => address' = address /\ rid' = rid)
    [ECommand (show_cmd address) o].
Proof. apply (reconciles_unit address rid [] o); constructor. Qed.

Lemma import_component_reconciles {S} (items : ResourceDict)
    (matches : ExistingResource -> bool) (address what : string) :
  runs (import_component env items matches address what (S:=S))
    (fun _ evs =>
       reconciles
         (fun address' rid =>
            address' = address /\ exists c, In (rid, c) items /\ matches c = true)
         evs).
Proof.
  induction items as [|[cid c] rest IH]; intros s t.
  - exists (Return tt), s, []. split; [reflexivity|apply reconciles_nil].
  - cbn [import_component]. destruct (matches c) eqn:Hm.
    + assert (forall evs,
                 reconciles (fun address' rid' => address' = address /\ rid' = cid) evs ->
                 reconciles
                   (fun address' rid =>
                      address' = address /\
                      exists c0, In (rid, c0) ((cid, c) :: rest) /\ matches c0 = true) evs)
        as Hweaken.
      { intros evs. apply reconciles_mono. intros a rid [-> ->]. split; [reflexivity|].
        exists c. split; [left; reflexivity|exact Hm]. }
      unfold mbind, M_bind, run_command, print_status, emit, mret, M_ret.
      fold (show_cmd address). fold (import_cmd address cid).
      destruct (env t (show_cmd address)) as [e|r].
      { eexists _, _, [_]. split; [reflexivity|].
        apply Hweaken, reconciles_check_only. }
      destruct (returncode r =? 0) eqn:Hrc; cbn [negb].
      { eexists _, _, [_]. split; [reflexivity|].
        apply Hweaken, reconciles_check_only. }
      destruct (env _ (import_cmd address cid)) as [e2|r2].
      { eexists _, _, [_; _]. split; [reflexivity|].
        apply Hweaken.
        apply (reconciles_failed_check address cid [_] r Hrc). repeat constructor. }
      destruct (returncode r2 =? 0).
      * eexists _, _, [_; _; _]. split; [reflexivity|].
        apply Hweaken.
        apply (reconciles_failed_check address cid [_; _] r Hrc). repeat constructor.
      * eexists _, _, [_; _]. split; [reflexivity|].
        apply Hweaken.
        apply (reconciles_failed_check address cid [_] r Hrc). repeat constructor.
    + destruct (IH s t) as (res & s' & evs & -> & Hrec).
      exists res, s', evs. split; [reflexivity|].
      revert Hrec. apply reconciles_mono.
      intros a rid (-> & c0 & Hin & Hc0). split; [reflexivity|].
      exists c0. split; [right; exact Hin|exact Hc0].
Qed.

(** Sequencing two runs whose addresses differ. *)
Lemma runs_then_reconciles {S A B} (m : M S A) (k : A -> M S B)
    (T1 T2 : string -> string -> Prop) :
  runs m (fun _ evs => reconciles T1 evs) ->
  (forall a, runs (k a) (fun _ evs => reconciles T2 evs)) ->
  (forall address rid1 rid2, T1 address rid1 -> T2 address rid2 -> False) ->
  runs (m ≫= k)
    (fun _ evs => reconciles (fun address rid => T1 address rid \/ T2 address rid) evs).
Proof.
  intros Hm Hk Hdisjoint s t. unfold mbind, M_bind.
  destruct (Hm s t) as (res & s' & evs1 & -> & H1).
  destruct res as [a|e].
  - destruct (Hk a s' (evs1 ++ t)%list) as (res & s'' & evs2 & -> & H2).
    exists res, s'', (evs2 ++ evs1)%list. split; [trace_eq|].
    apply reconciles_app; assumption.
  - exists (Raise e), s', evs1. split; [reflexivity|].
    revert H1. apply reconciles_mono. auto.
Qed.

(** Printing before a run. *)
Lemma runs_after_print {S B} (ev : Event) (k : M S B) (T : string -> string -> Prop) :
  ~ is_command ev ->
  runs k (fun _ evs => reconciles T evs) ->
  runs (emit ev ≫= fun _ => k) (fun _ evs => reconciles T evs).
Proof.
  intros Hsilent Hk s t. unfold mbind, M_bind, emit.
  destruct (Hk s (ev :: t)) as (res & s' & evs & -> & Hrec).
  exists res, s', (evs ++ [ev])%list. split; [trace_eq|].
  eapply reconciles_mono;
    [|apply (reconciles_app (fun _ _ => False) T [ev] evs);
      [apply reconciles_cons_silent; [exact Hsilent|apply reconciles_nil]
      |exact Hrec|intros ? ? ? []]].
  intros a rid [[]|HT]. exact HT.
Qed.

Lemma runs_ret_reconciles {S A} (a : A) (T : string -> string -> Prop) :
  runs (mret a : M S A) (fun _ evs => reconciles T evs).
Proof. intros s t. exists (Return a), s, []. split; [reflexivity|apply reconciles_nil]. Qed.

Lemma runs_reconciles_mono {S A} (m : M S A) (T T' : string -> string -> Prop) :
  (forall address rid, T address rid -> T' address rid) ->
  runs m (fun _ evs => reconciles T evs) ->
  runs m (fun _ evs => reconciles T' evs).
Proof.
  intros Hsub Hm s t. destruct (Hm s t) as (res & s' & evs & Heq & Hrec).
  exists res, s', evs. split; [exact Heq|]. revert Hrec. apply reconciles_mono, Hsub.
Qed.

End ImportRuns.

Lemma append_inv_tail (a b t : string) : a +:+ t = b +:+ t -> a = b.
Proof.
  intros H. apply (f_equal list_ascii_of_string) in H.
  assert (forall x y, list_ascii_of_string (x +:+ y)
                      = (list_ascii_of_string x ++ list_ascii_of_string y)%list) as Happ.
  { intros x y. induction x as [|c x IH]; [reflexivity|].
    change (String c x +:+ y) with (String c (x +:+ y)).
    cbn [list_ascii_of_string app]. rewrite IH. reflexivity. }
  rewrite !Happ in H. apply app_inv_tail in H.
  rewrite <- (string_of_list_ascii_of_string a),
          <- (string_of_list_ascii_of_string b), H.
  reflexivity.
Qed.

(** Distinct slots have distinct addresses. *)
Lemma instance_address_inj (kind : string) (i j : Z) :
  instance_address kind i = instance_address kind j -> i = j.
Proof.
  unfold instance_address. intros H.
  do 3 apply String.app_inj in H.
  apply append_inv_tail in H. exact (pretty_Z_inj _ _ H).
Qed.

Lemma amd_address_not_arm (i j : Z) :
  instance_address "amd" i <> instance_address "arm" j.
Proof.
  unfold instance_address. intros H. apply String.app_inj in H. discriminate H.
Qed.

Lemma instance_address_not_singleton (kind : string) (i : Z) (address : string) :
  In address ["oci_core_vcn.main"; "oci_core_internet_gateway.main";
              "oci_core_subnet.main"; "oci_core_default_route_table.main";
              "oci_core_default_security_list.main"] ->
  instance_address kind i <> address.
Proof.
  unfold instance_address. intros Hin H. cbv [String.append] in H.
  cbn [In] in Hin.
  destruct Hin as [<-|[<-|[<-|[<-|[<-|[]]]]]]; discriminate H.
Qed.

Lemma reconciles_silent (T : string -> string -> Prop) (evs : list Event) :
  Forall (fun ev => ~ is_command ev) evs -> reconciles T evs.
Proof.
  intros Hsilent. rewrite List.Forall_forall in Hsilent. split.
  - intros cmd o Hin. destruct (Hsilent _ Hin I).
  - intros address r Hin. destruct (Hsilent _ Hin I).
Qed.

Lemma reconciles_init (T : string -> string -> Prop) (evs : list Event) :
  Forall (only_command init_cmd) evs -> reconciles T evs.
Proof.
  intros Hinit. rewrite List.Forall_forall in Hinit. split.
  - intros cmd o Hin. left. exact (Hinit _ Hin).
  - intros address r Hin. apply Hinit in Hin. discriminate Hin.
Qed.

(** Events on other addresses, or none, around a run. *)
Lemma reconciles_around (T : string -> string -> Prop) (newer evs older : list Event) :
  reconciles (fun _ _ => False) newer ->
  reconciles (fun _ _ => False) older ->
  reconciles T evs ->
  reconciles T (newer ++ evs ++ older).
Proof.
  intros Hnewer Holder Hevs.
  pose proof (reconciles_app (fun _ _ => False) T older evs Holder Hevs
                ltac:(intros ? ? ? [])) as Hinner.
  pose proof (reconciles_app _ (fun _ _ => False) (evs ++ older) newer Hinner Hnewer
                ltac:(intros ? ? ? _ [])) as Hall.
  revert Hall. apply reconciles_mono.
  intros address rid [[[]|HT]|[]]. exact HT.
Qed.

(** A check of [address] between prints, followed by the events of its
    import when the check failed. *)
Lemma reconciles_checked (address rid : string)
    (newer imports older : list Event) (o : Exn + CompletedProcess) :
  Forall (fun ev => ~ is_command ev) newer ->
  Forall (fun ev => ~ is_command ev) older ->
  Forall (only_command (import_cmd address rid)) imports ->
  (forall r, o = inr r -> returncode r = 0 -> Forall (fun ev => ~ is_command ev) imports) ->
  reconciles (fun address' rid' => address' = address /\ rid' = rid)
    (newer ++ (imports ++ [ECommand (show_cmd address) o]) ++ older).
Proof.
  intros Hnewer Holder Himports Hpresent.
  apply reconciles_around;
    [apply reconciles_silent, Hnewer|apply reconciles_silent, Holder|].
  apply reconciles_unit; assumption.
Qed.

Ltac silent_events :=
  solve [repeat first [apply List.Forall_nil | apply List.Forall_cons; [intros []|]]].

(** The side conditions of [reconciles_checked]. *)
Ltac checked_sides :=
  first [ silent_events
        | assumption
        | intros ? ?; first [discriminate | intros; silent_events] ].

Lemma in_vcn_component (vcn_id : string) (items : ResourceDict) (rid : string)
    (matches : ExistingResource -> bool) :
  (forall c, matches c = true -> in_vcn vcn_id c = true) ->
  (exists c, In (rid, c) items /\ matches c = true) ->
  component_of vcn_id items rid.
Proof.
  intros Hmatches (c & Hin & Hc). exists c. split; [exact Hin|].
  apply Hmatches in Hc. unfold in_vcn in Hc.
  apply bool_decide_eq_true in Hc. exact Hc.
Qed.

Lemma import_vcn_components_reconciles {S}
    (env : Trace -> list string -> Exn + CompletedProcess)
    (inv : Inventory) (vcn_id : string) :
  runs (import_vcn_components env inv vcn_id (S:=S))
    (fun _ evs => reconciles (component_target inv vcn_id) evs).
Proof.
  unfold import_vcn_components.
  eapply runs_reconciles_mono;
    [|apply runs_then_reconciles;
      [apply import_component_reconciles
      |intros _; apply runs_then_reconciles;
       [apply import_component_reconciles
       |intros _; apply runs_then_reconciles;
        [apply import_component_reconciles
        |intros _; apply import_component_reconciles
        |]
       |]
      |]].
  - intros address rid [(-> & Hc)|[(-> & Hc)|[(-> & Hc)|(-> & Hc)]]].
    + left. split; [reflexivity|].
      eapply in_vcn_component; [|exact Hc]. auto.
    + right; left. split; [reflexivity|].
      eapply in_vcn_component; [|exact Hc]. auto.
    + right; right; left. split; [reflexivity|].
      eapply in_vcn_component; [|exact Hc].
      intros c Hc'. apply andb_true_iff in Hc'. tauto.
    + right; right; right. split; [reflexivity|].
      eapply in_vcn_component; [|exact Hc].
      intros c Hc'. apply andb_true_iff in Hc'. tauto.
  - intros address rid1 rid2 (-> & _) (H & _). discriminate H.
  - intros address rid1 rid2 (-> & _) [(H & _)|(H & _)]; discriminate H.
  - intros address rid1 rid2 (-> & _) [(H & _)|[(H & _)|(H & _)]]; discriminate H.
Qed.

Section ImportFunctions.

Variable env : Trace -> list string -> Exn + CompletedProcess.
Variable exn_str : Exn -> string.
Variable clock : Trace -> Z -> option Exn.
Variable json_loads : string -> option Exn.
Variable RETRY_MAX_ATTEMPTS RETRY_BASE_DELAY : Z.

Lemma instance_step (kind : string) (items : ResourceDict) (index : Z)
    (rid : string) (instance : ExistingResource) (unit_evs rest_evs : list Event) :
  reconciles (fun address' rid' => address' = instance_address kind index /\ rid' = rid)
    unit_evs ->
  reconciles (instance_target kind items (index + 1)) rest_evs ->
  reconciles (instance_target kind ((rid, instance) :: items) index)
    (rest_evs ++ unit_evs).
Proof.
  intros Hunit Hrest.
  pose proof (reconciles_app _ _ unit_evs rest_evs Hunit Hrest) as Hboth.
  eapply reconciles_mono; [|apply Hboth].
  - intros address rid' [(-> & ->)|(i & inst & Hi & -> & Hin)].
    + exists index, instance. split; [lia|]. split; [reflexivity|left; reflexivity].
    + exists i, inst. split; [lia|]. split; [reflexivity|right; exact Hin].
  - intros address rid1 rid2 (-> & _) (i & inst & Hi & Heq & _).
    apply instance_address_inj in Heq. lia.
Qed.

Lemma import_instances_reconciles {S} (kind label : string) (items : ResourceDict)
    (count : Z) :
  forall index imported failed,
    runs (import_instances env exn_str clock json_loads RETRY_MAX_ATTEMPTS RETRY_BASE_DELAY
            kind label items count index imported failed (S:=S))
      (fun _ evs => reconciles (instance_target kind items index) evs).
Proof.
  induction items as [|[rid instance] rest IH]; intros index imported failed s t.
  { eexists _, s, []. split; [reflexivity|apply reconciles_nil]. }
  cbn [import_instances].
  destruct (count <=? index).
  { eexists _, s, []. split; [reflexivity|apply reconciles_nil]. }
  unfold mbind, M_bind, print_status, print_success, print_warning, emit, run_command.
  fold (show_cmd (instance_address kind index)).
  fold (import_cmd (instance_address kind index) rid).
  set (address := instance_address kind index).
  set (t0 := EPrint Status (MsgImportingInstance label (res_name instance)) :: t).
  destruct (env t0 (show_cmd address)) as [e|r] eqn:Hshow.
  { eexists _, s, [ECommand (show_cmd address) (inl e);
                   EPrint Status (MsgImportingInstance label (res_name instance))].
    split; [reflexivity|].
    apply (instance_step kind rest index rid instance _ []);
      [|apply reconciles_nil].
    apply (reconciles_checked address rid [] [] [_]); checked_sides. }
  destruct (returncode r =? 0) eqn:Hrc.
  - destruct (IH (index + 1) imported failed s
                (EPrint Status MsgAlreadyInState :: ECommand (show_cmd address) (inr r) :: t0))
      as (res & s' & evs & -> & Hrest).
    exists res, s',
      (evs ++ [EPrint Status MsgAlreadyInState; ECommand (show_cmd address) (inr r);
               EPrint Status (MsgImportingInstance label (res_name instance))])%list.
    split; [subst t0; trace_eq|].
    apply (instance_step kind rest index rid instance); [|exact Hrest].
    apply (reconciles_checked address rid [_] [] [_]); checked_sides.
  - destruct (run_cmd_with_retries_and_check_spec env exn_str clock json_loads
                RETRY_MAX_ATTEMPTS RETRY_BASE_DELAY (import_cmd address rid) s
                (ECommand (show_cmd address) (inr r) :: t0))
      as (res & s' & imports & -> & ((success & flag) & ->) & Himports).
    assert (forall r', @inr Exn CompletedProcess r = inr r' -> returncode r' = 0 ->
                       Forall (fun ev => ~ is_command ev) imports) as Habsent.
    { intros r' [= <-] Hr'. rewrite Hr' in Hrc. discriminate Hrc. }
    destruct success.
    + destruct (IH (index + 1) (imported + 1) failed s'
                  (EPrint Success MsgImported
                     :: (imports ++ ECommand (show_cmd address) (inr r) :: t0)%list))
        as (res & s'' & evs & -> & Hrest).
      exists res, s'',
        (evs ++ [EPrint Success MsgImported] ++
           (imports ++ [ECommand (show_cmd address) (inr r)]) ++
           [EPrint Status (MsgImportingInstance label (res_name instance))])%list.
      split; [subst t0; trace_eq|].
      apply (instance_step kind rest index rid instance); [|exact Hrest].
      apply (reconciles_checked address rid [_] imports [_]); checked_sides.
    + destruct (IH (index + 1) imported (failed + 1) s'
                  (EPrint Warning MsgImportFailed
                     :: (imports ++ ECommand (show_cmd address) (inr r) :: t0)%list))
        as (res & s'' & evs & -> & Hrest).
      exists res, s'',
        (evs ++ [EPrint Warning MsgImportFailed] ++
           (imports ++ [ECommand (show_cmd address) (inr r)]) ++
           [EPrint Status (MsgImportingInstance label (res_name instance))])%list.
      split; [subst t0; trace_eq|].
      apply (instance_step kind rest index rid instance); [|exact Hrest].
      apply (reconciles_checked address rid [_] imports [_]); checked_sides.
Qed.

End ImportFunctions.

Section ImportDriver.

Variable env : Trace -> list string -> Exn + CompletedProcess.
Variable exn_str : Exn -> string.
Variable clock : Trace -> Z -> option Exn.
Variable json_loads : string -> option Exn.
Variable RETRY_MAX_ATTEMPTS RETRY_BASE_DELAY : Z.

Lemma vcn_step (inv : Inventory) (first_vcn_id : string) (first_vcn : ExistingResource)
    (rest : ResourceDict) (unit_evs cascade_evs : list Event) :
  existing_vcns inv = (first_vcn_id, first_vcn) :: rest ->
  reconciles (fun address' rid' => address' = "oci_core_vcn.main" /\ rid' = first_vcn_id)
    unit_evs ->
  reconciles (component_target inv first_vcn_id) cascade_evs ->
  reconciles (vcn_target inv) (cascade_evs ++ unit_evs).
Proof.
  intros Hvcns Hunit Hcascade.
  pose proof (reconciles_app _ _ unit_evs cascade_evs Hunit Hcascade) as Hboth.
  eapply reconciles_mono; [|apply Hboth].
  - intros address rid Ht. exists first_vcn_id, first_vcn, rest.
    split; [exact Hvcns|]. tauto.
  - intros address rid1 rid2 (-> & _)
      [(H & _)|[(H & _)|[(H & _)|(H & _)]]]; discriminate H.
Qed.

Lemma import_vcn_reconciles {S} (inv : Inventory) :
  runs (import_vcn env exn_str clock json_loads RETRY_MAX_ATTEMPTS RETRY_BASE_DELAY inv (S:=S))
    (fun _ evs => reconciles (vcn_target inv) evs).
Proof.
  intros s t. unfold import_vcn.
  destruct (existing_vcns inv) as [|[first_vcn_id first_vcn] rest] eqn:Hvcns.
  { eexists _, s, []. split; [reflexivity|apply reconciles_nil]. }
  unfold mbind, M_bind, print_status, print_success, print_warning, emit, run_command,
    mret, M_ret.
  fold (show_cmd "oci_core_vcn.main").
  fold (import_cmd "oci_core_vcn.main" first_vcn_id).
  set (address := "oci_core_vcn.main").
  set (t0 := EPrint Status (MsgImportingVcn (res_name first_vcn)) :: t).
  destruct (env t0 (show_cmd address)) as [e|r] eqn:Hshow.
  { eexists _, s, [ECommand (show_cmd address) (inl e);
                   EPrint Status (MsgImportingVcn (res_name first_vcn))].
    split; [reflexivity|].
    apply (vcn_step inv first_vcn_id first_vcn rest _ [] Hvcns);
      [|apply reconciles_nil].
    apply (reconciles_checked address first_vcn_id [] [] [_]); checked_sides. }
  destruct (returncode r =? 0) eqn:Hrc.
  { eexists _, s, [EPrint Status MsgAlreadyInState; ECommand (show_cmd address) (inr r);
                   EPrint Status (MsgImportingVcn (res_name first_vcn))].
    split; [reflexivity|].
    apply (vcn_step inv first_vcn_id first_vcn rest _ [] Hvcns);
      [|apply reconciles_nil].
    apply (reconciles_checked address first_vcn_id [_] [] [_]); checked_sides. }
  destruct (run_cmd_with_retries_and_check_spec env exn_str clock json_loads
              RETRY_MAX_ATTEMPTS RETRY_BASE_DELAY (import_cmd address first_vcn_id) s
              (ECommand (show_cmd address) (inr r) :: t0))
    as (res & s' & imports & -> & ((success & flag) & ->) & Himports).
  assert (forall r', @inr Exn CompletedProcess r = inr r' -> returncode r' = 0 ->
                     Forall (fun ev => ~ is_command ev) imports) as Habsent.
  { intros r' [= <-] Hr'. rewrite Hr' in Hrc. discriminate Hrc. }
  destruct success.
  - destruct (import_vcn_components_reconciles env inv first_vcn_id s'
                (EPrint Success MsgImported
                   :: (imports ++ ECommand (show_cmd address) (inr r) :: t0)%list))
      as (res & s'' & cascade & -> & Hcascade).
    assert (reconciles (vcn_target inv)
              (cascade ++ [EPrint Success MsgImported] ++
                 (imports ++ [ECommand (show_cmd address) (inr r)]) ++
                 [EPrint Status (MsgImportingVcn (res_name first_vcn))])) as Hrec.
    { apply (vcn_step inv first_vcn_id first_vcn rest _ _ Hvcns); [|exact Hcascade].
      apply (reconciles_checked address first_vcn_id [_] imports [_]); checked_sides. }
    destruct res as [[]|e];
      (eexists _, s'', _; split; [|exact Hrec]; subst t0; trace_eq).
  - eexists _, s',
      ([EPrint Warning MsgImportFailed] ++
         (imports ++ [ECommand (show_cmd address) (inr r)]) ++
         [EPrint Status (MsgImportingVcn (res_name first_vcn))])%list.
    split; [subst t0; trace_eq|].
    apply (vcn_step inv first_vcn_id first_vcn rest _ [] Hvcns);
      [|apply reconciles_nil].
    apply (reconciles_checked address first_vcn_id [_] imports [_]); checked_sides.
Qed.

(** The run of [import_existing_resources]: it ends, its imports have
    targets in [import_target], and it skips present addresses. *)
Lemma import_existing_resources_reconciles {S} (inv : Inventory)
    (instance_config : InstanceConfig) :
  runs (import_existing_resources env exn_str clock json_loads RETRY_MAX_ATTEMPTS
          RETRY_BASE_DELAY inv instance_config (S:=S))
    (fun _ evs => reconciles (import_target inv) evs).
Proof.
  unfold import_existing_resources, print_header.
  apply runs_after_print; [intros []|].
  destruct (_ && _)%bool.
  { unfold print_status. apply runs_after_print; [intros []|].
    apply runs_ret_reconciles. }
  unfold print_status at 1. apply runs_after_print; [intros []|].
  intros s t. unfold try_except, retry_with_backoff.
  destruct (retry_loop_only_command exn_str clock "_init" (_init env) RETRY_MAX_ATTEMPTS
              RETRY_BASE_DELAY init_cmd (init_only_command env)
              (Z.to_nat RETRY_MAX_ATTEMPTS) 1 None ltac:(lia) s t)
    as (res & s' & init_evs & -> & Hinit).
  apply (reconciles_init (fun _ _ => False)) in Hinit.
  assert (forall B (k : M S B),
             runs k (fun _ evs => reconciles (import_target inv) evs) ->
             exists res' s'' evs,
               k s' (init_evs ++ t)%list = Some (res', s'', (evs ++ t)%list) /\
               reconciles (import_target inv) evs) as Hafter.
  { intros B k Hk. destruct (Hk s' (init_evs ++ t)%list) as (res' & s'' & evs & -> & Hrec).
    exists res', s'', (evs ++ init_evs)%list. split; [trace_eq|].
    pose proof (reconciles_app _ _ init_evs evs Hinit Hrec ltac:(intros ? ? ? [])) as Hall.
    revert Hall. apply reconciles_mono. intros address rid [[]|HT]. exact HT. }
  destruct res as [result|e]; apply Hafter.
  - eapply runs_reconciles_mono;
      [|apply runs_then_reconciles;
        [apply import_vcn_reconciles
        |intros [imported failed]; apply runs_then_reconciles;
         [apply import_instances_reconciles
         |intros [imported' failed']; apply runs_then_reconciles;
          [apply import_instances_reconciles
          |intros [imported'' failed''];
           unfold print_blank, print_success;
           apply runs_after_print; [intros []|];
           apply runs_after_print; [intros []|];
           apply (runs_ret_reconciles true (fun _ _ => False))
          |]
         |]
        |]].
    + intros address rid [Hv|[Hamd|[Harm|[]]]]; unfold import_target; auto.
    + intros address rid1 rid2 _ [].
    + intros address rid1 rid2 (i & inst & _ & -> & _) [(j & inst' & _ & H & _)|[]].
      exact (amd_address_not_arm i j H).
    + intros address rid1 rid2 (v & fv & rest & _ & Ht)
        [(i & inst & _ & -> & _)|[(i & inst & _ & -> & _)|[]]];
        (destruct Ht as [(H & _)|[(H & _)|[(H & _)|[(H & _)|(H & _)]]]];
         revert H; apply instance_address_not_singleton; cbn [In]; tauto).
  - unfold print_error. apply runs_after_print; [intros []|].
    apply runs_ret_reconciles.
Qed.

End ImportDriver.

Section AllPresent.

Variable env : Trace -> list string -> Exn + CompletedProcess.
Variable exn_str : Exn -> string.
Variable clock : Trace -> Z -> option Exn.
Variable json_loads : string -> option Exn.
Variable RETRY_MAX_ATTEMPTS RETRY_BASE_DELAY : Z.
Hypothesis Henv : everything_in_state env.

Lemma show_nothing_failed (address : string) (o : Exn + CompletedProcess) :
  nothing_failed (ECommand (show_cmd address) o).
Proof. intros a rid H. discriminate H. Qed.

Lemma import_instances_all_present {S} (kind label : string) (items : ResourceDict)
    (count : Z) :
  forall index imported failed (s : S) (t : Trace),
    exists evs,
      import_instances env exn_str clock json_loads RETRY_MAX_ATTEMPTS RETRY_BASE_DELAY
        kind label items count index imported failed s t
      = Some (Return (imported, failed), s, (evs ++ t)%list) /\
      Forall nothing_failed evs.
Proof.
  induction items as [|[rid instance] rest IH]; intros index imported failed s t.
  { exists []. split; [reflexivity|constructor]. }
  cbn [import_instances].
  destruct (count <=? index).
  { exists []. split; [reflexivity|constructor]. }
  unfold mbind, M_bind, print_status, emit, run_command.
  fold (show_cmd (instance_address kind index)).
  set (t0 := EPrint Status (MsgImportingInstance label (res_name instance)) :: t).
  destruct (proj2 (Henv t0) (instance_address kind index)) as (r & -> & Hr).
  rewrite Hr. cbn [Z.eqb].
  destruct (IH (index + 1) imported failed s
              (EPrint Status MsgAlreadyInState
                 :: ECommand (show_cmd (instance_address kind index)) (inr r) :: t0))
    as (evs & -> & Hevs).
  exists (evs ++ [EPrint Status MsgAlreadyInState;
                  ECommand (show_cmd (instance_address kind index)) (inr r);
                  EPrint Status (MsgImportingInstance label (res_name instance))])%list.
  split; [subst t0; trace_eq|].
  apply Forall_app. split; [exact Hevs|].
  repeat constructor. apply show_nothing_failed.
Qed.

Lemma import_vcn_all_present {S} (inv : Inventory) (s : S) (t : Trace) :
  exists evs,
    import_vcn env exn_str clock json_loads RETRY_MAX_ATTEMPTS RETRY_BASE_DELAY inv s t
    = Some (Return (0, 0), s, (evs ++ t)%list) /\
    Forall nothing_failed evs.
Proof.
  unfold import_vcn.
  destruct (existing_vcns inv) as [|[first_vcn_id first_vcn] rest].
  { exists []. split; [reflexivity|constructor]. }
  unfold mbind, M_bind, print_status, emit, run_command, mret, M_ret.
  fold (show_cmd "oci_core_vcn.main").
  set (t0 := EPrint Status (MsgImportingVcn (res_name first_vcn)) :: t).
  destruct (proj2 (Henv t0) "oci_core_vcn.main") as (r & -> & Hr).
  rewrite Hr. cbn [Z.eqb].
  exists [EPrint Status MsgAlreadyInState;
          ECommand (show_cmd "oci_core_vcn.main") (inr r);
          EPrint Status (MsgImportingVcn (res_name first_vcn))].
  split; [reflexivity|].
  repeat constructor. apply show_nothing_failed.
Qed.

Lemma init_first_attempt {S} (s : S) (t : Trace) :
  1 <= RETRY_MAX_ATTEMPTS ->
  exists r,
    retry_with_backoff exn_str clock "_init" (_init env)
      RETRY_MAX_ATTEMPTS RETRY_BASE_DELAY s t
    = Some (Return r, s,
            ECommand init_cmd (inr r)
              :: EPrint Status (MsgAttempt 1 RETRY_MAX_ATTEMPTS "_init") :: t).
Proof.
  intros Hmax. unfold retry_with_backoff.
  destruct (Z.to_nat RETRY_MAX_ATTEMPTS) as [|fuel] eqn:Hfuel; [lia|].
  rewrite retry_loop_step by lia.
  unfold _init, mbind, M_bind, run_command, mret, M_ret.
  fold init_cmd.
  destruct (proj1 (Henv (EPrint Status (MsgAttempt 1 RETRY_MAX_ATTEMPTS "_init") :: t)))
    as (r & -> & Hr).
  rewrite Hr. cbn [Z.eqb negb]. exists r. reflexivity.
Qed.

(** With every address present the import returns [True], runs no import
    command and reports nothing failed. *)
Lemma import_all_present {S} (inv : Inventory) (instance_config : InstanceConfig)
    (s : S) (t : Trace) :
  1 <= RETRY_MAX_ATTEMPTS ->
  exists evs,
    import_existing_resources env exn_str clock json_loads RETRY_MAX_ATTEMPTS RETRY_BASE_DELAY
      inv instance_config s t
    = Some (Return true, s, (evs ++ t)%list) /\
    Forall nothing_failed evs.
Proof.
  intros Hmax. unfold import_existing_resources.
  unfold print_header, print_status, print_blank, print_success, emit, try_except.
  unfold mbind at 1, M_bind at 1.
  destruct (_ && _)%bool.
  { exists [EPrint Status MsgNothingToImport; EHeader "IMPORTING EXISTING RESOURCES"].
    split; [reflexivity|repeat constructor]. }
  unfold mbind at 1, M_bind at 1.
  set (t0 := EPrint Status MsgInitializing :: EHeader "IMPORTING EXISTING RESOURCES" :: t).
  destruct (init_first_attempt s t0 Hmax) as (r & ->).
  unfold mbind, M_bind.
  match goal with
  | |- context [import_vcn _ _ _ _ _ _ inv s ?t1] =>
      destruct (import_vcn_all_present inv s t1) as (vcn_evs & -> & Hvcn)
  end.
  match goal with
  | |- context [import_instances _ _ _ _ _ _ "amd" "AMD" ?items ?count 0 0 0 s ?t1] =>
      destruct (import_instances_all_present "amd" "AMD" items count 0 0 0 s t1)
        as (amd_evs & -> & Hamd)
  end.
  match goal with
  | |- context [import_instances _ _ _ _ _ _ "arm" "ARM" ?items ?count 0 0 0 s ?t1] =>
      destruct (import_instances_all_present "arm" "ARM" items count 0 0 0 s t1)
        as (arm_evs & -> & Harm)
  end.
  exists ([EPrint Success (MsgImportComplete 0 0); EBlank] ++ arm_evs ++ amd_evs
            ++ vcn_evs
            ++ [ECommand init_cmd (inr r);
                EPrint Status (MsgAttempt 1 RETRY_MAX_ATTEMPTS "_init");
                EPrint Status MsgInitializing;
                EHeader "IMPORTING EXISTING RESOURCES"])%list.
  split; [subst t0; trace_eq|].
  repeat (apply Forall_app; split); try assumption.
  - repeat constructor.
  - repeat constructor. intros a rid H. discriminate H.
Qed.

End AllPresent.

Lemma import_commands_have_targets (T : string -> string -> Prop) (evs : list Event) :
  reconciles T evs ->
  forall address rid o,
    In (ECommand (import_cmd address rid) o) evs -> T address rid.
Proof.
  intros (Hcmds & _) address rid o Hin.
  destruct (Hcmds _ _ Hin) as [H|(a & rid' & HT & [H|H])]; try discriminate H.
  injection H as <- <-. exact HT.
Qed.

Lemma env_all_present_everything : everything_in_state env_all_present.
Proof.
  intros t. split; [|intros address]; (eexists; split; reflexivity).
Qed.

Section AlreadyInState.

Variable env : Trace -> list string -> Exn + CompletedProcess.
Variable exn_str : Exn -> string.
Variable clock : Trace -> Z -> option Exn.
Variable json_loads : string -> option Exn.
Variable RETRY_MAX_ATTEMPTS RETRY_BASE_DELAY : Z.

(** The VCN block on a VCN that is in the state: one check, no import,
    and both counters at zero. *)
Lemma import_vcn_already_in_state {S} (inv : Inventory)
    (first_vcn_id : string) (first_vcn : ExistingResource) (rest : ResourceDict)
    (r : CompletedProcess) (s : S) (t : Trace) :
  existing_vcns inv = (first_vcn_id, first_vcn) :: rest ->
  env (EPrint Status (MsgImportingVcn (res_name first_vcn)) :: t)
      (show_cmd "oci_core_vcn.main") = inr r ->
  returncode r = 0 ->
  import_vcn env exn_str clock json_loads RETRY_MAX_ATTEMPTS RETRY_BASE_DELAY inv s t
  = Some (Return (0, 0), s,
          EPrint Status MsgAlreadyInState
            :: ECommand (show_cmd "oci_core_vcn.main") (inr r)
            :: EPrint Status (MsgImportingVcn (res_name first_vcn)) :: t).
Proof.
  intros Hvcns Henv Hr. unfold import_vcn. rewrite Hvcns.
  unfold mbind, M_bind, print_status, emit, run_command, mret, M_ret.
  fold (show_cmd "oci_core_vcn.main").
  rewrite Henv, Hr. reflexivity.
Qed.

(** One turn of an instance loop on an instance that is in the state:
    one check, no import, and the loop goes on with the next index and
    with both counters as they were. *)
Lemma import_instances_already_in_state {S} (kind label : string)
    (instance_id : string) (instance : ExistingResource) (rest : ResourceDict)
    (count index imported failed : Z) (r : CompletedProcess) (s : S) (t : Trace) :
  index < count ->
  env (EPrint Status (MsgImportingInstance label (res_name instance)) :: t)
      (show_cmd (instance_address kind index)) = inr r ->
  returncode r = 0 ->
  import_instances env exn_str clock json_loads RETRY_MAX_ATTEMPTS RETRY_BASE_DELAY
    kind label ((instance_id, instance) :: rest) count index imported failed s t
  = import_instances env exn_str clock json_loads RETRY_MAX_ATTEMPTS RETRY_BASE_DELAY
      kind label rest count (index + 1) imported failed s
      (EPrint Status MsgAlreadyInState
         :: ECommand (show_cmd (instance_address kind index)) (inr r)
         :: EPrint Status (MsgImportingInstance label (res_name instance)) :: t).
Proof.
  intros Hindex Henv Hr. cbn [import_instances].
  destruct (count <=? index) eqn:Hle; [lia|].
  unfold mbind, M_bind, print_status, emit, run_command.
  fold (show_cmd (instance_address kind index)).
  rewrite Henv, Hr. reflexivity.
Qed.

End AlreadyInState.

(** C8.  In a run of [import_existing_resources], an address whose
    state-show check succeeded is never the target of an import command.
    The skipped step counts as a success: the VCN block ends with both
    counters at zero, a turn of an instance loop leaves the two counters
    as they were and moves on to the next instance, and when every check
    succeeds (and [terraform init] does, with at least one attempt
    allowed) the whole run imports nothing, reports no failure and
    returns [True]. *)
Theorem present_address_is_never_imported {S}
    (env : Trace -> list string -> Exn + CompletedProcess)
    (exn_str : Exn -> string)
    (clock : Trace -> Z -> option Exn) (json_loads : string -> option Exn)
    (RETRY_MAX_ATTEMPTS RETRY_BASE_DELAY : Z)
    (inv : Inventory) (instance_config : InstanceConfig) (s : S) (t : Trace) :
  (exists res s' evs,
      import_existing_resources env exn_str clock json_loads RETRY_MAX_ATTEMPTS RETRY_BASE_DELAY
        inv instance_config s t
      = Some (res, s', (evs ++ t)%list) /\
      forall address r,
        In (ECommand (show_cmd address) (inr r)) evs ->
        returncode r = 0 ->
        forall rid o, ~ In (ECommand (import_cmd address rid) o) evs) /\
  (forall first_vcn_id first_vcn rest r,
      existing_vcns inv = (first_vcn_id, first_vcn) :: rest ->
      env (EPrint Status (MsgImportingVcn (res_name first_vcn)) :: t)
          (show_cmd "oci_core_vcn.main") = inr r ->
      returncode r = 0 ->
      import_vcn env exn_str clock json_loads RETRY_MAX_ATTEMPTS RETRY_BASE_DELAY inv s t
      = Some (Return (0, 0), s,
              EPrint Status MsgAlreadyInState
                :: ECommand (show_cmd "oci_core_vcn.main") (inr r)
                :: EPrint Status (MsgImportingVcn (res_name first_vcn)) :: t)) /\
  (forall kind label instance_id instance rest count index imported failed r,
      index < count ->
      env (EPrint Status (MsgImportingInstance label (res_name instance)) :: t)
          (show_cmd (instance_address kind index)) = inr r ->
      returncode r = 0 ->
      import_instances env exn_str clock json_loads RETRY_MAX_ATTEMPTS RETRY_BASE_DELAY
        kind label ((instance_id, instance) :: rest) count index imported failed s t
      = import_instances env exn_str clock json_loads RETRY_MAX_ATTEMPTS RETRY_BASE_DELAY
          kind label rest count (index + 1) imported failed s
          (EPrint Status MsgAlreadyInState
             :: ECommand (show_cmd (instance_address kind index)) (inr r)
             :: EPrint Status (MsgImportingInstance label (res_name instance)) :: t)) /\
  (everything_in_state env ->
   1 <= RETRY_MAX_ATTEMPTS ->
   exists evs,
     import_existing_resources env exn_str clock json_loads RETRY_MAX_ATTEMPTS RETRY_BASE_DELAY
       inv instance_config s t
     = Some (Return true, s, (evs ++ t)%list) /\
     (forall address rid o, ~ In (ECommand (import_cmd address rid) o) evs) /\
     Forall nothing_failed evs).
Proof.
  split; [|split; [|split]].
  - destruct (import_existing_resources_reconciles env exn_str clock json_loads
                RETRY_MAX_ATTEMPTS RETRY_BASE_DELAY inv instance_config s t)
      as (res & s' & evs & Hrun & _ & Hskip).
    exists res, s', evs. split; [exact Hrun|exact Hskip].
  - intros first_vcn_id first_vcn rest r.
    apply import_vcn_already_in_state.
  - intros kind label instance_id instance rest count index imported failed r.
    apply import_instances_already_in_state.
  - intros Henv Hmax.
    destruct (import_all_present env exn_str clock json_loads RETRY_MAX_ATTEMPTS
                RETRY_BASE_DELAY Henv inv instance_config s t Hmax)
      as (evs & Hrun & Hok).
    exists evs. split; [exact Hrun|]. split; [|exact Hok].
    intros address rid o Hin. rewrite List.Forall_forall in Hok.
    exact (Hok _ Hin address rid eq_refl).
Qed.

Lemma present_address_is_never_imported_witness :
  exists evs,
    import_existing_resources env_all_present exn_str_example clock_example json_loads_example 8 15
      two_vcn_inventory (configure_from_existing_instances two_vcn_inventory) tt []
    = Some (Return true, tt, (evs ++ [])%list) /\
    (forall address rid o, ~ In (ECommand (import_cmd address rid) o) evs) /\
    Forall nothing_failed evs.
Proof.
  apply (proj2 (proj2 (proj2
           (present_address_is_never_imported env_all_present exn_str_example clock_example
              json_loads_example 8 15 two_vcn_inventory
              (configure_from_existing_instances two_vcn_inventory) tt [])))).
  - exact env_all_present_everything.
  - lia.
Defined.

(** C10.  The only VCN that [import_existing_resources] imports is the
    first one of the inventory: every import into [oci_core_vcn.main]
    carries the first key of [existing_vcns], no later VCN is imported
    there, and the cascade into the gateway, subnet, route-table and
    security-list addresses only takes components of that first VCN. *)
Theorem only_first_vcn_is_imported {S}
    (env : Trace -> list string -> Exn + CompletedProcess)
    (exn_str : Exn -> string)
    (clock : Trace -> Z -> option Exn) (json_loads : string -> option Exn)
    (RETRY_MAX_ATTEMPTS RETRY_BASE_DELAY : Z)
    (inv : Inventory) (instance_config : InstanceConfig) (s : S) (t : Trace) :
  exists res s' evs,
    import_existing_resources env exn_str clock json_loads RETRY_MAX_ATTEMPTS RETRY_BASE_DELAY
      inv instance_config s t
    = Some (res, s', (evs ++ t)%list) /\
    (forall address rid o,
        In (ECommand (import_cmd address rid) o) evs -> import_target inv address rid) /\
    (forall rid o,
        In (ECommand (import_cmd "oci_core_vcn.main" rid) o) evs ->
        exists first_vcn rest, existing_vcns inv = (rid, first_vcn) :: rest) /\
    (forall first_vcn_id first_vcn rest later_id o,
        existing_vcns inv = (first_vcn_id, first_vcn) :: rest ->
        In later_id (keys rest) ->
        later_id <> first_vcn_id ->
        ~ In (ECommand (import_cmd "oci_core_vcn.main" later_id) o) evs) /\
    (forall address rid o,
        In (ECommand (import_cmd address rid) o) evs ->
        In address cascade_addresses ->
        exists first_vcn_id first_vcn rest,
          existing_vcns inv = (first_vcn_id, first_vcn) :: rest /\
          component_target inv first_vcn_id address rid).
Proof.
  destruct (import_existing_resources_reconciles env exn_str clock json_loads
              RETRY_MAX_ATTEMPTS RETRY_BASE_DELAY inv instance_config s t)
    as (res & s' & evs & Hrun & Hrec).
  pose proof (import_commands_have_targets _ _ Hrec) as Htargets.
  assert (forall rid o,
             In (ECommand (import_cmd "oci_core_vcn.main" rid) o) evs ->
             exists first_vcn rest, existing_vcns inv = (rid, first_vcn) :: rest)
    as Hfirst.
  { intros rid o Hin.
    destruct (Htargets _ _ _ Hin)
      as [(v & fv & rest & Hvcns & Ht)
         |[(i & inst & _ & H & _)|(i & inst & _ & H & _)]].
    - destruct Ht as [(_ & ->)|[(H & _)|[(H & _)|[(H & _)|(H & _)]]]];
        try discriminate H.
      exists fv, rest. exact Hvcns.
    - exfalso. exact (instance_address_not_singleton _ _ _ (or_introl eq_refl) (eq_sym H)).
    - exfalso. exact (instance_address_not_singleton _ _ _ (or_introl eq_refl) (eq_sym H)). }
  exists res, s', evs. split; [exact Hrun|]. split; [exact Htargets|].
  split; [exact Hfirst|]. split.
  - intros first_vcn_id first_vcn rest later_id o Hvcns _ Hne Hin.
    destruct (Hfirst _ _ Hin) as (fv & rest' & Hvcns').
    rewrite Hvcns in Hvcns'. injection Hvcns' as Heq _ _. congruence.
  - intros address rid o Hin Haddr.
    destruct (Htargets _ _ _ Hin)
      as [(v & fv & rest & Hvcns & Ht)
         |[(i & inst & _ & H & _)|(i & inst & _ & H & _)]].
    + destruct Ht as [(-> & _)|Hc].
      * cbn [In cascade_addresses] in Haddr.
        destruct Haddr as [H|[H|[H|[H|[]]]]]; discriminate H.
      * exists v, fv, rest. split; [exact Hvcns|exact Hc].
    + exfalso. exact (instance_address_not_singleton _ _ address (or_intror Haddr) (eq_sym H)).
    + exfalso. exact (instance_address_not_singleton _ _ address (or_intror Haddr) (eq_sym H)).
Qed.

Lemma only_first_vcn_is_imported_witness :
  exists res s' evs,
    import_existing_resources env_nothing_in_state exn_str_example clock_example json_loads_example 8 15
      two_vcn_inventory (configure_from_existing_instances two_vcn_inventory) tt []
    = Some (res, s', (evs ++ [])%list) /\
    imports_of evs = [("oci_core_vcn.main", "ocid1.vcn.one");
                      ("oci_core_subnet.main", "ocid1.subnet.a");
                      ("oci_core_instance.amd[0]", "ocid1.instance.a")] /\
    forall o, ~ In (ECommand (import_cmd "oci_core_vcn.main" "ocid1.vcn.two") o) evs.
Proof.
  destruct (only_first_vcn_is_imported env_nothing_in_state exn_str_example clock_example
              json_loads_example 8 15 two_vcn_inventory
              (configure_from_existing_instances two_vcn_inventory) tt [])
    as (res & s' & evs & Hrun & _ & _ & Hlater & _).
  exists res, s', evs. split; [exact Hrun|]. split.
  - rewrite app_nil_r in Hrun. vm_compute in Hrun.
    injection Hrun as _ _ <-. vm_compute. reflexivity.
  - intros o.
    apply (Hlater "ocid1.vcn.one" _ _ "ocid1.vcn.two" o eq_refl).
    + left. reflexivity.
    + discriminate.
Defined.

(** ** Rules for [ends] *)

Lemma ends_ret {S A} (a : A) (Q : S -> Result A -> S -> list Event -> Prop) :
  (forall s, Q s (Return a) s []) -> ends (mret a : M S A) Q.
Proof. intros HQ s t. exists (Return a), s, []. split; [reflexivity|apply HQ]. Qed.

Lemma ends_raise {S A} (e : Exn) (Q : S -> Result A -> S -> list Event -> Prop) :
  (forall s, Q s (Raise e) s []) -> ends (raise e : M S A) Q.
Proof. intros HQ s t. exists (Raise e), s, []. split; [reflexivity|apply HQ]. Qed.

Lemma ends_emit {S} (ev : Event) (Q : S -> Result unit -> S -> list Event -> Prop) :
  (forall s, Q s (Return tt) s [ev]) -> ends (emit ev) Q.
Proof. intros HQ s t. exists (Return tt), s, [ev]. split; [reflexivity|apply HQ]. Qed.

Lemma ends_conseq {S A} (m : M S A) (P Q : S -> Result A -> S -> list Event -> Prop) :
  ends m P -> (forall s res s' evs, P s res s' evs -> Q s res s' evs) -> ends m Q.
Proof.
  intros Hm HPQ s t. destruct (Hm s t) as (res & s' & evs & Hrun & HP).
  exists res, s', evs. split; [exact Hrun|apply HPQ, HP].
Qed.

Lemma ends_bind {S A B} (m : M S A) (k : A -> M S B)
    (P : S -> Result A -> S -> list Event -> Prop)
    (Q : S -> Result B -> S -> list Event -> Prop) :
  ends m P ->
  (forall s e s1 evs1, P s (Raise e) s1 evs1 -> Q s (Raise e) s1 evs1) ->
  (forall s a s1 evs1,
      P s (Return a) s1 evs1 ->
      forall t, exists res s' evs2,
        k a s1 t = Some (res, s', (evs2 ++ t)%list) /\ Q s res s' (evs2 ++ evs1)%list) ->
  ends (m ≫= k) Q.
Proof.
  intros Hm Hraise Hk s t. unfold mbind, M_bind.
  destruct (Hm s t) as (res & s1 & evs1 & -> & HP).
  destruct res as [a|e].
  - destruct (Hk s a s1 evs1 HP (evs1 ++ t)%list) as (res & s' & evs2 & -> & HQ).
    exists res, s', (evs2 ++ evs1)%list. split; [now rewrite app_assoc|exact HQ].
  - exists (Raise e), s1, evs1. split; [reflexivity|apply Hraise, HP].
Qed.

Lemma ends_try_except {S A B} (body : M S A) (on_return : A -> M S B)
    (on_except : Exn -> M S B)
    (P : S -> Result A -> S -> list Event -> Prop)
    (Q : S -> Result B -> S -> list Event -> Prop) :
  ends body P ->
  (forall s a s1 evs1,
      P s (Return a) s1 evs1 ->
      forall t, exists res s' evs2,
        on_return a s1 t = Some (res, s', (evs2 ++ t)%list) /\
        Q s res s' (evs2 ++ evs1)%list) ->
  (forall s e s1 evs1,
      P s (Raise e) s1 evs1 ->
      forall t, exists res s' evs2,
        on_except e s1 t = Some (res, s', (evs2 ++ t)%list) /\
        Q s res s' (evs2 ++ evs1)%list) ->
  ends (try_except body on_return on_except) Q.
Proof.
  intros Hm Hret Hexc s t. unfold try_except.
  destruct (Hm s t) as (res & s1 & evs1 & -> & HP).
  destruct res as [a|e].
  - destruct (Hret s a s1 evs1 HP (evs1 ++ t)%list) as (res & s' & evs2 & -> & HQ).
    exists res, s', (evs2 ++ evs1)%list. split; [now rewrite app_assoc|exact HQ].
  - destruct (Hexc s e s1 evs1 HP (evs1 ++ t)%list) as (res & s' & evs2 & -> & HQ).
    exists res, s', (evs2 ++ evs1)%list. split; [now rewrite app_assoc|exact HQ].
Qed.

(** [run_command]: one command event, and the result is its outcome. *)
Lemma ends_run_command {S} (env : Trace -> list string -> Exn + CompletedProcess)
    (cmd : list string) :
  ends (run_command env cmd (S:=S))
    (fun s res s' evs =>
       s' = s /\
       exists o, evs = [ECommand cmd o] /\
                 res = match o with inl e => Raise e | inr r => Return r end).
Proof.
  intros s t. unfold run_command. destruct (env t cmd) as [e|r].
  - exists (Raise e), s, [ECommand cmd (inl e)]. split; [reflexivity|].
    split; [reflexivity|]. exists (inl e). split; reflexivity.
  - exists (Return r), s, [ECommand cmd (inr r)]. split; [reflexivity|].
    split; [reflexivity|]. exists (inr r). split; reflexivity.
Qed.

(** ** The runs of the retry loop *)

Section RetryRuns.

Context {S A : Type}.
Variable exn_str : Exn -> string.
Variable clock : Trace -> Z -> option Exn.
Variable func_name : string.
Variable func : M S A.
Variable call : S -> Result A -> S -> list Event -> Prop.
Variable max_attempts base_delay : Z.
Hypothesis Hfunc : ends func call.

Lemma retry_loop_runs :
  forall (fuel : nat) (attempt : Z) (last_error : option Exn),
    max_attempts + 1 - attempt <= Z.of_nat fuel ->
    ends (retry_loop exn_str clock fuel func_name func max_attempts base_delay attempt last_error)
      (retry_run exn_str func_name call max_attempts base_delay attempt last_error).
Proof.
  induction fuel as [|fuel IH]; intros attempt last_error Hfuel s t;
    (destruct (Z.le_gt_cases attempt max_attempts) as [Hle|Hgt];
     [|rewrite retry_loop_exit by lia;
       eexists _, _, [_]; split; [reflexivity|apply retry_exhausted; lia]]).
  { lia. }
  rewrite retry_loop_step by lia.
  destruct (Hfunc s (EPrint Status (MsgAttempt attempt max_attempts func_name) :: t))
    as (res & s1 & evs & -> & Hcall).
  destruct res as [a|e].
  { exists (Return a), s1,
      (evs ++ [EPrint Status (MsgAttempt attempt max_attempts func_name)])%list.
    split; [trace_eq|]. apply retry_returned; assumption. }
  destruct (attempt <? max_attempts) eqn:Hlt.
  - cbv zeta. unfold sleep_error.
    destruct (sleep_refused (base_delay * 2 ^ (attempt - 1))) as [e'|] eqn:Hrefused.
    { eexists _, _, (_ :: _ :: evs ++ [_])%list. split; [trace_eq|].
      apply retry_bad_delay; [lia|assumption|assumption]. }
    destruct (clock _ _) as [e'|].
    { eexists _, _, (_ :: _ :: evs ++ [_])%list. split; [trace_eq|].
      apply retry_sleep_failed; [lia|assumption|assumption]. }
    match goal with
    | |- context [retry_loop _ _ fuel _ _ _ _ (attempt + 1) (Some e) s1 ?t1] =>
        destruct (IH (attempt + 1) (Some e) ltac:(lia) s1 t1)
          as (res & s' & evs' & -> & Hrest)
    end.
    exists res, s',
      (evs' ++ ESleep (base_delay * 2 ^ (attempt - 1))
         :: EPrint Status (MsgRetrying (base_delay * 2 ^ (attempt - 1)))
         :: retry_warning exn_str attempt e
         :: evs ++ [EPrint Status (MsgAttempt attempt max_attempts func_name)])%list.
    split; [trace_eq|].
    apply retry_again with (s1 := s1); [lia|assumption|assumption|assumption].
  - eexists _, _, (_ :: _ :: evs ++ [_])%list. split; [trace_eq|].
    apply retry_gave_up; [lia|assumption].
Qed.

Lemma retry_with_backoff_runs :
  ends (retry_with_backoff exn_str clock func_name func max_attempts base_delay)
    (retry_run exn_str func_name call max_attempts base_delay 1 None).
Proof. unfold retry_with_backoff. apply retry_loop_runs. lia. Qed.

End RetryRuns.

(** ** The time spent backing off *)

Lemma total_slept_attempt (n : Z) (steps : list Step) :
  total_slept (Attempt n :: steps) = total_slept steps.
Proof. reflexivity. Qed.

Lemma total_slept_sleep (d : Z) (steps : list Step) :
  total_slept (Sleep d :: steps) = d + total_slept steps.
Proof. unfold total_slept. cbn [omap list_omap]. apply sum_cons. Qed.

Lemma total_slept_backoff (base : Z) (retries : nat) :
  forall n, 1 <= n ->
    total_slept (backoff_schedule base n retries)
    = base * 2 ^ (n - 1) * (2 ^ Z.of_nat retries - 1).
Proof.
  induction retries as [|r IH]; intros n Hn.
  - cbn [backoff_schedule]. rewrite total_slept_attempt.
    change (total_slept []) with 0. change (Z.of_nat 0) with 0. lia.
  - cbn [backoff_schedule]. rewrite total_slept_attempt, total_slept_sleep, IH by lia.
    replace (n + 1 - 1) with (Z.succ (n - 1)) by lia.
    rewrite Nat2Z.inj_succ, !Z.pow_succ_r by lia. ring.
Qed.

Lemma total_slept_bound (base max_attempts attempt : Z) (retries : nat) :
  0 <= base -> 1 <= attempt ->
  attempt + Z.of_nat retries <= max_attempts ->
  total_slept (backoff_schedule base attempt retries)
  <= base * 2 ^ (attempt - 1) * (2 ^ (max_attempts - attempt) - 1).
Proof.
  intros Hbase Hattempt Hretries. rewrite total_slept_backoff by lia.
  apply Z.mul_le_mono_nonneg_l; [apply Z.mul_nonneg_nonneg; [lia|apply Z.pow_nonneg; lia]|].
  assert (2 ^ Z.of_nat retries <= 2 ^ (max_attempts - attempt))
    by (apply Z.pow_le_mono_r; lia).
  lia.
Qed.

(** X1.  With at least one attempt allowed and a base delay that is not
    negative, the seconds that a retry loop sleeps add up to at most
    [base_delay * (2^(max_attempts - 1) - 1)].  They add up to exactly
    that when every attempt fails and [time.sleep] returns for every
    delay [base_delay * 2^(n-1)], [1 <= n < max_attempts]: 1905 seconds
    on the run of the apply loop with the defaults of 8 attempts and 15
    seconds.  This holds for [retry_with_backoff] (around a function that
    only runs commands) and for the apply loop. *)
Theorem backoff_total_sleep :
  (forall (S A : Type) (exn_str : Exn -> string) (clock : Trace -> Z -> option Exn)
          (func_name : string)
          (func : M S A) (max_attempts base_delay : Z) (s : S) (t : Trace),
      commands_only func ->
      1 <= max_attempts ->
      0 <= base_delay ->
      exists res s' evs,
        retry_with_backoff exn_str clock func_name func max_attempts base_delay s t
        = Some (res, s', (evs ++ t)%list) /\
        total_slept (schedule evs) <= base_delay * (2 ^ (max_attempts - 1) - 1) /\
        (always_raises func ->
         (forall n, 1 <= n < max_attempts ->
                    sleep_returns clock (base_delay * 2 ^ (n - 1))) ->
         total_slept (schedule evs) = base_delay * (2 ^ (max_attempts - 1) - 1))) /\
  (forall (S : Type) (env : Trace -> list string -> Exn + CompletedProcess)
          (clock : Trace -> Z -> option Exn) (markup_ok : string -> bool)
          (RETRY_MAX_ATTEMPTS RETRY_BASE_DELAY : Z) (s : S) (t : Trace),
      1 <= RETRY_MAX_ATTEMPTS ->
      0 <= RETRY_BASE_DELAY ->
      exists res evs,
        out_of_capacity_auto_apply env clock markup_ok
          RETRY_MAX_ATTEMPTS RETRY_BASE_DELAY s t
        = Some (res, s, (evs ++ t)%list) /\
        total_slept (schedule evs)
        <= RETRY_BASE_DELAY * (2 ^ (RETRY_MAX_ATTEMPTS - 1) - 1) /\
        (always_out_of_capacity env ->
         (forall n, 1 <= n < RETRY_MAX_ATTEMPTS ->
                    sleep_returns clock (RETRY_BASE_DELAY * 2 ^ (n - 1))) ->
         total_slept (schedule evs)
         = RETRY_BASE_DELAY * (2 ^ (RETRY_MAX_ATTEMPTS - 1) - 1))) /\
  (exists evs,
      out_of_capacity_auto_apply env_out_of_capacity clock_example markup_example
        8 15 tt [] = Some (Return false, tt, evs) /\
      total_slept (schedule evs) = 1905).
Proof.
  split; [|split].
  - intros S A exn_str clock func_name func max_attempts base_delay s t
      Hfunc Hmax Hbase.
    unfold retry_with_backoff.
    destruct (retry_loop_schedule exn_str clock func_name func max_attempts base_delay
                Hfunc (Z.to_nat max_attempts) 1 None s t ltac:(lia))
      as (res & s' & evs & Hrun & Hsched).
    exists res, s', evs. split; [exact Hrun|]. split.
    + destruct Hsched as [(Hgt & _)|(retries & Hle & ->)]; [lia|].
      pose proof (total_slept_bound base_delay max_attempts 1 retries Hbase
                    ltac:(lia) Hle) as Hbound.
      change (2 ^ (1 - 1)) with 1 in Hbound. lia.
    + intros Hraises Hsleeps.
      destruct (retry_loop_all_fail exn_str clock func_name func max_attempts base_delay
                  Hraises max_attempts Hsleeps ltac:(lia)
                  (Z.to_nat max_attempts) 1 None s t ltac:(lia) ltac:(lia) ltac:(lia))
        as (e & s2 & evs2 & _ & _ & _ & Hrun2 & Hsched2 & _).
      rewrite Hrun in Hrun2. injection Hrun2 as _ _ Heq.
      apply app_inv_tail in Heq. subst evs2. rewrite Hsched2.
      rewrite total_slept_backoff by lia. rewrite Z2Nat.id by lia.
      change (2 ^ (1 - 1)) with 1. lia.
  - intros S env clock markup_ok RETRY_MAX_ATTEMPTS RETRY_BASE_DELAY s t Hmax Hbase.
    rewrite out_of_capacity_auto_apply_eq.
    destruct (apply_loop_schedule env clock markup_ok RETRY_MAX_ATTEMPTS RETRY_BASE_DELAY
                (Z.to_nat RETRY_MAX_ATTEMPTS) 1 s
                (EPrint Status (MsgAutoRetrying RETRY_MAX_ATTEMPTS) :: t) ltac:(lia))
      as (res & evs & Hrun & Hsched).
    exists res, (evs ++ [EPrint Status (MsgAutoRetrying RETRY_MAX_ATTEMPTS)])%list.
    split; [rewrite Hrun; f_equal; f_equal; trace_eq|].
    rewrite schedule_app. change (schedule [EPrint Status _]) with (@nil Step).
    cbn [app]. split.
    + destruct Hsched as [(Hgt & _)|(retries & Hle & ->)]; [lia|].
      pose proof (total_slept_bound RETRY_BASE_DELAY RETRY_MAX_ATTEMPTS 1 retries Hbase
                    ltac:(lia) Hle) as Hbound.
      change (2 ^ (1 - 1)) with 1 in Hbound. lia.
    + intros Henv Hsleeps.
      destruct (apply_loop_all_capacity env clock markup_ok RETRY_MAX_ATTEMPTS
                  RETRY_BASE_DELAY Henv RETRY_MAX_ATTEMPTS Hsleeps ltac:(lia)
                  (Z.to_nat RETRY_MAX_ATTEMPTS) 1 s
                  (EPrint Status (MsgAutoRetrying RETRY_MAX_ATTEMPTS) :: t)
                  ltac:(lia) ltac:(lia) ltac:(lia))
        as (evs2 & r & rest & Hrun2 & Hsched2 & _).
      rewrite Hrun in Hrun2. injection Hrun2 as _ Heq.
      apply app_inv_tail in Heq. subst evs2. rewrite Hsched2.
      rewrite total_slept_backoff by lia. rewrite Z2Nat.id by lia.
      change (2 ^ (1 - 1)) with 1. lia.
  - eexists. split; vm_compute; reflexivity.
Qed.

Lemma backoff_total_sleep_witness :
  exists res evs,
    out_of_capacity_auto_apply env_out_of_capacity clock_example markup_example
      8 15 tt []
    = Some (res, tt, (evs ++ [])%list) /\
    total_slept (schedule evs) = 15 * (2 ^ (8 - 1) - 1).
Proof.
  destruct (proj1 (proj2 backoff_total_sleep) unit env_out_of_capacity clock_example
              markup_example 8 15 tt [] ltac:(lia) ltac:(lia))
    as (res & evs & Hrun & _ & Hall).
  exists res, evs. split; [exact Hrun|].
  exact (Hall env_out_of_capacity_always default_delays_return).
Defined.

(** ** Degenerate retry settings *)

(** X2.  With [max_attempts] at zero or below nothing is attempted:
    [retry_with_backoff] never calls the function and raises the
    [TypeError] of [raise None]; the apply loop never runs
    [terraform apply] and returns [False]; and
    [run_cmd_with_retries_and_check] reports a failure for a command it
    never ran. *)
Theorem retry_without_attempts :
  (forall (S A : Type) (exn_str : Exn -> string) (clock : Trace -> Z -> option Exn)
          (func_name : string)
          (func : M S A) (max_attempts base_delay : Z) (s : S) (t : Trace),
      max_attempts <= 0 ->
      retry_with_backoff exn_str clock func_name func max_attempts base_delay s t
      = Some (Raise TypeError, s, EPrint Error (MsgFailedAfter max_attempts) :: t)) /\
  (forall (S : Type) (env : Trace -> list string -> Exn + CompletedProcess)
          (clock : Trace -> Z -> option Exn) (markup_ok : string -> bool)
          (RETRY_MAX_ATTEMPTS RETRY_BASE_DELAY : Z) (s : S) (t : Trace),
      RETRY_MAX_ATTEMPTS <= 0 ->
      out_of_capacity_auto_apply env clock markup_ok RETRY_MAX_ATTEMPTS RETRY_BASE_DELAY s t
      = Some (Return false, s,
              EPrint Error (MsgApplyGaveUp RETRY_MAX_ATTEMPTS)
                :: EPrint Status (MsgAutoRetrying RETRY_MAX_ATTEMPTS) :: t)) /\
  (forall (S : Type) (env : Trace -> list string -> Exn + CompletedProcess)
          (exn_str : Exn -> string) (clock : Trace -> Z -> option Exn)
          (json_loads : string -> option Exn)
          (RETRY_MAX_ATTEMPTS RETRY_BASE_DELAY : Z) (cmd : list string)
          (s : S) (t : Trace),
      RETRY_MAX_ATTEMPTS <= 0 ->
      run_cmd_with_retries_and_check env exn_str clock json_loads
        RETRY_MAX_ATTEMPTS RETRY_BASE_DELAY cmd s t
      = Some (Return (false, false), s,
              EPrint Error (MsgFailedAfter RETRY_MAX_ATTEMPTS) :: t)).
Proof.
  split; [|split].
  - intros S A exn_str clock func_name func max_attempts base_delay s t Hmax.
    unfold retry_with_backoff. rewrite retry_loop_exit by lia. reflexivity.
  - intros S env clock markup_ok RETRY_MAX_ATTEMPTS RETRY_BASE_DELAY s t Hmax.
    rewrite out_of_capacity_auto_apply_eq, apply_loop_exit by lia. reflexivity.
  - intros S env exn_str clock json_loads RETRY_MAX_ATTEMPTS RETRY_BASE_DELAY cmd s t Hmax.
    unfold run_cmd_with_retries_and_check, with_nonlocal, retry_with_backoff.
    rewrite retry_loop_exit by lia. reflexivity.
Qed.

Lemma retry_without_attempts_witness :
  run_cmd_with_retries_and_check env_all_present exn_str_example clock_example
    json_loads_example 0 15
    (import_cmd "oci_core_vcn.main" "ocid1.vcn.one") tt []
  = Some (Return (false, false), tt, [EPrint Error (MsgFailedAfter 0)]).
Proof.
  apply (proj2 (proj2 retry_without_attempts) unit env_all_present exn_str_example
           clock_example json_loads_example 0 15
           (import_cmd "oci_core_vcn.main" "ocid1.vcn.one") tt []).
  lia.
Defined.

(** What [time.sleep] makes of a negative delay. *)
Lemma sleep_error_negative (clock : Trace -> Z -> option Exn) (t : Trace)
    (seconds : Z) :
  seconds < 0 ->
  sleep_error clock t seconds
  = Some (if seconds <? - MAX_SLEEP then OverflowError else ValueError).
Proof.
  intros Hneg. unfold sleep_error, sleep_refused.
  destruct (Z.ltb_spec seconds (- MAX_SLEEP)) as [Hlow|Hlow]; [reflexivity|].
  destruct (Z.ltb_spec MAX_SLEEP seconds) as [Hhigh|_].
  { unfold MAX_SLEEP in Hhigh. lia. }
  destruct (Z.ltb_spec seconds 0); [reflexivity|lia].
Qed.

(** X3.  With a negative base delay the first retry is the last thing
    that happens: after one failed attempt with another one allowed,
    [time.sleep] is called with the negative delay and raises
    [ValueError], or [OverflowError] when the delay is below
    [-9223372036] seconds, since the conversion to nanoseconds comes
    before the test of the sign.  [retry_with_backoff] passes the
    exception on, and so does [out_of_capacity_auto_apply], which then
    returns no flag at all. *)
Theorem negative_delay_stops_retrying :
  (forall (S A : Type) (exn_str : Exn -> string) (clock : Trace -> Z -> option Exn)
          (func_name : string)
          (func : M S A) (max_attempts base_delay : Z) (s s' : S) (t t' : Trace)
          (e : Exn),
      base_delay < 0 ->
      2 <= max_attempts ->
      func s (EPrint Status (MsgAttempt 1 max_attempts func_name) :: t)
      = Some (Raise e, s', t') ->
      retry_with_backoff exn_str clock func_name func max_attempts base_delay s t
      = Some (Raise (if base_delay <? -9223372036 then OverflowError else ValueError),
              s',
              EPrint Status (MsgRetrying base_delay)
                :: retry_warning exn_str 1 e :: t')) /\
  (forall (S : Type) (env : Trace -> list string -> Exn + CompletedProcess)
          (clock : Trace -> Z -> option Exn) (markup_ok : string -> bool)
          (RETRY_MAX_ATTEMPTS RETRY_BASE_DELAY : Z) (s : S) (t : Trace)
          (r : CompletedProcess),
      RETRY_BASE_DELAY < 0 ->
      2 <= RETRY_MAX_ATTEMPTS ->
      env (EPrint Status (MsgApplyAttempt 1 RETRY_MAX_ATTEMPTS)
             :: EPrint Status (MsgAutoRetrying RETRY_MAX_ATTEMPTS) :: t) apply_cmd
      = inr r ->
      returncode r <> 0 ->
      mentions_capacity (stdout r +:+ stderr r) = true ->
      out_of_capacity_auto_apply env clock markup_ok RETRY_MAX_ATTEMPTS RETRY_BASE_DELAY s t
      = Some (Raise (if RETRY_BASE_DELAY <? -9223372036
                     then OverflowError else ValueError),
              s,
              EPrint Status (MsgWaiting RETRY_BASE_DELAY)
                :: EPrint Warning MsgApplyCapacity
                :: ECommand apply_cmd (inr r)
                :: EPrint Status (MsgApplyAttempt 1 RETRY_MAX_ATTEMPTS)
                :: EPrint Status (MsgAutoRetrying RETRY_MAX_ATTEMPTS) :: t)).
Proof.
  split.
  - intros S A exn_str clock func_name func max_attempts base_delay s s' t t' e
      Hbase Hmax Hcall.
    unfold retry_with_backoff.
    destruct (Z.to_nat max_attempts) as [|fuel] eqn:Hfuel; [lia|].
    rewrite retry_loop_step by lia. rewrite Hcall.
    change (2 ^ (1 - 1)) with 1. rewrite Z.mul_1_r.
    destruct (Z.ltb_spec 1 max_attempts); [|lia].
    cbv zeta. rewrite sleep_error_negative by exact Hbase. reflexivity.
  - intros S env clock markup_ok RETRY_MAX_ATTEMPTS RETRY_BASE_DELAY s t r
      Hbase Hmax Henv Hr Hcap.
    rewrite out_of_capacity_auto_apply_eq.
    destruct (Z.to_nat RETRY_MAX_ATTEMPTS) as [|fuel] eqn:Hfuel; [lia|].
    rewrite apply_loop_step by lia. rewrite Henv. cbv zeta.
    destruct (Z.eqb_spec (returncode r) 0); [contradiction|].
    rewrite Hcap. change (2 ^ (1 - 1)) with 1. rewrite Z.mul_1_r.
    destruct (Z.ltb_spec 1 RETRY_MAX_ATTEMPTS); [|lia].
    rewrite sleep_error_negative by exact Hbase. reflexivity.
Qed.

Lemma negative_delay_stops_retrying_witness :
  out_of_capacity_auto_apply env_out_of_capacity clock_example markup_example
    8 (-15) tt []
  = Some (Raise ValueError, tt,
          [EPrint Status (MsgWaiting (-15));
           EPrint Warning MsgApplyCapacity;
           ECommand apply_cmd (failed 1 "" "Error: 500-InternalError, Out of host capacity.");
           EPrint Status (MsgApplyAttempt 1 8);
           EPrint Status (MsgAutoRetrying 8)]) /\
  out_of_capacity_auto_apply env_out_of_capacity clock_example markup_example
    8 (-9223372037) tt []
  = Some (Raise OverflowError, tt,
          [EPrint Status (MsgWaiting (-9223372037));
           EPrint Warning MsgApplyCapacity;
           ECommand apply_cmd (failed 1 "" "Error: 500-InternalError, Out of host capacity.");
           EPrint Status (MsgApplyAttempt 1 8);
           EPrint Status (MsgAutoRetrying 8)]).
Proof.
  split.
  - apply (proj2 negative_delay_stops_retrying unit env_out_of_capacity clock_example
             markup_example 8 (-15) tt []
             {| returncode := 1; stdout := "";
                stderr := "Error: 500-InternalError, Out of host capacity." |}).
    + lia.
    + lia.
    + reflexivity.
    + discriminate.
    + vm_compute. reflexivity.
  - apply (proj2 negative_delay_stops_retrying unit env_out_of_capacity clock_example
             markup_example 8 (-9223372037) tt []
             {| returncode := 1; stdout := "";
                stderr := "Error: 500-InternalError, Out of host capacity." |}).
    + lia.
    + lia.
    + reflexivity.
    + discriminate.
    + vm_compute. reflexivity.
Defined.

(** ** What a retried call returns *)

Lemma schedule_call {S A} (call : S -> Result A -> S -> list Event -> Prop)
    (ev : Event) (s : S) (res : Result A) (s' : S) (evs : list Event) :
  (forall s res s' evs, call s res s' evs -> Forall is_command evs) ->
  call s res s' evs ->
  schedule (evs ++ [ev]) = match step_of ev with Some st => [st] | None => [] end.
Proof.
  intros Hcall H. rewrite schedule_app, (schedule_commands evs) by eauto.
  rewrite app_nil_r. unfold schedule. cbn [rev app omap list_omap].
  destruct (step_of ev); reflexivity.
Qed.

Lemma retry_run_returned {S A} (exn_str : Exn -> string) (func_name : string)
    (call : S -> Result A -> S -> list Event -> Prop) (max_attempts base_delay : Z) :
  (forall s res s' evs, call s res s' evs -> Forall is_command evs) ->
  forall attempt last_error s res s' evs,
    retry_run exn_str func_name call max_attempts base_delay attempt last_error s
      res s' evs ->
    forall a, res = Return a ->
      exists (k : Z) (s0 : S) (call_evs older : list Event),
        attempt <= k <= max_attempts /\
        call s0 (Return a) s' call_evs /\
        evs = (call_evs ++ EPrint Status (MsgAttempt k max_attempts func_name) :: older)%list /\
        schedule evs = backoff_schedule base_delay attempt (Z.to_nat (k - attempt)).
Proof.
  intros Hcall attempt last_error s res s' evs Hrun.
  induction Hrun as [attempt last_error s Hgt
                    |attempt last_error s a0 s' evs Hle Hc
                    |attempt last_error s e s' evs Heq Hc
                    |attempt last_error s e s' evs e' Hlt Hc Hneg
                    |attempt last_error s e s' evs e' Hlt Hc Hnone
                    |attempt last_error s e s1 evs res s' evs' Hlt Hc Hpos Hrest IH];
    intros a Hres; try discriminate Hres.
  - injection Hres as ->.
    exists attempt, s, evs, []. split; [lia|]. split; [exact Hc|]. split; [reflexivity|].
    rewrite (schedule_call call _ _ _ _ _ Hcall Hc).
    replace (attempt - attempt) with 0 by lia. reflexivity.
  - destruct (IH a Hres) as (k & s0 & call_evs & older & Hk & Hcall_k & -> & Hsched).
    exists k, s0, call_evs,
      (older ++ ESleep (base_delay * 2 ^ (attempt - 1))
         :: EPrint Status (MsgRetrying (base_delay * 2 ^ (attempt - 1)))
         :: retry_warning exn_str attempt e
         :: evs ++ [EPrint Status (MsgAttempt attempt max_attempts func_name)])%list.
    split; [lia|]. split; [exact Hcall_k|]. split; [trace_eq|].
    rewrite schedule_app, Hsched.
    rewrite !schedule_cons, (schedule_call call _ _ _ _ _ Hcall Hc).
    cbn [step_of retry_warning app].
    replace (Z.to_nat (k - attempt)) with (Datatypes.S (Z.to_nat (k - (attempt + 1))))
      by lia.
    cbn [backoff_schedule]. rewrite <- ?app_assoc. reflexivity.
Qed.

Lemma commands_only_ends {S A} (func : M S A) :
  commands_only func ->
  ends func (fun _ _ _ evs => Forall is_command evs).
Proof.
  intros Hfunc s t. destruct (Hfunc s t) as (res & s' & evs & Hrun & Hevs).
  exists res, s', evs. split; assumption.
Qed.

(** X4.  [retry_with_backoff] returns as soon as a call returns: when it
    returns [a], some attempt [k] between 1 and [max_attempts] returned
    [a], nothing follows that call (no warning, no sleep, no further
    attempt), the attempts made are exactly 1 to [k], and the sleeps
    between them are the backoff delays. *)
Theorem retry_returns_first_success {S A} (exn_str : Exn -> string)
    (clock : Trace -> Z -> option Exn)
    (func_name : string) (func : M S A)
    (call : S -> Result A -> S -> list Event -> Prop)
    (max_attempts base_delay : Z) (s : S) (t : Trace) :
  ends func call ->
  (forall s res s' evs, call s res s' evs -> Forall is_command evs) ->
  exists res s' evs,
    retry_with_backoff exn_str clock func_name func max_attempts base_delay s t
    = Some (res, s', (evs ++ t)%list) /\
    forall a, res = Return a ->
      exists (k : Z) (s0 : S) (call_evs older : list Event),
        1 <= k <= max_attempts /\
        call s0 (Return a) s' call_evs /\
        evs = (call_evs ++ EPrint Status (MsgAttempt k max_attempts func_name) :: older)%list /\
        attempt_numbers (schedule evs) = Py.range 1 (k + 1) /\
        schedule evs = backoff_schedule base_delay 1 (Z.to_nat (k - 1)).
Proof.
  intros Hfunc Hcall.
  destruct (retry_with_backoff_runs exn_str clock func_name func call max_attempts base_delay
              Hfunc s t) as (res & s' & evs & Hrun & Hgrammar).
  exists res, s', evs. split; [exact Hrun|].
  intros a Hres.
  destruct (retry_run_returned exn_str func_name call max_attempts base_delay Hcall
              _ _ _ _ _ _ Hgrammar a Hres)
    as (k & s0 & call_evs & older & Hk & Hcall_k & Hevs & Hsched).
  exists k, s0, call_evs, older. repeat split; try assumption; try lia.
  rewrite Hsched, backoff_schedule_attempts. f_equal. lia.
Qed.

Lemma retry_returns_first_success_witness :
  exists res s' evs,
    retry_with_backoff exn_str_example clock_example "_init" (_init env_all_present) 8 15 tt []
    = Some (res, s', (evs ++ [])%list) /\
    forall a, res = Return a ->
      exists (k : Z) (s0 : unit) (call_evs older : list Event),
        1 <= k <= 8 /\
        Forall is_command call_evs /\
        evs = (call_evs ++ EPrint Status (MsgAttempt k 8 "_init") :: older)%list /\
        attempt_numbers (schedule evs) = Py.range 1 (k + 1) /\
        schedule evs = backoff_schedule 15 1 (Z.to_nat (k - 1)).
Proof.
  apply (retry_returns_first_success exn_str_example clock_example "_init" (_init env_all_present)
           (fun _ _ _ evs => Forall is_command evs) 8 15 tt []).
  - apply commands_only_ends, init_commands_only.
  - intros ? ? ? ? H. exact H.
Defined.

(** ** The verdict of [run_cmd_with_retries_and_check] *)

Section RunCmdVerdict.

Variable env : Trace -> list string -> Exn + CompletedProcess.
Variable exn_str : Exn -> string.
Variable clock : Trace -> Z -> option Exn.
Variable cmd : list string.

Lemma run_ends : ends (_run env cmd) (run_call cmd).
Proof.
  intros flag t. unfold _run, mbind, M_bind, run_command, raise, put_state, mret, M_ret.
  destruct (env t cmd) as [e|r].
  - exists (Raise e), flag, [ECommand cmd (inl e)]. split; [reflexivity|].
    exists (inl e). split; [reflexivity|]. split; [|reflexivity].
    now rewrite orb_false_r.
  - unfold run_call.
    destruct (returncode r =? 0) eqn:Hr; cbn [negb].
    + exists (Return (stdout r)), flag, [ECommand cmd (inr r)]. split; [reflexivity|].
      exists (inr r). cbn [capacity_failure]. rewrite Hr. cbn [negb andb].
      rewrite orb_false_r. auto.
    + destruct (mentions_capacity _) eqn:Hcap.
      * eexists _, true, [ECommand cmd (inr r)]. split; [reflexivity|].
        exists (inr r). cbn [capacity_failure]. rewrite Hr, Hcap. cbn [negb andb].
        rewrite orb_true_r. auto.
      * eexists _, flag, [ECommand cmd (inr r)]. split; [reflexivity|].
        exists (inr r). cbn [capacity_failure]. rewrite Hr, Hcap. cbn [negb andb].
        rewrite orb_false_r. auto.
Qed.

Lemma existsb_capacity_silent (evs : list Event) :
  Forall (fun ev => ~ is_command ev) evs -> existsb capacity_failure evs = false.
Proof.
  induction 1 as [|ev evs Hev _ IH]; [reflexivity|].
  cbn [existsb]. rewrite IH. destruct ev; try reflexivity. destruct Hev. exact I.
Qed.

Lemma run_retry_verdict (max_attempts base_delay : Z) :
  forall attempt last_error flag res flag' evs,
    retry_run exn_str "_run" (run_call cmd) max_attempts base_delay attempt last_error flag
      res flag' evs ->
    flag' = (flag || existsb capacity_failure evs)%bool /\
    Forall (only_command cmd) evs /\
    match res with
    | Return output =>
        exists r older, evs = ECommand cmd (inr r) :: older /\
                        returncode r = 0 /\ stdout r = output
    | Raise _ => forall r older, evs <> ECommand cmd (inr r) :: older
    end.
Proof.
  intros attempt last_error flag res flag' evs Hrun.
  induction Hrun as [attempt last_error s Hgt
                    |attempt last_error s a0 s' evs Hle Hc
                    |attempt last_error s e s' evs Heq Hc
                    |attempt last_error s e s' evs e' Hlt Hc Hneg
                    |attempt last_error s e s' evs e' Hlt Hc Hnone
                    |attempt last_error s e s1 evs res s' evs' Hlt Hc Hpos Hrest IH].
  - split; [now rewrite orb_false_r|]. split; [repeat constructor|].
    intros r older H. discriminate H.
  - destruct Hc as (o & -> & -> & Ho). cbn [app existsb]. rewrite !orb_false_r.
    split; [reflexivity|]. split; [repeat constructor|].
    destruct o as [e|r]; [discriminate Ho|].
    destruct (Z.eqb_spec (returncode r) 0) as [Hr|Hr]; [|discriminate Ho].
    injection Ho as ->. exists r. eexists. split; [reflexivity|]. auto.
  - destruct Hc as (o & -> & -> & Ho). cbn [app existsb retry_warning]. rewrite !orb_false_r.
    split; [reflexivity|]. split; [repeat constructor|].
    intros r older H. discriminate H.
  - destruct Hc as (o & -> & -> & Ho). cbn [app existsb retry_warning]. rewrite !orb_false_r.
    split; [reflexivity|]. split; [repeat constructor|].
    intros r older H. discriminate H.
  - destruct Hc as (o & -> & -> & Ho). cbn [app existsb retry_warning]. rewrite !orb_false_r.
    split; [reflexivity|]. split; [repeat constructor|].
    intros r older H. discriminate H.
  - destruct Hc as (o & -> & -> & Ho). destruct IH as (-> & Hcmds & Hres).
    split; [|split].
    + rewrite existsb_app. cbn [app existsb retry_warning]. rewrite !orb_false_r.
      rewrite <- !orb_assoc. f_equal. apply orb_comm.
    + apply Forall_app. split; [exact Hcmds|repeat constructor].
    + destruct res as [output|e'].
      * destruct Hres as (r & older & -> & Hr & Hout).
        exists r. eexists. split; [reflexivity|]. auto.
      * intros r older H. destruct evs' as [|ev evs'].
        -- discriminate H.
        -- injection H as -> _. exact (Hres r evs' eq_refl).
Qed.

End RunCmdVerdict.

(** X5.  [run_cmd_with_retries_and_check] always returns a pair and never
    raises, whatever the command does.  The second component tells
    whether some attempt failed with a capacity marker in its error
    output.  The first is [True] exactly when the last attempt ended with
    status 0 and [json.loads] parses its output, or rejects it with
    [JSONDecodeError] while the output is not blank.  An output on which
    [json.loads] raises anything else (a [RecursionError], the
    [ValueError] of the digit limit) is reported as failed, and so is a
    command that succeeds without printing anything. *)
Theorem run_cmd_verdict {S}
    (env : Trace -> list string -> Exn + CompletedProcess)
    (exn_str : Exn -> string) (clock : Trace -> Z -> option Exn)
    (json_loads : string -> option Exn)
    (RETRY_MAX_ATTEMPTS RETRY_BASE_DELAY : Z) (cmd : list string)
    (s : S) (t : Trace) :
  exists success out_of_capacity_detected evs,
    run_cmd_with_retries_and_check env exn_str clock json_loads
      RETRY_MAX_ATTEMPTS RETRY_BASE_DELAY cmd s t
    = Some (Return (success, out_of_capacity_detected), s, (evs ++ t)%list) /\
    out_of_capacity_detected = existsb capacity_failure evs /\
    (success = true <->
     exists r older,
       evs = ECommand cmd (inr r) :: older /\ returncode r = 0 /\
       (json_loads (stdout r) = None \/
        (json_loads (stdout r) = Some JSONDecodeError /\
         Py.strip (stdout r) <> ""))) /\
    Forall (only_command cmd) evs.
Proof.
  unfold run_cmd_with_retries_and_check, with_nonlocal.
  destruct (retry_with_backoff_runs exn_str clock "_run" (_run env cmd) (run_call cmd)
              RETRY_MAX_ATTEMPTS RETRY_BASE_DELAY (run_ends env cmd) false t)
    as (res & flag & evs & -> & Hgrammar).
  apply run_retry_verdict in Hgrammar as (-> & Hcmds & Hres).
  cbn [orb].
  destruct res as [output|e].
  - destruct Hres as (r & older & -> & Hr & <-).
    assert (forall b : bool,
               (match json_loads (stdout r) with
                | None => true
                | Some JSONDecodeError => negb (String.eqb (Py.strip (stdout r)) "")
                | Some _ => false
                end = b) ->
               (b = true <->
                (json_loads (stdout r) = None \/
                 (json_loads (stdout r) = Some JSONDecodeError /\
                  Py.strip (stdout r) <> "")))) as Hverdict.
    { intros b <-. destruct (json_loads (stdout r)) as [e|].
      - destruct e;
          try (split; [intros H; discriminate H
                      |intros [H|(H & _)]; discriminate H]).
        destruct (String.eqb_spec (Py.strip (stdout r)) "") as [Hblank|Hblank];
          cbn [negb].
        + split; [intros H; discriminate H
                 |intros [H|(_ & H)]; [discriminate H|contradiction]].
        + split; [intros _; right; split; [reflexivity|exact Hblank]|reflexivity].
      - split; [left; reflexivity|reflexivity]. }
    exists (match json_loads (stdout r) with
            | None => true
            | Some JSONDecodeError => negb (String.eqb (Py.strip (stdout r)) "")
            | Some _ => false
            end),
      (existsb capacity_failure (ECommand cmd (inr r) :: older)),
      (ECommand cmd (inr r) :: older).
    split.
    { destruct (json_loads (stdout r)) as [[]|]; reflexivity. }
    split; [reflexivity|]. split; [|exact Hcmds].
    destruct (Hverdict _ eq_refl) as (Hto & Hfrom).
    split.
    + intros Hacc. exists r, older. auto.
    + intros (r' & older' & Heq & _ & Hacc). injection Heq as <- _. auto.
  - exists false, (existsb capacity_failure evs), evs.
    split; [reflexivity|]. split; [reflexivity|]. split; [|exact Hcmds].
    split; [discriminate|].
    intros (r & older & Heq & _). exfalso. exact (Hres r older Heq).
Qed.

(** A successful import that prints nothing counts as failed. *)
Example silent_success_is_reported_as_failure :
  run_cmd_with_retries_and_check (fun _ _ => succeeded "") exn_str_example
    clock_example json_loads_example 8 15
    (import_cmd "oci_core_vcn.main" "ocid1.vcn.one") tt []
  = Some (Return (false, false), tt,
          [ECommand (import_cmd "oci_core_vcn.main" "ocid1.vcn.one") (succeeded "");
           EPrint Status (MsgAttempt 1 8 "_run")]).
Proof. vm_compute. reflexivity. Qed.

(** A successful import whose output makes [json.loads] give up counts
    as failed, although the output is not blank. *)
Example unparsed_success_is_reported_as_failure :
  run_cmd_with_retries_and_check (fun _ _ => succeeded "[[[[") exn_str_example
    clock_example (fun _ => Some RecursionError) 8 15
    (import_cmd "oci_core_vcn.main" "ocid1.vcn.one") tt []
  = Some (Return (false, false), tt,
          [ECommand (import_cmd "oci_core_vcn.main" "ocid1.vcn.one") (succeeded "[[[[");
           EPrint Status (MsgAttempt 1 8 "_run")]).
Proof. vm_compute. reflexivity. Qed.

(** ** The cascade of a VCN import *)

Lemma count_events_app (p : Event -> bool) (xs ys : list Event) :
  count_events p (xs ++ ys) = count_events p xs + count_events p ys.
Proof. induction xs as [|x xs IH]; cbn [app count_events]; lia. Qed.

Lemma count_events_nonneg (p : Event -> bool) (evs : list Event) :
  0 <= count_events p evs.
Proof. induction evs as [|ev evs IH]; cbn [count_events]; [lia|destruct (p ev); lia]. Qed.

Lemma ends_and {S A} (m : M S A) (P Q : S -> Result A -> S -> list Event -> Prop) :
  ends m P -> ends m Q -> ends m (fun s res s' evs => P s res s' evs /\ Q s res s' evs).
Proof.
  intros HP HQ s t.
  destruct (HP s t) as (res & s' & evs & Hrun & Hp).
  destruct (HQ s t) as (res2 & s2 & evs2 & Hrun2 & Hq).
  rewrite Hrun in Hrun2. injection Hrun2 as <- <- Heq.
  apply app_inv_tail in Heq. subst evs2.
  exists res, s', evs. auto.
Qed.

Lemma runs_ends {S A} (m : M S A) (P : Result A -> list Event -> Prop) :
  runs m P -> ends m (fun _ res _ evs => P res evs).
Proof. intros H s t. exact (H s t). Qed.

(** One of the four loops of the cascade: at most one check and one
    import, and the import is for the first entry that matches. *)
Lemma import_component_first_match {S}
    (env : Trace -> list string -> Exn + CompletedProcess)
    (items : ResourceDict) (matches : ExistingResource -> bool)
    (address what : string) :
  ends (import_component env items matches address what (S:=S))
    (fun s res s' evs =>
       s' = s /\
       count_events is_command_b evs <= 2 /\
       count_events is_import_b evs <= 1 /\
       (forall cmd o, In (ECommand cmd o) evs ->
          cmd = show_cmd address \/
          exists rid, first_match matches items = Some rid /\
                      cmd = import_cmd address rid)).
Proof.
  induction items as [|[rid c] rest IH]; intros s t.
  { exists (Return tt), s, []. split; [reflexivity|].
    split; [reflexivity|]. cbn [count_events]. split; [lia|]. split; [lia|].
    intros cmd o []. }
  cbn [import_component first_match].
  destruct (matches c).
  2:{ exact (IH s t). }
  unfold mbind, M_bind, run_command, print_status, emit, mret, M_ret.
  fold (show_cmd address). fold (import_cmd address rid).
  destruct (env t (show_cmd address)) as [e|r].
  { eexists _, s, [_]. split; [reflexivity|]. split; [reflexivity|].
    cbn [count_events is_command_b is_import_b show_cmd String.eqb Ascii.eqb].
    split; [lia|]. split; [vm_compute; discriminate|].
    intros cmd o [H|[]]. injection H as <- _. left. reflexivity. }
  destruct (negb (returncode r =? 0)).
  2:{ eexists _, s, [_]. split; [reflexivity|]. split; [reflexivity|].
      split; [vm_compute; discriminate|]. split; [vm_compute; discriminate|].
      intros cmd o [H|[]]. injection H as <- _. left. reflexivity. }
  destruct (env (ECommand (show_cmd address) (inr r) :: t) (import_cmd address rid))
    as [e|r2].
  { eexists _, s, [_; _]. split; [reflexivity|]. split; [reflexivity|].
    split; [vm_compute; discriminate|]. split; [vm_compute; discriminate|].
    intros cmd o [H|[H|[]]]; injection H as <- _; [right|left; reflexivity].
    exists rid. auto. }
  destruct (returncode r2 =? 0).
  - eexists _, s, [_; _; _]. split; [reflexivity|]. split; [reflexivity|].
    split; [vm_compute; discriminate|]. split; [vm_compute; discriminate|].
    intros cmd o [H|[H|[H|[]]]]; try discriminate H;
      injection H as <- _; [right|left; reflexivity].
    exists rid. auto.
  - eexists _, s, [_; _]. split; [reflexivity|]. split; [reflexivity|].
    split; [vm_compute; discriminate|]. split; [vm_compute; discriminate|].
    intros cmd o [H|[H|[]]]; injection H as <- _; [right|left; reflexivity].
    exists rid. auto.
Qed.

Lemma within_seq {S A B} (m : M S A) (k : A -> M S B)
    (a b c d : Z) (T1 T2 : list string -> Prop) :
  0 <= c -> 0 <= d ->
  ends m (within a b T1) ->
  (forall x, ends (k x) (within c d T2)) ->
  ends (m ≫= k) (within (a + c) (b + d) (fun cmd => T1 cmd \/ T2 cmd)).
Proof.
  intros Hc Hd Hm Hk. apply (ends_bind m k (within a b T1)); [exact Hm| |].
  - intros s e s1 evs1 (-> & Hn & Hi & HT). split; [reflexivity|].
    split; [lia|]. split; [lia|]. intros cmd o Hin. left. eauto.
  - intros s x s1 evs1 (-> & Hn & Hi & HT) t.
    destruct (Hk x s t) as (res & s' & evs2 & Hrun & -> & Hn2 & Hi2 & HT2).
    exists res, s, evs2. split; [exact Hrun|]. split; [reflexivity|].
    rewrite !count_events_app. split; [lia|]. split; [lia|].
    intros cmd o Hin. apply in_app_or in Hin as [Hin|Hin]; [right|left]; eauto.
Qed.

Lemma within_weaken {S A} (m : M S A) (a b a' b' : Z) (T T' : list string -> Prop) :
  a <= a' -> b <= b' -> (forall cmd, T cmd -> T' cmd) ->
  ends m (within a b T) -> ends m (within a' b' T').
Proof.
  intros Ha Hb HT Hm. apply (ends_conseq m (within a b T)); [exact Hm|].
  intros s res s' evs (-> & Hn & Hi & Hcmds). split; [reflexivity|].
  split; [lia|]. split; [lia|]. eauto.
Qed.

Lemma import_component_within {S}
    (env : Trace -> list string -> Exn + CompletedProcess)
    (items : ResourceDict) (matches : ExistingResource -> bool)
    (address what : string) :
  ends (import_component env items matches address what (S:=S))
    (within 2 1
       (fun cmd =>
          cmd = show_cmd address \/
          exists rid, first_match matches items = Some rid /\
                      cmd = import_cmd address rid)).
Proof. exact (import_component_first_match env items matches address what). Qed.

Lemma import_vcn_components_within {S}
    (env : Trace -> list string -> Exn + CompletedProcess)
    (inv : Inventory) (vcn_id : string) :
  ends (import_vcn_components env inv vcn_id (S:=S))
    (within 8 4
       (fun cmd =>
          (exists address, In address cascade_addresses /\ cmd = show_cmd address) \/
          exists address rid,
            cascade_target inv vcn_id address rid /\ cmd = import_cmd address rid)).
Proof.
  unfold import_vcn_components.
  eapply within_weaken;
    [| |
     |apply within_seq;
      [| |apply import_component_within
       |intros _; apply within_seq;
        [| |apply import_component_within
         |intros _; apply within_seq;
          [| |apply import_component_within
           |intros _; apply import_component_within]]]];
    try lia.
  unfold cascade_target, cascade_addresses. cbn [In].
  intros cmd [[->|(rid & Hfirst & ->)]|[[->|(rid & Hfirst & ->)]
             |[[->|(rid & Hfirst & ->)]|[->|(rid & Hfirst & ->)]]]];
    first [left; eexists; split; [|reflexivity]; tauto
          |right; eexists _, rid; split; [|reflexivity]; tauto].
Qed.

(** X6.  The cascade [import_vcn_components] runs at most eight commands,
    at most four of them imports.  What it imports into each of the four
    addresses is the first entry of the matching inventory that lies in
    the VCN; for route tables and security lists the entry must also have
    "Default" or "default" in its name.  Later entries of the same VCN
    are never imported. *)
Theorem cascade_imports_first_match {S}
    (env : Trace -> list string -> Exn + CompletedProcess)
    (inv : Inventory) (vcn_id : string) (s : S) (t : Trace) :
  exists res evs,
    import_vcn_components env inv vcn_id s t = Some (res, s, (evs ++ t)%list) /\
    count_events is_command_b evs <= 8 /\
    count_events is_import_b evs <= 4 /\
    forall address rid o,
      In (ECommand (import_cmd address rid) o) evs ->
      cascade_target inv vcn_id address rid.
Proof.
  destruct (import_vcn_components_within env inv vcn_id s t)
    as (res & s' & evs & Hrun & -> & Hn & Hi & Hcmds).
  exists res, evs. split; [exact Hrun|]. split; [exact Hn|]. split; [exact Hi|].
  intros address rid o Hin.
  destruct (Hcmds _ _ Hin) as [(a & _ & H)|(a & rid' & HT & H)]; [discriminate H|].
  injection H as -> ->. exact HT.
Qed.

(** ** The runs of the import driver *)

Section ImportGrammar.

Variable env : Trace -> list string -> Exn + CompletedProcess.
Variable exn_str : Exn -> string.
Variable clock : Trace -> Z -> option Exn.
Variable json_loads : string -> option Exn.
Variable RETRY_MAX_ATTEMPTS RETRY_BASE_DELAY : Z.

Lemma run_cmd_attempt_ends {S} (cmd : list string) :
  ends (run_cmd_with_retries_and_check env exn_str clock json_loads
          RETRY_MAX_ATTEMPTS RETRY_BASE_DELAY cmd (S:=S))
    (fun s res s' evs =>
       s' = s /\
       exists success flag,
         res = Return (success, flag) /\
         import_attempt exn_str json_loads RETRY_MAX_ATTEMPTS RETRY_BASE_DELAY cmd
           success evs).
Proof.
  intros s t. unfold run_cmd_with_retries_and_check, with_nonlocal.
  destruct (retry_with_backoff_runs exn_str clock "_run" (_run env cmd) (run_call cmd)
              RETRY_MAX_ATTEMPTS RETRY_BASE_DELAY (run_ends env cmd) false t)
    as (res & flag & evs & -> & Hgrammar).
  destruct res as [output|e].
  - exists (Return (output_accepted json_loads output, flag)), s, evs.
    split; [unfold output_accepted; destruct (json_loads output) as [[]|]; reflexivity|].
    split; [reflexivity|]. eexists _, flag. split; [reflexivity|].
    exists (Return output), flag. split; [exact Hgrammar|reflexivity].
  - exists (Return (false, flag)), s, evs. split; [reflexivity|].
    split; [reflexivity|]. eexists _, flag. split; [reflexivity|].
    exists (Raise e), flag. split; [exact Hgrammar|reflexivity].
Qed.

Lemma import_component_events {S} (items : ResourceDict)
    (matches : ExistingResource -> bool) (address what : string) :
  ends (import_component env items matches address what (S:=S))
    (fun _ _ _ evs => Forall cascade_event evs).
Proof.
  induction items as [|[rid c] rest IH]; intros s t.
  { exists (Return tt), s, []. split; [reflexivity|constructor]. }
  cbn [import_component]. destruct (matches c); [|exact (IH s t)].
  unfold mbind, M_bind, run_command, print_status, emit, mret, M_ret.
  destruct (env t _) as [e|r].
  { eexists _, s, [_]. split; [reflexivity|repeat constructor]. }
  destruct (negb (returncode r =? 0)).
  2:{ eexists _, s, [_]. split; [reflexivity|repeat constructor]. }
  destruct (env _ _) as [e|r2].
  { eexists _, s, [_; _]. split; [reflexivity|repeat constructor]. }
  destruct (returncode r2 =? 0).
  - eexists _, s, [_; _; _]. split; [reflexivity|repeat constructor].
  - eexists _, s, [_; _]. split; [reflexivity|repeat constructor].
Qed.

Lemma ends_seq_events {S A B} (m : M S A) (k : A -> M S B) (P : Event -> Prop) :
  ends m (fun _ _ _ evs => Forall P evs) ->
  (forall x, ends (k x) (fun _ _ _ evs => Forall P evs)) ->
  ends (m ≫= k) (fun _ _ _ evs => Forall P evs).
Proof.
  intros Hm Hk.
  apply (ends_bind m k (fun _ _ _ evs => Forall P evs)); [exact Hm|auto|].
  intros s x s1 evs1 H1 t.
  destruct (Hk x s1 t) as (res & s' & evs2 & Hrun & H2).
  exists res, s', evs2. split; [exact Hrun|]. apply Forall_app. auto.
Qed.

Lemma import_vcn_components_events {S} (inv : Inventory) (vcn_id : string) :
  ends (import_vcn_components env inv vcn_id (S:=S))
    (fun _ _ _ evs => Forall cascade_event evs).
Proof.
  unfold import_vcn_components.
  repeat (apply ends_seq_events; [apply import_component_events|intros _]).
  apply import_component_events.
Qed.

Lemma import_instances_ends {S} (kind label : string) (count : Z)
    (items : ResourceDict) :
  forall index imported failed,
    ends (import_instances env exn_str clock json_loads RETRY_MAX_ATTEMPTS RETRY_BASE_DELAY
            kind label items count index imported failed (S:=S))
      (fun s res s' evs =>
         s' = s /\
         instances_run exn_str json_loads RETRY_MAX_ATTEMPTS RETRY_BASE_DELAY
           kind label count items index imported failed res evs).
Proof.
  induction items as [|[rid instance] rest IH]; intros index imported failed s t.
  { eexists _, s, []. split; [reflexivity|]. split; [reflexivity|].
    apply instances_done. left. reflexivity. }
  cbn [import_instances].
  destruct (Z.leb_spec count index) as [Hfull|Hroom].
  { eexists _, s, []. split; [reflexivity|]. split; [reflexivity|].
    apply instances_done. right. exact Hfull. }
  unfold mbind, M_bind, print_status, print_success, print_warning, emit, run_command.
  fold (show_cmd (instance_address kind index)).
  fold (import_cmd (instance_address kind index) rid).
  set (address := instance_address kind index).
  set (t0 := EPrint Status (MsgImportingInstance label (res_name instance)) :: t).
  destruct (env t0 (show_cmd address)) as [e|r].
  { eexists _, s, [_; _]. split; [reflexivity|]. split; [reflexivity|].
    apply instances_check_raised. exact Hroom. }
  destruct (Z.eqb_spec (returncode r) 0) as [Hrc|Hrc].
  - destruct (IH (index + 1) imported failed s
                (EPrint Status MsgAlreadyInState :: ECommand (show_cmd address) (inr r) :: t0))
      as (res & s' & evs & -> & -> & Hrest).
    exists res, s,
      (evs ++ [EPrint Status MsgAlreadyInState; ECommand (show_cmd address) (inr r);
               EPrint Status (MsgImportingInstance label (res_name instance))])%list.
    split; [subst t0; trace_eq|]. split; [reflexivity|].
    apply instances_present; assumption.
  - destruct (run_cmd_attempt_ends (import_cmd address rid) s
                (ECommand (show_cmd address) (inr r) :: t0))
      as (res & s' & imports & -> & -> & success & flag & -> & Himports).
    destruct success.
    + destruct (IH (index + 1) (imported + 1) failed s
                  (EPrint Success MsgImported
                     :: (imports ++ ECommand (show_cmd address) (inr r) :: t0)%list))
        as (res & s' & evs & -> & -> & Hrest).
      exists res, s,
        (evs ++ EPrint Success MsgImported
           :: imports ++ [ECommand (show_cmd address) (inr r);
                          EPrint Status (MsgImportingInstance label (res_name instance))])%list.
      split; [subst t0; trace_eq|]. split; [reflexivity|].
      apply instances_imported; assumption.
    + destruct (IH (index + 1) imported (failed + 1) s
                  (EPrint Warning MsgImportFailed
                     :: (imports ++ ECommand (show_cmd address) (inr r) :: t0)%list))
        as (res & s' & evs & -> & -> & Hrest).
      exists res, s,
        (evs ++ EPrint Warning MsgImportFailed
           :: imports ++ [ECommand (show_cmd address) (inr r);
                          EPrint Status (MsgImportingInstance label (res_name instance))])%list.
      split; [subst t0; trace_eq|]. split; [reflexivity|].
      apply instances_failed; assumption.
Qed.

Lemma import_vcn_ends {S} (inv : Inventory) :
  ends (import_vcn env exn_str clock json_loads RETRY_MAX_ATTEMPTS RETRY_BASE_DELAY inv (S:=S))
    (fun s res s' evs =>
       s' = s /\
       vcn_run exn_str json_loads RETRY_MAX_ATTEMPTS RETRY_BASE_DELAY inv res evs).
Proof.
  intros s t. unfold import_vcn.
  destruct (existing_vcns inv) as [|[first_vcn_id first_vcn] rest] eqn:Hvcns.
  { eexists _, s, []. split; [reflexivity|]. split; [reflexivity|].
    apply vcn_none. exact Hvcns. }
  unfold mbind, M_bind, print_status, print_success, print_warning, emit, run_command,
    mret, M_ret.
  fold (show_cmd "oci_core_vcn.main").
  fold (import_cmd "oci_core_vcn.main" first_vcn_id).
  set (address := "oci_core_vcn.main").
  set (t0 := EPrint Status (MsgImportingVcn (res_name first_vcn)) :: t).
  destruct (env t0 (show_cmd address)) as [e|r].
  { eexists _, s, [_; _]. split; [reflexivity|]. split; [reflexivity|].
    eapply vcn_check_raised. exact Hvcns. }
  destruct (Z.eqb_spec (returncode r) 0) as [Hrc|Hrc].
  { eexists _, s, [_; _; _]. split; [reflexivity|]. split; [reflexivity|].
    eapply vcn_present; eassumption. }
  destruct (run_cmd_attempt_ends (import_cmd address first_vcn_id) s
              (ECommand (show_cmd address) (inr r) :: t0))
    as (res & s' & imports & -> & -> & success & flag & -> & Himports).
  destruct success.
  - destruct (ends_and _ _ _ (import_vcn_components_within env inv first_vcn_id)
                (import_vcn_components_events inv first_vcn_id) s
                (EPrint Success MsgImported
                   :: (imports ++ ECommand (show_cmd address) (inr r) :: t0)%list))
      as (res & s' & cascade & -> & (-> & _ & _ & Hcmds) & Hevents).
    pose proof (vcn_imported exn_str json_loads RETRY_MAX_ATTEMPTS RETRY_BASE_DELAY inv
                  first_vcn_id first_vcn rest r imports res cascade
                  Hvcns Hrc Himports Hevents Hcmds) as Hrun.
    destruct res as [[]|e];
      (eexists _, s, _; split; [|split; [reflexivity|exact Hrun]]; subst t0; trace_eq).
  - eexists _, s,
      (EPrint Warning MsgImportFailed
         :: imports ++ [ECommand (show_cmd address) (inr r);
                        EPrint Status (MsgImportingVcn (res_name first_vcn))])%list.
    split; [subst t0; trace_eq|]. split; [reflexivity|].
    eapply vcn_failed; eassumption.
Qed.

Lemma init_ends {S} : ends (_init env (S:=S)) init_call.
Proof.
  intros s t. unfold _init, mbind, M_bind, run_command, raise, mret, M_ret.
  fold init_cmd. unfold init_call.
  destruct (env t init_cmd) as [e|r].
  - eexists _, s, [_]. split; [reflexivity|]. split; [reflexivity|].
    exists (inl e). auto.
  - destruct (returncode r =? 0) eqn:Hr; cbn [negb];
      (eexists _, s, [_]; split; [reflexivity|]; split; [reflexivity|];
       exists (inr r); rewrite Hr; auto).
Qed.

Lemma init_run_stateless {S} (max_attempts base_delay : Z) :
  forall attempt last_error (s : S) res s' evs,
    retry_run exn_str "_init" (init_call (S:=S)) max_attempts base_delay
      attempt last_error s res s' evs ->
    s' = s /\
    retry_run exn_str "_init" (init_call (S:=unit)) max_attempts base_delay
      attempt last_error tt res tt evs.
Proof.
  intros attempt last_error s res s' evs Hrun.
  induction Hrun as [attempt last_error s Hgt
                    |attempt last_error s a0 s' evs Hle Hc
                    |attempt last_error s e s' evs Heq Hc
                    |attempt last_error s e s' evs e' Hlt Hc Hneg
                    |attempt last_error s e s' evs e' Hlt Hc Hnone
                    |attempt last_error s e s1 evs res s' evs' Hlt Hc Hpos Hrest IH].
  - split; [reflexivity|]. apply retry_exhausted. exact Hgt.
  - destruct Hc as (-> & Ho). split; [reflexivity|].
    apply retry_returned; [exact Hle|]. split; [reflexivity|exact Ho].
  - destruct Hc as (-> & Ho). split; [reflexivity|].
    apply retry_gave_up; [exact Heq|]. split; [reflexivity|exact Ho].
  - destruct Hc as (-> & Ho). split; [reflexivity|].
    apply retry_bad_delay; [exact Hlt| |exact Hneg]. split; [reflexivity|exact Ho].
  - destruct Hc as (-> & Ho). split; [reflexivity|].
    apply retry_sleep_failed; [exact Hlt| |exact Hnone]. split; [reflexivity|exact Ho].
  - destruct Hc as (-> & Ho). destruct IH as (-> & IH). split; [reflexivity|].
    apply retry_again with (s1 := tt); [exact Hlt| |exact Hpos|exact IH].
    split; [reflexivity|exact Ho].
Qed.

Lemma is_empty_nil (d : ResourceDict) : is_empty d = true <-> d = [].
Proof. destruct d; split; intros H; first [reflexivity|discriminate H]. Qed.

Lemma import_existing_resources_ends {S} (inv : Inventory)
    (instance_config : InstanceConfig) :
  ends (import_existing_resources env exn_str clock json_loads RETRY_MAX_ATTEMPTS
          RETRY_BASE_DELAY inv instance_config (S:=S))
    (fun s res s' evs =>
       s' = s /\
       import_run exn_str json_loads RETRY_MAX_ATTEMPTS RETRY_BASE_DELAY
         inv instance_config res evs).
Proof.
  intros s t. unfold import_existing_resources.
  unfold print_header, print_status, print_blank, print_success, print_error,
    emit, try_except.
  unfold mbind at 1, M_bind at 1.
  destruct (_ && _)%bool eqn:Hempty.
  { apply andb_prop in Hempty as (Hempty & Harm).
    apply andb_prop in Hempty as (Hvcn & Hamd).
    apply is_empty_nil in Hvcn, Hamd, Harm.
    eexists _, s, [_; _]. split; [reflexivity|]. split; [reflexivity|].
    apply import_nothing; assumption. }
  unfold mbind at 1, M_bind at 1.
  set (t0 := EPrint Status MsgInitializing :: EHeader "IMPORTING EXISTING RESOURCES" :: t).
  destruct (retry_with_backoff_runs exn_str clock "_init" (_init env) init_call
              RETRY_MAX_ATTEMPTS RETRY_BASE_DELAY init_ends s t0)
    as (res & s' & inits & -> & Hinit).
  apply init_run_stateless in Hinit as (-> & Hinit).
  destruct res as [result|e].
  2:{ eexists _, s, (EPrint Error (MsgInitFailed e) :: inits ++ [_; _])%list.
      split; [subst t0; unfold mbind, M_bind, mret, M_ret; trace_eq|].
      split; [reflexivity|]. apply import_init_failed. exact Hinit. }
  unfold mbind, M_bind.
  destruct (import_vcn_ends inv s (inits ++ t0)%list)
    as (res & s' & vcn_evs & -> & -> & Hvcn).
  destruct res as [[i1 f1]|e].
  2:{ eexists _, s, (vcn_evs ++ inits ++ [_; _])%list.
      split; [subst t0; trace_eq|]. split; [reflexivity|].
      eapply import_vcn_raised; eassumption. }
  destruct (import_instances_ends "amd" "AMD" (amd_micro_instance_count instance_config)
              (existing_amd_instances inv) 0 i1 f1 s (vcn_evs ++ inits ++ t0)%list)
    as (res & s' & amd_evs & -> & -> & Hamd).
  destruct res as [[i2 f2]|e].
  2:{ eexists _, s, (amd_evs ++ vcn_evs ++ inits ++ [_; _])%list.
      split; [subst t0; trace_eq|]. split; [reflexivity|].
      eapply import_amd_raised; eassumption. }
  destruct (import_instances_ends "arm" "ARM" (arm_flex_instance_count instance_config)
              (existing_arm_instances inv) 0 i2 f2 s
              (amd_evs ++ vcn_evs ++ inits ++ t0)%list)
    as (res & s' & arm_evs & -> & -> & Harm).
  destruct res as [[imported failed]|e].
  2:{ eexists _, s, (arm_evs ++ amd_evs ++ vcn_evs ++ inits ++ [_; _])%list.
      split; [subst t0; trace_eq|]. split; [reflexivity|].
      eapply import_arm_raised; eassumption. }
  eexists _, s,
    (EPrint Success (MsgImportComplete imported failed) :: EBlank
       :: arm_evs ++ amd_evs ++ vcn_evs ++ inits ++ [_; _])%list.
  split; [subst t0; unfold mret, M_ret; trace_eq|]. split; [reflexivity|].
  eapply import_completed; eassumption.
Qed.

End ImportGrammar.

(** ** Facts read off the runs of the import driver *)

Lemma retry_run_events {S A} (exn_str : Exn -> string) (func_name : string)
    (call : S -> Result A -> S -> list Event -> Prop) (max_attempts base_delay : Z) :
  (forall s res s' evs, call s res s' evs -> Forall is_command evs) ->
  forall attempt last_error s res s' evs,
    retry_run exn_str func_name call max_attempts base_delay attempt last_error s
      res s' evs ->
    Forall retry_event evs.
Proof.
  intros Hcall attempt last_error s res s' evs Hrun.
  assert (forall evs, Forall is_command evs -> Forall retry_event evs) as Hcmd.
  { intros l Hl. eapply Forall_impl; [exact Hl|]. intros [] H; try destruct H. exact I. }
  assert (forall n e, retry_event (retry_warning exn_str n e)) as Hwarn.
  { intros n e. unfold retry_warning. destruct (mentions_capacity _); exact I. }
  induction Hrun as [attempt last_error s Hgt
                    |attempt last_error s a0 s' evs Hle Hc
                    |attempt last_error s e s' evs Heq Hc
                    |attempt last_error s e s' evs e' Hlt Hc Hneg
                    |attempt last_error s e s' evs e' Hlt Hc Hnone
                    |attempt last_error s e s1 evs res s' evs' Hlt Hc Hpos Hrest IH].
  - repeat constructor.
  - apply Forall_app. split; [eauto|repeat constructor].
  - repeat (apply List.Forall_cons; [first [exact I|apply Hwarn]|]).
    apply Forall_app. split; [eauto|repeat constructor].
  - repeat (apply List.Forall_cons; [first [exact I|apply Hwarn]|]).
    apply Forall_app. split; [eauto|repeat constructor].
  - repeat (apply List.Forall_cons; [first [exact I|apply Hwarn]|]).
    apply Forall_app. split; [eauto|repeat constructor].
  - apply Forall_app. split; [exact IH|].
    repeat (apply List.Forall_cons; [first [exact I|apply Hwarn]|]).
    apply Forall_app. split; [eauto|repeat constructor].
Qed.

Lemma run_call_commands (cmd : list string) flag res flag' evs :
  run_call cmd flag res flag' evs -> Forall is_command evs.
Proof. intros (o & -> & _). repeat constructor. Qed.

Lemma init_call_commands {S} (s : S) res s' evs :
  init_call s res s' evs -> Forall is_command evs.
Proof. intros (_ & o & -> & _). repeat constructor. Qed.

Lemma count_retry_events (p : Event -> bool) (evs : list Event) :
  (forall ev, retry_event ev -> p ev = false) ->
  Forall retry_event evs -> count_events p evs = 0.
Proof.
  intros Hp. induction 1 as [|ev evs Hev _ IH]; [reflexivity|].
  cbn [count_events]. rewrite (Hp ev Hev), IH. reflexivity.
Qed.

Lemma count_cascade_events (p : Event -> bool) (evs : list Event) :
  (forall ev, cascade_event ev -> p ev = false) ->
  Forall cascade_event evs -> count_events p evs = 0.
Proof.
  intros Hp. induction 1 as [|ev evs Hev _ IH]; [reflexivity|].
  cbn [count_events]. rewrite (Hp ev Hev), IH. reflexivity.
Qed.

Lemma imported_not_retry ev : retry_event ev -> is_imported_msg ev = false.
Proof. destruct ev as [| |[] []| | |]; first [reflexivity|intros []]. Qed.

Lemma failed_not_retry ev : retry_event ev -> is_import_failed_msg ev = false.
Proof. destruct ev as [| |[] []| | |]; first [reflexivity|intros []]. Qed.

Lemma imported_not_cascade ev : cascade_event ev -> is_imported_msg ev = false.
Proof. destruct ev as [| |[] []| | |]; first [reflexivity|intros []]. Qed.

Lemma failed_not_cascade ev : cascade_event ev -> is_import_failed_msg ev = false.
Proof. destruct ev as [| |[] []| | |]; first [reflexivity|intros []]. Qed.

Section ImportFacts.

Variable exn_str : Exn -> string.
Variable clock : Trace -> Z -> option Exn.
Variable json_loads : string -> option Exn.
Variable max_attempts base_delay : Z.

Lemma import_attempt_events (cmd : list string) (success : bool) (evs : list Event) :
  import_attempt exn_str json_loads max_attempts base_delay cmd success evs ->
  Forall retry_event evs /\ Forall (only_command cmd) evs /\
  (success = true ->
   exists r older, evs = ECommand cmd (inr r) :: older /\ returncode r = 0 /\
                   output_accepted json_loads (stdout r) = true).
Proof.
  intros (res & flag & Hrun & ->).
  split; [eapply retry_run_events; [apply run_call_commands|exact Hrun]|].
  apply run_retry_verdict in Hrun as (_ & Hcmds & Hres).
  split; [exact Hcmds|].
  destruct res as [output|e]; [|discriminate].
  intros Hacc. destruct Hres as (r & older & -> & Hr & <-). eauto.
Qed.

Lemma count_import_attempt (cmd : list string) (success : bool) (evs : list Event) :
  import_attempt exn_str json_loads max_attempts base_delay cmd success evs ->
  count_events is_imported_msg evs = 0 /\ count_events is_import_failed_msg evs = 0.
Proof.
  intros H. apply import_attempt_events in H as (Hevs & _).
  split; apply count_retry_events; auto using imported_not_retry, failed_not_retry.
Qed.

(** The counters of an instance loop go with its messages. *)
Lemma instances_run_counts (kind label : string) (count : Z) :
  forall items index imported failed res evs,
    instances_run exn_str json_loads max_attempts base_delay kind label count
      items index imported failed res evs ->
    forall i f, res = Return (i, f) ->
      i = imported + count_events is_imported_msg evs /\
      f = failed + count_events is_import_failed_msg evs.
Proof.
  intros items index imported failed res evs Hrun.
  induction Hrun as [items index imported failed Hstop
                    |rid instance rest index imported failed e Hroom
                    |rid instance rest index imported failed r res evs Hroom Hr Hrest IH
                    |rid instance rest index imported failed r imports res evs
                       Hroom Hr Himports Hrest IH
                    |rid instance rest index imported failed r imports res evs
                       Hroom Hr Himports Hrest IH];
    intros i f Hres.
  - injection Hres as <- <-. cbn [count_events]. lia.
  - discriminate Hres.
  - destruct (IH i f Hres) as (-> & ->).
    rewrite !count_events_app. cbn [count_events is_imported_msg is_import_failed_msg]. lia.
  - destruct (IH i f Hres) as (-> & ->).
    destruct (count_import_attempt _ _ _ Himports) as (Hi & Hf).
    rewrite !count_events_app. cbn [count_events].
    rewrite !count_events_app, Hi, Hf.
    cbn [count_events is_imported_msg is_import_failed_msg]. lia.
  - destruct (IH i f Hres) as (-> & ->).
    destruct (count_import_attempt _ _ _ Himports) as (Hi & Hf).
    rewrite !count_events_app. cbn [count_events].
    rewrite !count_events_app, Hi, Hf.
    cbn [count_events is_imported_msg is_import_failed_msg]. lia.
Qed.

(** The commands of an instance loop: instance number [k] of the
    dictionary, counted from the entry of the loop, goes with slot
    [index + k], below [count]. *)
Lemma instances_run_commands (kind label : string) (count : Z) :
  forall items index imported failed res evs,
    instances_run exn_str json_loads max_attempts base_delay kind label count
      items index imported failed res evs ->
    forall cmd o, In (ECommand cmd o) evs ->
      exists (k : nat) rid instance,
        index + Z.of_nat k < count /\
        items !! k = Some (rid, instance) /\
        (cmd = show_cmd (instance_address kind (index + Z.of_nat k)) \/
         cmd = import_cmd (instance_address kind (index + Z.of_nat k)) rid).
Proof.
  assert (forall rid instance (rest : ResourceDict) index cmd,
             index < count ->
             cmd = show_cmd (instance_address kind index) \/
             cmd = import_cmd (instance_address kind index) rid ->
             exists (k : nat) rid' instance',
               index + Z.of_nat k < count /\
               ((rid, instance) :: rest) !! k = Some (rid', instance') /\
               (cmd = show_cmd (instance_address kind (index + Z.of_nat k)) \/
                cmd = import_cmd (instance_address kind (index + Z.of_nat k)) rid'))
    as Hhere.
  { intros rid instance rest index cmd Hroom Hcmd. exists 0%nat, rid, instance.
    change (Z.of_nat 0) with 0. rewrite Z.add_0_r. auto. }
  assert (forall rid instance (rest : ResourceDict) index cmd,
             (exists (k : nat) rid' instance',
                 index + 1 + Z.of_nat k < count /\
                 rest !! k = Some (rid', instance') /\
                 (cmd = show_cmd (instance_address kind (index + 1 + Z.of_nat k)) \/
                  cmd = import_cmd (instance_address kind (index + 1 + Z.of_nat k)) rid')) ->
             exists (k : nat) rid' instance',
               index + Z.of_nat k < count /\
               ((rid, instance) :: rest) !! k = Some (rid', instance') /\
               (cmd = show_cmd (instance_address kind (index + Z.of_nat k)) \/
                cmd = import_cmd (instance_address kind (index + Z.of_nat k)) rid'))
    as Hlater.
  { intros rid instance rest index cmd (k & rid' & instance' & Hk & Hlook & Hcmd).
    exists (Datatypes.S k), rid', instance'.
    replace (index + Z.of_nat (Datatypes.S k)) with (index + 1 + Z.of_nat k) by lia.
    auto. }
  intros items index imported failed res evs Hrun.
  induction Hrun as [items index imported failed Hstop
                    |rid instance rest index imported failed e Hroom
                    |rid instance rest index imported failed r res evs Hroom Hr Hrest IH
                    |rid instance rest index imported failed r imports res evs
                       Hroom Hr Himports Hrest IH
                    |rid instance rest index imported failed r imports res evs
                       Hroom Hr Himports Hrest IH];
    intros cmd o Hin.
  - destruct Hin.
  - destruct Hin as [H|[H|[]]]; [|discriminate H].
    injection H as <- _. eapply Hhere; eauto.
  - apply in_app_or in Hin as [Hin|[H|[H|[H|[]]]]]; try discriminate H.
    + apply Hlater. eauto.
    + injection H as <- _. eapply Hhere; eauto.
  - apply in_app_or in Hin as [Hin|[H|Hin]]; [apply Hlater; eauto|discriminate H|].
    apply in_app_or in Hin as [Hin|[H|[H|[]]]]; try discriminate H.
    + apply import_attempt_events in Himports as (_ & Hcmds & _).
      rewrite List.Forall_forall in Hcmds. specialize (Hcmds _ Hin). cbn in Hcmds.
      eapply Hhere; eauto.
    + injection H as <- _. eapply Hhere; eauto.
  - apply in_app_or in Hin as [Hin|[H|Hin]]; [apply Hlater; eauto|discriminate H|].
    apply in_app_or in Hin as [Hin|[H|[H|[]]]]; try discriminate H.
    + apply import_attempt_events in Himports as (_ & Hcmds & _).
      rewrite List.Forall_forall in Hcmds. specialize (Hcmds _ Hin). cbn in Hcmds.
      eapply Hhere; eauto.
    + injection H as <- _. eapply Hhere; eauto.
Qed.

End ImportFacts.

Section ImportVcnFacts.

Variable exn_str : Exn -> string.
Variable clock : Trace -> Z -> option Exn.
Variable json_loads : string -> option Exn.
Variable max_attempts base_delay : Z.

Lemma vcn_run_counts (inv : Inventory) (res : Result (Z * Z)) (evs : list Event) :
  vcn_run exn_str json_loads max_attempts base_delay inv res evs ->
  forall i f, res = Return (i, f) ->
    i = count_events is_imported_msg evs /\ f = count_events is_import_failed_msg evs.
Proof.
  intros Hrun i f Hres.
  destruct Hrun as [Hvcns
                   |vid fv rest e Hvcns
                   |vid fv rest r Hvcns Hr
                   |vid fv rest r imports cascade_res cascade Hvcns Hr Himports Hcascade Hcmds
                   |vid fv rest r imports Hvcns Hr Himports].
  - injection Hres as <- <-. split; reflexivity.
  - discriminate Hres.
  - injection Hres as <- <-. split; reflexivity.
  - destruct cascade_res as [[]|e]; [|discriminate Hres]. injection Hres as <- <-.
    destruct (count_import_attempt _ _ _ _ _ _ _ Himports) as (Hi & Hf).
    rewrite !count_events_app. cbn [count_events].
    rewrite !count_events_app, Hi, Hf.
    rewrite (count_cascade_events is_imported_msg cascade imported_not_cascade Hcascade).
    rewrite (count_cascade_events is_import_failed_msg cascade failed_not_cascade Hcascade).
    cbn [count_events is_imported_msg is_import_failed_msg]. split; reflexivity.
  - injection Hres as <- <-.
    destruct (count_import_attempt _ _ _ _ _ _ _ Himports) as (Hi & Hf).
    cbn [count_events]. rewrite !count_events_app, Hi, Hf.
    cbn [count_events is_imported_msg is_import_failed_msg]. split; reflexivity.
Qed.

(** The VCN block only works on [oci_core_vcn.main] and the four cascade
    addresses, and on the latter only after [oci_core_vcn.main] was found
    absent and then imported with success. *)
Lemma vcn_run_commands (inv : Inventory) (res : Result (Z * Z)) (evs : list Event) :
  vcn_run exn_str json_loads max_attempts base_delay inv res evs ->
  forall cmd o, In (ECommand cmd o) evs ->
    (cmd = show_cmd "oci_core_vcn.main" \/
     exists first_vcn_id first_vcn rest,
       existing_vcns inv = (first_vcn_id, first_vcn) :: rest /\
       cmd = import_cmd "oci_core_vcn.main" first_vcn_id) \/
    (((exists address, In address cascade_addresses /\ cmd = show_cmd address) \/
      (exists first_vcn_id first_vcn rest address rid,
          existing_vcns inv = (first_vcn_id, first_vcn) :: rest /\
          cascade_target inv first_vcn_id address rid /\
          cmd = import_cmd address rid)) /\
     exists first_vcn_id absent imported,
       In (ECommand (show_cmd "oci_core_vcn.main") (inr absent)) evs /\
       returncode absent <> 0 /\
       In (ECommand (import_cmd "oci_core_vcn.main" first_vcn_id) (inr imported)) evs /\
       returncode imported = 0 /\
       output_accepted json_loads (stdout imported) = true).
Proof.
  intros Hrun cmd o Hin.
  destruct Hrun as [Hvcns
                   |vid fv rest e Hvcns
                   |vid fv rest r Hvcns Hr
                   |vid fv rest r imports cascade_res cascade Hvcns Hr Himports Hcascade Hcmds
                   |vid fv rest r imports Hvcns Hr Himports].
  - destruct Hin.
  - destruct Hin as [H|[H|[]]]; [|discriminate H]. injection H as <- _. auto.
  - destruct Hin as [H|[H|[H|[]]]]; try discriminate H. injection H as <- _. auto.
  - apply import_attempt_events in Himports as (_ & Hcmd & Hsuccess).
    destruct (Hsuccess eq_refl) as (imported & older & -> & Himported & Hacc).
    apply in_app_or in Hin as [Hin|[H|Hin]]; [|discriminate H|].
    + right. split.
      * destruct (Hcmds _ _ Hin) as [Hshow|(address & rid & HT & ->)]; [left; exact Hshow|].
        right. exists vid, fv, rest, address, rid. auto.
      * exists vid, r, imported. split; [|split; [exact Hr|split; [|auto]]].
        -- apply in_or_app. right. right. apply in_or_app. right. left. reflexivity.
        -- apply in_or_app. right. right. left. reflexivity.
    + left. apply in_app_or in Hin as [Hin|[H|[H|[]]]]; try discriminate H.
      * rewrite List.Forall_forall in Hcmd. specialize (Hcmd _ Hin). cbn in Hcmd.
        right. exists vid, fv, rest. auto.
      * injection H as <- _. auto.
  - apply import_attempt_events in Himports as (_ & Hcmd & _).
    left. destruct Hin as [H|Hin]; [discriminate H|].
    apply in_app_or in Hin as [Hin|[H|[H|[]]]]; try discriminate H.
    + rewrite List.Forall_forall in Hcmd. specialize (Hcmd _ Hin). cbn in Hcmd.
      right. exists vid, fv, rest. auto.
    + injection H as <- _. auto.
Qed.

Lemma init_run_commands :
  forall attempt last_error res inits,
    retry_run exn_str "_init" (init_call (S:=unit)) max_attempts base_delay
      attempt last_error tt res tt inits ->
    Forall (only_command init_cmd) inits /\
    Forall retry_event inits /\
    match res with
    | Return result =>
        In (ECommand init_cmd (inr result)) inits /\ returncode result = 0
    | Raise _ =>
        forall r, In (ECommand init_cmd (inr r)) inits -> returncode r <> 0
    end.
Proof.
  intros attempt last_error res inits Hrun.
  split; [|split; [eapply retry_run_events; [apply @init_call_commands|exact Hrun]|]].
  - remember tt as s eqn:Hs in Hrun at 1. remember tt as s' eqn:Hs' in Hrun. clear Hs Hs'.
    induction Hrun as [attempt last_error s Hgt
                      |attempt last_error s a0 s' evs Hle Hc
                      |attempt last_error s e s' evs Heq Hc
                      |attempt last_error s e s' evs e' Hlt Hc Hneg
                      |attempt last_error s e s' evs e' Hlt Hc Hnone
                      |attempt last_error s e s1 evs res s' evs' Hlt Hc Hpos Hrest IH];
      try (destruct Hc as (_ & o & -> & _)).
    + repeat constructor.
    + repeat constructor.
    + unfold retry_warning. repeat constructor.
    + unfold retry_warning. repeat constructor.
    + unfold retry_warning. repeat constructor.
    + apply Forall_app. split; [exact IH|]. unfold retry_warning. repeat constructor.
  - remember tt as s eqn:Hs in Hrun at 1. remember tt as s' eqn:Hs' in Hrun. clear Hs Hs'.
    induction Hrun as [attempt last_error s Hgt
                      |attempt last_error s a0 s' evs Hle Hc
                      |attempt last_error s e s' evs Heq Hc
                      |attempt last_error s e s' evs e' Hlt Hc Hneg
                      |attempt last_error s e s' evs e' Hlt Hc Hnone
                      |attempt last_error s e s1 evs res s' evs' Hlt Hc Hpos Hrest IH];
      try (destruct Hc as (_ & o & -> & Ho)).
    + intros r [H|[]]. discriminate H.
    + destruct o as [e|r]; [discriminate Ho|].
      destruct (Z.eqb_spec (returncode r) 0) as [Hr|Hr]; [|discriminate Ho].
      injection Ho as ->. split; [left; reflexivity|exact Hr].
    + intros r [H|[H|[H|[H|[]]]]]; try discriminate H.
      injection H as ->.
      destruct (Z.eqb_spec (returncode r) 0) as [Hr|Hr]; [discriminate Ho|exact Hr].
    + intros r [H|[H|[H|[H|[]]]]]; try discriminate H.
      injection H as ->.
      destruct (Z.eqb_spec (returncode r) 0) as [Hr|Hr]; [discriminate Ho|exact Hr].
    + intros r [H|[H|[H|[H|[]]]]]; try discriminate H.
      injection H as ->.
      destruct (Z.eqb_spec (returncode r) 0) as [Hr|Hr]; [discriminate Ho|exact Hr].
    + assert (forall r, In (ECommand init_cmd (inr r))
                          [ESleep (base_delay * 2 ^ (attempt - 1));
                           EPrint Status (MsgRetrying (base_delay * 2 ^ (attempt - 1)));
                           retry_warning exn_str attempt e;
                           ECommand init_cmd o;
                           EPrint Status (MsgAttempt attempt max_attempts "_init")] ->
                        returncode r <> 0) as Hhere.
      { intros r [H|[H|[H|[H|[H|[]]]]]]; try discriminate H.
          injection H as ->.
        destruct (Z.eqb_spec (returncode r) 0) as [Hr|Hr]; [discriminate Ho|exact Hr]. }
      destruct res as [result|e'].
      * destruct IH as (Hin & Hr). split; [apply in_or_app; left; exact Hin|exact Hr].
      * intros r Hin. apply in_app_or in Hin as [Hin|Hin]; [eauto|].
        apply Hhere. exact Hin.
Qed.

End ImportVcnFacts.

Section ImportRunFacts.

Variable exn_str : Exn -> string.
Variable clock : Trace -> Z -> option Exn.
Variable json_loads : string -> option Exn.
Variable max_attempts base_delay : Z.
Variable inv : Inventory.
Variable instance_config : InstanceConfig.

(** Where a command of a run of [import_existing_resources] comes from. *)
Lemma import_run_command (res : Result bool) (evs : list Event) :
  import_run exn_str json_loads max_attempts base_delay inv instance_config res evs ->
  forall cmd o, In (ECommand cmd o) evs ->
    cmd = init_cmd \/
    (exists vcn_res vcn_evs,
        vcn_run exn_str json_loads max_attempts base_delay inv vcn_res vcn_evs /\
        In (ECommand cmd o) vcn_evs /\ incl vcn_evs evs) \/
    (exists imported failed amd_res amd_evs,
        instances_run exn_str json_loads max_attempts base_delay "amd" "AMD"
          (amd_micro_instance_count instance_config)
          (existing_amd_instances inv) 0 imported failed amd_res amd_evs /\
        In (ECommand cmd o) amd_evs) \/
    (exists imported failed arm_res arm_evs,
        instances_run exn_str json_loads max_attempts base_delay "arm" "ARM"
          (arm_flex_instance_count instance_config)
          (existing_arm_instances inv) 0 imported failed arm_res arm_evs /\
        In (ECommand cmd o) arm_evs).
Proof.
  assert (forall res inits cmd o,
             retry_run exn_str "_init" (init_call (S:=unit)) max_attempts base_delay
               1 None tt res tt inits ->
             In (ECommand cmd o)
               (inits ++ [EPrint Status MsgInitializing;
                          EHeader "IMPORTING EXISTING RESOURCES"]) ->
             cmd = init_cmd) as Hinits.
  { intros res' inits cmd o Hinit Hin.
    apply in_app_or in Hin as [Hin|[H|[H|[]]]]; try discriminate H.
    apply init_run_commands in Hinit as (Hcmds & _).
    rewrite List.Forall_forall in Hcmds. exact (Hcmds _ Hin). }
  intros Hrun cmd o Hin.
  destruct Hrun as [Hv Ha Hr
                   |e inits Hinit
                   |result inits e vcn_evs Hinit Hvcn
                   |result inits i1 f1 vcn_evs e amd_evs Hinit Hvcn Hamd
                   |result inits i1 f1 vcn_evs i2 f2 amd_evs e arm_evs Hinit Hvcn Hamd Harm
                   |result inits i1 f1 vcn_evs i2 f2 amd_evs imported failed arm_evs
                      Hinit Hvcn Hamd Harm].
  - destruct Hin as [H|[H|[]]]; discriminate H.
  - destruct Hin as [H|Hin]; [discriminate H|]. left. eauto.
  - apply in_app_or in Hin as [Hin|Hin]; [|left; eauto].
    right. left. exists (Raise e), vcn_evs. split; [exact Hvcn|]. split; [exact Hin|].
    apply incl_appl, incl_refl.
  - apply in_app_or in Hin as [Hin|Hin]; [right; right; left; eauto 8|].
    apply in_app_or in Hin as [Hin|Hin]; [|left; eauto].
    right. left. eexists _, vcn_evs. split; [exact Hvcn|]. split; [exact Hin|].
    apply incl_appr, incl_appl, incl_refl.
  - apply in_app_or in Hin as [Hin|Hin]; [right; right; right; eauto 8|].
    apply in_app_or in Hin as [Hin|Hin]; [right; right; left; eauto 8|].
    apply in_app_or in Hin as [Hin|Hin]; [|left; eauto].
    right. left. eexists _, vcn_evs. split; [exact Hvcn|]. split; [exact Hin|].
    apply incl_appr, incl_appr, incl_appl, incl_refl.
  - destruct Hin as [H|[H|Hin]]; try discriminate H.
    apply in_app_or in Hin as [Hin|Hin]; [right; right; right; eauto 8|].
    apply in_app_or in Hin as [Hin|Hin]; [right; right; left; eauto 8|].
    apply in_app_or in Hin as [Hin|Hin]; [|left; eauto].
    right. left. eexists _, vcn_evs. split; [exact Hvcn|]. split; [exact Hin|].
    apply incl_tl, incl_tl, incl_appr, incl_appr, incl_appl, incl_refl.
Qed.

End ImportRunFacts.

Lemma show_cmd_inj (a b : string) : show_cmd a = show_cmd b -> a = b.
Proof. intros H. exact (f_equal (fun l => nth 3 l "") H). Qed.

Lemma import_cmd_inj (a b rid rid' : string) :
  import_cmd a rid = import_cmd b rid' -> a = b /\ rid = rid'.
Proof.
  intros H. split.
  - exact (f_equal (fun l => nth 2 l "") H).
  - exact (f_equal (fun l => nth 3 l "") H).
Qed.

Lemma cascade_address_not_vcn (address : string) :
  In address cascade_addresses -> address <> "oci_core_vcn.main".
Proof. intros [<-|[<-|[<-|[<-|[]]]]]; discriminate. Qed.

(** X7.  In a run of [import_existing_resources] the four cascade
    addresses are only touched after the VCN was found absent from the
    state and then imported with success: when [oci_core_vcn.main] is
    already in the state, or its import fails, no gateway, subnet, route
    table or security list is checked or imported. *)
Theorem cascade_follows_vcn_import {S}
    (env : Trace -> list string -> Exn + CompletedProcess)
    (exn_str : Exn -> string)
    (clock : Trace -> Z -> option Exn) (json_loads : string -> option Exn)
    (RETRY_MAX_ATTEMPTS RETRY_BASE_DELAY : Z)
    (inv : Inventory) (instance_config : InstanceConfig) (s : S) (t : Trace) :
  exists res evs,
    import_existing_resources env exn_str clock json_loads RETRY_MAX_ATTEMPTS RETRY_BASE_DELAY
      inv instance_config s t
    = Some (res, s, (evs ++ t)%list) /\
    forall address cmd o,
      In address cascade_addresses ->
      In (ECommand cmd o) evs ->
      (cmd = show_cmd address \/ exists rid, cmd = import_cmd address rid) ->
      exists first_vcn_id absent imported,
        In (ECommand (show_cmd "oci_core_vcn.main") (inr absent)) evs /\
        returncode absent <> 0 /\
        In (ECommand (import_cmd "oci_core_vcn.main" first_vcn_id) (inr imported)) evs /\
        returncode imported = 0 /\
        output_accepted json_loads (stdout imported) = true.
Proof.
  destruct (import_existing_resources_ends env exn_str clock json_loads RETRY_MAX_ATTEMPTS
              RETRY_BASE_DELAY inv instance_config s t)
    as (res & s' & evs & Hrun & -> & Hgrammar).
  exists res, evs. split; [exact Hrun|].
  intros address cmd o Haddress Hin Hcmd.
  assert (forall kind k, instance_address kind k <> address) as Hinstance.
  { intros kind k. apply instance_address_not_singleton. right. exact Haddress. }
  pose proof (cascade_address_not_vcn address Haddress) as Hvcn.
  destruct (import_run_command _ _ _ _ _ _ _ _ Hgrammar cmd o Hin)
    as [->|[(vres & vcn_evs & Hvrun & Hinv & Hincl)
           |[(i & f & ares & amd_evs & Hirun & Hini)
            |(i & f & ares & arm_evs & Hirun & Hini)]]].
  - destruct Hcmd as [H|(rid & H)]; discriminate H.
  - destruct (vcn_run_commands _ _ _ _ _ _ _ Hvrun cmd o Hinv)
      as [[->|(vid & fv & rest & _ & ->)]
         |(_ & vid & absent & imported & Hshow & Habsent & Himport & Himported & Hacc)].
    + destruct Hcmd as [H|(rid & H)]; [|discriminate H].
      injection H as H. symmetry in H. contradiction.
    + destruct Hcmd as [H|(rid & H)]; [discriminate H|].
      injection H as H _. symmetry in H. contradiction.
    + exists vid, absent, imported. auto 8.
  - destruct (instances_run_commands _ _ _ _ _ _ _ _ _ _ _ _ _ Hirun cmd o Hini)
      as (k & rid & inst & _ & _ & [->| ->]);
      (destruct Hcmd as [H|(rid' & H)]; try discriminate H;
       injection H as H; exfalso; exact (Hinstance _ _ H)).
  - destruct (instances_run_commands _ _ _ _ _ _ _ _ _ _ _ _ _ Hirun cmd o Hini)
      as (k & rid & inst & _ & _ & [->| ->]);
      (destruct Hcmd as [H|(rid' & H)]; try discriminate H;
       injection H as H; exfalso; exact (Hinstance _ _ H)).
Qed.

(** X8.  The instance loops of [import_existing_resources] go by
    position: an import into [oci_core_instance.amd[k]] takes the
    instance at position [k] of the AMD inventory, and [k] is below the
    planned [amd_micro_instance_count]; likewise for ARM.  With a planned
    count of zero or below, no instance of that kind is checked or
    imported. *)
Theorem instances_are_imported_by_position {S}
    (env : Trace -> list string -> Exn + CompletedProcess)
    (exn_str : Exn -> string)
    (clock : Trace -> Z -> option Exn) (json_loads : string -> option Exn)
    (RETRY_MAX_ATTEMPTS RETRY_BASE_DELAY : Z)
    (inv : Inventory) (instance_config : InstanceConfig) (s : S) (t : Trace) :
  exists res evs,
    import_existing_resources env exn_str clock json_loads RETRY_MAX_ATTEMPTS RETRY_BASE_DELAY
      inv instance_config s t
    = Some (res, s, (evs ++ t)%list) /\
    (forall k cmd o,
        In (ECommand cmd o) evs ->
        (cmd = show_cmd (instance_address "amd" k) \/
         exists rid, cmd = import_cmd (instance_address "amd" k) rid) ->
        0 <= k < amd_micro_instance_count instance_config /\
        exists rid instance,
          existing_amd_instances inv !! Z.to_nat k = Some (rid, instance) /\
          (cmd = show_cmd (instance_address "amd" k) \/
           cmd = import_cmd (instance_address "amd" k) rid)) /\
    (forall k cmd o,
        In (ECommand cmd o) evs ->
        (cmd = show_cmd (instance_address "arm" k) \/
         exists rid, cmd = import_cmd (instance_address "arm" k) rid) ->
        0 <= k < arm_flex_instance_count instance_config /\
        exists rid instance,
          existing_arm_instances inv !! Z.to_nat k = Some (rid, instance) /\
          (cmd = show_cmd (instance_address "arm" k) \/
           cmd = import_cmd (instance_address "arm" k) rid)).
Proof.
  destruct (import_existing_resources_ends env exn_str clock json_loads RETRY_MAX_ATTEMPTS
              RETRY_BASE_DELAY inv instance_config s t)
    as (res & s' & evs & Hrun & -> & Hgrammar).
  exists res, evs. split; [exact Hrun|].
  assert (forall kind k address cmd,
             In address vcn_addresses ->
             (cmd = show_cmd address \/ exists rid, cmd = import_cmd address rid) ->
             (cmd = show_cmd (instance_address kind k) \/
              exists rid, cmd = import_cmd (instance_address kind k) rid) ->
             False) as Hnot_vcn.
  { intros kind k address cmd Haddress Hcmd Hslot.
    assert (instance_address kind k = address) as H.
    { destruct Hcmd as [->|(rid & ->)]; destruct Hslot as [H|(rid' & H)];
        try discriminate H; injection H as H; auto. }
    revert H. apply instance_address_not_singleton. exact Haddress. }
  assert (forall kind kind' k (j : nat) rid' cmd,
             (cmd = show_cmd (instance_address kind k) \/
              exists rid, cmd = import_cmd (instance_address kind k) rid) ->
             (cmd = show_cmd (instance_address kind' (0 + Z.of_nat j)) \/
              cmd = import_cmd (instance_address kind' (0 + Z.of_nat j)) rid') ->
             instance_address kind k = instance_address kind' (Z.of_nat j)) as Hsame.
  { intros kind kind' k j rid' cmd Hslot Hcmd. rewrite Z.add_0_l in Hcmd.
    destruct Hcmd as [->| ->]; destruct Hslot as [H|(rid & H)];
      try discriminate H;
      [apply show_cmd_inj in H|apply import_cmd_inj in H as (H & _)]; auto. }
  assert (forall cmd o, In (ECommand cmd o) evs -> cmd <> init_cmd ->
             (exists address, In address vcn_addresses /\
                (cmd = show_cmd address \/ exists rid, cmd = import_cmd address rid)) \/
             (exists (j : nat) rid instance,
                 Z.of_nat j < amd_micro_instance_count instance_config /\
                 existing_amd_instances inv !! j = Some (rid, instance) /\
                 (cmd = show_cmd (instance_address "amd" (0 + Z.of_nat j)) \/
                  cmd = import_cmd (instance_address "amd" (0 + Z.of_nat j)) rid)) \/
             (exists (j : nat) rid instance,
                 Z.of_nat j < arm_flex_instance_count instance_config /\
                 existing_arm_instances inv !! j = Some (rid, instance) /\
                 (cmd = show_cmd (instance_address "arm" (0 + Z.of_nat j)) \/
                  cmd = import_cmd (instance_address "arm" (0 + Z.of_nat j)) rid)))
    as Hsource.
  { intros cmd o Hin Hnot_init.
    destruct (import_run_command _ _ _ _ _ _ _ _ Hgrammar cmd o Hin)
      as [->|[(vres & vcn_evs & Hvrun & Hinv & _)
             |[(i & f & ares & amd_evs & Hirun & Hini)
              |(i & f & ares & arm_evs & Hirun & Hini)]]].
    - contradiction.
    - left.
      destruct (vcn_run_commands _ _ _ _ _ _ _ Hvrun cmd o Hinv)
        as [[->|(vid & fv & rest & _ & ->)]
           |([(address & Haddress & ->)|(vid & fv & rest & address & rid & _ & HT & ->)]
             & _)].
      + exists "oci_core_vcn.main". split; [left; reflexivity|auto].
      + exists "oci_core_vcn.main". split; [left; reflexivity|eauto].
      + exists address. split; [right; exact Haddress|auto].
      + exists address. split; [|eauto]. right.
        unfold cascade_addresses. cbn [In].
        destruct HT as [(-> & _)|[(-> & _)|[(-> & _)|(-> & _)]]]; tauto.
    - right. left.
      destruct (instances_run_commands _ _ _ _ _ _ _ _ _ _ _ _ _ Hirun cmd o Hini)
        as (j & rid & inst & Hj & Hlook & Hcmd).
      exists j, rid, inst. rewrite Z.add_0_l in Hj. auto.
    - right. right.
      destruct (instances_run_commands _ _ _ _ _ _ _ _ _ _ _ _ _ Hirun cmd o Hini)
        as (j & rid & inst & Hj & Hlook & Hcmd).
      exists j, rid, inst. rewrite Z.add_0_l in Hj. auto. }
  split.
  - intros k cmd o Hin Hslot.
    destruct (Hsource cmd o Hin) as [(address & Haddress & Hcmd)
                                    |[(j & rid & inst & Hj & Hlook & Hcmd)
                                     |(j & rid & inst & Hj & Hlook & Hcmd)]].
    + destruct Hslot as [->|(rid & ->)]; discriminate.
    + exfalso. eapply Hnot_vcn; eauto.
    + pose proof (Hsame _ _ _ _ _ _ Hslot Hcmd) as Heq.
      apply instance_address_inj in Heq. subst k. rewrite Nat2Z.id.
      split; [lia|]. exists rid, inst. rewrite Z.add_0_l in Hcmd. auto.
    + pose proof (Hsame _ _ _ _ _ _ Hslot Hcmd) as Heq.
      exfalso. exact (amd_address_not_arm _ _ Heq).
  - intros k cmd o Hin Hslot.
    destruct (Hsource cmd o Hin) as [(address & Haddress & Hcmd)
                                    |[(j & rid & inst & Hj & Hlook & Hcmd)
                                     |(j & rid & inst & Hj & Hlook & Hcmd)]].
    + destruct Hslot as [->|(rid & ->)]; discriminate.
    + exfalso. eapply Hnot_vcn; eauto.
    + pose proof (Hsame _ _ _ _ _ _ Hslot Hcmd) as Heq.
      exfalso. symmetry in Heq. exact (amd_address_not_arm _ _ Heq).
    + pose proof (Hsame _ _ _ _ _ _ Hslot Hcmd) as Heq.
      apply instance_address_inj in Heq. subst k. rewrite Nat2Z.id.
      split; [lia|]. exists rid, inst. rewrite Z.add_0_l in Hcmd. auto.
Qed.

(** X9.  What [import_existing_resources] returns.  It returns [False]
    only when [terraform init] failed on every attempt, and then it has
    run nothing else.  Once [terraform init] has succeeded it returns
    [True] however many imports failed: the last line reports the number
    of imports announced as done and the number announced as failed, and
    components imported by the cascade are not counted.  With an empty
    inventory it returns [True] without running any command. *)
Theorem import_result_and_summary {S}
    (env : Trace -> list string -> Exn + CompletedProcess)
    (exn_str : Exn -> string)
    (clock : Trace -> Z -> option Exn) (json_loads : string -> option Exn)
    (RETRY_MAX_ATTEMPTS RETRY_BASE_DELAY : Z)
    (inv : Inventory) (instance_config : InstanceConfig) (s : S) (t : Trace) :
  exists res evs,
    import_existing_resources env exn_str clock json_loads RETRY_MAX_ATTEMPTS RETRY_BASE_DELAY
      inv instance_config s t
    = Some (res, s, (evs ++ t)%list) /\
    (res = Return false ->
     Forall (only_command init_cmd) evs /\
     forall r, In (ECommand init_cmd (inr r)) evs -> returncode r <> 0) /\
    (res = Return true ->
     (existing_vcns inv = [] /\ existing_amd_instances inv = [] /\
      existing_arm_instances inv = [] /\ count_events is_command_b evs = 0) \/
     exists imported failed older initialized,
       evs = EPrint Success (MsgImportComplete imported failed) :: older /\
       imported = count_events is_imported_msg older /\
       failed = count_events is_import_failed_msg older /\
       In (ECommand init_cmd (inr initialized)) older /\
       returncode initialized = 0) /\
    ((existing_vcns inv = [] /\ existing_amd_instances inv = [] /\
      existing_arm_instances inv = []) ->
     res = Return true /\ count_events is_command_b evs = 0).
Proof.
  destruct (import_existing_resources_ends env exn_str clock json_loads RETRY_MAX_ATTEMPTS
              RETRY_BASE_DELAY inv instance_config s t)
    as (res & s' & evs & Hrun & -> & Hgrammar).
  exists res, evs. split; [exact Hrun|].
  assert ((existing_vcns inv = [] /\ existing_amd_instances inv = [] /\
           existing_arm_instances inv = []) ->
          import_existing_resources env exn_str clock json_loads RETRY_MAX_ATTEMPTS
            RETRY_BASE_DELAY inv instance_config s t
          = Some (Return true, s,
                  ([EPrint Status MsgNothingToImport;
                    EHeader "IMPORTING EXISTING RESOURCES"] ++ t)%list)) as Hempty.
  { intros (Hv & Ha & Hr). unfold import_existing_resources.
    rewrite Hv, Ha, Hr. reflexivity. }
  destruct Hgrammar as [Hv Ha Hr
                   |e inits Hinit
                   |result inits e vcn_evs Hinit Hvcn
                   |result inits i1 f1 vcn_evs e amd_evs Hinit Hvcn Hamd
                   |result inits i1 f1 vcn_evs i2 f2 amd_evs e arm_evs Hinit Hvcn Hamd Harm
                   |result inits i1 f1 vcn_evs i2 f2 amd_evs imported failed arm_evs
                      Hinit Hvcn Hamd Harm].
  - split; [discriminate|]. split; [|auto]. intros _. left. auto.
  - apply init_run_commands in Hinit as (Hcmds & _ & Hfailed).
    split; [|split; [discriminate|]].
    + intros _. split.
      * constructor; [exact I|]. apply Forall_app. split; [exact Hcmds|repeat constructor].
      * intros r [H|Hin]; [discriminate H|].
        apply in_app_or in Hin as [Hin|[H|[H|[]]]]; try discriminate H. eauto.
    + intros Hnone. rewrite (Hempty Hnone) in Hrun. discriminate Hrun.
  - split; [discriminate|]. split; [discriminate|].
    intros Hnone. rewrite (Hempty Hnone) in Hrun. discriminate Hrun.
  - split; [discriminate|]. split; [discriminate|].
    intros Hnone. rewrite (Hempty Hnone) in Hrun. discriminate Hrun.
  - split; [discriminate|]. split; [discriminate|].
    intros Hnone. rewrite (Hempty Hnone) in Hrun. discriminate Hrun.
  - split; [discriminate|].
    split.
    + intros _. right.
      destruct (vcn_run_counts _ _ _ _ _ _ _ Hvcn i1 f1 eq_refl) as (Hi1 & Hf1).
      destruct (instances_run_counts _ _ _ _ _ _ _ _ _ _ _ _ _ Hamd i2 f2 eq_refl)
        as (Hi2 & Hf2).
      destruct (instances_run_counts _ _ _ _ _ _ _ _ _ _ _ _ _ Harm imported failed eq_refl)
        as (Hi3 & Hf3).
      apply init_run_commands in Hinit as (_ & Hretry & Hin & Hok).
      pose proof (count_retry_events is_imported_msg inits imported_not_retry Hretry)
        as Hi0.
      pose proof (count_retry_events is_import_failed_msg inits failed_not_retry Hretry)
        as Hf0.
      eexists imported, failed, _, result. split; [reflexivity|].
      cbn [count_events is_imported_msg is_import_failed_msg].
      rewrite !count_events_app, Hi0, Hf0.
      cbn [count_events is_imported_msg is_import_failed_msg].
      split; [lia|]. split; [lia|]. split; [|exact Hok].
      right. do 3 (apply in_or_app; right). apply in_or_app. left. exact Hin.
    + intros Hnone. rewrite (Hempty Hnone) in Hrun. discriminate Hrun.
Qed.

(** ** Bounds of the plans *)

Lemma validate_proposed_config_accepts (inv : Inventory)
    (proposed_amd proposed_arm proposed_arm_ocpus proposed_arm_memory
       proposed_storage : Z) :
  let available := calculate_available_resources inv in
  snd (validate_proposed_config inv proposed_amd proposed_arm proposed_arm_ocpus
         proposed_arm_memory proposed_storage) = true <->
  proposed_amd <= amd_instances available /\
  proposed_arm_ocpus <= arm_ocpus available /\
  proposed_arm_memory <= arm_memory available /\
  proposed_storage <= storage available.
Proof.
  cbv zeta. unfold validate_proposed_config.
  destruct (Z.ltb_spec (amd_instances (calculate_available_resources inv)) proposed_amd);
    destruct (Z.ltb_spec (arm_ocpus (calculate_available_resources inv)) proposed_arm_ocpus);
    destruct (Z.ltb_spec (arm_memory (calculate_available_resources inv)) proposed_arm_memory);
    destruct (Z.ltb_spec (storage (calculate_available_resources inv)) proposed_storage);
    cbn [fst snd app length Z.eqb Z.add Pos.add Pos.succ];
    (split; [intros Hres; first [discriminate Hres|lia]|intros; first [reflexivity|lia]]).
Qed.

(** X10.  [validate_proposed_config] accepts a proposal exactly when its
    AMD count, ARM OCPUs, ARM memory and storage are each within the
    headroom; it prints one error line per dimension that is exceeded;
    and the proposed number of ARM instances plays no part in it. *)
Theorem validate_proposed_config_checks_four_limits (inv : Inventory)
    (proposed_amd proposed_arm proposed_arm_ocpus proposed_arm_memory
       proposed_storage : Z) :
  let available := calculate_available_resources inv in
  let result :=
    validate_proposed_config inv proposed_amd proposed_arm proposed_arm_ocpus
      proposed_arm_memory proposed_storage in
  (snd result = true <->
   proposed_amd <= amd_instances available /\
   proposed_arm_ocpus <= arm_ocpus available /\
   proposed_arm_memory <= arm_memory available /\
   proposed_storage <= storage available) /\
  Z.of_nat (length (fst result))
  = (if amd_instances available <? proposed_amd then 1 else 0)
    + (if arm_ocpus available <? proposed_arm_ocpus then 1 else 0)
    + (if arm_memory available <? proposed_arm_memory then 1 else 0)
    + (if storage available <? proposed_storage then 1 else 0) /\
  (snd result = true <-> fst result = []) /\
  forall other_arm,
    validate_proposed_config inv proposed_amd other_arm proposed_arm_ocpus
      proposed_arm_memory proposed_storage = result.
Proof.
  cbv zeta. unfold validate_proposed_config.
  destruct (Z.ltb_spec (amd_instances (calculate_available_resources inv)) proposed_amd);
    destruct (Z.ltb_spec (arm_ocpus (calculate_available_resources inv)) proposed_arm_ocpus);
    destruct (Z.ltb_spec (arm_memory (calculate_available_resources inv)) proposed_arm_memory);
    destruct (Z.ltb_spec (storage (calculate_available_resources inv)) proposed_storage);
    cbn [fst snd app length Z.eqb Z.add Pos.add Pos.succ];
    (split; [split; [intros Hres; first [discriminate Hres|lia]|intros; first [reflexivity|lia]]|]);
    (split; [reflexivity|]);
    (split; [split; intros Hres; first [discriminate Hres|reflexivity]|reflexivity]).
Qed.

Section ArmLoopBounds.

Variable user : UserAnswers.
Variable available_ocpus available_memory : Z.

Local Abbreviation after := (arm_loop_after user available_ocpus available_memory).

Lemma arm_loop_memory_bounds (n : nat) :
  Forall2 (fun o m => 1 <= o /\ 1 <= m <= 6 * o)
    (loop_ocpus (after n)) (loop_memory (after n)).
Proof.
  induction n as [|n IH]; [constructor|].
  rewrite arm_loop_after_S. unfold arm_loop_body. cbn [loop_ocpus loop_memory].
  apply Forall2_app; [exact IH|]. constructor; [|constructor]. unfold ask. lia.
Qed.

Lemma arm_loop_boot_bounds (n : nat) :
  Forall (fun b => 50 <= b <= 200) (loop_boot (after n)) /\
  loop_block (after n) = repeat 0 n.
Proof.
  induction n as [|n (IHboot & IHblock)]; [split; [constructor|reflexivity]|].
  rewrite arm_loop_after_S. unfold arm_loop_body. cbn [loop_boot loop_block]. split.
  - apply Forall_app. split; [exact IHboot|]. constructor; [|constructor]. unfold ask. lia.
  - rewrite IHblock. change [0] with (repeat 0 1). rewrite <- repeat_app.
    f_equal. lia.
Qed.

Lemma arm_loop_hostname_defaults (n : nat) :
  (forall i, ans_hostname (ans_arm user i) = None) ->
  loop_hostnames (after n)
  = map (fun k => "arm-instance-" +:+ pretty (1 + Z.of_nat k)) (seq 0 n).
Proof.
  intros Hdefault. induction n as [|n IH]; [reflexivity|].
  rewrite arm_loop_after_S. unfold arm_loop_body. cbn [loop_hostnames].
  rewrite IH, Hdefault, seq_S, map_app. reflexivity.
Qed.

(** After the first instance the counter is never more than one OCPU per
    further instance below zero. *)
Lemma arm_loop_overdraft (n : nat) :
  1 <= available_ocpus ->
  (1 <= n)%nat ->
  1 - Z.of_nat n <= remaining_ocpus (after n).
Proof.
  intros Hheadroom. induction n as [|n IH]; [lia|]. intros _.
  rewrite arm_loop_after_S. unfold arm_loop_body. cbn [remaining_ocpus].
  destruct n as [|n].
  - change (remaining_ocpus (after 0)) with available_ocpus. unfold ask. lia.
  - specialize (IH ltac:(lia)). unfold ask. lia.
Qed.

End ArmLoopBounds.

(** The ARM part of a custom plan is the state of the ARM loop after
    [arm_flex_instance_count] rounds, or empty. *)
Lemma custom_arm_state (oci_config : OciConfig) (inv : Inventory) (user : UserAnswers) :
  let cfg := configure_custom_instances oci_config inv user in
  let available := calculate_available_resources inv in
  (arm_flex_instance_count cfg = 0 /\
   arm_flex_ocpus_per_instance cfg = [] /\ arm_flex_memory_per_instance cfg = [] /\
   arm_flex_boot_volume_size_gb cfg = [] /\ arm_flex_block_volumes cfg = [] /\
   arm_flex_hostnames cfg = []) \/
  exists n : nat,
    0 < arm_ocpus available /\
    arm_flex_instance_count cfg = Z.of_nat n /\ (n <= 4)%nat /\
    let st := arm_loop_after user (arm_ocpus available) (arm_memory available) n in
    arm_flex_ocpus_per_instance cfg = loop_ocpus st /\
    arm_flex_memory_per_instance cfg = loop_memory st /\
    arm_flex_boot_volume_size_gb cfg = loop_boot st /\
    arm_flex_block_volumes cfg = loop_block st /\
    arm_flex_hostnames cfg = loop_hostnames st.
Proof.
  cbv zeta. unfold configure_custom_instances.
  destruct (Py.truthy _); cbn [andb]; [|left; cbn; auto 6].
  destruct (Z.ltb_spec 0 (arm_ocpus (calculate_available_resources inv)));
    [|left; cbn; auto 6].
  right. rewrite range_from_1.
  exists (Z.to_nat (Z.max 0 (Z.min (ask 1 (ans_arm_count user)) 4))).
  split; [assumption|]. cbn. split; [lia|]. split; [lia|]. auto.
Qed.


(** X12.  When the maximum-utilisation strategy plans an ARM instance,
    it gives it all the OCPU and memory headroom and the storage that the
    AMD boot volumes leave, but never less than 47 GB.  The boot volumes
    of the plan therefore add up to the larger of the storage headroom
    and [50 * amd + 47]: the plan never leaves storage unused, and it
    asks for more than is free exactly when fewer than 47 GB would be
    left for the ARM boot volume.  [validate_proposed_config] accepts the
    totals of the plan in the other case only. *)
Theorem maximum_plan_storage (oci_config : OciConfig) (inv : Inventory) :
  let cfg := configure_maximum_free_tier oci_config inv in
  let available := calculate_available_resources inv in
  Py.truthy (ubuntu_arm_flex_image_ocid oci_config) = true ->
  0 < arm_ocpus available ->
  Py.sum (arm_flex_ocpus_per_instance cfg) = arm_ocpus available /\
  Py.sum (arm_flex_memory_per_instance cfg) = arm_memory available /\
  planned_boot_storage cfg
  = Z.max (storage available) (50 * amd_instances available + 47) /\
  (planned_boot_storage cfg <= storage available <->
   47 <= storage available - 50 * amd_instances available) /\
  (snd (validate_proposed_config inv
          (amd_micro_instance_count cfg) (arm_flex_instance_count cfg)
          (Py.sum (arm_flex_ocpus_per_instance cfg))
          (Py.sum (arm_flex_memory_per_instance cfg))
          (planned_boot_storage cfg)) = true <->
   47 <= storage available - 50 * amd_instances available).
Proof.
  cbv zeta. intros Himage Hocpus.
  assert (forall x, Py.sum [x] = x) as Hsum by (intros x; unfold Py.sum; cbn; lia).
  assert (Py.sum (arm_flex_ocpus_per_instance (configure_maximum_free_tier oci_config inv))
          = arm_ocpus (calculate_available_resources inv) /\
          Py.sum (arm_flex_memory_per_instance (configure_maximum_free_tier oci_config inv))
          = arm_memory (calculate_available_resources inv) /\
          amd_micro_instance_count (configure_maximum_free_tier oci_config inv)
          = amd_instances (calculate_available_resources inv) /\
          planned_boot_storage (configure_maximum_free_tier oci_config inv)
          = Z.max (storage (calculate_available_resources inv))
              (50 * amd_instances (calculate_available_resources inv) + 47))
    as (Ho & Hm & Ha & Hs).
  { unfold planned_boot_storage, configure_maximum_free_tier.
    rewrite Himage. destruct (Z.ltb_spec 0 (arm_ocpus (calculate_available_resources inv)));
      [|lia].
    cbn [andb arm_flex_ocpus_per_instance arm_flex_memory_per_instance
           amd_micro_instance_count amd_micro_boot_volume_size_gb
           arm_flex_boot_volume_size_gb].
    rewrite !Hsum. unfold FREE_TIER_MIN_BOOT_VOLUME_GB.
    destruct (Z.ltb_spec (storage (calculate_available_resources inv)
                          - amd_instances (calculate_available_resources inv) * 50) 47);
      repeat split; lia. }
  split; [exact Ho|]. split; [exact Hm|]. split; [exact Hs|]. split; [lia|].
  destruct (validate_proposed_config_accepts inv
              (amd_micro_instance_count (configure_maximum_free_tier oci_config inv))
              (arm_flex_instance_count (configure_maximum_free_tier oci_config inv))
              (Py.sum (arm_flex_ocpus_per_instance (configure_maximum_free_tier oci_config inv)))
              (Py.sum (arm_flex_memory_per_instance (configure_maximum_free_tier oci_config inv)))
              (planned_boot_storage (configure_maximum_free_tier oci_config inv)))
    as (Hyes & Hno).
  split.
  - intros Hok. apply Hyes in Hok. lia.
  - intros Hroom. apply Hno. lia.
Qed.

Lemma maximum_plan_storage_witness :
  planned_boot_storage (configure_maximum_free_tier example_oci_config nearly_full_inventory)
  = 147 /\
  storage (calculate_available_resources nearly_full_inventory) = 20 /\
  snd (validate_proposed_config nearly_full_inventory 2 1 4 24 147) = false.
Proof.
  destruct (maximum_plan_storage example_oci_config nearly_full_inventory
              eq_refl ltac:(vm_compute; reflexivity))
    as (_ & _ & Hplanned & _ & _).
  split; [rewrite Hplanned; vm_compute; reflexivity|].
  split; vm_compute; reflexivity.
Defined.

(** ** The commands of a run *)

Lemma commands_of_app (new old : list Event) :
  commands_of (new ++ old) = (commands_of old ++ commands_of new)%list.
Proof. unfold commands_of. rewrite rev_app_distr. apply omap_app. Qed.

Lemma commands_of_cons (ev : Event) (old : list Event) :
  commands_of (ev :: old) =
  (commands_of old ++ match ev with ECommand cmd o => [(cmd, o)] | _ => [] end)%list.
Proof.
  change (ev :: old) with ([ev] ++ old)%list. rewrite commands_of_app.
  f_equal. destruct ev; reflexivity.
Qed.

Lemma commands_of_silent (evs : list Event) :
  Forall (fun ev => ~ is_command ev) evs -> commands_of evs = [].
Proof.
  induction 1 as [|ev evs Hev _ IH]; [reflexivity|].
  rewrite commands_of_cons, IH. destruct ev; try reflexivity. destruct Hev. exact I.
Qed.

Lemma in_commands_of (cmd : list string) (o : Exn + CompletedProcess) (evs : list Event) :
  In (cmd, o) (commands_of evs) <-> In (ECommand cmd o) evs.
Proof.
  induction evs as [|ev evs IH]; [reflexivity|].
  rewrite commands_of_cons, in_app_iff, IH. cbn [In]. split.
  - intros [H|H]; [right; exact H|]. destruct ev; try (destruct H; fail).
    destruct H as [H|[]]. injection H as -> ->. left. reflexivity.
  - intros [->|H]; [right; left; reflexivity|auto].
Qed.

(** ** Rules for [on_commands] *)

Lemma ends_print {S A} (text : string) (k : M S A)
    (Q : S -> Result A -> S -> list Event -> Prop) (ev : Event) :
  ~ is_command ev ->
  ends k (fun s res s' evs => Q s res s' (evs ++ [ev])%list) ->
  ends (emit ev ≫= fun _ => k) Q.
Proof.
  intros _ Hk s t. unfold mbind, M_bind, emit.
  destruct (Hk s (ev :: t)) as (res & s' & evs & -> & HQ).
  exists res, s', (evs ++ [ev])%list. split; [trace_eq|exact HQ].
Qed.

Lemma on_commands_silent {S A} (P : Result A -> list Command -> Prop)
    (ev : Event) (s : S) (res : Result A) (s' : S) (evs : list Event) :
  ~ is_command ev ->
  on_commands P s res s' evs -> on_commands P s res s' (evs ++ [ev])%list.
Proof.
  intros Hev (-> & HP). split; [reflexivity|].
  rewrite commands_of_app.
  rewrite (commands_of_silent [ev]) by (repeat constructor; exact Hev). exact HP.
Qed.

Lemma on_commands_emit {S A} (ev : Event) (k : M S A)
    (P : Result A -> list Command -> Prop) :
  ~ is_command ev ->
  ends k (on_commands P) ->
  ends (emit ev ≫= fun _ => k) (on_commands P).
Proof.
  intros Hev Hk. apply (ends_print "" k _ ev Hev).
  apply (ends_conseq k (on_commands P)); [exact Hk|].
  intros s res s' evs. apply on_commands_silent. exact Hev.
Qed.

Lemma on_commands_bind {S A B} (m : M S A) (k : A -> M S B)
    (P : Result A -> list Command -> Prop) (Q : A -> Result B -> list Command -> Prop)
    (R : Result B -> list Command -> Prop) :
  ends m (on_commands P) ->
  (forall a, ends (k a) (on_commands (Q a))) ->
  (forall e c1, P (Raise e) c1 -> R (Raise e) c1) ->
  (forall a c1 res c2, P (Return a) c1 -> Q a res c2 -> R res (c1 ++ c2)%list) ->
  ends (m ≫= k) (on_commands R).
Proof.
  intros Hm Hk Hraise Hreturn.
  apply (ends_bind m k (on_commands P)); [exact Hm| |].
  - intros s e s1 evs1 (-> & HP). split; [reflexivity|auto].
  - intros s a s1 evs1 (-> & HP) t.
    destruct (Hk a s t) as (res & s' & evs2 & Hrun & -> & HQ).
    exists res, s, evs2. split; [exact Hrun|]. split; [reflexivity|].
    rewrite commands_of_app. eauto.
Qed.

Lemma on_commands_ret {S A} (a : A) (P : Result A -> list Command -> Prop) :
  P (Return a) [] -> ends (mret a : M S A) (on_commands P).
Proof. intros HP. apply ends_ret. intros s. split; [reflexivity|exact HP]. Qed.

Lemma on_commands_conseq {S A} (m : M S A) (P Q : Result A -> list Command -> Prop) :
  ends m (on_commands P) -> (forall res cmds, P res cmds -> Q res cmds) ->
  ends m (on_commands (S:=S) Q).
Proof.
  intros Hm HPQ. apply (ends_conseq m (on_commands P)); [exact Hm|].
  intros s res s' evs (-> & HP). split; [reflexivity|auto].
Qed.

Lemma on_commands_run_command {S}
    (env : Trace -> list string -> Exn + CompletedProcess) (cmd : list string) :
  ends (run_command env cmd (S:=S))
    (on_commands
       (fun res cmds =>
          exists o, cmds = [(cmd, o)] /\
                    res = match o with inl e => Raise e | inr r => Return r end)).
Proof.
  apply (ends_conseq _ _ _ (ends_run_command env cmd)).
  intros s res s' evs (-> & o & -> & ->). split; [reflexivity|].
  exists o. split; reflexivity.
Qed.

(** ** The commands of the retry loops *)

Ltac commands_simpl :=
  rewrite ?commands_of_app, ?commands_of_cons;
  change (commands_of []) with (@nil Command); cbn [app].

Lemma retry_run_command_call {S} (exn_str : Exn -> string) (func_name : string)
    (cmd : list string) (max_attempts base_delay : Z) :
  forall attempt last_error (s : S) res s' evs,
    retry_run exn_str func_name (command_call cmd) max_attempts base_delay
      attempt last_error s res s' evs ->
    s' = s /\
    match res with
    | Return _ => retried_until_success cmd (commands_of evs)
    | Raise _ => never_succeeded cmd (commands_of evs)
    end.
Proof.
  intros attempt last_error s res s' evs Hrun.
  induction Hrun as [attempt last_error s Hgt
                    |attempt last_error s a0 s' evs Hle Hc
                    |attempt last_error s e s' evs Heq Hc
                    |attempt last_error s e s' evs e' Hlt Hc Hneg
                    |attempt last_error s e s' evs e' Hlt Hc Hnone
                    |attempt last_error s e s1 evs res s' evs' Hlt Hc Hpos Hrest IH];
    try (destruct Hc as (-> & o & -> & Ho)).
  - split; [reflexivity|]. constructor.
  - split; [reflexivity|]. destruct Ho as (-> & Hr). commands_simpl.
    exists [], a0. split; [reflexivity|]. split; [exact Hr|constructor].
  - split; [reflexivity|]. unfold retry_warning. commands_simpl.
    repeat constructor. exact Ho.
  - split; [reflexivity|]. unfold retry_warning. commands_simpl.
    repeat constructor. exact Ho.
  - split; [reflexivity|]. unfold retry_warning. commands_simpl.
    repeat constructor. exact Ho.
  - destruct IH as (-> & IH). split; [reflexivity|].
    unfold retry_warning. commands_simpl.
    destruct res as [a|e'].
    + destruct IH as (failures & r & -> & Hr & Hfailures).
      exists ((cmd, o) :: failures), r. split; [reflexivity|]. split; [exact Hr|].
      constructor; [split; [reflexivity|exact Ho]|exact Hfailures].
    + constructor; [split; [reflexivity|exact Ho]|exact IH].
Qed.

Lemma apply_loop_commands {S}
    (env : Trace -> list string -> Exn + CompletedProcess)
    (clock : Trace -> Z -> option Exn) (markup_ok : string -> bool)
    (RETRY_MAX_ATTEMPTS RETRY_BASE_DELAY : Z) :
  forall (fuel : nat) (attempt : Z),
    RETRY_MAX_ATTEMPTS + 1 - attempt <= Z.of_nat fuel ->
    ends (apply_loop env clock markup_ok RETRY_MAX_ATTEMPTS RETRY_BASE_DELAY fuel attempt (S:=S))
      (on_commands
         (fun res cmds =>
            match res with
            | Return true => retried_until_success apply_cmd cmds
            | _ => never_succeeded apply_cmd cmds
            end)).
Proof.
  induction fuel as [|fuel IH]; intros attempt Hfuel s t;
    (destruct (Z.le_gt_cases attempt RETRY_MAX_ATTEMPTS) as [Hle|Hgt];
     [|rewrite apply_loop_exit by lia;
       eexists _, s, [_]; split; [reflexivity|]; split; [reflexivity|constructor]]).
  { lia. }
  rewrite apply_loop_step by lia.
  set (announce := EPrint Status (MsgApplyAttempt attempt RETRY_MAX_ATTEMPTS)).
  destruct (env (announce :: t) apply_cmd) as [e|r].
  { eexists _, s, [_; _]. split; [reflexivity|]. split; [reflexivity|].
    repeat constructor. intros (r & H & _). discriminate H. }
  cbv zeta.
  assert (returncode r <> 0 -> ~ succeeded_command (apply_cmd, inr r)) as Hfailed.
  { intros Hr (r' & H & Hr'). injection H as <-. contradiction. }
  destruct (Z.eqb_spec (returncode r) 0) as [Hr|Hr].
  { eexists _, s, [_; _; _]. split; [reflexivity|]. split; [reflexivity|].
    exists [], r. split; [reflexivity|]. split; [exact Hr|constructor]. }
  destruct (mentions_capacity _).
  2:{ destruct (markup_ok _).
      - eexists _, s, [_; _; _; _]. split; [reflexivity|]. split; [reflexivity|].
        repeat constructor. auto.
      - eexists _, s, [_; _; _]. split; [reflexivity|]. split; [reflexivity|].
        repeat constructor. auto. }
  destruct (attempt <? RETRY_MAX_ATTEMPTS).
  2:{ eexists _, s, [_; _; _; _]. split; [reflexivity|]. split; [reflexivity|].
      repeat constructor. auto. }
  destruct (sleep_error clock _ _).
  { eexists _, s, [_; _; _; _]. split; [reflexivity|]. split; [reflexivity|].
    repeat constructor. auto. }
  match goal with
  | |- context [apply_loop _ _ _ _ _ fuel (attempt + 1) s ?t1] =>
      destruct (IH (attempt + 1) ltac:(lia) s t1) as (res & s' & evs & -> & -> & Hrest)
  end.
  exists res, s,
    (evs ++ [ESleep (RETRY_BASE_DELAY * 2 ^ (attempt - 1));
             EPrint Status (MsgWaiting (RETRY_BASE_DELAY * 2 ^ (attempt - 1)));
             EPrint Warning MsgApplyCapacity; ECommand apply_cmd (inr r); announce])%list.
  split; [trace_eq|]. split; [reflexivity|].
  rewrite commands_of_app.
  change (commands_of [_; _; _; _; _]) with [(apply_cmd, @inr Exn _ r)].
  assert (forall cmds, never_succeeded apply_cmd cmds ->
                       never_succeeded apply_cmd ([(apply_cmd, inr r)] ++ cmds)) as Hnever.
  { intros cmds Hcmds. constructor; [split; [reflexivity|auto]|exact Hcmds]. }
  destruct res as [[|]|e]; auto.
  destruct Hrest as (failures & r' & -> & Hr' & Hfailures).
  exists ((apply_cmd, inr r) :: failures), r'. split; [reflexivity|]. split; [exact Hr'|].
  constructor; [split; [reflexivity|auto]|exact Hfailures].
Qed.

Lemma out_of_capacity_auto_apply_commands {S}
    (env : Trace -> list string -> Exn + CompletedProcess)
    (clock : Trace -> Z -> option Exn) (markup_ok : string -> bool)
    (RETRY_MAX_ATTEMPTS RETRY_BASE_DELAY : Z) :
  ends (out_of_capacity_auto_apply env clock markup_ok RETRY_MAX_ATTEMPTS RETRY_BASE_DELAY (S:=S))
    (on_commands
       (fun res cmds =>
          match res with
          | Return true => retried_until_success apply_cmd cmds
          | _ => never_succeeded apply_cmd cmds
          end)).
Proof.
  unfold out_of_capacity_auto_apply, print_status.
  apply on_commands_emit; [intros []|]. apply apply_loop_commands. lia.
Qed.

(** ** The runs of the workflow *)

Ltac skip_prints := repeat (apply on_commands_emit; [intros []|]).

Section WorkflowRuns.

Variable env : Trace -> list string -> Exn + CompletedProcess.
Variable exn_str : Exn -> string.
Variable clock : Trace -> Z -> option Exn.
Variable json_loads : string -> option Exn.
Variable markup_ok : string -> bool.
Variable json_indent : string -> string.
Variable path_exists : Trace -> string -> bool.
Variable RETRY_MAX_ATTEMPTS RETRY_BASE_DELAY : Z.
Variable operator : Operator.
Variable inv : Inventory.
Variable instance_config : InstanceConfig.

Local Abbreviation wf_run :=
  (workflow_run exn_str json_loads markup_ok RETRY_MAX_ATTEMPTS RETRY_BASE_DELAY operator
     inv instance_config).
Local Abbreviation imported :=
  (import_step exn_str json_loads RETRY_MAX_ATTEMPTS RETRY_BASE_DELAY inv instance_config).

Lemma init_upgrade_ends {S} :
  ends (_init_upgrade env (S:=S)) (command_call init_upgrade_cmd).
Proof.
  intros s t. unfold _init_upgrade, mbind, M_bind, run_command, raise, mret, M_ret.
  fold init_upgrade_cmd. unfold command_call.
  destruct (env t init_upgrade_cmd) as [e|r].
  - eexists _, s, [_]. split; [reflexivity|]. split; [reflexivity|].
    exists (inl e). split; [reflexivity|]. intros (r & H & _). discriminate H.
  - destruct (Z.eqb_spec (returncode r) 0) as [Hr|Hr]; cbn [negb];
      (eexists _, s, [_]; split; [reflexivity|]; split; [reflexivity|];
       exists (inr r); split; [reflexivity|]).
    + auto.
    + intros (r' & H & Hr'). injection H as <-. contradiction.
Qed.

Lemma init_upgrade_retried {S} :
  ends (retry_with_backoff exn_str clock "_init" (_init_upgrade env)
          RETRY_MAX_ATTEMPTS RETRY_BASE_DELAY (S:=S))
    (on_commands
       (fun res cmds =>
          match res with
          | Return _ => retried_until_success init_upgrade_cmd cmds
          | Raise _ => never_succeeded init_upgrade_cmd cmds
          end)).
Proof.
  apply (ends_conseq _ _ _
           (retry_with_backoff_runs exn_str clock "_init" (_init_upgrade env)
              (command_call init_upgrade_cmd) RETRY_MAX_ATTEMPTS RETRY_BASE_DELAY
              init_upgrade_ends)).
  intros s res s' evs Hrun. apply retry_run_command_call in Hrun as (-> & Hcmds).
  split; [reflexivity|exact Hcmds].
Qed.

Lemma console_print_output_silent {S} (text : string) :
  ends (console_print_output markup_ok text (S:=S))
    (on_commands
       (fun res cmds =>
          cmds = [] /\
          res = if markup_ok text then Return tt else Raise MarkupError)).
Proof.
  intros s t. unfold console_print_output.
  destruct (markup_ok text).
  - eexists _, s, [_]. split; [reflexivity|]. split; [reflexivity|]. auto.
  - exists (Raise MarkupError), s, []. split; [reflexivity|]. split; [reflexivity|]. auto.
Qed.

Lemma plan_summary_silent {S} (stdout : string) :
  ends (plan_summary markup_ok stdout (S:=S))
    (on_commands
       (fun res cmds =>
          cmds = [] /\
          (res = Return tt \/
           res = Raise MarkupError /\
           exists line, In line (take 20 (Py.split "010" stdout)) /\
                        markup_ok line = false))).
Proof.
  unfold plan_summary. generalize (take 20 (Py.split "010" stdout)).
  intros lines. induction lines as [|line lines IH]; cbn [for_each].
  - apply on_commands_ret. auto.
  - assert (ends (for_each lines
                    (fun line =>
                       if Py.any (fun keyword => Py.contains keyword line)
                            ["Plan:"; "#"; "will be"]
                       then console_print_output markup_ok line
                       else mret tt) : M S unit)
              (on_commands
                 (fun res cmds =>
                    cmds = [] /\
                    (res = Return tt \/
                     res = Raise MarkupError /\
                     exists l, In l (line :: lines) /\ markup_ok l = false)))) as IH'.
    { apply (on_commands_conseq _ _ _ IH).
      intros res cmds (-> & [->|(-> & l & Hl & Hrefused)]); (split; [reflexivity|]).
      - left. reflexivity.
      - right. split; [reflexivity|]. exists l. split; [right; exact Hl|exact Hrefused]. }
    destruct (Py.any _ _).
    + eapply (on_commands_bind _ _ _ (fun _ res cmds => _));
        [apply console_print_output_silent|intros _; exact IH'| |].
      * intros e c1 (-> & Hres). split; [reflexivity|]. right.
        destruct (markup_ok line) eqn:Hline; [discriminate Hres|].
        injection Hres as ->. split; [reflexivity|].
        exists line. split; [left; reflexivity|exact Hline].
      * intros a c1 res c2 (-> & _) H. exact H.
    + intros s t. exact (IH' s t).
Qed.

Lemma output_fallback {S} (s : S) (t : Trace) :
  exists res evs o,
    (run_command env output_cmd ≫= fun result =>
     console_print_output markup_ok (stdout result)) s t
    = Some (res, s, (evs ++ t)%list) /\
    commands_of evs = [(output_cmd, o)] /\
    res = match o with
          | inl e => Raise e
          | inr shown => if markup_ok (stdout shown) then Return tt else Raise MarkupError
          end.
Proof.
  unfold mbind, M_bind, run_command, console_print_output, emit, raise.
  destruct (env t output_cmd) as [e|r].
  - exists (Raise e), [ECommand output_cmd (inl e)], (inl e). auto.
  - destruct (markup_ok (stdout r)) eqn:Hmarkup.
    + exists (Return tt), [EConsole (stdout r); ECommand output_cmd (inr r)], (inr r).
      rewrite Hmarkup. auto.
    + exists (Raise MarkupError), [ECommand output_cmd (inr r)], (inr r).
      rewrite Hmarkup. auto.
Qed.

Lemma show_outputs_commands {S} :
  ends (show_outputs env json_loads markup_ok json_indent (S:=S))
    (on_commands
       (fun res cmds =>
          exists raised,
            output_step json_loads markup_ok raised cmds /\
            res = match raised with None => Return tt | Some e => Raise e end)).
Proof.
  intros s t. unfold show_outputs.
  fold output_json_cmd. fold output_cmd.
  unfold mbind at 1, M_bind at 1, run_command at 1.
  destruct (env t output_json_cmd) as [e|r].
  { eexists _, s, [_]. split; [reflexivity|]. split; [reflexivity|].
    exists (Some e). split; [left; eauto|reflexivity]. }
  assert (returncode r <> 0 \/ json_loads (stdout r) = Some JSONDecodeError ->
          exists res s' evs,
            (run_command env output_cmd ≫= fun result =>
             console_print_output markup_ok (stdout result))
              s (ECommand output_json_cmd (inr r) :: t)
            = Some (res, s', (evs ++ t)%list) /\
            on_commands
              (fun res cmds =>
                 exists raised,
                   output_step json_loads markup_ok raised cmds /\
                   res = match raised with None => Return tt | Some e => Raise e end)
              s res s' evs) as Hfallback.
  { intros Hwhy.
    destruct (output_fallback s (ECommand output_json_cmd (inr r) :: t))
      as (res & evs & o & -> & Hcmds & ->).
    eexists _, s, (evs ++ [ECommand output_json_cmd (inr r)])%list.
    split; [trace_eq|]. split; [reflexivity|].
    rewrite commands_of_app, Hcmds.
    exists (match o with
            | inl e => Some e
            | inr shown => if markup_ok (stdout shown) then None else Some MarkupError
            end).
    split; [|destruct o as [e|shown]; [|destruct (markup_ok (stdout shown))]; reflexivity].
    right. right. exists r, o. split; [reflexivity|]. split; [exact Hwhy|reflexivity]. }
  destruct (Z.eqb_spec (returncode r) 0) as [Hr|Hr]; [|apply Hfallback; auto].
  destruct (json_loads (stdout r)) as [e|] eqn:Hjson.
  - assert (e = JSONDecodeError \/ e <> JSONDecodeError) as [->|Hother]
        by (destruct e; auto; right; discriminate).
    { apply Hfallback. auto. }
    exists (Raise e), s, [ECommand output_json_cmd (inr r)].
    split; [destruct e; try reflexivity; contradiction|].
    split; [reflexivity|].
    exists (Some e). split; [|reflexivity]. right. left. exists r.
    split; [reflexivity|]. split; [exact Hr|]. rewrite Hjson.
    split; [intros H; injection H as ->; contradiction|reflexivity].
  - eexists _, s, [_; _]. split; [reflexivity|]. split; [reflexivity|].
    exists None. split; [|reflexivity]. right. left. exists r.
    split; [reflexivity|]. split; [exact Hr|]. rewrite Hjson.
    split; [discriminate|reflexivity].
Qed.

Lemma import_step_commands {S} :
  ends ((if negb (is_empty (existing_vcns inv))
            || negb (is_empty (existing_amd_instances inv))
            || negb (is_empty (existing_arm_instances inv))
         then
           print_status_text "Step 2: Importing existing resources...";;
           import_existing_resources env exn_str clock json_loads
             RETRY_MAX_ATTEMPTS RETRY_BASE_DELAY inv instance_config;;
           mret tt
         else print_status_text "Step 2: No existing resources to import") : M S unit)
    (on_commands
       (fun res cmds =>
          exists raised,
            imported raised cmds /\
            res = match raised with None => Return tt | Some e => Raise e end)).
Proof.
  destruct (_ || _) eqn:Hany.
  - assert (~ (existing_vcns inv = [] /\ existing_amd_instances inv = [] /\
               existing_arm_instances inv = [])) as Hsome.
    { intros (Hv & Ha & Hr). rewrite Hv, Ha, Hr in Hany. discriminate Hany. }
    unfold print_status_text, console_print. apply on_commands_emit; [intros []|].
    intros s t. unfold mbind, M_bind.
    destruct (import_existing_resources_ends env exn_str clock json_loads RETRY_MAX_ATTEMPTS
                RETRY_BASE_DELAY inv instance_config s t)
      as (res & s' & evs & -> & -> & Hrun).
    destruct res as [b|e].
    + exists (Return tt), s, evs. split; [reflexivity|]. split; [reflexivity|].
      exists None. split; [|reflexivity]. right. split; [exact Hsome|].
      exists (Return b), evs. auto.
    + exists (Raise e), s, evs. split; [reflexivity|]. split; [reflexivity|].
      exists (Some e). split; [|reflexivity]. right. split; [exact Hsome|].
      exists (Raise e), evs. auto.
  - apply orb_false_elim in Hany as (Hany & Hr).
    apply orb_false_elim in Hany as (Hv & Ha).
    apply negb_false_iff, is_empty_nil in Hv, Ha, Hr.
    intros s t. eexists _, s, [_]. split; [reflexivity|]. split; [reflexivity|].
    exists None. split; [|reflexivity]. left. auto 6.
Qed.


Lemma on_commands_try {S A B} (body : M S A) (on_return : A -> M S B)
    (on_except : Exn -> M S B)
    (P : Result A -> list Command -> Prop)
    (Q : A -> Result B -> list Command -> Prop)
    (Q' : Exn -> Result B -> list Command -> Prop)
    (R : Result B -> list Command -> Prop) :
  ends body (on_commands P) ->
  (forall a, ends (on_return a) (on_commands (Q a))) ->
  (forall e, ends (on_except e) (on_commands (Q' e))) ->
  (forall a c1 res c2, P (Return a) c1 -> Q a res c2 -> R res (c1 ++ c2)%list) ->
  (forall e c1 res c2, P (Raise e) c1 -> Q' e res c2 -> R res (c1 ++ c2)%list) ->
  ends (try_except body on_return on_except) (on_commands R).
Proof.
  intros Hbody Hret Hexc HR HR'.
  apply (ends_try_except body on_return on_except (on_commands P)); [exact Hbody| |].
  - intros s a s1 evs1 (-> & HP) t.
    destruct (Hret a s t) as (res & s' & evs2 & Hrun & -> & HQ).
    exists res, s, evs2. split; [exact Hrun|]. split; [reflexivity|].
    rewrite commands_of_app. eauto.
  - intros s e s1 evs1 (-> & HP) t.
    destruct (Hexc e s t) as (res & s' & evs2 & Hrun & -> & HQ).
    exists res, s, evs2. split; [exact Hrun|]. split; [reflexivity|].
    rewrite commands_of_app. eauto.
Qed.

Lemma on_commands_emit_last {S} (ev : Event) :
  ~ is_command ev ->
  ends (emit ev (S:=S)) (on_commands (fun res cmds => res = Return tt /\ cmds = [])).
Proof.
  intros Hev. apply ends_emit. intros s. split; [reflexivity|].
  split; [reflexivity|]. apply commands_of_silent. repeat constructor. exact Hev.
Qed.

Lemma tfplan_exists_silent {S} :
  ends (tfplan_exists path_exists (S:=S))
    (on_commands (fun res cmds => (exists b, res = Return b) /\ cmds = [])).
Proof.
  intros s t. exists (Return (path_exists t "tfplan")), s, [].
  split; [reflexivity|]. split; [reflexivity|]. split; [eauto|reflexivity].
Qed.

(** The post-conditions of the stages of the workflow, each relative to
    the commands of the stages before it. *)
Local Abbreviation after_init res cmds :=
  (forall inits,
      retried_until_success init_upgrade_cmd inits -> wf_run res (inits ++ cmds)%list).
Local Abbreviation after_import res cmds :=
  (forall inits imports,
      retried_until_success init_upgrade_cmd inits -> imported None imports ->
      wf_run res (inits ++ imports ++ cmds)%list).
Local Abbreviation after_plan validated planned res cmds :=
  (forall inits imports,
      retried_until_success init_upgrade_cmd inits -> imported None imports ->
      wf_run res
        (inits ++ imports ++
           [(validate_cmd, inr validated); (plan_cmd, inr planned)] ++ cmds)%list).
Local Abbreviation after_show validated planned shown res cmds :=
  (forall inits imports,
      retried_until_success init_upgrade_cmd inits -> imported None imports ->
      wf_run res
        (inits ++ imports ++
           [(validate_cmd, inr validated); (plan_cmd, inr planned);
            (show_plan_cmd, inr shown)] ++ cmds)%list).

Lemma invalid_run (inits imports : list Command) (validated : CompletedProcess)
    (res : Result bool) :
  retried_until_success init_upgrade_cmd inits -> imported None imports ->
  returncode validated <> 0 ->
  res = after_error_text markup_ok (stderr validated) ->
  wf_run res (inits ++ imports ++ [(validate_cmd, inr validated)])%list.
Proof. intros Hinits Himports Hvalidated ->. apply workflow_invalid; assumption. Qed.

Lemma deploy_stage {S} (validated planned shown : CompletedProcess) :
  returncode validated = 0 -> returncode planned = 0 ->
  ends ((emit (EConsole ("[blue][INFO][/blue] " +:+ "Applying Terraform plan...")) ≫= fun _ =>
         out_of_capacity_auto_apply env clock markup_ok RETRY_MAX_ATTEMPTS RETRY_BASE_DELAY ≫= fun applied =>
         if applied : bool then
           emit (EConsole ("[green][SUCCESS][/green] "
                           +:+ "Infrastructure deployed successfully!")) ≫= fun _ =>
           tfplan_exists path_exists ≫= fun _ =>
           emit EBlank ≫= fun _ =>
           emit (EHeader "DEPLOYMENT COMPLETE") ≫= fun _ =>
           show_outputs env json_loads markup_ok json_indent ≫= fun _ =>
           mret true
         else
           emit (EConsole ("[red][ERROR][/red] " +:+ "Terraform apply failed")) ≫= fun _ =>
           mret false) : M S bool)
    (on_commands
       (fun res cmds =>
          AUTO_DEPLOY operator || NON_INTERACTIVE operator || apply_confirmed operator
          = true ->
          after_show validated planned shown res cmds)).
Proof.
  intros Hvalidated Hplanned.
  apply on_commands_emit; [intros []|].
  eapply (on_commands_bind _ _ _
            (fun (applied : bool) res cmds =>
               if applied
               then exists raised, output_step json_loads markup_ok raised cmds /\
                      res = match raised with None => Return true | Some e => Raise e end
               else res = Return false /\ cmds = []));
    [apply out_of_capacity_auto_apply_commands| | |].
  - intros [|].
    + apply on_commands_emit; [intros []|].
      eapply (on_commands_bind _ _ _
                (fun _ res cmds =>
                   exists raised, output_step json_loads markup_ok raised cmds /\
                     res = match raised with None => Return true | Some e => Raise e end));
        [apply tfplan_exists_silent| | |].
      * intros _. skip_prints.
        eapply (on_commands_bind _ _ _ (fun _ res cmds => res = Return true /\ cmds = []));
          [apply show_outputs_commands| | |].
        -- intros _. apply on_commands_ret. auto.
        -- intros e c1 (raised & Hout & Hres). exists raised.
           destruct raised; [|discriminate Hres]. injection Hres as ->. auto.
        -- intros a c1 res c2 (raised & Hout & Hres) (-> & ->).
           destruct raised; [discriminate Hres|]. rewrite app_nil_r. exists None. auto.
      * intros e c1 ((b & H) & _). discriminate H.
      * intros a c1 res c2 (_ & ->) H. exact H.
    + apply on_commands_emit; [intros []|]. apply on_commands_ret. auto.
  - intros e c1 Hnever Hgo inits imports Hinits Himports.
    eapply workflow_not_applied; eauto.
  - intros [|] c1 res c2 Hc1 Hc2 Hgo inits imports Hinits Himports.
    + destruct Hc2 as (raised & Hout & ->).
      eapply workflow_deployed; eauto.
    + destruct Hc2 as (-> & ->). rewrite app_nil_r.
      eapply workflow_not_applied; eauto.
Qed.

Lemma run_terraform_workflow_ends {S} :
  ends (run_terraform_workflow env exn_str clock json_loads markup_ok json_indent path_exists
          RETRY_MAX_ATTEMPTS RETRY_BASE_DELAY operator inv instance_config (S:=S))
    (on_commands (fun res cmds => wf_run res cmds)).
Proof.
  unfold run_terraform_workflow.
  unfold print_header, print_status_text, print_success_text, print_error_text,
    console_print, print_blank.
  fold validate_cmd. fold plan_cmd. fold show_plan_cmd.
  skip_prints.
  eapply (on_commands_try _ _ _
            (fun res cmds =>
               match res with
               | Return _ => retried_until_success init_upgrade_cmd cmds
               | Raise _ => never_succeeded init_upgrade_cmd cmds
               end)
            (fun _ res cmds => after_init res cmds)
            (fun _ res cmds => res = Return false /\ cmds = [])).
  - eapply (on_commands_bind _ _ _ (fun _ res cmds => res = Return tt /\ cmds = []));
      [apply init_upgrade_retried| | |].
    + intros _. apply on_commands_emit_last. intros [].
    + intros e c1 H. exact H.
    + intros a c1 res c2 H (-> & ->). rewrite app_nil_r. exact H.
  - intros _.
    eapply (on_commands_bind _ _ _ (fun _ res cmds => after_import res cmds));
      [apply import_step_commands| | |].
    2:{ intros e c1 (raised & Hstep & Hres) inits Hinits.
        destruct raised as [e'|]; [|discriminate Hres]. injection Hres as <-.
        eapply workflow_import_raised; eauto. }
    2:{ intros a c1 res c2 (raised & Hstep & Hres) Hrest inits Hinits.
        destruct raised as [e'|]; [discriminate Hres|]. eauto. }
    intros _. skip_prints.
    eapply (on_commands_bind _ _ _
              (fun validated res cmds =>
                 forall inits imports,
                   retried_until_success init_upgrade_cmd inits -> imported None imports ->
                   wf_run res (inits ++ imports ++ [(validate_cmd, inr validated)] ++ cmds)%list));
      [apply on_commands_run_command| | |].
    2:{ intros e c1 (o & -> & Hres) inits imports Hinits Himports.
        destruct o as [e'|r]; [|discriminate Hres]. injection Hres as <-.
        eapply workflow_validate_raised; eauto. }
    2:{ intros a c1 res c2 (o & -> & Hres) Hrest inits imports Hinits Himports.
        destruct o as [e'|r]; [discriminate Hres|]. injection Hres as ->. eauto. }
    intros validated.
    destruct (Z.eqb_spec (returncode validated) 0) as [Hvalidated|Hvalidated];
      cbn [negb].
    2:{ skip_prints.
        eapply (on_commands_bind _ _ _ (fun _ res cmds => res = Return false /\ cmds = []));
          [apply console_print_output_silent
          |intros _; apply on_commands_ret; auto| |].
        - intros e c1 (-> & Hres) inits imports Hinits Himports.
          apply invalid_run; [exact Hinits|exact Himports|exact Hvalidated|].
          unfold after_error_text.
          destruct (markup_ok (stderr validated)); [discriminate Hres|].
          injection Hres as ->. reflexivity.
        - intros a c1 res c2 (-> & Hres) (-> & ->) inits imports Hinits Himports.
          apply invalid_run; [exact Hinits|exact Himports|exact Hvalidated|].
          unfold after_error_text.
          destruct (markup_ok (stderr validated)); [reflexivity|discriminate Hres]. }
    skip_prints.
    eapply (on_commands_bind _ _ _
              (fun planned res cmds => after_plan validated planned res cmds));
      [apply on_commands_run_command| | |].
    2:{ intros e c1 (o & -> & Hres) inits imports Hinits Himports.
        destruct o as [e'|r]; [|discriminate Hres]. injection Hres as <-.
        eapply (workflow_plan_stopped _ _ _ _ _ _ _ _ inits imports validated (inl e));
          eauto. }
    2:{ intros a c1 res c2 (o & -> & Hres) Hrest inits imports Hinits Himports.
        destruct o as [e'|r]; [discriminate Hres|]. injection Hres as ->.
        exact (Hrest inits imports Hinits Himports). }
    intros planned.
    destruct (Z.eqb_spec (returncode planned) 0) as [Hplanned|Hplanned];
      cbn [negb].
    2:{ skip_prints.
        eapply (on_commands_bind _ _ _ (fun _ res cmds => res = Return false /\ cmds = []));
          [apply console_print_output_silent
          |intros _; apply on_commands_ret; auto| |].
        - intros e c1 (-> & Hres) inits imports Hinits Himports.
          eapply (workflow_plan_stopped _ _ _ _ _ _ _ _ inits imports validated
                    (inr planned)); eauto.
          split; [exact Hplanned|]. unfold after_error_text.
          destruct (markup_ok (stderr planned)); [discriminate Hres|].
          injection Hres as ->. reflexivity.
        - intros a c1 res c2 (-> & Hres) (-> & ->) inits imports Hinits Himports.
          eapply (workflow_plan_stopped _ _ _ _ _ _ _ _ inits imports validated
                    (inr planned)); eauto.
          split; [exact Hplanned|]. unfold after_error_text.
          destruct (markup_ok (stderr planned)); [reflexivity|discriminate Hres]. }
    skip_prints.
    eapply (on_commands_bind _ _ _
              (fun shown res cmds => after_show validated planned shown res cmds));
      [apply on_commands_run_command| | |].
    2:{ intros e c1 (o & -> & Hres) inits imports Hinits Himports.
        destruct o as [e'|r]; [|discriminate Hres]. injection Hres as <-.
        eapply workflow_show_raised; eauto. }
    2:{ intros a c1 res c2 (o & -> & Hres) Hrest inits imports Hinits Himports.
        destruct o as [e'|r]; [discriminate Hres|]. injection Hres as ->.
        exact (Hrest inits imports Hinits Himports). }
    intros shown.
    eapply (on_commands_bind _ _
              (fun res cmds =>
                 cmds = [] /\
                 (res = Return tt \/
                  res = Raise MarkupError /\ returncode shown = 0 /\
                  exists line, In line (take 20 (Py.split "010" (stdout shown))) /\
                               markup_ok line = false))
              (fun _ res cmds => after_show validated planned shown res cmds)
              (fun res cmds => after_show validated planned shown res cmds)).
    { destruct (Z.eqb_spec (returncode shown) 0) as [Hshown|Hshown].
      - apply (on_commands_conseq _ _ _ (plan_summary_silent (stdout shown))).
        intros res cmds (-> & [->|(-> & Hline)]); auto.
      - apply on_commands_ret. auto. }
    2:{ intros e c1 (-> & [H|(H & Hshown & line & Hline & Hrefused)]);
          [discriminate H|].
        injection H as ->. intros inits imports Hinits Himports.
        eapply workflow_summary_raised; eauto. }
    2:{ intros a c1 res c2 (-> & _) H. exact H. }
    intros _.
    destruct (AUTO_DEPLOY operator || NON_INTERACTIVE operator) eqn:Hauto.
    + eapply (on_commands_bind _ _
                (fun res cmds => res = Return true /\ cmds = [])
                (fun (choice : bool) res cmds =>
                   choice = true -> after_show validated planned shown res cmds)
                (fun res cmds => after_show validated planned shown res cmds)).
      * skip_prints. apply on_commands_ret. auto.
      * intros [|].
        -- apply (on_commands_conseq _ _ _
                    (deploy_stage validated planned shown Hvalidated Hplanned)).
           intros res cmds H _. apply H. rewrite Hauto. reflexivity.
        -- apply (on_commands_conseq _ (fun _ _ => True)); [|discriminate].
           skip_prints. apply on_commands_ret. exact I.
      * intros e c1 (H & _). discriminate H.
      * intros a c1 res c2 (H & ->) Hrest. injection H as ->. exact (Hrest eq_refl).
    + eapply (on_commands_bind _ _
                (fun res cmds => res = Return (apply_confirmed operator) /\ cmds = [])
                (fun (choice : bool) res cmds =>
                   choice = apply_confirmed operator ->
                   after_show validated planned shown res cmds)
                (fun res cmds => after_show validated planned shown res cmds)).
      * apply on_commands_ret. auto.
      * intros [|].
        -- apply (on_commands_conseq _ _ _
                    (deploy_stage validated planned shown Hvalidated Hplanned)).
           intros res cmds H Hconfirmed. apply H. rewrite Hauto, <- Hconfirmed. reflexivity.
        -- skip_prints. apply on_commands_ret.
           intros Hconfirmed inits imports Hinits Himports.
           apply orb_false_elim in Hauto as (Hauto & Hnon).
           rewrite app_nil_r. eapply workflow_plan_saved; eauto.
      * intros e c1 (H & _). discriminate H.
      * intros a c1 res c2 (H & ->) Hrest. injection H as ->. exact (Hrest eq_refl).
  - intros e. skip_prints. apply on_commands_ret. auto.
  - intros a c1 res c2 Hinits Hrest. exact (Hrest c1 Hinits).
  - intros e c1 res c2 Hnever (-> & ->). rewrite app_nil_r.
    apply workflow_init_failed. exact Hnever.
Qed.

End WorkflowRuns.

(** ** Facts read off the runs of the workflow *)

Lemma import_run_reconciling_commands (exn_str : Exn -> string) (json_loads : string -> option Exn)
    (max_attempts base_delay : Z) (inv : Inventory) (instance_config : InstanceConfig)
    (res : Result bool) (evs : list Event) :
  import_run exn_str json_loads max_attempts base_delay inv instance_config res evs ->
  forall cmd o, In (ECommand cmd o) evs ->
    cmd = init_cmd \/ exists address, cmd = show_cmd address \/
                                      exists rid, cmd = import_cmd address rid.
Proof.
  intros Hrun cmd o Hin.
  destruct (import_run_command _ _ _ _ _ _ _ _ Hrun cmd o Hin)
    as [->|[(vres & vcn_evs & Hvrun & Hinv & _)
           |[(i & f & ares & amd_evs & Hirun & Hini)
            |(i & f & ares & arm_evs & Hirun & Hini)]]].
  - left. reflexivity.
  - right.
    destruct (vcn_run_commands _ _ _ _ _ _ _ Hvrun cmd o Hinv)
      as [[->|(vid & fv & rest & _ & ->)]
         |([(address & _ & ->)|(vid & fv & rest & address & rid & _ & _ & ->)] & _)];
      eauto.
  - right.
    destruct (instances_run_commands _ _ _ _ _ _ _ _ _ _ _ _ _ Hirun cmd o Hini)
      as (k & rid & inst & _ & _ & [->| ->]); eauto.
  - right.
    destruct (instances_run_commands _ _ _ _ _ _ _ _ _ _ _ _ _ Hirun cmd o Hini)
      as (k & rid & inst & _ & _ & [->| ->]); eauto.
Qed.

Lemma import_step_reconciling_commands (exn_str : Exn -> string) (json_loads : string -> option Exn)
    (max_attempts base_delay : Z) (inv : Inventory) (instance_config : InstanceConfig)
    (raised : option Exn) (cmds : list Command) :
  import_step exn_str json_loads max_attempts base_delay inv instance_config raised cmds ->
  forall c, In c cmds ->
    fst c = init_cmd \/ exists address, fst c = show_cmd address \/
                                        exists rid, fst c = import_cmd address rid.
Proof.
  intros [(_ & _ & _ & _ & ->)|(_ & res & evs & Hrun & -> & _)] [cmd o] Hin.
  - destruct Hin.
  - apply in_commands_of in Hin.
    exact (import_run_reconciling_commands _ _ _ _ _ _ _ _ Hrun cmd o Hin).
Qed.

Lemma retried_until_success_commands (cmd : list string) (cmds : list Command) :
  retried_until_success cmd cmds ->
  (forall c, In c cmds -> fst c = cmd) /\
  exists r, In (cmd, inr r) cmds /\ returncode r = 0.
Proof.
  intros (failures & r & -> & Hr & Hfailures). split.
  - intros c Hin. apply in_app_or in Hin as [Hin|[<-|[]]]; [|reflexivity].
    rewrite List.Forall_forall in Hfailures. exact (proj1 (Hfailures c Hin)).
  - exists r. split; [apply in_or_app; right; left; reflexivity|exact Hr].
Qed.

Lemma never_succeeded_commands (cmd : list string) (cmds : list Command) :
  never_succeeded cmd cmds ->
  (forall c, In c cmds -> fst c = cmd) /\
  forall r, In (cmd, inr r) cmds -> returncode r <> 0.
Proof.
  intros Hnever. unfold never_succeeded in Hnever. rewrite List.Forall_forall in Hnever.
  split.
  - intros c Hin. exact (proj1 (Hnever c Hin)).
  - intros r Hin Hr. apply (proj2 (Hnever _ Hin)). exists r. auto.
Qed.

(** The commands before step 3 of the workflow: [terraform init
    -upgrade] and the commands of the import. *)
Lemma before_validation (exn_str : Exn -> string) (json_loads : string -> option Exn)
    (max_attempts base_delay : Z) (inv : Inventory) (instance_config : InstanceConfig)
    (inits imports : list Command) (raised : option Exn) :
  retried_until_success init_upgrade_cmd inits ->
  import_step exn_str json_loads max_attempts base_delay inv instance_config raised imports ->
  (forall c, In c (inits ++ imports) ->
     fst c <> apply_cmd /\ fst c <> validate_cmd /\ fst c <> plan_cmd) /\
  exists r, In (init_upgrade_cmd, inr r) (inits ++ imports) /\ returncode r = 0.
Proof.
  intros Hinits Himports.
  apply retried_until_success_commands in Hinits as (Hcmd & r & Hin & Hr).
  split.
  - intros c Hc. apply in_app_or in Hc as [Hc|Hc].
    + rewrite (Hcmd c Hc). repeat split; discriminate.
    + destruct (import_step_reconciling_commands _ _ _ _ _ _ _ _ Himports c Hc)
        as [->|(address & [->|(rid & ->)])]; repeat split; discriminate.
  - exists r. split; [apply in_or_app; left; exact Hin|exact Hr].
Qed.

(** X13.  [run_terraform_workflow] applies a plan only after [terraform
    init -upgrade], [terraform validate] and [terraform plan] have each
    ended with status 0, in that order, and only in auto mode or when the
    user has confirmed: every [terraform apply] of a run comes after the
    successful validate and plan commands, and nothing before them is an
    apply. *)
Theorem apply_only_after_validated_plan {S}
    (env : Trace -> list string -> Exn + CompletedProcess)
    (exn_str : Exn -> string)
    (clock : Trace -> Z -> option Exn) (json_loads : string -> option Exn)
    (markup_ok : string -> bool)
    (json_indent : string -> string) (path_exists : Trace -> string -> bool)
    (RETRY_MAX_ATTEMPTS RETRY_BASE_DELAY : Z) (operator : Operator)
    (inv : Inventory) (instance_config : InstanceConfig) (s : S) (t : Trace) :
  exists res evs,
    run_terraform_workflow env exn_str clock json_loads markup_ok json_indent path_exists
      RETRY_MAX_ATTEMPTS RETRY_BASE_DELAY operator inv instance_config s t
    = Some (res, s, (evs ++ t)%list) /\
    forall o, In (ECommand apply_cmd o) evs ->
      AUTO_DEPLOY operator || NON_INTERACTIVE operator || apply_confirmed operator = true /\
      exists before validated planned after,
        commands_of evs
        = (before ++ [(validate_cmd, inr validated); (plan_cmd, inr planned)] ++ after)%list /\
        returncode validated = 0 /\ returncode planned = 0 /\
        (exists initialized,
            In (init_upgrade_cmd, inr initialized) before /\ returncode initialized = 0) /\
        (forall c, In c before -> fst c <> apply_cmd) /\
        In (apply_cmd, o) after.
Proof.
  destruct (run_terraform_workflow_ends env exn_str clock json_loads markup_ok json_indent path_exists
              RETRY_MAX_ATTEMPTS RETRY_BASE_DELAY operator inv instance_config s t)
    as (res & s' & evs & Hrun & -> & Hgrammar).
  exists res, evs. split; [exact Hrun|].
  intros o Hin. apply in_commands_of in Hin.
  remember (commands_of evs) as cmds eqn:Hcmds. clear Hcmds Hrun.
  assert (forall inits imports raised (tail : list Command),
             retried_until_success init_upgrade_cmd inits ->
             import_step exn_str json_loads RETRY_MAX_ATTEMPTS RETRY_BASE_DELAY
               inv instance_config raised imports ->
             In (apply_cmd, o) (inits ++ imports ++ tail) ->
             In (apply_cmd, o) tail) as Hprefix.
  { intros inits imports raised tail Hinits Himports Hin'.
    rewrite app_assoc in Hin'. apply in_app_or in Hin' as [Hin'|Hin']; [|exact Hin'].
    destruct (before_validation _ _ _ _ _ _ _ _ _ Hinits Himports) as (Hnot & _).
    destruct (Hnot _ Hin') as (H & _). contradiction. }
  assert (forall inits imports validated planned (after : list Command),
             retried_until_success init_upgrade_cmd inits ->
             import_step exn_str json_loads RETRY_MAX_ATTEMPTS RETRY_BASE_DELAY
               inv instance_config None imports ->
             returncode validated = 0 -> returncode planned = 0 ->
             In (apply_cmd, o) after ->
             exists before validated' planned' after',
               (inits ++ imports ++
                  (validate_cmd, inr validated) :: (plan_cmd, inr planned) :: after)%list
               = (before ++ [(validate_cmd, inr validated'); (plan_cmd, inr planned')]
                    ++ after')%list /\
               returncode validated' = 0 /\ returncode planned' = 0 /\
               (exists initialized,
                   In (init_upgrade_cmd, inr initialized) before /\
                   returncode initialized = 0) /\
               (forall c, In c before -> fst c <> apply_cmd) /\
               In (apply_cmd, o) after') as Hshape.
  { intros inits imports validated planned after Hinits Himports Hv Hp Hafter.
    destruct (before_validation _ _ _ _ _ _ _ _ _ Hinits Himports) as (Hnot & Hinit).
    exists (inits ++ imports)%list, validated, planned, after.
    split; [now rewrite <- app_assoc|]. repeat split; try assumption.
    intros c Hc. exact (proj1 (Hnot c Hc)). }
  destruct Hgrammar as [inits Hnever
                       |inits imports e Hinits Himports
                       |inits imports e Hinits Himports
                       |inits imports validated Hinits Himports Hv
                       |inits imports validated planned res Hinits Himports Hv Hp
                       |inits imports validated planned e Hinits Himports Hv Hp
                       |inits imports validated planned shown line
                          Hinits Himports Hv Hp Hshown Hline Hrefused
                       |inits imports validated planned shown Hinits Himports Hv Hp Ha Hn Hc
                       |inits imports validated planned shown applies res
                          Hinits Himports Hv Hp Hgo Happlies Hres
                       |inits imports validated planned shown applies raised outputs
                          Hinits Himports Hv Hp Hgo Happlies Houtputs].
  - apply never_succeeded_commands in Hnever as (Hcmd & _).
    specialize (Hcmd _ Hin). discriminate Hcmd.
  - rewrite <- (app_nil_r imports) in Hin.
    destruct (Hprefix _ _ _ _ Hinits Himports Hin).
  - apply (Hprefix _ _ _ _ Hinits Himports) in Hin as [H|[]]. discriminate H.
  - apply (Hprefix _ _ _ _ Hinits Himports) in Hin as [H|[]]. discriminate H.
  - apply (Hprefix _ _ _ _ Hinits Himports) in Hin as [H|[H|[]]]; discriminate H.
  - apply (Hprefix _ _ _ _ Hinits Himports) in Hin as [H|[H|[H|[]]]]; discriminate H.
  - apply (Hprefix _ _ _ _ Hinits Himports) in Hin as [H|[H|[H|[]]]]; discriminate H.
  - apply (Hprefix _ _ _ _ Hinits Himports) in Hin as [H|[H|[H|[]]]]; discriminate H.
  - apply (Hprefix _ _ _ _ Hinits Himports) in Hin.
    cbn [app In] in Hin. destruct Hin as [H|[H|Hin]]; try discriminate H.
    split; [exact Hgo|]. apply Hshape; assumption.
  - apply (Hprefix _ _ _ _ Hinits Himports) in Hin.
    cbn [app In] in Hin. destruct Hin as [H|[H|Hin]]; try discriminate H.
    split; [exact Hgo|]. apply Hshape; assumption.
Qed.

(** X14.  What [run_terraform_workflow] returns.  [True] means that
    validate and plan succeeded and that the plan was applied with
    success in auto mode or after confirmation, and not applied at all
    otherwise.  [False] means that [terraform init -upgrade] never
    succeeded, or that the last command was a failed validate or a failed
    plan, or that no [terraform apply] succeeded.  The import of step 2
    never decides the result: once [terraform init -upgrade] has
    succeeded the workflow reaches [terraform validate] unless a command
    could not be run at all. *)
Theorem workflow_result {S}
    (env : Trace -> list string -> Exn + CompletedProcess)
    (exn_str : Exn -> string)
    (clock : Trace -> Z -> option Exn) (json_loads : string -> option Exn)
    (markup_ok : string -> bool)
    (json_indent : string -> string) (path_exists : Trace -> string -> bool)
    (RETRY_MAX_ATTEMPTS RETRY_BASE_DELAY : Z) (operator : Operator)
    (inv : Inventory) (instance_config : InstanceConfig) (s : S) (t : Trace) :
  exists res evs,
    run_terraform_workflow env exn_str clock json_loads markup_ok json_indent path_exists
      RETRY_MAX_ATTEMPTS RETRY_BASE_DELAY operator inv instance_config s t
    = Some (res, s, (evs ++ t)%list) /\
    (res = Return true ->
     (exists validated planned,
         In (validate_cmd, inr validated) (commands_of evs) /\ returncode validated = 0 /\
         In (plan_cmd, inr planned) (commands_of evs) /\ returncode planned = 0) /\
     if AUTO_DEPLOY operator || NON_INTERACTIVE operator || apply_confirmed operator
     then exists applied,
            In (apply_cmd, inr applied) (commands_of evs) /\ returncode applied = 0
     else forall o, ~ In (apply_cmd, o) (commands_of evs)) /\
    (res = Return false ->
     never_succeeded init_upgrade_cmd (commands_of evs) \/
     (exists validated,
         last (commands_of evs) = Some (validate_cmd, inr validated) /\
         returncode validated <> 0) \/
     (exists planned,
         last (commands_of evs) = Some (plan_cmd, inr planned) /\
         returncode planned <> 0) \/
     (AUTO_DEPLOY operator || NON_INTERACTIVE operator || apply_confirmed operator = true /\
      forall applied, In (apply_cmd, inr applied) (commands_of evs) ->
                      returncode applied <> 0)) /\
    (forall initialized,
        In (init_upgrade_cmd, inr initialized) (commands_of evs) ->
        returncode initialized = 0 ->
        (exists o, In (validate_cmd, o) (commands_of evs)) \/ exists e, res = Raise e).
Proof.
  destruct (run_terraform_workflow_ends env exn_str clock json_loads markup_ok json_indent path_exists
              RETRY_MAX_ATTEMPTS RETRY_BASE_DELAY operator inv instance_config s t)
    as (res & s' & evs & Hrun & -> & Hgrammar).
  exists res, evs. split; [exact Hrun|].
  remember (commands_of evs) as cmds eqn:Hcmds. clear Hcmds Hrun.
  assert (forall (inits imports tail : list Command) c,
             In c tail -> In c (inits ++ imports ++ tail)) as Hin_tail.
  { intros inits imports tail c Hc. apply in_or_app. right. apply in_or_app. right.
    exact Hc. }
  assert (forall inits imports raised (tail : list Command) cmd o,
             retried_until_success init_upgrade_cmd inits ->
             import_step exn_str json_loads RETRY_MAX_ATTEMPTS RETRY_BASE_DELAY
               inv instance_config raised imports ->
             cmd = apply_cmd ->
             In (cmd, o) (inits ++ imports ++ tail) -> In (cmd, o) tail) as Hprefix.
  { intros inits imports raised tail cmd o Hinits Himports -> Hin'.
    rewrite app_assoc in Hin'. apply in_app_or in Hin' as [Hin'|Hin']; [|exact Hin'].
    destruct (before_validation _ _ _ _ _ _ _ _ _ Hinits Himports) as (Hnot & _).
    destruct (Hnot _ Hin') as (H & _). contradiction. }
  destruct Hgrammar as [inits Hnever
                       |inits imports e Hinits Himports
                       |inits imports e Hinits Himports
                       |inits imports validated Hinits Himports Hv
                       |inits imports validated planned res Hinits Himports Hv Hp
                       |inits imports validated planned e Hinits Himports Hv Hp
                       |inits imports validated planned shown line
                          Hinits Himports Hv Hp Hshown Hline Hrefused
                       |inits imports validated planned shown Hinits Himports Hv Hp Ha Hn Hc
                       |inits imports validated planned shown applies res
                          Hinits Himports Hv Hp Hgo Happlies Hres
                       |inits imports validated planned shown applies raised outputs
                          Hinits Himports Hv Hp Hgo Happlies Houtputs].
  - split; [discriminate|]. split; [auto|].
    intros r Hin Hr. apply never_succeeded_commands in Hnever as (_ & Hfailed).
    destruct (Hfailed r Hin Hr).
  - split; [discriminate|]. split; [discriminate|]. eauto.
  - split; [discriminate|]. split; [discriminate|]. eauto.
  - split; [unfold after_error_text; destruct (markup_ok _); discriminate|]. split.
    + intros _. right. left. exists validated. split; [|exact Hv].
      rewrite !app_assoc. apply last_snoc.
    + intros r _ _. left. exists (inr validated). apply Hin_tail. left. reflexivity.
  - split; [|split].
    + intros ->. destruct planned as [e|p]; [discriminate Hp|]. destruct Hp as (_ & H).
      unfold after_error_text in H. destruct (markup_ok _); discriminate H.
    + intros ->. destruct planned as [e|p]; [discriminate Hp|]. destruct Hp as (Hp & _).
      right. right. left. exists p. split; [|exact Hp].
      change [(validate_cmd, inr validated); (plan_cmd, inr p)]
        with ([(validate_cmd, @inr Exn _ validated)] ++ [(plan_cmd, @inr Exn _ p)])%list.
      rewrite !app_assoc. apply last_snoc.
    + intros r _ _. left. exists (inr validated). apply Hin_tail. left. reflexivity.
  - split; [discriminate|]. split; [discriminate|]. eauto.
  - split; [discriminate|]. split; [discriminate|]. eauto.
  - split; [|split; [discriminate|]].
    + intros _. split.
      * exists validated, planned. repeat split; try assumption;
          apply Hin_tail; cbn [In]; auto.
      * rewrite Ha, Hn, Hc. cbn [orb]. intros o Hin.
        apply (Hprefix _ _ _ _ _ _ Hinits Himports eq_refl) in Hin
          as [H|[H|[H|[]]]]; discriminate H.
    + intros r _ _. left. exists (inr validated). apply Hin_tail. left. reflexivity.
  - apply never_succeeded_commands in Happlies as (Hcmd & Hfailed).
    split; [|split].
    + intros ->. destruct Hres as [H|(e & H)]; discriminate H.
    + intros _. right. right. right. split; [exact Hgo|].
      intros r Hin.
      apply (Hprefix _ _ _ _ _ _ Hinits Himports eq_refl) in Hin.
      cbn [app In] in Hin. destruct Hin as [H|[H|[H|Hin]]]; try discriminate H.
      exact (Hfailed r Hin).
    + intros r _ _. left. exists (inr validated). apply Hin_tail. left. reflexivity.
  - apply retried_until_success_commands in Happlies as (_ & applied & Hin & Hr).
    split; [|split].
    + intros _. split.
      * exists validated, planned. repeat split; try assumption;
          apply Hin_tail; cbn [In app]; auto.
      * rewrite Hgo. exists applied. split; [|exact Hr].
        apply Hin_tail. cbn [app]. do 3 right. apply in_or_app. left. exact Hin.
    + intros H. destruct raised; discriminate H.
    + intros r _ _. left. exists (inr validated). apply Hin_tail. left. reflexivity.
Qed.
(** ** The turns of the menu *)

Section MenuRuns.

Variable env : Trace -> list string -> Exn + CompletedProcess.
Variable exn_str : Exn -> string.
Variable clock : Trace -> Z -> option Exn.
Variable json_loads : string -> option Exn.
Variable markup_ok : string -> bool.
Variable json_indent : string -> string.
Variable path_exists : Trace -> string -> bool.
Variable RETRY_MAX_ATTEMPTS RETRY_BASE_DELAY : Z.
Variable operator : Operator.
Variable inv : Inventory.
Variable instance_config : InstanceConfig.

(** A branch of the menu that falls through and never destroys. *)
Local Abbreviation harmless :=
  (fun (res : Result (option bool)) (cmds : list Command) =>
     (forall c, In c cmds -> fst c <> destroy_cmd) /\
     (res = Return None \/ exists e, res = Raise e)).

Lemma harmless_command {S} (cmd : list string) (k : CompletedProcess -> M S (option bool)) :
  cmd <> destroy_cmd ->
  (forall r, ends (k r) (on_commands harmless)) ->
  ends (run_command env cmd ≫= k) (on_commands harmless).
Proof.
  intros Hcmd Hk.
  apply (on_commands_bind _ _ _ (fun _ => harmless) harmless
           (on_commands_run_command env cmd) Hk).
  - intros e c1 (o & -> & _). split; [|eauto].
    intros c [<-|[]]. exact Hcmd.
  - intros a c1 res c2 (o & -> & _) (Hc2 & Hres). split; [|exact Hres].
    intros c [<-|Hin]; [exact Hcmd|exact (Hc2 c Hin)].
Qed.

Lemma harmless_ret {S} : ends (mret None : M S (option bool)) (on_commands harmless).
Proof. apply on_commands_ret. split; [intros c []|auto]. Qed.

Lemma harmless_output {S} (text : string) (k : M S (option bool)) :
  ends k (on_commands harmless) ->
  ends (console_print_output markup_ok text ≫= fun _ => k) (on_commands harmless).
Proof.
  intros Hk.
  apply (on_commands_bind _ _ _ (fun _ => harmless) harmless
           (console_print_output_silent markup_ok text) (fun _ => Hk)).
  - intros e c1 (-> & _). split; [intros c []|eauto].
  - intros a c1 res c2 (-> & _) H. exact H.
Qed.

Lemma harmless_turn (round : nat) (choice : Z) (res : Result (option bool))
    (cmds : list Command) :
  choice <> 1 -> choice <> 7 -> choice <> 8 ->
  harmless res cmds ->
  menu_turn exn_str json_loads markup_ok RETRY_MAX_ATTEMPTS RETRY_BASE_DELAY operator inv
    instance_config round choice res cmds.
Proof.
  intros H1 H7 H8 (Hcmds & Hres). unfold menu_turn.
  destruct (Z.eqb_spec choice 1) as [|_]; [contradiction|].
  split; [|split; [|split]]; try contradiction.
  - intros c Hin Hc. destruct (Hcmds c Hin Hc).
  - intros _ _. exact Hres.
Qed.

Lemma import_existing_resources_harmless {S} :
  ends (import_existing_resources env exn_str clock json_loads RETRY_MAX_ATTEMPTS
          RETRY_BASE_DELAY inv instance_config ≫= fun _ => mret None : M S (option bool))
    (on_commands harmless).
Proof.
  apply (ends_bind _ _ _ _
           (import_existing_resources_ends env exn_str clock json_loads RETRY_MAX_ATTEMPTS
              RETRY_BASE_DELAY inv instance_config)).
  - intros s e s1 evs1 (-> & Hrun). split; [reflexivity|]. split; [|eauto].
    intros [cmd o] Hin. apply in_commands_of in Hin.
    destruct (import_run_reconciling_commands _ _ _ _ _ _ _ _ Hrun cmd o Hin)
      as [->|(address & [->|(rid & ->)])]; discriminate.
  - intros s a s1 evs1 (-> & Hrun) t. exists (Return None), s, [].
    split; [reflexivity|]. split; [reflexivity|]. rewrite app_nil_l.
    split; [|auto].
    intros [cmd o] Hin. apply in_commands_of in Hin.
    destruct (import_run_reconciling_commands _ _ _ _ _ _ _ _ Hrun cmd o Hin)
      as [->|(address & [->|(rid & ->)])]; discriminate.
Qed.

Lemma menu_round_ends {S} (round : nat) :
  ends (menu_round env exn_str clock json_loads markup_ok json_indent path_exists RETRY_MAX_ATTEMPTS
          RETRY_BASE_DELAY operator inv instance_config round (S:=S))
    (on_commands
       (menu_turn exn_str json_loads markup_ok RETRY_MAX_ATTEMPTS RETRY_BASE_DELAY operator inv
          instance_config round (menu_selection operator round))).
Proof.
  unfold menu_round.
  unfold print_header, print_status_text, print_error_text, console_print, print_blank.
  skip_prints.
  eapply (on_commands_bind _ _
            (fun res cmds => res = Return (menu_selection operator round) /\ cmds = [])
            (menu_turn exn_str json_loads markup_ok RETRY_MAX_ATTEMPTS RETRY_BASE_DELAY operator inv
               instance_config round)).
  - unfold menu_selection. destruct (_ || _).
    + apply on_commands_emit; [intros []|]. apply on_commands_ret. auto.
    + apply on_commands_ret. auto.
  - intros choice.
    destruct (Z.eqb_spec choice 1) as [->|H1].
    { eapply (on_commands_bind _ _ _
                (fun (deployed : bool) res cmds =>
                   res = Return (if deployed && AUTO_DEPLOY operator
                                 then Some true else None) /\ cmds = []));
        [apply run_terraform_workflow_ends| | |].
      - intros deployed. destruct (_ && _); apply on_commands_ret; auto.
      - intros e c1 Hrun. exists (Raise e). auto.
      - intros deployed c1 res c2 Hrun (-> & ->). rewrite app_nil_r.
        exists (Return deployed). auto. }
    destruct (Z.eqb_spec choice 2) as [->|H2].
    { eapply on_commands_conseq;
        [|intros res cmds Hh; apply harmless_turn; [lia|lia|lia|exact Hh]].
      apply harmless_command; [discriminate|]. intros _.
      apply harmless_command; [discriminate|]. intros _. apply harmless_ret. }
    destruct (Z.eqb_spec choice 3) as [->|H3].
    { eapply on_commands_conseq;
        [|intros res cmds Hh; apply harmless_turn; [lia|lia|lia|exact Hh]].
      intros s t. unfold mbind at 1, M_bind at 1.
      destruct (path_exists t "tfplan").
      - apply (harmless_command _ (fun _ => mret None)); [discriminate|].
        intros _. apply harmless_ret.
      - apply (on_commands_emit _ (mret None)); [intros []|apply harmless_ret]. }
    destruct (Z.eqb_spec choice 4) as [->|H4].
    { eapply on_commands_conseq;
        [|intros res cmds Hh; apply harmless_turn; [lia|lia|lia|exact Hh]].
      apply import_existing_resources_harmless. }
    destruct (Z.eqb_spec choice 5) as [->|H5].
    { eapply on_commands_conseq;
        [|intros res cmds Hh; apply harmless_turn; [lia|lia|lia|exact Hh]].
      apply harmless_command; [discriminate|]. intros result1.
      apply harmless_command; [discriminate|]. intros result2.
      destruct (_ || _).
      - apply harmless_output. apply harmless_output. apply harmless_ret.
      - skip_prints. apply harmless_ret. }
    destruct (Z.eqb_spec choice 6) as [->|H6].
    { unfold menu_turn. cbn [Z.eqb Pos.eqb].
      destruct (destroy_confirmed operator round) eqn:Hconfirmed.
      - eapply (on_commands_bind _ _ _
                  (fun _ res cmds => res = Return None /\ cmds = []));
          [apply on_commands_run_command| | |].
        + intros _. apply on_commands_ret. auto.
        + intros e c1 (o & -> & _). split; [auto|].
          split; [discriminate|]. split; [discriminate|]. eauto.
        + intros a c1 res c2 (o & -> & _) (-> & ->). split; [auto|].
          split; [discriminate|]. split; [discriminate|]. auto.
      - apply on_commands_ret. split; [intros c []|].
        split; [discriminate|]. split; [discriminate|]. auto. }
    unfold menu_turn. destruct (Z.eqb_spec choice 1) as [|_]; [contradiction|].
    destruct (Z.eqb_spec choice 7) as [->|H7].
    { apply on_commands_ret. split; [intros c []|].
      split; [auto|]. split; [discriminate|]. intros H. destruct H. reflexivity. }
    destruct (Z.eqb_spec choice 8) as [->|H8].
    { apply on_commands_ret. split; [intros c []|].
      split; [discriminate|]. split; [auto|]. intros _ H. destruct H. reflexivity. }
    apply on_commands_emit; [intros []|]. apply on_commands_ret.
    split; [intros c []|]. split; [contradiction|]. split; [contradiction|]. auto.
  - intros e c1 (H & _). discriminate H.
  - intros a c1 res c2 (Ha & ->) Hturn. injection Ha as ->. exact Hturn.
Qed.

Lemma menu_turn_falls_through (round : nat) (cmds : list Command) :
  menu_turn exn_str json_loads markup_ok RETRY_MAX_ATTEMPTS RETRY_BASE_DELAY operator inv
    instance_config round (menu_selection operator round) (Return None) cmds ->
  menu_selection operator round <> 7 /\ menu_selection operator round <> 8.
Proof.
  unfold menu_turn. destruct (Z.eqb_spec (menu_selection operator round) 1) as [->|_].
  - intros _. split; discriminate.
  - intros (_ & H7 & H8 & _). split; intros H.
    + destruct (H7 H) as (Hres & _). discriminate Hres.
    + destruct (H8 H) as (Hres & _). discriminate Hres.
Qed.

(** [terraform_menu] with [fuel] turns either ends, in a run of the
    grammar, or every one of the [fuel] turns fell through. *)
Lemma terraform_menu_runs {S} :
  forall (fuel round : nat) (s : S) (t : Trace),
    (exists res evs,
        terraform_menu env exn_str clock json_loads markup_ok json_indent path_exists RETRY_MAX_ATTEMPTS
          RETRY_BASE_DELAY operator inv instance_config fuel round s t
        = Some (res, s, (evs ++ t)%list) /\
        menu_run exn_str json_loads markup_ok RETRY_MAX_ATTEMPTS RETRY_BASE_DELAY operator inv
          instance_config round res (commands_of evs)) \/
    (terraform_menu env exn_str clock json_loads markup_ok json_indent path_exists RETRY_MAX_ATTEMPTS
       RETRY_BASE_DELAY operator inv instance_config fuel round s t = None /\
     forall k, (k < fuel)%nat ->
               menu_selection operator (round + k) <> 7 /\
               menu_selection operator (round + k) <> 8).
Proof.
  induction fuel as [|fuel IH]; intros round s t.
  { right. split; [reflexivity|]. intros k Hk. inversion Hk. }
  cbn [terraform_menu]. unfold mbind, M_bind.
  destruct (menu_round_ends round s t) as (res & s' & evs & -> & -> & Hturn).
  destruct res as [[b|]|e].
  - left. exists (Return b), evs. split; [reflexivity|]. constructor. exact Hturn.
  - destruct (NON_INTERACTIVE operator) eqn:Hnon.
    { left. exists (Return true), evs. split; [reflexivity|].
      apply menu_single_turn; assumption. }
    unfold print_blank, emit.
    destruct (IH (Datatypes.S round) s (EBlank :: evs ++ t)%list)
      as [(res & evs' & Hrun & Hrest)|(Hrun & Hstuck)]; rewrite Hrun.
    + left. exists res, (evs' ++ EBlank :: evs)%list. split; [trace_eq|].
      rewrite commands_of_app, commands_of_cons, app_nil_r.
      eapply menu_next_turn; eassumption.
    + right. split; [reflexivity|]. intros [|k] Hk.
      * rewrite Nat.add_0_r. exact (menu_turn_falls_through _ _ Hturn).
      * rewrite Nat.add_succ_r. apply (Hstuck k). apply Nat.succ_lt_mono. exact Hk.
  - left. exists (Raise e), evs. split; [reflexivity|]. constructor. exact Hturn.
Qed.

End MenuRuns.
(** ** Facts read off the runs of the menu *)

Lemma workflow_run_never_destroys (exn_str : Exn -> string) (json_loads : string -> option Exn)
    (markup_ok : string -> bool)
    (max_attempts base_delay : Z) (operator : Operator) (inv : Inventory)
    (instance_config : InstanceConfig) (done : Result bool) (cmds : list Command) :
  workflow_run exn_str json_loads markup_ok max_attempts base_delay operator inv instance_config
    done cmds ->
  forall c, In c cmds -> fst c <> destroy_cmd.
Proof.
  assert (forall inits, (retried_until_success init_upgrade_cmd inits \/
                         never_succeeded init_upgrade_cmd inits) ->
                        forall c, In c inits -> fst c <> destroy_cmd) as Hinits.
  { intros inits [H|H] c Hc.
    - apply retried_until_success_commands in H as (H & _). rewrite (H c Hc). discriminate.
    - apply never_succeeded_commands in H as (H & _). rewrite (H c Hc). discriminate. }
  assert (forall applies, (retried_until_success apply_cmd applies \/
                           never_succeeded apply_cmd applies) ->
                          forall c, In c applies -> fst c <> destroy_cmd) as Happlies.
  { intros applies [H|H] c Hc.
    - apply retried_until_success_commands in H as (H & _). rewrite (H c Hc). discriminate.
    - apply never_succeeded_commands in H as (H & _). rewrite (H c Hc). discriminate. }
  assert (forall raised imports,
             import_step exn_str json_loads max_attempts base_delay inv instance_config
               raised imports ->
             forall c, In c imports -> fst c <> destroy_cmd) as Himports.
  { intros raised imports H c Hc.
    destruct (import_step_reconciling_commands _ _ _ _ _ _ _ _ H c Hc)
      as [->|(address & [->|(rid & ->)])]; discriminate. }
  assert (forall raised outputs,
             output_step json_loads markup_ok raised outputs ->
             forall c, In c outputs -> fst c <> destroy_cmd) as Houtputs.
  { intros raised outputs [(e & -> & _)|[(r & -> & _)|(r & o & -> & _)]] c Hc;
      cbn [In] in Hc; decompose [or] Hc; subst; try discriminate; contradiction. }
  intros Hrun c Hc.
  destruct Hrun;
    repeat (apply in_app_or in Hc as [Hc|Hc]);
    eauto;
    cbn [In] in Hc; decompose [or] Hc; subst; try discriminate; try contradiction.
Qed.

Lemma menu_turn_destroys (exn_str : Exn -> string) (json_loads : string -> option Exn)
    (markup_ok : string -> bool)
    (max_attempts base_delay : Z) (operator : Operator) (inv : Inventory)
    (instance_config : InstanceConfig) (round : nat) (res : Result (option bool))
    (cmds : list Command) :
  menu_turn exn_str json_loads markup_ok max_attempts base_delay operator inv instance_config
    round (menu_selection operator round) res cmds ->
  forall c, In c cmds -> fst c = destroy_cmd ->
    AUTO_DEPLOY operator = false /\ NON_INTERACTIVE operator = false /\
    menu_choice operator round = 6 /\ destroy_confirmed operator round = true.
Proof.
  unfold menu_turn. destruct (Z.eqb_spec (menu_selection operator round) 1) as [_|_].
  - intros (done & Hrun & _) c Hc Hdestroy.
    destruct (workflow_run_never_destroys _ _ _ _ _ _ _ _ _ _ Hrun c Hc Hdestroy).
  - intros (Hcmds & _) c Hc Hdestroy.
    destruct (Hcmds c Hc Hdestroy) as (Hsix & Hconfirmed).
    unfold menu_selection in Hsix.
    destruct (AUTO_DEPLOY operator), (NON_INTERACTIVE operator); try discriminate Hsix.
    auto.
Qed.

(** X15.  With [NON_INTERACTIVE] set, [terraform_menu] takes one turn:
    it runs the full workflow once and returns [True] whatever the
    workflow returned, also when the workflow returned [False]; only an
    exception of the workflow ends it otherwise. *)
Theorem non_interactive_menu_is_one_workflow {S}
    (env : Trace -> list string -> Exn + CompletedProcess)
    (exn_str : Exn -> string)
    (clock : Trace -> Z -> option Exn) (json_loads : string -> option Exn)
    (markup_ok : string -> bool)
    (json_indent : string -> string) (path_exists : Trace -> string -> bool)
    (RETRY_MAX_ATTEMPTS RETRY_BASE_DELAY : Z) (operator : Operator)
    (inv : Inventory) (instance_config : InstanceConfig)
    (fuel round : nat) (s : S) (t : Trace) :
  NON_INTERACTIVE operator = true ->
  exists res evs done,
    terraform_menu env exn_str clock json_loads markup_ok json_indent path_exists RETRY_MAX_ATTEMPTS
      RETRY_BASE_DELAY operator inv instance_config (Datatypes.S fuel) round s t
    = Some (res, s, (evs ++ t)%list) /\
    workflow_run exn_str json_loads markup_ok RETRY_MAX_ATTEMPTS RETRY_BASE_DELAY operator inv
      instance_config done (commands_of evs) /\
    res = match done with
          | Return _ => Return true
          | Raise e => Raise e
          end.
Proof.
  intros Hnon. cbn [terraform_menu]. unfold mbind, M_bind.
  destruct (menu_round_ends env exn_str clock json_loads markup_ok json_indent path_exists
              RETRY_MAX_ATTEMPTS RETRY_BASE_DELAY operator inv instance_config
              round s t) as (res & s' & evs & -> & -> & Hturn).
  unfold menu_selection, menu_turn in Hturn. rewrite Hnon, orb_true_r in Hturn.
  cbn [Z.eqb Pos.eqb] in Hturn. destruct Hturn as (done & Hrun & ->).
  destruct done as [deployed|e].
  - destruct (deployed && AUTO_DEPLOY operator).
    + exists (Return true), evs, (Return deployed). auto.
    + rewrite Hnon. exists (Return true), evs, (Return deployed). auto.
  - exists (Raise e), evs, (Raise e). auto.
Qed.

Lemma non_interactive_menu_is_one_workflow_witness :
  NON_INTERACTIVE unattended = true /\
  exists res evs done,
    terraform_menu env_out_of_capacity exn_str_example clock_example json_loads_example
      markup_example (fun text => text)
      (fun _ _ => false) 2 15 unattended empty_inventory InstanceConfig_default
      1%nat 0%nat tt []
    = Some (res, tt, (evs ++ [])%list) /\
    workflow_run exn_str_example json_loads_example markup_example 2 15 unattended empty_inventory
      InstanceConfig_default done (commands_of evs) /\
    res = match done with
          | Return _ => Return true
          | Raise e => Raise e
          end.
Proof.
  split; [reflexivity|].
  apply (non_interactive_menu_is_one_workflow env_out_of_capacity exn_str_example clock_example
           json_loads_example markup_example (fun text => text) (fun _ _ => false) 2 15 unattended
           empty_inventory InstanceConfig_default 0%nat 0%nat tt []).
  reflexivity.
Defined.

Lemma interactive_menu_run (exn_str : Exn -> string) (json_loads : string -> option Exn)
    (markup_ok : string -> bool)
    (max_attempts base_delay : Z) (operator : Operator) (inv : Inventory)
    (instance_config : InstanceConfig) (round : nat) (res : Result bool)
    (cmds : list Command) :
  AUTO_DEPLOY operator = false -> NON_INTERACTIVE operator = false ->
  menu_run exn_str json_loads markup_ok max_attempts base_delay operator inv instance_config
    round res cmds ->
  forall n,
    menu_choice operator (round + n) = 7 \/ menu_choice operator (round + n) = 8 ->
    (forall c, In c cmds -> fst c = destroy_cmd ->
       exists k, (round <= k < round + n)%nat /\
                 menu_choice operator k = 6 /\ destroy_confirmed operator k = true) /\
    (forall b, res = Return b ->
       exists k, (round <= k <= round + n)%nat /\
                 menu_choice operator k = (if b : bool then 8 else 7)).
Proof.
  intros Hauto Hnon Hrun.
  assert (forall round, menu_selection operator round = menu_choice operator round) as Hsel.
  { intros k. unfold menu_selection. rewrite Hauto, Hnon. reflexivity. }
  assert (forall round n,
             menu_choice operator (round + n) = 7 \/ menu_choice operator (round + n) = 8 ->
             menu_choice operator round = 6 ->
             (round <= round < round + n)%nat) as Hbefore.
  { intros k [|n] Hexit Hsix; [|lia]. rewrite Nat.add_0_r in Hexit. lia. }
  induction Hrun as [round b cmds Hturn|round e cmds Hturn|round cmds Hturn Hnon'
                    |round cmds res rest Hturn _ Hrest IH]; intros n Hexit.
  - split.
    + intros c Hc Hdestroy.
      destruct (menu_turn_destroys _ _ _ _ _ _ _ _ _ _ _ Hturn c Hc Hdestroy)
        as (_ & _ & Hsix & Hconfirmed).
      exists round. split; [exact (Hbefore round n Hexit Hsix)|]. auto.
    + intros b' Hb. injection Hb as <-.
      unfold menu_turn in Hturn. rewrite Hsel in Hturn.
      destruct (Z.eqb_spec (menu_choice operator round) 1) as [_|_].
      * destruct Hturn as (done & _ & Hres). destruct done as [deployed|e].
        -- rewrite Hauto, andb_false_r in Hres. discriminate Hres.
        -- discriminate Hres.
      * destruct Hturn as (_ & H7 & H8 & Hother).
        destruct (Z.eq_dec (menu_choice operator round) 7) as [Hc7|Hn7].
        { destruct (H7 Hc7) as (Hres & _). injection Hres as ->.
          exists round. split; [lia|exact Hc7]. }
        destruct (Z.eq_dec (menu_choice operator round) 8) as [Hc8|Hn8].
        { destruct (H8 Hc8) as (Hres & _). injection Hres as ->.
          exists round. split; [lia|exact Hc8]. }
        destruct (Hother Hn7 Hn8) as [Hres|(e & Hres)]; discriminate Hres.
  - split; [|discriminate].
    intros c Hc Hdestroy.
    destruct (menu_turn_destroys _ _ _ _ _ _ _ _ _ _ _ Hturn c Hc Hdestroy)
      as (_ & _ & Hsix & Hconfirmed).
    exists round. split; [exact (Hbefore round n Hexit Hsix)|]. auto.
  - rewrite Hnon in Hnon'. discriminate Hnon'.
  - assert (exists n', n = Datatypes.S n') as (n' & ->).
    { destruct n as [|n']; [|eauto]. exfalso.
      destruct (menu_turn_falls_through _ _ _ _ _ _ _ _ _ _ Hturn) as (H7 & H8).
      rewrite Hsel in H7, H8. rewrite Nat.add_0_r in Hexit. destruct Hexit; contradiction. }
    rewrite Nat.add_succ_r in Hexit.
    destruct (IH n' Hexit) as (IHdestroy & IHres). split.
    + intros c Hc Hdestroy. apply in_app_or in Hc as [Hc|Hc].
      * destruct (menu_turn_destroys _ _ _ _ _ _ _ _ _ _ _ Hturn c Hc Hdestroy)
          as (_ & _ & Hsix & Hconfirmed).
        exists round. split; [lia|]. auto.
      * destruct (IHdestroy c Hc Hdestroy) as (k & Hk & Hsix & Hconfirmed).
        exists k. split; [lia|]. auto.
    + intros b Hb. destruct (IHres b Hb) as (k & Hk & Hchoice).
      exists k. split; [lia|exact Hchoice].
Qed.

(** X16.  In interactive mode (neither [AUTO_DEPLOY] nor
    [NON_INTERACTIVE]) [terraform_menu] ends at the latest with the
    first turn whose choice is 7 or 8.  It returns [False] only for a
    choice 7 and [True] only for a choice 8, and every [terraform
    destroy] it runs belongs to an earlier turn whose choice was 6 and
    whose confirmation was given. *)
Theorem interactive_menu_destroys_on_confirmation {S}
    (env : Trace -> list string -> Exn + CompletedProcess)
    (exn_str : Exn -> string)
    (clock : Trace -> Z -> option Exn) (json_loads : string -> option Exn)
    (markup_ok : string -> bool)
    (json_indent : string -> string) (path_exists : Trace -> string -> bool)
    (RETRY_MAX_ATTEMPTS RETRY_BASE_DELAY : Z) (operator : Operator)
    (inv : Inventory) (instance_config : InstanceConfig)
    (n fuel round : nat) (s : S) (t : Trace) :
  AUTO_DEPLOY operator = false -> NON_INTERACTIVE operator = false ->
  menu_choice operator (round + n) = 7 \/ menu_choice operator (round + n) = 8 ->
  (n < fuel)%nat ->
  exists res evs,
    terraform_menu env exn_str clock json_loads markup_ok json_indent path_exists RETRY_MAX_ATTEMPTS
      RETRY_BASE_DELAY operator inv instance_config fuel round s t
    = Some (res, s, (evs ++ t)%list) /\
    (forall o, In (ECommand destroy_cmd o) evs ->
       exists k, (round <= k < round + n)%nat /\
                 menu_choice operator k = 6 /\ destroy_confirmed operator k = true) /\
    (forall b, res = Return b ->
       exists k, (round <= k <= round + n)%nat /\
                 menu_choice operator k = (if b : bool then 8 else 7)).
Proof.
  intros Hauto Hnon Hexit Hfuel.
  destruct (terraform_menu_runs env exn_str clock json_loads markup_ok json_indent path_exists
              RETRY_MAX_ATTEMPTS RETRY_BASE_DELAY operator inv instance_config
              fuel round s t) as [(res & evs & Hrun & Hgrammar)|(_ & Hstuck)].
  - exists res, evs. split; [exact Hrun|].
    destruct (interactive_menu_run _ _ _ _ _ _ _ _ _ _ _ Hauto Hnon Hgrammar n Hexit)
      as (Hdestroy & Hres).
    split; [|exact Hres].
    intros o Hin. apply in_commands_of in Hin. exact (Hdestroy _ Hin eq_refl).
  - destruct (Hstuck n Hfuel) as (H7 & H8). unfold menu_selection in H7, H8.
    rewrite Hauto, Hnon in H7, H8. destruct Hexit; contradiction.
Qed.

Lemma interactive_menu_destroys_on_confirmation_witness :
  exists res evs,
    terraform_menu env_all_present exn_str_example clock_example json_loads_example
      markup_example (fun text => text)
      (fun _ _ => false) 2 15 destroys_and_leaves empty_inventory InstanceConfig_default
      2%nat 0%nat tt []
    = Some (res, tt, (evs ++ [])%list) /\
    (forall o, In (ECommand destroy_cmd o) evs ->
       exists k, (0 <= k < 0 + 1)%nat /\
                 menu_choice destroys_and_leaves k = 6 /\
                 destroy_confirmed destroys_and_leaves k = true) /\
    (forall b, res = Return b ->
       exists k, (0 <= k <= 0 + 1)%nat /\
                 menu_choice destroys_and_leaves k = (if b : bool then 8 else 7)).
Proof.
  apply (interactive_menu_destroys_on_confirmation env_all_present exn_str_example clock_example
           json_loads_example markup_example (fun text => text) (fun _ _ => false) 2 15
           destroys_and_leaves empty_inventory InstanceConfig_default
           1%nat 2%nat 0%nat tt []).
  - reflexivity.
  - reflexivity.
  - right. reflexivity.
  - lia.
Defined.
(** ** Text *)

Lemma string_app_cons (x : ascii) (a b : string) : String x a +:+ b = String x (a +:+ b).
Proof. reflexivity. Qed.

Lemma string_app_assoc (a b c : string) : (a +:+ b) +:+ c = a +:+ (b +:+ c).
Proof.
  induction a as [|x a IH]; [reflexivity|]. rewrite !string_app_cons, IH. reflexivity.
Qed.

Lemma string_app_nil_r (a : string) : a +:+ "" = a.
Proof. induction a as [|x a IH]; [reflexivity|]. rewrite string_app_cons, IH. reflexivity. Qed.

Lemma all_chars_app (p : ascii -> bool) (a b : string) :
  all_chars p (a +:+ b) = all_chars p a && all_chars p b.
Proof.
  induction a as [|x a IH]; [reflexivity|].
  rewrite string_app_cons. cbn [all_chars]. rewrite IH, andb_assoc. reflexivity.
Qed.

Lemma all_chars_impl (p q : ascii -> bool) (s : string) :
  (forall c, p c = true -> q c = true) -> all_chars p s = true -> all_chars q s = true.
Proof.
  intros Hpq. induction s as [|c s IH]; [reflexivity|]. cbn [all_chars].
  intros H. apply andb_true_iff in H as (Hc & Hs). rewrite (Hpq c Hc), (IH Hs). reflexivity.
Qed.

Lemma last_char_app (s : string) (c : ascii) :
  last_char s = Some c -> exists s0, s = s0 +:+ String c "".
Proof.
  induction s as [|x s IH]; [discriminate|]. cbn [last_char]. destruct s as [|y s].
  - intros [= ->]. exists "". reflexivity.
  - intros H. destruct (IH H) as (s0 & Hs0). exists (String x s0).
    rewrite string_app_cons, <- Hs0. reflexivity.
Qed.

Lemma differs_strip_prefix (key u rest : string) :
  differs key u = true -> Py.strip_prefix key (u +:+ rest) = None.
Proof.
  revert u. induction key as [|a k IH]; intros [|b v]; cbn [differs]; try discriminate.
  rewrite string_app_cons. cbn [Py.strip_prefix].
  destruct (Ascii.eqb a b); [apply IH|reflexivity].
Qed.

Lemma strip_prefix_app (key u r rest : string) :
  Py.strip_prefix key u = Some r -> Py.strip_prefix key (u +:+ rest) = Some (r +:+ rest).
Proof.
  revert u. induction key as [|a k IH]; intros u.
  - cbn [Py.strip_prefix]. intros [= ->]. reflexivity.
  - destruct u as [|b v]; [discriminate|]. rewrite string_app_cons. cbn [Py.strip_prefix].
    destruct (Ascii.eqb a b); [apply IH|discriminate].
Qed.

Lemma strip_prefix_all_chars (p : ascii -> bool) (key u r : string) :
  Py.strip_prefix key u = Some r -> all_chars p u = true -> all_chars p r = true.
Proof.
  revert u. induction key as [|a k IH]; intros u.
  - cbn [Py.strip_prefix]. intros [= ->]. auto.
  - destruct u as [|b v]; [discriminate|]. cbn [Py.strip_prefix all_chars].
    destruct (Ascii.eqb a b); [|discriminate].
    intros Hr H. apply andb_true_iff in H as (_ & H). exact (IH v Hr H).
Qed.

Lemma lstrip_by_app (p : ascii -> bool) (r rest : string) (c : ascii) (r2 : string) :
  Py.lstrip_by p r = String c r2 -> Py.lstrip_by p (r +:+ rest) = String c (r2 +:+ rest).
Proof.
  induction r as [|x r IH]; [discriminate|].
  rewrite string_app_cons. cbn [Py.lstrip_by]. destruct (p x); [exact IH|].
  intros [= -> ->]. reflexivity.
Qed.

Lemma lstrip_by_app_all (p : ascii -> bool) (r rest : string) :
  all_chars p r = true -> Py.lstrip_by p (r +:+ rest) = Py.lstrip_by p rest.
Proof.
  induction r as [|x r IH]; [reflexivity|]. cbn [all_chars]. intros H.
  apply andb_true_iff in H as (Hx & Hr). rewrite string_app_cons. cbn [Py.lstrip_by].
  rewrite Hx. exact (IH Hr).
Qed.

Lemma lstrip_by_head (p : ascii -> bool) (c : ascii) (r : string) :
  p c = false -> Py.lstrip_by p (String c r) = String c r.
Proof. intros H. cbn [Py.lstrip_by]. rewrite H. reflexivity. Qed.

(** The two regular expressions, with the tests on characters written
    out. *)
Lemma match_number_at_unfold (key s : string) :
  match_number_at key s =
  match Py.strip_prefix key s with
  | None => None
  | Some r =>
      match Py.lstrip_by Py.is_space r with
      | EmptyString => None
      | String c r2 =>
          if Ascii.eqb c "=" then
            let '(digits, _) := Py.span Py.is_digit (Py.lstrip_by Py.is_space r2) in
            if Py.truthy digits then Some digits else None
          else None
      end
  end.
Proof.
  unfold match_number_at. destruct (Py.strip_prefix key s) as [r|]; [|reflexivity].
  destruct (Py.lstrip_by Py.is_space r) as [|c r2]; [reflexivity|].
  destruct c as [[] [] [] [] [] [] [] []]; reflexivity.
Qed.

Lemma match_array_at_unfold (key s : string) :
  match_array_at key s =
  match Py.strip_prefix key s with
  | None => None
  | Some r =>
      match Py.lstrip_by Py.is_space r with
      | EmptyString => None
      | String c r2 =>
          if Ascii.eqb c "=" then
            match Py.lstrip_by Py.is_space r2 with
            | EmptyString => None
            | String d r3 =>
                if Ascii.eqb d "[" then
                  let '(body, rest) := Py.span (not_char "]") r3 in
                  match rest with
                  | EmptyString => None
                  | String _ _ => if Py.truthy body then Some body else None
                  end
                else None
            end
          else None
      end
  end.
Proof.
  unfold match_array_at. destruct (Py.strip_prefix key s) as [r|]; [|reflexivity].
  destruct (Py.lstrip_by Py.is_space r) as [|c r2]; [reflexivity|].
  destruct c as [[] [] [] [] [] [] [] []]; try reflexivity.
  destruct (Py.lstrip_by Py.is_space r2) as [|d r3]; [reflexivity|].
  destruct d as [[] [] [] [] [] [] [] []]; try reflexivity.
  change (fun c : ascii => negb (Ascii.eqb c "]")) with (not_char "]").
  destruct (Py.span (not_char "]") r3) as [body rest] eqn:Hspan.
  destruct rest as [|e rest]; [reflexivity|].
  assert (e = "]"%char) as ->.
  { clear -Hspan. revert body Hspan. induction r3 as [|x r3 IH]; intros body.
    - discriminate.
    - cbn [Py.span]. destruct (not_char "]" x) eqn:Hx.
      + destruct (Py.span (not_char "]") r3) as [a b]. intros [= <- ->].
        exact (IH _ eq_refl).
      + intros [= <- -> ->]. unfold not_char in Hx. apply negb_false_iff in Hx.
        apply Ascii.eqb_eq in Hx. exact Hx. }
  reflexivity.
Qed.
(** ** Where a search can match *)

Lemma matcher_needs_prefix (array : bool) (key s : string) :
  Py.strip_prefix key s = None -> matcher array key s = None.
Proof.
  intros H. unfold matcher.
  destruct array; [rewrite match_array_at_unfold|rewrite match_number_at_unfold];
    rewrite H; reflexivity.
Qed.

Lemma matcher_needs_equals (array : bool) (key s r : string) :
  Py.strip_prefix key s = Some r ->
  (forall r2, Py.lstrip_by Py.is_space r <> String "=" r2) ->
  matcher array key s = None.
Proof.
  intros Hr Hne. unfold matcher.
  destruct array; [rewrite match_array_at_unfold|rewrite match_number_at_unfold];
    rewrite Hr; destruct (Py.lstrip_by Py.is_space r) as [|c r2]; try reflexivity;
    (destruct (Ascii.eqb_spec c "=") as [->|_]; [destruct (Hne r2 eq_refl)|reflexivity]).
Qed.

Lemma no_match_here_sound (array : bool) (key u rest : string) :
  no_match_here array key u = true -> matcher array key (u +:+ rest) = None.
Proof.
  unfold no_match_here. intros H. apply orb_true_iff in H as [H|H].
  { apply matcher_needs_prefix, differs_strip_prefix, H. }
  destruct (Py.strip_prefix key u) as [r|] eqn:Hr; [|discriminate].
  destruct (Py.lstrip_by Py.is_space r) as [|c r2] eqn:Hl; [discriminate|].
  pose proof (strip_prefix_app _ _ _ rest Hr) as Hr'.
  pose proof (lstrip_by_app _ _ rest _ _ Hl) as Hl'.
  destruct (Ascii.eqb_spec c "=") as [->|Hc].
  2:{ apply (matcher_needs_equals _ _ _ _ Hr'). rewrite Hl'. intros r3 [= Hc' _].
      contradiction. }
  destruct (Py.lstrip_by Py.is_space r2) as [|d r3] eqn:Hl2; [discriminate|].
  pose proof (lstrip_by_app _ _ rest _ _ Hl2) as Hl2'.
  unfold matcher. destruct array.
  - rewrite match_array_at_unfold, Hr', Hl'. cbn [Ascii.eqb Bool.eqb]. rewrite Hl2'.
    destruct (Ascii.eqb d "["); [|reflexivity].
    destruct r3 as [|e r4]; [discriminate|]. apply Ascii.eqb_eq in H as ->.
    rewrite string_app_cons. cbn [Py.span not_char Ascii.eqb Bool.eqb negb Py.truthy].
    reflexivity.
  - rewrite match_number_at_unfold, Hr', Hl'. cbn [Ascii.eqb Bool.eqb]. rewrite Hl2'.
    cbn [Py.span]. apply negb_true_iff in H. rewrite H. reflexivity.
Qed.

Lemma re_search_cons (m : string -> option string) (c : ascii) (r : string) :
  re_search m (String c r) =
  match m (String c r) with Some g => Some g | None => re_search m r end.
Proof. reflexivity. Qed.

Lemma re_search_here (m : string -> option string) (s g : string) :
  m s = Some g -> re_search m s = Some g.
Proof. intros H. destruct s; cbn [re_search]; rewrite H; reflexivity. Qed.

Lemma skip_lit_sound (array : bool) (key p rest : string) :
  re_search (matcher array key) (p +:+ rest)
  = re_search (matcher array key) (skip_lit array key p +:+ rest).
Proof.
  induction p as [|c p IH]; [reflexivity|].
  cbn [skip_lit]. destruct (no_match_here array key (String c p)) eqn:H; [|reflexivity].
  rewrite <- IH. rewrite (string_app_cons c p rest), re_search_cons.
  rewrite <- (string_app_cons c p rest), (no_match_here_sound _ _ _ rest H). reflexivity.
Qed.

Lemma not_char_eqb (c d : ascii) : not_char c d = true -> Ascii.eqb c d = false.
Proof.
  unfold not_char. intros H. apply negb_true_iff in H. rewrite Ascii.eqb_sym. exact H.
Qed.

(** A field without the first letter of the key. *)
Lemma skip_no_head (array : bool) (a : ascii) (k s rest : string) :
  all_chars (not_char a) s = true ->
  re_search (matcher array (String a k)) (s +:+ rest)
  = re_search (matcher array (String a k)) rest.
Proof.
  induction s as [|c s IH]; [reflexivity|]. cbn [all_chars]. intros H.
  apply andb_true_iff in H as (Hc & Hs).
  rewrite string_app_cons, re_search_cons, matcher_needs_prefix; [exact (IH Hs)|].
  cbn [Py.strip_prefix]. rewrite (not_char_eqb _ _ Hc). reflexivity.
Qed.

Lemma has_char_eqb (c a : ascii) (k : string) :
  has_char c (String a k) = false -> Ascii.eqb a c = false /\ has_char c k = false.
Proof.
  cbn [has_char]. intros H. apply orb_false_iff in H as (Hc & Hk).
  rewrite Ascii.eqb_sym. auto.
Qed.

Lemma strip_prefix_before (key u r rest : string) (c : ascii) :
  has_char c key = false ->
  Py.strip_prefix key (u +:+ String c rest) = Some r ->
  exists u', Py.strip_prefix key u = Some u' /\ r = u' +:+ String c rest.
Proof.
  revert u. induction key as [|a k IH]; intros u Hc.
  - cbn [Py.strip_prefix]. intros [= <-]. exists u. auto.
  - apply has_char_eqb in Hc as (Hac & Hk). destruct u as [|b v].
    + change ("" +:+ String c rest) with (String c rest). cbn [Py.strip_prefix].
      rewrite Hac. discriminate.
    + rewrite string_app_cons. cbn [Py.strip_prefix].
      destruct (Ascii.eqb a b); [exact (IH v Hk)|discriminate].
Qed.

Lemma lstrip_without_equals (u rest : string) (c : ascii) :
  all_chars (not_char "=") u = true ->
  Py.is_space c = false -> Ascii.eqb c "=" = false ->
  forall r2, Py.lstrip_by Py.is_space (u +:+ String c rest) <> String "=" r2.
Proof.
  intros Hu Hspace Hc. induction u as [|x u IH]; intros r2.
  - change ("" +:+ String c rest) with (String c rest). cbn [Py.lstrip_by].
    rewrite Hspace. intros [= -> _]. discriminate Hc.
  - cbn [all_chars] in Hu. apply andb_true_iff in Hu as (Hx & Hu).
    rewrite string_app_cons. cbn [Py.lstrip_by]. destruct (Py.is_space x); [exact (IH Hu r2)|].
    intros [= -> _]. discriminate Hx.
Qed.

Lemma stopper_parts (key : string) (c : ascii) :
  stopper key c = true ->
  Py.is_space c = false /\ Ascii.eqb c "=" = false /\ has_char c key = false.
Proof.
  unfold stopper. intros H. apply andb_true_iff in H as (H & Hkey).
  apply andb_true_iff in H as (Hspace & Heq).
  apply negb_true_iff in Hspace, Heq, Hkey. auto.
Qed.

(** A field without [=] that is followed by a stopper. *)
Lemma skip_no_equals (array : bool) (key s rest : string) (c : ascii) :
  all_chars (not_char "=") s = true -> stopper key c = true ->
  re_search (matcher array key) (s +:+ String c rest)
  = re_search (matcher array key) (String c rest).
Proof.
  intros Hs Hstop. apply stopper_parts in Hstop as (Hspace & Heq & Hkey).
  induction s as [|x s IH]; [reflexivity|].
  pose proof Hs as Hxs. cbn [all_chars] in Hs. apply andb_true_iff in Hs as (_ & Hs).
  rewrite string_app_cons, re_search_cons, <- string_app_cons.
  assert (matcher array key (String x s +:+ String c rest) = None) as ->; [|exact (IH Hs)].
  destruct (Py.strip_prefix key (String x s +:+ String c rest)) as [r|] eqn:Hr;
    [|exact (matcher_needs_prefix _ _ _ Hr)].
  apply (matcher_needs_equals _ _ _ _ Hr).
  apply (strip_prefix_before _ _ _ _ _ Hkey) in Hr as (u' & Hu' & ->).
  apply lstrip_without_equals; try assumption.
  exact (strip_prefix_all_chars _ _ _ _ Hu' Hxs).
Qed.

(** A field without [=] that ends with a stopper. *)
Lemma skip_no_equals_last (array : bool) (a : ascii) (k s rest : string) (c : ascii) :
  all_chars (not_char "=") s = true ->
  last_char s = Some c -> stopper (String a k) c = true ->
  re_search (matcher array (String a k)) (s +:+ rest)
  = re_search (matcher array (String a k)) rest.
Proof.
  intros Hs Hlast Hstop. apply last_char_app in Hlast as (s0 & ->).
  rewrite all_chars_app in Hs. apply andb_true_iff in Hs as (Hs0 & _).
  rewrite string_app_assoc, string_app_cons. change ("" +:+ rest) with rest.
  rewrite (skip_no_equals _ _ _ _ _ Hs0 Hstop), re_search_cons.
  rewrite matcher_needs_prefix; [reflexivity|].
  apply stopper_parts in Hstop as (_ & _ & Hkey). apply has_char_eqb in Hkey as (Hac & _).
  cbn [Py.strip_prefix]. rewrite Hac. reflexivity.
Qed.

Lemma is_empty_string_eq (s : string) : is_empty_string s = true -> s = "".
Proof. destruct s; [reflexivity|discriminate]. Qed.

(** The parts of an f-string that [skip_parts] passes over hold no
    match. *)
Lemma skip_parts_sound (array : bool) (k : string) (parts : list Part) :
  fields_ok (String "a" k) parts ->
  forall pending q rest,
    skip_parts array (String "a" k) pending parts = Some q ->
    re_search (matcher array (String "a" k)) (pending +:+ onto parts rest)
    = re_search (matcher array (String "a" k)) (q +:+ rest).
Proof.
  induction parts as [|[text|text] parts IH]; intros Hok pending q rest.
  - cbn [skip_parts onto fold_right]. intros [= <-]. apply skip_lit_sound.
  - cbn [skip_parts fields_ok] in *. intros Hskip.
    change (onto (Lit text :: parts) rest) with (text +:+ onto parts rest).
    rewrite <- string_app_assoc. exact (IH Hok _ _ rest Hskip).
  - cbn [skip_parts]. cbn [fields_ok] in Hok. destruct Hok as (Hfield & Hok).
    destruct (is_empty_string (skip_lit array (String "a" k) pending)) eqn:Hpending;
      [|discriminate].
    apply is_empty_string_eq in Hpending. intros Hskip.
    rewrite skip_lit_sound, Hpending.
    change (onto (Fmt text :: parts) rest) with (text +:+ onto parts rest).
    change ("" +:+ (text +:+ onto parts rest)) with (text +:+ onto parts rest).
    specialize (IH Hok "" q rest Hskip).
    change ("" +:+ onto parts rest) with (onto parts rest) in IH.
    rewrite <- IH.
    destruct Hfield as [Hno|(Hno & [(c & Hlast & Hstop)|(c & Hnext & Hstop)])].
    + apply skip_no_head. exact Hno.
    + exact (skip_no_equals_last _ _ _ _ _ _ Hno Hlast Hstop).
    + destruct parts as [|[[|c' t]|t] parts']; try discriminate Hnext.
      injection Hnext as ->.
      change (onto (Lit (String c t) :: parts') rest)
        with (String c (t +:+ onto parts' rest)).
      exact (skip_no_equals _ _ _ _ _ Hno Hstop).
Qed.
(** ** Decimal numerals *)

Lemma int_acc_app (acc : Z) (a b : string) :
  Py.int_acc acc (a +:+ b) = Py.int_acc (Py.int_acc acc a) b.
Proof.
  revert acc. induction a as [|x a IH]; intros acc; [reflexivity|].
  rewrite string_app_cons. cbn [Py.int_acc]. apply IH.
Qed.

Lemma all_digits_all_chars (s : string) : Py.all_digits s = all_chars Py.is_digit s.
Proof. induction s as [|c s IH]; [reflexivity|]. cbn [Py.all_digits all_chars]. now rewrite IH. Qed.

Lemma pretty_N_char_digit (x : N) :
  (x < 10)%N ->
  Py.is_digit (pretty_N_char x) = true /\
  Z.of_nat (nat_of_ascii (pretty_N_char x) - 48) = Z.of_N x.
Proof.
  intros Hx.
  assert (x = 0 \/ x = 1 \/ x = 2 \/ x = 3 \/ x = 4 \/ x = 5 \/ x = 6 \/ x = 7 \/
          x = 8 \/ x = 9)%N as H by lia.
  decompose [or] H; subst x; split; reflexivity.
Qed.

Lemma pretty_N_go_digits (x : N) :
  forall s, exists d,
    pretty_N_go x s = d +:+ s /\ all_chars Py.is_digit d = true /\
    Py.int_acc 0 d = Z.of_N x /\ ((0 < x)%N -> d <> "").
Proof.
  induction (N.lt_wf_0 x) as [x _ IH]; intros s.
  destruct (N.eq_dec x 0%N) as [->|Hx].
  { exists "". rewrite pretty_N_go_0. repeat split; try reflexivity. lia. }
  rewrite pretty_N_go_step by lia.
  assert (x `div` 10 < x)%N as Hlt by (apply N.div_lt; lia).
  destruct (IH _ Hlt (String (pretty_N_char (x `mod` 10)) s)) as (d & -> & Hd & Hint & _).
  destruct (pretty_N_char_digit (x `mod` 10)) as (Hdigit & Hvalue).
  { apply N.mod_lt. lia. }
  exists (d +:+ String (pretty_N_char (x `mod` 10)) "").
  split; [rewrite string_app_assoc; reflexivity|].
  split; [rewrite all_chars_app, Hd; cbn [all_chars]; rewrite Hdigit; reflexivity|].
  split.
  - rewrite int_acc_app, Hint. cbn [Py.int_acc]. rewrite Hvalue.
    rewrite (N.div_mod x 10) at 3 by lia. lia.
  - intros _. destruct d; discriminate.
Qed.

Lemma pretty_nonneg (n : Z) :
  0 <= n ->
  pretty n <> "" /\ all_chars Py.is_digit (pretty n) = true /\ Py.int (pretty n) = n.
Proof.
  intros Hn. destruct n as [|p|p]; [repeat split; discriminate| |lia].
  change (pretty (Z.pos p)) with (pretty (N.pos p)).
  unfold pretty, pretty_N. destruct (decide (N.pos p = 0%N)) as [H|_]; [discriminate H|].
  destruct (pretty_N_go_digits (N.pos p) "") as (d & Hgo & Hd & Hint & Hne).
  rewrite string_app_nil_r in Hgo. rewrite Hgo.
  split; [apply Hne; lia|]. split; [exact Hd|]. unfold Py.int. rewrite Hint. reflexivity.
Qed.

Lemma pretty_negative (n : Z) : n < 0 -> exists d, pretty n = String "-" d.
Proof.
  intros Hn. destruct n as [|p|p]; try lia.
  exists (pretty p). reflexivity.
Qed.

Lemma pretty_chars (n : Z) : all_chars numeral_char (pretty n) = true.
Proof.
  assert (forall m, 0 <= m -> all_chars numeral_char (pretty m) = true) as Hnonneg.
  { intros m Hm. destruct (pretty_nonneg m Hm) as (_ & Hd & _).
    apply (all_chars_impl Py.is_digit); [|exact Hd].
    intros c Hc. unfold numeral_char. rewrite Hc. reflexivity. }
  destruct n as [|p|p]; [reflexivity|apply Hnonneg; lia|].
  change (pretty (Z.neg p)) with (String "-" (pretty (Z.pos p))).
  cbn [all_chars]. rewrite Hnonneg by lia. reflexivity.
Qed.
(** ** The line of a key *)

Lemma span_app (p : ascii -> bool) (d rest : string) :
  all_chars p d = true ->
  match rest with String c _ => p c = false | EmptyString => True end ->
  Py.span p (d +:+ rest) = (d, rest).
Proof.
  intros Hd Hrest. induction d as [|x d IH].
  - change ("" +:+ rest) with rest. destruct rest as [|c r]; [reflexivity|].
    cbn [Py.span]. rewrite Hrest. reflexivity.
  - cbn [all_chars] in Hd. apply andb_true_iff in Hd as (Hx & Hd).
    rewrite string_app_cons. cbn [Py.span]. rewrite Hx, (IH Hd). reflexivity.
Qed.

Lemma digit_not_space (c : ascii) : Py.is_digit c = true -> Py.is_space c = false.
Proof. destruct c as [[] [] [] [] [] [] [] []]; cbv; congruence. Qed.

Lemma key_line_parts (key q : string) :
  key_line key q = true ->
  exists r r2,
    Py.strip_prefix key q = Some r /\
    Py.lstrip_by Py.is_space r = String "=" r2 /\ all_chars Py.is_space r2 = true.
Proof.
  unfold key_line. destruct (Py.strip_prefix key q) as [r|]; [|discriminate].
  destruct (Py.lstrip_by Py.is_space r) as [|c r2] eqn:Hl; [discriminate|].
  intros H. apply andb_true_iff in H as (Hc & Hr2). apply Ascii.eqb_eq in Hc as ->.
  exists r, r2. auto.
Qed.

(** After the text of a key line, a run of digits is the number that
    [key\s*=\s*(\d+)] captures. *)
Lemma number_at_key (key q digits rest : string) :
  key_line key q = true ->
  digits <> "" -> all_chars Py.is_digit digits = true ->
  match rest with String c _ => Py.is_digit c = false | EmptyString => True end ->
  matcher false key (q +:+ digits +:+ rest) = Some digits.
Proof.
  intros Hq Hne Hdigits Hrest. apply key_line_parts in Hq as (r & r2 & Hr & Hl & Hr2).
  unfold matcher. rewrite match_number_at_unfold.
  rewrite (strip_prefix_app _ _ _ _ Hr), (lstrip_by_app _ _ _ _ _ Hl).
  cbn [Ascii.eqb Bool.eqb]. rewrite (lstrip_by_app_all _ _ _ Hr2).
  destruct digits as [|x d]; [contradiction|].
  pose proof Hdigits as Hx. cbn [all_chars] in Hx. apply andb_true_iff in Hx as (Hx & _).
  rewrite string_app_cons, lstrip_by_head by (apply digit_not_space, Hx).
  rewrite <- string_app_cons, (span_app _ _ _ Hdigits Hrest). reflexivity.
Qed.

(** After the text of a key line, a value that starts with anything but
    a digit or white space is no number. *)
Lemma number_missing_at_key (key q : string) (x : ascii) (value rest : string) :
  key_line key q = true ->
  Py.is_space x = false -> Py.is_digit x = false ->
  matcher false key (q +:+ String x value +:+ rest) = None.
Proof.
  intros Hq Hspace Hdigit. apply key_line_parts in Hq as (r & r2 & Hr & Hl & Hr2).
  unfold matcher. rewrite match_number_at_unfold.
  rewrite (strip_prefix_app _ _ _ _ Hr), (lstrip_by_app _ _ _ _ _ Hl).
  cbn [Ascii.eqb Bool.eqb]. rewrite (lstrip_by_app_all _ _ _ Hr2).
  rewrite string_app_cons, lstrip_by_head by exact Hspace.
  cbn [Py.span]. rewrite Hdigit. reflexivity.
Qed.

(** After the text of a key line, a bracketed text without [\]] is what
    [key\s*=\s*\[([^\]]+)\]] captures, unless it is empty. *)
Lemma array_at_key (key q body rest : string) :
  key_line key q = true ->
  all_chars (not_char "]") body = true ->
  matcher true key (q +:+ String "[" (body +:+ String "]" rest))
  = if Py.truthy body then Some body else None.
Proof.
  intros Hq Hbody. apply key_line_parts in Hq as (r & r2 & Hr & Hl & Hr2).
  unfold matcher. rewrite match_array_at_unfold.
  rewrite (strip_prefix_app _ _ _ _ Hr), (lstrip_by_app _ _ _ _ _ Hl).
  cbn [Ascii.eqb Bool.eqb]. rewrite (lstrip_by_app_all _ _ _ Hr2).
  rewrite lstrip_by_head by reflexivity. cbn [Ascii.eqb Bool.eqb].
  rewrite (span_app _ _ _ Hbody) by reflexivity. reflexivity.
Qed.

Lemma tf_list_app (items : list string) (rest : string) :
  tf_list items +:+ rest = String "[" (String.concat ", " items +:+ String "]" rest).
Proof.
  unfold tf_list. rewrite string_app_cons. change ("" +:+ ?x) with x.
  rewrite string_app_cons, string_app_assoc. reflexivity.
Qed.

Lemma re_search_next (m : string -> option string) (c : ascii) (r : string) :
  m (String c r) = None -> re_search m (String c r) = re_search m r.
Proof. intros H. rewrite re_search_cons, H. reflexivity. Qed.
(** ** Splitting and stripping *)

Lemma rev_string_rev (a b c : string) :
  Py.rev_string b (Py.rev_string c a) = Py.rev_string (a +:+ b) c.
Proof.
  revert b c. induction a as [|x a IH]; intros b c; [reflexivity|].
  cbn [Py.rev_string]. rewrite IH. reflexivity.
Qed.

Lemma rev_string_involutive (a : string) : Py.rev_string "" (Py.rev_string "" a) = a.
Proof. rewrite rev_string_rev, string_app_nil_r. reflexivity. Qed.

Lemma rev_string_app (acc a b : string) :
  Py.rev_string acc (a +:+ b) = Py.rev_string (Py.rev_string acc a) b.
Proof.
  revert acc. induction a as [|x a IH]; intros acc; [reflexivity|].
  rewrite string_app_cons. cbn [Py.rev_string]. apply IH.
Qed.

Lemma split_acc_item (sep : ascii) (cur a rest : string) :
  all_chars (not_char sep) a = true ->
  Py.split_acc sep cur (a +:+ rest) = Py.split_acc sep (Py.rev_string cur a) rest.
Proof.
  revert cur. induction a as [|x a IH]; intros cur Ha; [reflexivity|].
  cbn [all_chars] in Ha. apply andb_true_iff in Ha as (Hx & Ha).
  unfold not_char in Hx. apply negb_true_iff in Hx.
  rewrite string_app_cons. cbn [Py.split_acc Py.rev_string]. rewrite Hx. exact (IH _ Ha).
Qed.

Lemma split_item_more (sep : ascii) (a rest : string) :
  all_chars (not_char sep) a = true ->
  Py.split sep (a +:+ String sep rest) = a :: Py.split sep rest.
Proof.
  intros Ha. unfold Py.split. rewrite (split_acc_item _ _ _ _ Ha).
  cbn [Py.split_acc]. rewrite Ascii.eqb_refl, rev_string_involutive. reflexivity.
Qed.

Lemma split_item_last (sep : ascii) (a : string) :
  all_chars (not_char sep) a = true -> Py.split sep a = [a].
Proof.
  intros Ha. unfold Py.split. rewrite <- (string_app_nil_r a) at 1.
  rewrite (split_acc_item _ _ _ _ Ha). cbn [Py.split_acc].
  rewrite rev_string_involutive. reflexivity.
Qed.

Lemma concat_cons_cons (sep x y : string) (rest : list string) :
  String.concat sep (x :: y :: rest) = x +:+ sep +:+ String.concat sep (y :: rest).
Proof. reflexivity. Qed.

(** [", ".join(items).split(",")]: the first item, and every other item
    after a blank. *)
Lemma split_concat (prefix x : string) (items : list string) :
  all_chars (not_char ",") prefix = true ->
  Forall (fun item => all_chars (not_char ",") item = true) (x :: items) ->
  Py.split "," (prefix +:+ String.concat ", " (x :: items))
  = (prefix +:+ x) :: map (String " ") items.
Proof.
  revert prefix x. induction items as [|y items IH]; intros prefix x Hprefix Hitems.
  - apply split_item_last. rewrite all_chars_app, Hprefix.
    apply List.Forall_inv in Hitems. exact Hitems.
  - pose proof (List.Forall_inv Hitems) as Hx. apply List.Forall_inv_tail in Hitems.
    rewrite concat_cons_cons.
    change (", " +:+ String.concat ", " (y :: items))
      with (String "," (" " +:+ String.concat ", " (y :: items))).
    rewrite <- string_app_assoc, split_item_more
      by (rewrite all_chars_app, Hprefix; exact Hx).
    rewrite (IH " " y eq_refl Hitems). reflexivity.
Qed.

Lemma last_char_snoc (s : string) (c : ascii) : last_char (s +:+ String c "") = Some c.
Proof.
  induction s as [|x s IH]; [reflexivity|]. rewrite string_app_cons. cbn [last_char].
  destruct (s +:+ String c "") eqn:Hs; [destruct s; discriminate Hs|exact IH].
Qed.

Lemma all_chars_last (p : ascii -> bool) (s : string) (c : ascii) :
  all_chars p s = true -> last_char s = Some c -> p c = true.
Proof.
  intros Hs Hlast. apply last_char_app in Hlast as (s0 & ->).
  rewrite all_chars_app in Hs. apply andb_true_iff in Hs as (_ & Hc).
  cbn [all_chars] in Hc. apply andb_true_iff in Hc as (Hc & _). exact Hc.
Qed.

Lemma rev_string_last (s : string) (c : ascii) :
  last_char s = Some c -> exists t, Py.rev_string "" s = String c t.
Proof.
  intros Hlast. apply last_char_app in Hlast as (s0 & ->).
  rewrite rev_string_app. cbn [Py.rev_string]. eauto.
Qed.

Lemma rstrip_by_keep (p : ascii -> bool) (s : string) (c : ascii) :
  last_char s = Some c -> p c = false -> Py.rstrip_by p s = s.
Proof.
  intros Hlast Hc. unfold Py.rstrip_by.
  destruct (rev_string_last _ _ Hlast) as (t & Ht).
  rewrite Ht, lstrip_by_head, <- Ht by exact Hc. apply rev_string_involutive.
Qed.

Lemma rstrip_by_drop (p : ascii -> bool) (s : string) (c : ascii) :
  p c = true -> Py.rstrip_by p (s +:+ String c "") = Py.rstrip_by p s.
Proof.
  intros Hc. unfold Py.rstrip_by. rewrite rev_string_app. cbn [Py.rev_string Py.lstrip_by].
  rewrite Hc. reflexivity.
Qed.

Lemma last_char_none (s : string) : last_char s = None -> s = "".
Proof.
  induction s as [|x s IH]; [reflexivity|]. cbn [last_char].
  destruct s as [|y s]; [discriminate|]. intros H. discriminate (IH H).
Qed.

(** Stripping leaves a text alone that has none of the stripped
    characters. *)
Lemma strip_by_clean (p : ascii -> bool) (s : string) :
  all_chars (fun c => negb (p c)) s = true -> Py.strip_by p s = s.
Proof.
  intros Hs. unfold Py.strip_by.
  assert (Py.lstrip_by p s = s) as ->.
  { destruct s as [|x s]; [reflexivity|]. cbn [all_chars] in Hs.
    apply andb_true_iff in Hs as (Hx & _). apply negb_true_iff in Hx.
    apply lstrip_by_head, Hx. }
  destruct (last_char s) as [c|] eqn:Hlast.
  - apply (rstrip_by_keep _ _ _ Hlast).
    apply negb_true_iff. exact (all_chars_last _ _ _ Hs Hlast).
  - apply last_char_none in Hlast as ->. reflexivity.
Qed.

Lemma strip_by_lead (p : ascii -> bool) (c : ascii) (s : string) :
  p c = true -> Py.strip_by p (String c s) = Py.strip_by p s.
Proof. intros Hc. unfold Py.strip_by. cbn [Py.lstrip_by]. rewrite Hc. reflexivity. Qed.

(** Stripping [c] from a text without [c], followed by one [c]. *)
Lemma strip_by_trail (p : ascii -> bool) (s : string) (c : ascii) :
  all_chars (fun c => negb (p c)) s = true -> p c = true ->
  Py.strip_by p (s +:+ String c "") = s.
Proof.
  intros Hs Hc. rewrite <- (strip_by_clean p s Hs) at 2. unfold Py.strip_by.
  destruct s as [|x s].
  - change ("" +:+ String c "") with (String c ""). cbn [Py.lstrip_by]. rewrite Hc.
    reflexivity.
  - cbn [all_chars] in Hs. apply andb_true_iff in Hs as (Hx & _).
    apply negb_true_iff in Hx.
    rewrite string_app_cons, !lstrip_by_head by exact Hx.
    rewrite <- string_app_cons. apply rstrip_by_drop, Hc.
Qed.
(** ** Reading the lists back *)

Lemma numeral_char_plain (c : ascii) :
  numeral_char c = true ->
  not_char "a" c = true /\ not_char "," c = true /\ not_char "]" c = true /\
  not_char "=" c = true /\ Py.is_space c = false.
Proof. destruct c as [[] [] [] [] [] [] [] []]; cbv; intuition congruence. Qed.

Lemma hostname_char_plain (c : ascii) :
  hostname_char c = true ->
  not_char "," c = true /\ not_char "]" c = true /\ not_char "=" c = true /\
  Ascii.eqb "034" c = false /\ Ascii.eqb "'" c = false.
Proof. destruct c as [[] [] [] [] [] [] [] []]; cbv; intuition congruence. Qed.

Lemma strip_numeral (n : Z) : Py.strip (pretty n) = pretty n.
Proof.
  apply strip_by_clean. apply (all_chars_impl numeral_char); [|apply pretty_chars].
  intros c Hc. apply numeral_char_plain in Hc as (_ & _ & _ & _ & Hc). rewrite Hc.
  reflexivity.
Qed.

Lemma isdigit_numeral (n : Z) : Py.isdigit (pretty n) = true <-> 0 <= n.
Proof.
  split.
  - intros H. destruct (Z.lt_ge_cases n 0) as [Hn|Hn]; [|exact Hn].
    destruct (pretty_negative n Hn) as (d & Hd). rewrite Hd in H. discriminate H.
  - intros Hn. destruct (pretty_nonneg n Hn) as (Hne & Hd & _).
    unfold Py.isdigit. rewrite all_digits_all_chars, Hd.
    destruct (pretty n); [contradiction|reflexivity].
Qed.

Lemma parse_numerals (pieces : list string) (xs : list Z) :
  Forall2 (fun piece x => Py.strip piece = pretty x) pieces xs ->
  map (fun x => Py.int (Py.strip x))
    (filter (fun x => Is_true (Py.isdigit (Py.strip x))) pieces)
  = filter (fun x => 0 <= x) xs.
Proof.
  induction 1 as [|piece x pieces xs Hpiece _ IH]; [reflexivity|].
  rewrite !filter_cons. rewrite Hpiece.
  destruct (decide (Is_true (Py.isdigit (pretty x)))) as [Hd|Hd];
    destruct (decide (0 <= x)) as [Hx|Hx].
  - cbn [map]. rewrite Hpiece, IH. f_equal. exact (proj2 (proj2 (pretty_nonneg x Hx))).
  - apply Is_true_eq_true, isdigit_numeral in Hd. contradiction.
  - destruct Hd. apply Is_true_eq_left, isdigit_numeral, Hx.
  - exact IH.
Qed.

Lemma strip_blank_numerals (xs : list Z) :
  Forall2 (fun piece x => Py.strip piece = pretty x) (map (String " ") (map pretty xs)) xs.
Proof.
  induction xs as [|y xs IH]; cbn [map]; constructor; [|exact IH].
  unfold Py.strip. rewrite strip_by_lead by reflexivity. apply strip_numeral.
Qed.

(** [parse_int_list] of [", ".join(str(x) for x in xs)]: the entries of
    [xs] that are not negative. *)
Lemma parse_int_list_numerals (xs : list Z) :
  parse_int_list (String.concat ", " (map pretty xs)) = filter (fun x => 0 <= x) xs.
Proof.
  unfold parse_int_list. destruct xs as [|x xs]; [reflexivity|].
  cbn [map].
  pose proof (split_concat "" (pretty x) (map pretty xs) eq_refl) as Hsplit.
  change ("" +:+ ?s) with s in Hsplit. rewrite Hsplit.
  - apply parse_numerals. constructor; [apply strip_numeral|apply strip_blank_numerals].
  - change (pretty x :: map pretty xs) with (map pretty (x :: xs)).
    apply List.Forall_forall. intros item Hin. apply in_map_iff in Hin as (n & <- & _).
    apply (all_chars_impl numeral_char); [|apply pretty_chars].
    intros c Hc. apply numeral_char_plain in Hc. tauto.
Qed.

Lemma quoted_text (h : string) :
  fstring [Lit dq; Fmt h; Lit dq] = String "034" (h +:+ String "034" "").
Proof. reflexivity. Qed.

Lemma unquote (h : string) :
  all_chars hostname_char h = true ->
  Py.strip_char "'" (Py.strip_char "034" (Py.strip (String "034" (h +:+ String "034" ""))))
  = h.
Proof.
  intros Hh.
  assert (Py.strip (String "034" (h +:+ String "034" ""))
          = String "034" (h +:+ String "034" "")) as ->.
  { unfold Py.strip, Py.strip_by. rewrite lstrip_by_head by reflexivity.
    apply (rstrip_by_keep _ _ "034"); [|reflexivity].
    rewrite <- string_app_cons. apply last_char_snoc. }
  unfold Py.strip_char. rewrite strip_by_lead by reflexivity.
  rewrite strip_by_trail; [| |reflexivity].
  - apply strip_by_clean. apply (all_chars_impl hostname_char); [|exact Hh].
    intros c Hc. apply hostname_char_plain in Hc as (_ & _ & _ & _ & Hc). rewrite Hc.
    reflexivity.
  - apply (all_chars_impl hostname_char); [|exact Hh].
    intros c Hc. apply hostname_char_plain in Hc as (_ & _ & _ & Hc & _). rewrite Hc.
    reflexivity.
Qed.
Lemma parse_hostnames_quoted (h : string) (hs : list string) :
  Forall (fun h => all_chars hostname_char h = true) (h :: hs) ->
  parse_hostnames
    (String.concat ", " (map (fun h => fstring [Lit dq; Fmt h; Lit dq]) (h :: hs)))
  = h :: hs.
Proof.
  intros Hclean. unfold parse_hostnames. cbn [map].
  pose proof (split_concat "" (fstring [Lit dq; Fmt h; Lit dq])
                (map (fun h => fstring [Lit dq; Fmt h; Lit dq]) hs) eq_refl) as Hsplit.
  change ("" +:+ ?s) with s in Hsplit. rewrite Hsplit.
  - cbn [map]. rewrite quoted_text, unquote by exact (List.Forall_inv Hclean).
    f_equal. apply List.Forall_inv_tail in Hclean. clear Hsplit.
    induction Hclean as [|h' hs' Hh' _ IH]; [reflexivity|].
    cbn [map]. rewrite quoted_text. unfold Py.strip at 1.
    rewrite strip_by_lead by reflexivity. fold Py.strip.
    rewrite unquote by exact Hh'. f_equal. exact IH.
  - change (fstring [Lit dq; Fmt h; Lit dq]
              :: map (fun h => fstring [Lit dq; Fmt h; Lit dq]) hs)
      with (map (fun h => fstring [Lit dq; Fmt h; Lit dq]) (h :: hs)).
    apply List.Forall_forall. intros item Hin. apply in_map_iff in Hin as (h' & <- & Hin).
    rewrite List.Forall_forall in Hclean. specialize (Hclean h' Hin).
    rewrite quoted_text. cbn [all_chars]. rewrite all_chars_app.
    rewrite (all_chars_impl hostname_char (not_char ",") h'); [reflexivity| |exact Hclean].
    intros c Hc. apply hostname_char_plain in Hc. tauto.
Qed.

(** ** The fields of [variables_content] *)

Lemma all_chars_concat (p : ascii -> bool) (sep : string) (items : list string) :
  all_chars p sep = true -> Forall (fun item => all_chars p item = true) items ->
  all_chars p (String.concat sep items) = true.
Proof.
  intros Hsep Hitems. induction Hitems as [|x items Hx Hitems IH]; [reflexivity|].
  destruct items as [|y items]; [exact Hx|].
  rewrite concat_cons_cons, !all_chars_app, Hx, Hsep, IH. reflexivity.
Qed.

Lemma all_chars_tf_list (p : ascii -> bool) (items : list string) :
  p "["%char = true -> p ","%char = true -> p " "%char = true -> p "]"%char = true ->
  Forall (fun item => all_chars p item = true) items ->
  all_chars p (tf_list items) = true.
Proof.
  intros Hopen Hcomma Hblank Hclose Hitems. unfold tf_list.
  rewrite !all_chars_app, (all_chars_concat p ", " items); [|cbn [all_chars]|exact Hitems].
  - cbn [all_chars]. rewrite Hopen, Hclose. reflexivity.
  - rewrite Hcomma, Hblank. reflexivity.
Qed.

Lemma numerals_plain (p : ascii -> bool) (xs : list Z) :
  (forall c, numeral_char c = true -> p c = true) ->
  Forall (fun item => all_chars p item = true) (map pretty xs).
Proof.
  intros Hp. apply List.Forall_forall. intros item Hin.
  apply in_map_iff in Hin as (n & <- & _).
  apply (all_chars_impl numeral_char); [exact Hp|apply pretty_chars].
Qed.

Lemma quoted_plain (p : ascii -> bool) (hs : list string) :
  p "034"%char = true -> (forall c, hostname_char c = true -> p c = true) ->
  Forall (fun h => all_chars hostname_char h = true) hs ->
  Forall (fun item => all_chars p item = true)
    (map (fun h => fstring [Lit dq; Fmt h; Lit dq]) hs).
Proof.
  intros Hquote Hp Hclean. apply List.Forall_forall. intros item Hin.
  apply in_map_iff in Hin as (h & <- & Hin).
  rewrite List.Forall_forall in Hclean. specialize (Hclean h Hin).
  rewrite quoted_text. cbn [all_chars]. rewrite all_chars_app. cbn [all_chars].
  rewrite Hquote, (all_chars_impl hostname_char p h Hp Hclean). reflexivity.
Qed.

Lemma field_ok_numeral (key : string) (n : Z) (next : option ascii) :
  field_ok key (pretty n) next.
Proof.
  left. apply (all_chars_impl numeral_char); [|apply pretty_chars].
  intros c Hc. apply numeral_char_plain in Hc. tauto.
Qed.

Lemma field_ok_numerals (key : string) (xs : list Z) (next : option ascii) :
  field_ok key (tf_list (map pretty xs)) next.
Proof.
  left. apply all_chars_tf_list; try reflexivity. apply numerals_plain.
  intros c Hc. apply numeral_char_plain in Hc. tauto.
Qed.

Lemma field_ok_timestamp (key generated : string) (next : option ascii) :
  all_chars timestamp_char generated = true -> field_ok key generated next.
Proof.
  intros Hg. left. apply (all_chars_impl timestamp_char); [|exact Hg].
  intros c. destruct c as [[] [] [] [] [] [] [] []]; cbv; congruence.
Qed.

Lemma field_ok_quoted (key text : string) (c : ascii) :
  all_chars (not_char "=") text = true -> stopper key c = true ->
  field_ok key text (Some c).
Proof. intros Htext Hc. right. split; [exact Htext|]. right. eauto. Qed.

Lemma field_ok_hostnames (key : string) (hs : list string) (next : option ascii) :
  Forall (fun h => all_chars hostname_char h = true) hs ->
  stopper key "]" = true ->
  field_ok key (tf_list (map (fun h => fstring [Lit dq; Fmt h; Lit dq]) hs)) next.
Proof.
  intros Hclean Hstop. right. split.
  - apply all_chars_tf_list; try reflexivity. apply quoted_plain; [reflexivity| |exact Hclean].
    intros c Hc. apply hostname_char_plain in Hc. tauto.
  - left. exists "]"%char. split; [|exact Hstop].
    unfold tf_list. rewrite <- string_app_assoc.
    change "]" with (String "]" "") at 1. apply last_char_snoc.
Qed.

Lemma pretty_nonempty (n : Z) : pretty n <> "".
Proof.
  destruct (Z.lt_ge_cases n 0) as [Hn|Hn].
  - destruct (pretty_negative n Hn) as (d & ->). discriminate.
  - exact (proj1 (pretty_nonneg n Hn)).
Qed.

Lemma onto_first_char (parts : list Part) (c : ascii) (rest : string) :
  first_char parts = Some c -> exists text, onto parts rest = String c text.
Proof.
  destruct parts as [|[[|c' t]|t] parts]; try discriminate.
  intros [= ->]. exists (t +:+ onto parts rest). reflexivity.
Qed.

(** *** One search over the text of an f-string

    [pre] are the parts up to the text of the key line, [value] is the
    field after it and [post] are the parts that follow. *)

Lemma search_number_field (k q' : string) (pre post : list Part) (n : Z) (c : ascii) :
  fields_ok (String "a" k) pre ->
  skip_parts false (String "a" k) "" pre = Some (String "a" q') ->
  key_line (String "a" k) (String "a" q') = true ->
  first_char post = Some c -> Py.is_digit c = false ->
  fields_ok (String "a" k) (Fmt (pretty n) :: post) ->
  skip_parts false (String "a" k) q' (Fmt (pretty n) :: post) = Some "" ->
  re_search (match_number_at (String "a" k)) (onto pre (pretty n +:+ onto post ""))
  = if n <? 0 then None else Some (pretty n).
Proof.
  intros Hpre Hskip Hline Hfirst Hc Hpost Hrest.
  change (match_number_at (String "a" k)) with (matcher false (String "a" k)).
  pose proof (skip_parts_sound false k pre Hpre "" _ (pretty n +:+ onto post "") Hskip)
    as Hfound.
  change ("" +:+ ?s) with s in Hfound. rewrite Hfound.
  destruct (Z.ltb_spec n 0) as [Hn|Hn].
  - destruct (pretty_negative n Hn) as (d & Hd).
    rewrite string_app_cons, re_search_next.
    + pose proof (skip_parts_sound false k _ Hpost q' _ "" Hrest) as Hnone.
      exact Hnone.
    + rewrite <- string_app_cons, Hd.
      apply number_missing_at_key; [exact Hline|reflexivity|reflexivity].
  - destruct (pretty_nonneg n Hn) as (Hne & Hd & _).
    apply re_search_here. apply number_at_key; try assumption.
    destruct (onto_first_char post c "" Hfirst) as (text & ->). exact Hc.
Qed.

Lemma search_array_field (k q' : string) (pre post : list Part) (items : list string) :
  fields_ok (String "a" k) pre ->
  skip_parts true (String "a" k) "" pre = Some (String "a" q') ->
  key_line (String "a" k) (String "a" q') = true ->
  all_chars (not_char "]") (String.concat ", " items) = true ->
  fields_ok (String "a" k) (Fmt (tf_list items) :: post) ->
  skip_parts true (String "a" k) q' (Fmt (tf_list items) :: post) = Some "" ->
  re_search (match_array_at (String "a" k)) (onto pre (tf_list items +:+ onto post ""))
  = if Py.truthy (String.concat ", " items)
    then Some (String.concat ", " items) else None.
Proof.
  intros Hpre Hskip Hline Hbody Hpost Hrest.
  change (match_array_at (String "a" k)) with (matcher true (String "a" k)).
  pose proof (skip_parts_sound true k pre Hpre "" _ (tf_list items +:+ onto post "") Hskip)
    as Hfound.
  change ("" +:+ ?s) with s in Hfound. rewrite Hfound.
  pose proof (array_at_key (String "a" k) (String "a" q') _ (onto post "") Hline Hbody)
    as Hhere.
  rewrite <- tf_list_app in Hhere.
  destruct (Py.truthy (String.concat ", " items)).
  - apply re_search_here. exact Hhere.
  - rewrite string_app_cons, re_search_next by (rewrite <- string_app_cons; exact Hhere).
    exact (skip_parts_sound true k _ Hpost q' _ "" Hrest).
Qed.
(** ** The searches of [load_existing_config] in a written [variables.tf] *)

Ltac field_ok_tac :=
  first [ apply field_ok_numeral | apply field_ok_numerals
        | apply field_ok_timestamp; assumption
        | apply field_ok_quoted; [assumption|reflexivity]
        | apply field_ok_hostnames; [assumption|reflexivity] ].

Ltac fields_ok_tac :=
  cbv [fields_ok firstn skipn variables_parts first_char dq newline];
  repeat split; field_ok_tac.

Section WrittenVariables.

Variable generated : string.
Variable oci_config : OciConfig.
Variable instance_config : InstanceConfig.

Hypothesis generated_text : all_chars timestamp_char generated = true.
Hypothesis tenancy_text : all_chars (not_char "=") (tenancy_ocid oci_config) = true.
Hypothesis user_text : all_chars (not_char "=") (user_ocid oci_config) = true.
Hypothesis region_text : all_chars (not_char "=") (region oci_config) = true.
Hypothesis image_text : all_chars (not_char "=") (ubuntu_image_ocid oci_config) = true.
Hypothesis arm_image_text :
  all_chars (not_char "=") (ubuntu_arm_flex_image_ocid oci_config) = true.
Hypothesis amd_hostnames_text :
  Forall (fun h => all_chars hostname_char h = true) (amd_micro_hostnames instance_config).
Hypothesis arm_hostnames_text :
  Forall (fun h => all_chars hostname_char h = true) (arm_flex_hostnames instance_config).

Local Abbreviation content := (variables_content generated oci_config instance_config).
Local Abbreviation parts := (variables_parts generated oci_config instance_config).

Lemma search_amd_micro_instance_count :
  re_search (match_number_at "amd_micro_instance_count") content
  = if amd_micro_instance_count instance_config <? 0 then None
    else Some (pretty (amd_micro_instance_count instance_config)).
Proof.
  change content
    with (onto (firstn 77 parts)
            (pretty (amd_micro_instance_count instance_config)
               +:+ onto (skipn 78 parts) "")).
  apply (search_number_field "md_micro_instance_count"
           "md_micro_instance_count      = " _ _ _ "010"%char).
  - fields_ok_tac.
  - reflexivity.
  - reflexivity.
  - reflexivity.
  - reflexivity.
  - fields_ok_tac.
  - reflexivity.
Qed.

Lemma search_amd_micro_boot_volume_size_gb :
  re_search (match_number_at "amd_micro_boot_volume_size_gb") content
  = if amd_micro_boot_volume_size_gb instance_config <? 0 then None
    else Some (pretty (amd_micro_boot_volume_size_gb instance_config)).
Proof.
  change content
    with (onto (firstn 80 parts)
            (pretty (amd_micro_boot_volume_size_gb instance_config)
               +:+ onto (skipn 81 parts) "")).
  apply (search_number_field "md_micro_boot_volume_size_gb"
           "md_micro_boot_volume_size_gb = " _ _ _ "010"%char).
  - fields_ok_tac.
  - reflexivity.
  - reflexivity.
  - reflexivity.
  - reflexivity.
  - fields_ok_tac.
  - reflexivity.
Qed.

Lemma search_arm_flex_instance_count :
  re_search (match_number_at "arm_flex_instance_count") content
  = if arm_flex_instance_count instance_config <? 0 then None
    else Some (pretty (arm_flex_instance_count instance_config)).
Proof.
  change content
    with (onto (firstn 92 parts)
            (pretty (arm_flex_instance_count instance_config)
               +:+ onto (skipn 93 parts) "")).
  apply (search_number_field "rm_flex_instance_count"
           "rm_flex_instance_count       = " _ _ _ "010"%char).
  - fields_ok_tac.
  - reflexivity.
  - reflexivity.
  - reflexivity.
  - reflexivity.
  - fields_ok_tac.
  - reflexivity.
Qed.

Lemma search_arm_flex_ocpus_per_instance :
  re_search (match_array_at "arm_flex_ocpus_per_instance") content
  = if Py.truthy (String.concat ", " (map pretty (arm_flex_ocpus_per_instance instance_config)))
    then Some (String.concat ", " (map pretty (arm_flex_ocpus_per_instance instance_config)))
    else None.
Proof.
  change content
    with (onto (firstn 95 parts)
            (tf_list (map pretty (arm_flex_ocpus_per_instance instance_config))
               +:+ onto (skipn 96 parts) "")).
  apply (search_array_field "rm_flex_ocpus_per_instance"
           "rm_flex_ocpus_per_instance   = ").
  - fields_ok_tac.
  - reflexivity.
  - reflexivity.
  - apply all_chars_concat; [reflexivity|]. apply numerals_plain.
    intros c Hc. apply numeral_char_plain in Hc. tauto.
  - fields_ok_tac.
  - reflexivity.
Qed.

Lemma search_arm_flex_memory_per_instance :
  re_search (match_array_at "arm_flex_memory_per_instance") content
  = if Py.truthy (String.concat ", " (map pretty (arm_flex_memory_per_instance instance_config)))
    then Some (String.concat ", " (map pretty (arm_flex_memory_per_instance instance_config)))
    else None.
Proof.
  change content
    with (onto (firstn 98 parts)
            (tf_list (map pretty (arm_flex_memory_per_instance instance_config))
               +:+ onto (skipn 99 parts) "")).
  apply (search_array_field "rm_flex_memory_per_instance"
           "rm_flex_memory_per_instance  = ").
  - fields_ok_tac.
  - reflexivity.
  - reflexivity.
  - apply all_chars_concat; [reflexivity|]. apply numerals_plain.
    intros c Hc. apply numeral_char_plain in Hc. tauto.
  - fields_ok_tac.
  - reflexivity.
Qed.

Lemma search_arm_flex_boot_volume_size_gb :
  re_search (match_array_at "arm_flex_boot_volume_size_gb") content
  = if Py.truthy (String.concat ", " (map pretty (arm_flex_boot_volume_size_gb instance_config)))
    then Some (String.concat ", " (map pretty (arm_flex_boot_volume_size_gb instance_config)))
    else None.
Proof.
  change content
    with (onto (firstn 101 parts)
            (tf_list (map pretty (arm_flex_boot_volume_size_gb instance_config))
               +:+ onto (skipn 102 parts) "")).
  apply (search_array_field "rm_flex_boot_volume_size_gb"
           "rm_flex_boot_volume_size_gb  = ").
  - fields_ok_tac.
  - reflexivity.
  - reflexivity.
  - apply all_chars_concat; [reflexivity|]. apply numerals_plain.
    intros c Hc. apply numeral_char_plain in Hc. tauto.
  - fields_ok_tac.
  - reflexivity.
Qed.

Lemma search_amd_micro_hostnames :
  re_search (match_array_at "amd_micro_hostnames") content
  = if Py.truthy (String.concat ", "
                    (map (fun h => fstring [Lit dq; Fmt h; Lit dq])
                       (amd_micro_hostnames instance_config)))
    then Some (String.concat ", "
                 (map (fun h => fstring [Lit dq; Fmt h; Lit dq])
                    (amd_micro_hostnames instance_config)))
    else None.
Proof.
  change content
    with (onto (firstn 83 parts)
            (tf_list (map (fun h => fstring [Lit dq; Fmt h; Lit dq])
                        (amd_micro_hostnames instance_config))
               +:+ onto (skipn 84 parts) "")).
  apply (search_array_field "md_micro_hostnames"
           "md_micro_hostnames           = ").
  - fields_ok_tac.
  - reflexivity.
  - reflexivity.
  - apply all_chars_concat; [reflexivity|]. apply quoted_plain; [reflexivity| |assumption].
    intros c Hc. apply hostname_char_plain in Hc. tauto.
  - fields_ok_tac.
  - reflexivity.
Qed.

Lemma search_arm_flex_hostnames :
  re_search (match_array_at "arm_flex_hostnames") content
  = if Py.truthy (String.concat ", "
                    (map (fun h => fstring [Lit dq; Fmt h; Lit dq])
                       (arm_flex_hostnames instance_config)))
    then Some (String.concat ", "
                 (map (fun h => fstring [Lit dq; Fmt h; Lit dq])
                    (arm_flex_hostnames instance_config)))
    else None.
Proof.
  change content
    with (onto (firstn 104 parts)
            (tf_list (map (fun h => fstring [Lit dq; Fmt h; Lit dq])
                        (arm_flex_hostnames instance_config))
               +:+ onto (skipn 105 parts) "")).
  apply (search_array_field "rm_flex_hostnames"
           "rm_flex_hostnames            = ").
  - fields_ok_tac.
  - reflexivity.
  - reflexivity.
  - apply all_chars_concat; [reflexivity|]. apply quoted_plain; [reflexivity| |assumption].
    intros c Hc. apply hostname_char_plain in Hc. tauto.
  - fields_ok_tac.
  - reflexivity.
Qed.

Lemma truthy_concat (sep x : string) (items : list string) :
  x <> "" -> Py.truthy (String.concat sep (x :: items)) = true.
Proof.
  intros Hx. destruct x as [|c x]; [contradiction|].
  destruct items; reflexivity.
Qed.

(** [load_existing_config] on the file that
    [create_terraform_variables] wrote. *)
Lemma load_written_variables (old : InstanceConfig) :
  load_existing_config (Some content) old = (true, reloaded old instance_config).
Proof.
  unfold load_existing_config. cbv zeta.
  rewrite search_amd_micro_instance_count, search_amd_micro_boot_volume_size_gb,
    search_arm_flex_instance_count, search_arm_flex_ocpus_per_instance,
    search_arm_flex_memory_per_instance, search_arm_flex_boot_volume_size_gb,
    search_amd_micro_hostnames, search_arm_flex_hostnames.
  assert (forall n default,
             match (if n <? 0 then None else Some (pretty n)) with
             | Some g => Py.int g
             | None => default
             end = if n <? 0 then default else n) as Hcount.
  { intros n default. destruct (Z.ltb_spec n 0) as [Hn|Hn]; [reflexivity|].
    exact (proj2 (proj2 (pretty_nonneg n Hn))). }
  assert (forall xs kept,
             match (if Py.truthy (String.concat ", " (map pretty xs))
                    then Some (String.concat ", " (map pretty xs)) else None) with
             | Some g => parse_int_list g
             | None => kept
             end = match xs with [] => kept | _ :: _ => filter (fun x => 0 <= x) xs end)
    as Hnumbers.
  { intros [|x xs] kept; [reflexivity|]. cbn [map].
    rewrite truthy_concat by apply pretty_nonempty.
    exact (parse_int_list_numerals (x :: xs)). }
  assert (forall hs kept,
             Forall (fun h => all_chars hostname_char h = true) hs ->
             match (if Py.truthy (String.concat ", "
                                    (map (fun h => fstring [Lit dq; Fmt h; Lit dq]) hs))
                    then Some (String.concat ", "
                                 (map (fun h => fstring [Lit dq; Fmt h; Lit dq]) hs))
                    else None) with
             | Some g => parse_hostnames g
             | None => kept
             end = match hs with [] => kept | _ :: _ => hs end) as Hnames.
  { intros [|h hs] kept Hclean; [reflexivity|]. cbn [map].
    rewrite truthy_concat by (rewrite quoted_text; discriminate).
    exact (parse_hostnames_quoted h hs Hclean). }
  rewrite !Hcount, !Hnumbers, !Hnames by assumption. reflexivity.
Qed.

End WrittenVariables.
(** ** Writing a plan and reading it back *)

Lemma load_clean_variables (generated : string) (oci_config : OciConfig)
    (instance_config old : InstanceConfig) :
  clean_text generated oci_config instance_config ->
  load_existing_config (Some (variables_content generated oci_config instance_config)) old
  = (true, reloaded old instance_config).
Proof.
  intros (Hgenerated & Hoci & Hamd & Harm).
  repeat match goal with
         | H : Forall _ (_ :: _) |- _ =>
             let Hhead := fresh "Hhead" in
             pose proof (List.Forall_inv H) as Hhead; apply List.Forall_inv_tail in H
         end.
  apply load_written_variables; assumption.
Qed.

Lemma filter_all (xs : list Z) :
  Forall (fun x => 0 <= x) xs -> filter (fun x => 0 <= x) xs = xs.
Proof.
  induction 1 as [|x xs Hx _ IH]; [reflexivity|].
  rewrite filter_cons. destruct (decide (0 <= x)); [|contradiction]. now rewrite IH.
Qed.





Example lossy_plan_reloaded :
  reloaded plan_in_memory lossy_plan
  = {| amd_micro_instance_count := 0; amd_micro_boot_volume_size_gb := 50;
       arm_flex_instance_count := 2; arm_flex_ocpus_per_instance := [3; 0];
       arm_flex_memory_per_instance := [8; 8]; arm_flex_boot_volume_size_gb := [];
       arm_flex_block_volumes := [1];
       amd_micro_hostnames := ["old"];
       arm_flex_hostnames := ["arm instance 1"; ""; "x"] |}.
Proof. reflexivity. Qed.
(** ** Queries of [safe_jq] *)

Lemma contains_char_absent (c : ascii) (s : string) :
  all_chars (not_char c) s = true -> Py.contains (String c "") s = false.
Proof.
  induction s as [|x s IH]; [reflexivity|]. cbn [all_chars]. intros H.
  apply andb_true_iff in H as (Hx & Hs). cbn [Py.contains Py.strip_prefix].
  rewrite (not_char_eqb _ _ Hx). exact (IH Hs).
Qed.

Lemma contains_char_present (c : ascii) (a rest : string) :
  Py.contains (String c "") (a +:+ String c rest) = true.
Proof.
  induction a as [|x a IH].
  - change ("" +:+ String c rest) with (String c rest).
    cbn [Py.contains Py.strip_prefix]. rewrite Ascii.eqb_refl. reflexivity.
  - rewrite string_app_cons. cbn [Py.contains Py.strip_prefix].
    destruct (Ascii.eqb c x); [reflexivity|exact IH].
Qed.

(** [sep.join(items).split(sep)] gives the items back. *)
Lemma split_join (sep : ascii) (x : string) (items : list string) :
  Forall (fun item => all_chars (not_char sep) item = true) (x :: items) ->
  Py.split sep (String.concat (String sep "") (x :: items)) = x :: items.
Proof.
  revert x. induction items as [|y items IH]; intros x Hitems.
  - apply split_item_last. exact (List.Forall_inv Hitems).
  - rewrite concat_cons_cons.
    change (String sep "" +:+ String.concat (String sep "") (y :: items))
      with (String sep (String.concat (String sep "") (y :: items))).
    rewrite split_item_more by exact (List.Forall_inv Hitems).
    rewrite (IH y (List.Forall_inv_tail Hitems)). reflexivity.
Qed.

Lemma rstrip_by_clean (p : ascii -> bool) (s : string) :
  all_chars (fun c => negb (p c)) s = true -> Py.rstrip_by p s = s.
Proof.
  intros Hs. destruct (last_char s) as [c|] eqn:Hlast.
  - apply (rstrip_by_keep _ _ _ Hlast).
    apply negb_true_iff. exact (all_chars_last _ _ _ Hs Hlast).
  - apply last_char_none in Hlast as ->. reflexivity.
Qed.

Lemma plain_key_parts (key : string) :
  plain_key key = true ->
  Py.truthy key = true /\ all_chars (not_char ".") key = true /\
  all_chars (not_char "[") key = true.
Proof.
  unfold plain_key. intros H. apply andb_true_iff in H as (Htruthy & Hchars).
  split; [exact Htruthy|].
  split; (apply (all_chars_impl (fun c => negb (has_char c ".["))); [|exact Hchars]);
    intros c Hc; apply negb_true_iff in Hc; cbn [has_char] in Hc;
    apply orb_false_iff in Hc as (Hdot & Hc); apply orb_false_iff in Hc as (Hbracket & _);
    unfold not_char.
  - rewrite Hdot. reflexivity.
  - rewrite Hbracket. reflexivity.
Qed.

Section SafeJqFacts.

Variable loads : string -> option Json.
Variable int_of : string -> option Z.

Lemma jq_step_key (result : Json) (key : string) :
  plain_key key = true ->
  jq_step int_of result key
  = match result with
    | JObject entries =>
        Walked (match lookup_entry key entries with Some v => v | None => JNull end)
    | _ => Defaulted
    end.
Proof.
  intros Hkey. apply plain_key_parts in Hkey as (Htruthy & _ & Hbracket).
  unfold jq_step. rewrite Htruthy. cbn [negb].
  rewrite (contains_char_absent _ _ Hbracket). reflexivity.
Qed.

Lemma jq_walk_keys (keys : list string) :
  Forall (fun key => plain_key key = true) keys ->
  forall data,
    jq_walk int_of keys data
    = match follow data keys with Some v => Walked v | None => Defaulted end.
Proof.
  induction 1 as [|key keys Hkey _ IH]; intros data; [reflexivity|].
  cbn [jq_walk follow]. rewrite (jq_step_key _ _ Hkey).
  destruct data; try reflexivity. apply IH.
Qed.

Lemma safe_jq_usable (text query : string) (default : Json) :
  usable text = true ->
  safe_jq loads int_of (Some text) query default
  = match loads text with
    | None => default
    | Some data =>
        let query :=
          match query with
          | String c rest => if Ascii.eqb c "." then rest else query
          | EmptyString => query
          end in
        let found :=
          match query with
          | String c _ =>
              if Ascii.eqb c "[" then
                match int_of (Py.strip_by (fun c => has_char c "[]") query) with
                | None => Failed
                | Some index => index_into data index
                end
              else jq_walk int_of (Py.split "." query) data
          | EmptyString => jq_walk int_of (Py.split "." query) data
          end in
        match found with
        | Walked result => if is_null_result result then default else result
        | Defaulted => default
        | Failed => default
        end
    end.
Proof.
  unfold usable, safe_jq. intros H. apply negb_true_iff in H. rewrite H. reflexivity.
Qed.

End SafeJqFacts.
Lemma concat_keys_head (keys : list string) :
  Forall (fun key => plain_key key = true) keys ->
  match String.concat "." keys with
  | EmptyString => keys = []
  | String c rest =>
      Ascii.eqb c "." = false /\ Ascii.eqb c "[" = false /\
      Py.split "." (String c rest) = keys
  end.
Proof.
  intros Hkeys. destruct keys as [|key keys]; [reflexivity|].
  assert (Forall (fun item => all_chars (not_char ".") item = true) (key :: keys)) as Hdots.
  { apply List.Forall_forall. intros item Hin. rewrite List.Forall_forall in Hkeys.
    exact (proj1 (proj2 (plain_key_parts _ (Hkeys item Hin)))). }
  pose proof (split_join "." key keys Hdots) as Hsplit.
  change (String "." "") with "." in Hsplit.
  apply List.Forall_inv, plain_key_parts in Hkeys as (Htruthy & Hdot & Hbracket).
  destruct key as [|c key]; [discriminate Htruthy|].
  cbn [all_chars] in Hdot, Hbracket.
  apply andb_true_iff in Hdot as (Hdot & _). apply andb_true_iff in Hbracket as (Hbracket & _).
  unfold not_char in Hdot, Hbracket. apply negb_true_iff in Hdot, Hbracket.
  assert (exists rest, String.concat "." (String c key :: keys) = String c rest) as (rest & Hq).
  { destruct keys as [|y keys]; [exists key; reflexivity|].
    rewrite concat_cons_cons, string_app_cons. eauto. }
  rewrite Hq in *. auto.
Qed.

(** X19.  A query of plain keys joined by dots makes [safe_jq] follow
    the keys through the nested objects of the parsed document: the
    answer is the value found there, and the default when a key is
    missing, when a value on the way is not an object, or when the value
    found is [None] or the text "null".  A dot in front of the query
    changes nothing, and the empty query answers with the whole
    document. *)
Theorem safe_jq_follows_keys (loads : string -> option Json)
    (int_of : string -> option Z) (text : string) (data : Json)
    (keys : list string) (default : Json) :
  usable text = true -> loads text = Some data ->
  Forall (fun key => plain_key key = true) keys ->
  safe_jq loads int_of (Some text) (String.concat "." keys) default
  = match follow data keys with
    | Some v => if is_null_result v then default else v
    | None => default
    end /\
  safe_jq loads int_of (Some text) ("." +:+ String.concat "." keys) default
  = safe_jq loads int_of (Some text) (String.concat "." keys) default.
Proof.
  intros Husable Hloads Hkeys.
  pose proof (concat_keys_head keys Hkeys) as Hhead.
  pose proof (jq_walk_keys int_of keys Hkeys data) as Hwalk.
  rewrite !(safe_jq_usable loads int_of _ _ _ Husable), Hloads. cbv zeta.
  change ("." +:+ String.concat "." keys) with (String "." (String.concat "." keys)).
  cbn [Ascii.eqb Bool.eqb].
  destruct (String.concat "." keys) as [|c rest].
  - subst keys. split; reflexivity.
  - destruct Hhead as (Hdot & Hbracket & Hsplit). rewrite Hdot, Hbracket, Hsplit, Hwalk.
    split; [|reflexivity]. destruct (follow data keys); reflexivity.
Qed.

Lemma safe_jq_follows_keys_witness :
  safe_jq loads_instances decimal_int (Some "{...}") (String.concat "." ["data"; "id"])
    (JString "none")
  = match follow (JObject [("data", JArray [JObject [("id", JString "ocid1.instance.a")];
                                            JObject [("id", JNull)]])]) ["data"; "id"] with
    | Some v => if is_null_result v then JString "none" else v
    | None => JString "none"
    end /\
  safe_jq loads_instances decimal_int (Some "{...}")
    ("." +:+ String.concat "." ["data"; "id"]) (JString "none")
  = safe_jq loads_instances decimal_int (Some "{...}") (String.concat "." ["data"; "id"])
      (JString "none").
Proof.
  apply (safe_jq_follows_keys loads_instances decimal_int "{...}").
  - reflexivity.
  - reflexivity.
  - repeat constructor.
Defined.

(** X20.  An index of a query counts from the front only.  For a query
    [key\[i\]] on a document whose [key] holds a list, [safe_jq] answers
    with item [i] of the list when [0 <= i < len], and with the default
    for every other [i]: a negative index never counts from the end, and
    an index at or past the end raises nothing.  An item that is [None]
    or the text "null" is answered by the default as well. *)
Theorem safe_jq_index_bounds (loads : string -> option Json)
    (int_of : string -> option Z) (text key index_text : string)
    (entries : list (string * Json)) (items : list Json) (index : Z) (default : Json) :
  usable text = true -> loads text = Some (JObject entries) ->
  plain_key key = true -> lookup_entry key entries = Some (JArray items) ->
  all_chars (fun c => negb (has_char c ".[]")) index_text = true ->
  int_of index_text = Some index ->
  safe_jq loads int_of (Some text) (key +:+ "[" +:+ index_text +:+ "]") default
  = if (0 <=? index) && (index <? Z.of_nat (length items))
    then if is_null_result (nth (Z.to_nat index) items JNull) then default
         else nth (Z.to_nat index) items JNull
    else default.
Proof.
  intros Husable Hloads Hkey Hentry Hindex Hint.
  apply plain_key_parts in Hkey as (Htruthy & Hdot & Hbracket).
  assert (all_chars (not_char ".") index_text = true /\
          all_chars (fun c => negb (Ascii.eqb "]" c)) index_text = true)
    as (Hindex_dot & Hindex_close).
  { split; (apply (all_chars_impl (fun c => negb (has_char c ".[]"))); [|exact Hindex]);
      intros c Hc; apply negb_true_iff in Hc; cbn [has_char] in Hc;
      apply orb_false_iff in Hc as (H1 & Hc); apply orb_false_iff in Hc as (_ & Hc);
      apply orb_false_iff in Hc as (H3 & _).
    - unfold not_char. rewrite H1. reflexivity.
    - rewrite Ascii.eqb_sym, H3. reflexivity. }
  change (key +:+ "[" +:+ index_text +:+ "]")
    with (key +:+ String "[" (index_text +:+ String "]" "")).
  set (query := key +:+ String "[" (index_text +:+ String "]" "")).
  assert (exists c rest, query = String c rest /\ Ascii.eqb c "." = false /\
                         Ascii.eqb c "[" = false) as (c & rest & Hquery & Hc_dot & Hc_bracket).
  { unfold query. destruct key as [|c key]; [discriminate Htruthy|].
    cbn [all_chars] in Hdot, Hbracket.
    apply andb_true_iff in Hdot as (Hc1 & _). apply andb_true_iff in Hbracket as (Hc2 & _).
    unfold not_char in Hc1, Hc2. apply negb_true_iff in Hc1, Hc2.
    rewrite string_app_cons. eauto. }
  assert (Py.split "." query = [query]) as Hsplit.
  { apply split_item_last. unfold query. rewrite all_chars_app, Hdot. cbn [all_chars].
    rewrite all_chars_app, Hindex_dot. reflexivity. }
  assert (jq_step int_of (JObject entries) query = index_into (JArray items) index) as Hstep.
  { unfold jq_step.
    assert (Py.truthy query = true) as -> by (rewrite Hquery; reflexivity).
    cbn [negb]. unfold query at 1. rewrite contains_char_present.
    unfold split_once, query. rewrite (span_app _ _ _ Hbracket) by reflexivity.
    rewrite rstrip_by_drop by reflexivity. rewrite (rstrip_by_clean _ _ Hindex_close).
    rewrite Hint, Htruthy. cbn [getitem]. rewrite Hentry. reflexivity. }
  rewrite (safe_jq_usable loads int_of _ _ _ Husable), Hloads. cbv zeta.
  rewrite Hquery, Hc_dot, Hc_bracket, <- Hquery, Hsplit.
  cbn [jq_walk]. rewrite Hstep. unfold index_into.
  destruct ((0 <=? index) && (index <? Z.of_nat (length items))); reflexivity.
Qed.

Lemma safe_jq_index_bounds_witness :
  safe_jq loads_instances decimal_int (Some "{...}") ("data" +:+ "[" +:+ "-1" +:+ "]")
    (JString "none")
  = if (0 <=? -1) && (-1 <? Z.of_nat (length [JObject [("id", JString "ocid1.instance.a")];
                                                JObject [("id", JNull)]]))
    then if is_null_result
              (nth (Z.to_nat (-1)) [JObject [("id", JString "ocid1.instance.a")];
                                    JObject [("id", JNull)]] JNull)
         then JString "none"
         else nth (Z.to_nat (-1)) [JObject [("id", JString "ocid1.instance.a")];
                                   JObject [("id", JNull)]] JNull
    else JString "none".
Proof.
  apply (safe_jq_index_bounds loads_instances decimal_int "{...}" "data" "-1"
           [("data", JArray [JObject [("id", JString "ocid1.instance.a")];
                             JObject [("id", JNull)]])]).
  - reflexivity.
  - reflexivity.
  - reflexivity.
  - reflexivity.
  - reflexivity.
  - reflexivity.
Defined.

(** ** The parallel arrays of the four planner strategies *)

(** The ARM arrays of a plan whose invariant holds with no instance. *)
Lemma arm_arrays_empty (plan : InstanceConfig) :
  arm_arrays_parallel plan ->
  arm_flex_instance_count plan = 0 ->
  arm_flex_ocpus_per_instance plan = [] /\
  arm_flex_memory_per_instance plan = [] /\
  arm_flex_boot_volume_size_gb plan = [] /\
  arm_flex_hostnames plan = [].
Proof.
  intros (Ho & Hm & Hb & Hh) Hcount. rewrite Hcount in Ho, Hm, Hb, Hh.
  repeat split; apply length_zero_iff_nil; lia.
Qed.

(** What [load_existing_config] keeps of a written list of numbers. *)
Lemma reloaded_numbers (xs kept : list Z) :
  xs <> [] -> Forall (fun x => 0 <= x) xs ->
  match xs with [] => kept | _ :: _ => filter (fun x => 0 <= x) xs end = xs.
Proof.
  intros Hxs Hnonneg. destruct xs as [|x xs]; [contradiction|].
  apply filter_all, Hnonneg.
Qed.

Lemma nonempty_of_length {A} (xs : list A) (n : Z) :
  Z.of_nat (length xs) = n -> 1 <= n -> xs <> [].
Proof. intros Hlen Hn ->. cbn in Hlen. lia. Qed.



